(* ===== verification/_CoqProject ===== *)
-Q . S2P
Prelude.v
Simulation.v
Errors.v
Store.v
Sequences.v
Core.v
Diff.v
Routes.v
RouteTable.v
Policy.v
PolicyTable.v
Svid.v
Keystore.v
Retry.v
Secrets.v
Locks.v
Client.v
Watch.v
Ipv4.v
IpAllocator.v
LeaseTable.v
Degraded.v
NetGuard.v
Counters.v
Tasks.v
FlowEvents.v
Pods.v
Probes.v
Executors.v
Volumes.v
Netns.v
Containerd.v
MicroVm.v
Attest.v
PodEvents.v
AgentTasks.v
VsockServer.v
Workloads.v
Addresses.v
Wiring.v
WatchLoops.v
Config.v
Assembly.v
Node.v
NodeInvariants.v
NodeConverge.v
NodeAddresses.v
NodeAttest.v
NodeGuests.v
Join.v
Startup.v
Loader.v
Shutdown.v
Main.v
