(* ===== verification/Prelude.v ===== *)
(** * fleetos-agent: a verification development

    The agent is the node daemon of FleetOS (src/src).  It joins a control plane,
    keeps the node's identity, watches four streams of desired state (policy,
    schedule, routes, events) and makes the node follow them: kernel maps, pods in
    containerd or Cloud Hypervisor, secrets on disk.  Guests attest themselves to
    it over vsock, and it reports status, counters, events and flows.

    ** How the code is modelled

    Definitions are executable and follow the code function by function, with its
    names.  A fallible function returns [result E A]; a function that changes
    state is a computation [M E S A] over the state it can reach, which it leaves
    changed on the error path too, as the code does ([?] after a write is a bind
    after the write).  Machine integers are [Z] with their wrap-around written out
    ([u32_add], [u64_mul], ...), bytes are [list byte], HashMaps and HashSets are
    [gmap] and [gset]; their iteration order is the class [HashOrder], which
    only promises an enumeration.  Locks that are held for one operation make
    this operation one step; where interleaving matters it is explicit: [Locks.v]
    is a step relation, [Tasks.v] a select loop with the steps of the other tasks,
    [PodEvents.v] cuts recording and flushing at the reporter's lock sections,
    [VsockServer.v] interleaves handshakes, [Node.v] the tasks of the running node
    cut at their awaits, and [Shutdown.v] all spawned tasks with [main] itself.

    What is not in src/ is a class or an argument: fleetos-core ([FleetCore],
    [PolicyCompiler], [VsockMsg]), aya ([KernelMap], [Aya], [BpfObject]), fjall
    ([Keyspace], [Fjall]), the file system, [ip], the sockets and the probed
    host ([FileSystem], [Directories], [Directory], [Shell], [Sockets],
    [ProbeHost]), containerd and Cloud Hypervisor
    ([ContainerdServices], [VmmClient]), the TPM and the ciphers ([Sealing],
    [TpmManager]), the gRPC stubs ([ControlClient], [JoinServices]), serde_json,
    postcard, BLAKE3 and rcgen.  Laws ([KernelMapLaws], [SealingLaws], ...) state
    what a theorem relies on, and every theorem with hypotheses has a witness at
    a concrete instance that satisfies them.  The TPM unseals what it sealed only
    while PCRs 0, 7 and 9 are as they were ([SealingLaws], [same_pcrs]), and no
    operation of the agent extends one ([AttestationLaws]).

    ** Files

    Shared: [Prelude] (the monads, [keeps] and its hints, integers, bytes,
    iteration), [Simulation] (runs of a machine, refinement of one by another),
    [Errors] (error.rs), [Store] (storage.rs), [Core] (the interfaces to
    fleetos-core and the kernel maps), [Diff] (tracked keys beside a map),
    [Locks], [Tasks], [Ipv4].

    Identity and control plane: [Sequences] (identity/sequences.rs), [Svid]
    (svid.rs), [Keystore] (keystore.rs), [Degraded] (degraded.rs), [Retry]
    (client/retry.rs, unary.rs), [Client] (client/mod.rs, channels.rs), [Watch]
    (client/watch.rs), [Secrets] (secret/, wiring.rs), [Config] (config.rs),
    [Join] (join/), [Startup] (main.rs, phases 1 to 5).

    Kernel: [Routes] and [RouteTable] (routes/), [Policy] and [PolicyTable]
    (policy/sync.rs, wiring.rs), [NetGuard] (ebpf/programs.rs, net_guard_adapter.rs, maps.rs),
    [Counters] (ebpf/counters.rs), [FlowEvents] (ebpf/events.rs,
    observability/flow_events.rs), [Loader] (ebpf/loader.rs, maps.rs, mod.rs and
    the eBPF phases of main.rs).

    Workloads: [IpAllocator] and [LeaseTable] ([NodeIpAllocator]), [Pods]
    (pod_manager.rs, lifecycle.rs, reconciler.rs, status.rs), [Probes] (probes/mod.rs,
    probe_manager.rs, probe_loop.rs), [Executors] (probes/exec.rs, http.rs, tcp.rs),
    [Volumes] (volumes/, image.rs, env.rs),
    [Netns] (netns.rs), [Containerd] (containerd.rs), [MicroVm] (microvm.rs),
    [Attest] and [VsockServer] (vsock_attest/), [PodEvents]
    (observability/pod_events.rs), [Workloads] and [Addresses] (workloads/mod.rs).

    Tasks: [AgentTasks] (the five timer loops), [Wiring] (one frame of each watch)
    and [WatchLoops] (the four watch tasks).

    The whole agent: [Assembly] is the workload manager as main.rs builds it (phases
    6b to 8.2); [Node] the shared state and the steps of the tasks that work on
    it, [NodeInvariants], [NodeConverge], [NodeAddresses], [NodeAttest] and [NodeGuests] what holds of it in every interleaving; [Shutdown] the
    spawned tasks as jobs and the end of main (phases 13 and 14); [Main] all phases up
    to the signal in their order.

    ** How the parts meet

    [Workloads] runs the allocator, the guard, the registry, the adapters, the
    probes and the registrar as components of one state ([WorkloadManager],
    reached with [zoom]); the traits of the code ([NetGuard], [SrcIdentityRegistry],
    [AttestationRegistrar]) are classes, implemented by [NetGuard], [Routes] and
    [Attest].  [WatchLoops] consumes the machine of [Watch] and reaches the manager
    through [FrameReconciler] (Pods.v), which Workloads.v implements.  [Join] and
    [Startup] run [Keystore], [Svid] and [Client] over one store.  [AgentTasks]
    instantiates [Tasks] with the steps of [Pods], [Counters], [Degraded],
    [PodEvents] and [Probes].

    [Node] puts the tasks over one state: the manager with the pods, the probe
    runners and the delegated keys, the sync states and kernel maps, the reporter.
    A step is what a task does between two awaits under its locks; the schedule
    task keeps what is left of its evictions and boots in [todo], the probe loop
    the results it has still to process in [probing], the delegation loop the keys
    it has still to ask for in [refreshing], and the steps of all tasks
    may come in any order.  Recording an event is part of the step that records
    it here; how recorders and flushes interleave is the subject of [PodEvents].  [NodeGuests] runs it beside the server of [VsockServer]: the
    node's registrar is the server with a log of what was registered, and the server's
    wakes interleave the operations of this log with connections and handshakes.  [Main] composes [Config], [Store], [Startup], [Loader] and
    [Assembly], spawns the tasks over the client of [Client], and its
    [started_node] is where runs of [Node] begin; [Shutdown] instantiates its jobs
    with the ticks of [AgentTasks], [FlowEvents] and [VsockServer] and the streams
    of [WatchLoops].

    ** What the theorems show

    - Replay, identity, secrets: accepted sequences increase
      ([accepted_increasing]); what is sealed unseals in every tier
      ([sealed_roundtrip]); a join installs a complete identity, fails clean and
      ends ([join_installs], [join_failure], [join_terminates]), and a restart
      needs no second one while the PCRs stay ([restart_reconnects]); delegated renewal is scoped
      ([renew_scoped], [svid_fail_closed]); what was flushed is reopened
      ([flush_reopen]).
    - Kernel state: an applied frame leaves exactly its keys
      ([sync_routes_kernel], [sync_policy_kernel]); both synchronisations
      refine an abstract table over every history ([routes_refine],
      [policy_refines]); every map
      has one owner ([startup_owns_maps]); arming fails closed ([arm_spec]).
    - Addresses: the allocator refines a table of slots ([allocator_refines]),
      leases are disjoint ([leases_disjoint]), and so are the addresses of pods over
      any history of boots and evictions ([addresses_disjoint]).
    - Pods: functional specifications of boot and eviction on every branch
      ([boot_pod_ok], [boot_failure_clean], [microvm_boot_guarded],
      [evict_pod_ok]); the reconciler's diff ([reconcile_spec]), and what a frame
      enforces alone and through the stream ([reconcile_enforces_frame],
      [schedule_watch_enforces], [routes_watch_current]) and from the start of the
      agent ([agent_follows_schedule]); the probe thresholds
      against a reference ([probe_thresholds]), restarts bounded
      ([probe_loop_bounded]).
    - Attestation: verification, the frames of a handshake, and the isolation
      of guests when handshakes interleave with launches and teardowns
      ([verify_spec], [handshake_frames], [guest_isolation]), also when it is the
      node's own schedule task that launches and tears down
      ([node_guests_isolated]).
    - The running node, in every interleaving of its tasks: the split schedule
      task is the sequential code ([schedule_atomic]) and ends
      ([schedule_progress]); pods follow the newest schedule
      ([node_follows_schedule]), and once the task is back at its await exactly the
      assigned workloads have pods but for the boots that failed and the pods
      that another's boot replaced ([node_converges]); exactly the active ones are probed
      ([probed_iff_active]), gates say what was applied since the boot
      ([gates_since_boot]), guests get only certificates that were granted for them
      ([guest_config_granted]), both kernel tables refine their specifications
      ([node_tables_refine]), pods never share an address as long as evictions
      complete ([node_addresses_disjoint]), and every active MicroVM pod has its
      measurement and its own context registered under a CID of its own
      ([vm_attested]).
    - The agent as a process: its phases happen in order and fail before they
      touch what comes later ([startup_order]), a start leads to all tasks over one
      channel ([agent_started]), and the shutdown waits for what never ends
      ([join_completes], [shutdown_never_completes]).
    - Loops: RPCs end ([unary_bounded]), watches hand on increasing versions
      ([watch_increasing], and every newer one: [newer_frames]), the client's locks make progress except against a
      redirect ([get_channel_progress], [retarget_deadlock]); every event
      recorded is in exactly one request, on its way or in the batch, in every
      interleaving of the tasks that record ([events_sent_once],
      [flush_task_shutdown]); flows are sent once ([flow_events_once]).

    Theorems about what the code gets wrong stay beside them: [sync_routes_wedged],
    [second_arm_fails], [disarm_closes_gate], [outage_drops_keys],
    [veth_leak_wedges], [failed_boot_wedges], [failed_eviction_stuck],
    [stuck_address_reused], [replicas_unnoticed], [unknown_runtime_evicts],
    [full_replacement_stuck], [failed_frame_lost], [zero_timeout_fails],
    [stale_result_starts_pod], [late_pod_gated], [idle_until_frame],
    [cid_wraps], [shared_pod_id_overwritten], [shutdown_never_completes].

    ** Fuel and bounds

    The RPC loop has [RPC_FUEL] steps, more than its own two counters allow
    ([unary_bounded] shows that it never runs out).  The loops of a join have no
    bound in the code: their fuel is an argument, running out is the outcome
    [OutOfFuel], and [join_terminates] gives a fuel that suffices, linear in the
    number of error answers.  [align_pair] needs four steps.  Watches and tasks
    are machines driven by the list of what happens to them, so they need no fuel.

    ** Not modelled

    Logging and the parsing of the arguments; [TerminationPlan], the map insertion
    helpers of ebpf/maps.rs and the constructor helpers nothing calls; the
    [SensitiveStore] trait, which has one implementation.  A panic (a poisoned lock,
    an [unwrap] on one, a timer of period zero) is not an outcome of the model, and
    integer overflow wraps, as in a release build.  That the runtime drops the
    tasks when [main] returns is the rule that no job steps then.  In [Shutdown]
    each job has its own copy of what it shares; the sharing is [Node]'s subject,
    and the shutdown depends on none of it. *)

From Stdlib Require Export ZArith Lia.
From Stdlib Require Export Init.Byte Strings.Byte.
From stdpp Require Export base tactics numbers option list fin_maps gmap strings pretty sorting.
#[global] Open Scope Z_scope.

(** ** Results and the state-and-error monad

    [result E A] is Rust's [Result<A, E>].  [M E S A] is a computation over a
    mutable state [S] that can return early with an error: as with the [?]
    operator, the writes made before the error stay. *)

Inductive result (E A : Type) : Type :=
| Ok (a : A)
| Err (e : E).
Arguments Ok {E A} a.
Arguments Err {E A} e.

#[export] Instance result_ret {E} : MRet (result E) := λ A a, Ok a.
#[export] Instance result_bind {E} : MBind (result E) := λ A B f m,
  match m with Ok a => f a | Err e => Err e end.
#[export] Instance result_fmap {E} : FMap (result E) := λ A B f m,
  match m with Ok a => Ok (f a) | Err e => Err e end.

#[export] Instance result_eq_dec {E A} {HE : EqDecision E} {HA : EqDecision A} :
  EqDecision (result E A).
Proof. intros [a|e] [b|f]; unfold Decision in *; try (right; congruence);
  [destruct (decide (a = b))|destruct (decide (e = f))]; (left + right); congruence. Defined.

(** [Result::map_err], [Result::ok], [Option::ok_or_else]. *)
Definition map_err {E F A} (f : E → F) (m : result E A) : result F A :=
  match m with Ok a => Ok a | Err e => Err (f e) end.
Definition result_ok {E A} (m : result E A) : option A :=
  match m with Ok a => Some a | Err _ => None end.
Definition ok_or {E A} (e : E) (o : option A) : result E A :=
  match o with Some a => Ok a | None => Err e end.
Definition is_ok {E A} (m : result E A) : bool :=
  match m with Ok _ => true | Err _ => false end.

Definition M (E S A : Type) : Type := S → result E A * S.

#[export] Instance M_ret {E S} : MRet (M E S) := λ A a s, (Ok a, s).
#[export] Instance M_bind {E S} : MBind (M E S) := λ A B f m s,
  match m s with
  | (Ok a, s') => f a s'
  | (Err e, s') => (Err e, s')
  end.

(** A pure fallible computation, a read and a write of the state. *)
Definition lift {E S A} (m : result E A) : M E S A := λ s, (m, s).
Definition get {E S} : M E S S := λ s, (Ok s, s).
Definition put {E S} (s : S) : M E S unit := λ _, (Ok tt, s).
Definition modify {E S} (f : S → S) : M E S unit := λ s, (Ok tt, f s).
Definition fail {E S A} (e : E) : M E S A := λ s, (Err e, s).

(** [let _ = c], and [match m { Err(e) => { let _ = cleanup; Err(e) } ok => ok }]. *)
Definition ignore {E S A} (c : M E S A) : M E S unit := λ s, (Ok tt, (c s).2).
Definition on_error {E S A B} (m : M E S A) (cleanup : M E S B) : M E S A := λ s,
  match m s with
  | (Ok a, s') => (Ok a, s')
  | (Err e, s') => (Err e, (cleanup s').2)
  end.

(** A computation on one half of a paired state. *)
Definition on_fst {E S T A} (c : M E S A) : M E (S * T) A :=
  λ '(s, t), let '(r, s') := c s in (r, (s', t)).
Definition on_snd {E S T A} (c : M E T A) : M E (S * T) A :=
  λ '(s, t), let '(r, t') := c t in (r, (s, t')).

(** A computation on one field of a state, and on an optional field: nothing
    happens where it is [None]. *)
Definition zoom {E S X A} (get : S → X) (set : X → S → S) (c : M E X A) : M E S A :=
  λ s, let '(r, x) := c (get s) in (r, set x s).
Definition zoom_opt {E S X} (get : S → option X) (set : option X → S → S) (c : M E X unit) : M E S unit :=
  λ s, match get s with
       | None => (Ok tt, s)
       | Some x => let '(r, x) := c x in (r, set (Some x) s)
       end.

Lemma on_error_ok {E S A B} (m : M E S A) (d : M E S B) s a s' :
  on_error m d s = (Ok a, s') ↔ m s = (Ok a, s').
Proof. unfold on_error. destruct (m s) as [[] ?]; naive_solver. Qed.
Lemma on_error_err {E S A B} (m : M E S A) (d : M E S B) s e s' :
  on_error m d s = (Err e, s') ↔ ∃ s1, m s = (Err e, s1) ∧ s' = (d s1).2.
Proof. unfold on_error. destruct (m s) as [[] ?]; naive_solver. Qed.
Lemma zoom_run {E S X A} (get : S → X) (set : X → S → S) (c : M E X A) s r s' :
  zoom get set c s = (r, s') ↔ ∃ x, c (get s) = (r, x) ∧ s' = set x s.
Proof. unfold zoom. destruct (c (get s)) as [? ?]; naive_solver. Qed.

(** [keeps f c]: [c] leaves the part [f] of the state as it is, also when it
    fails. *)
Definition keeps {E S A X} (f : S → X) (c : M E S A) : Prop := ∀ s, f (c s).2 = f s.

Section keeps.
Context {E S X : Type} (f : S → X).

Lemma keeps_ret {A} (a : A) : keeps f (mret a : M E S A).
Proof. done. Qed.
Lemma keeps_lift {A} (m : result E A) : keeps f (lift m).
Proof. done. Qed.
Lemma keeps_fail {A} (e : E) : keeps f (fail e : M E S A).
Proof. done. Qed.
Lemma keeps_get : keeps f (get (E := E)).
Proof. done. Qed.
Lemma keeps_modify (g : S → S) : (∀ s, f (g s) = f s) → keeps f (modify (E := E) g).
Proof. done. Qed.
Lemma keeps_bind {A B} (c : M E S A) (k : A → M E S B) :
  keeps f c → (∀ a, keeps f (k a)) → keeps f (c ≫= k).
Proof.
  intros Hc Hk s. unfold mbind, M_bind. specialize (Hc s). destruct (c s) as [[a|e] s']; [|done].
  by rewrite Hk.
Qed.
Lemma keeps_ignore {A} (c : M E S A) : keeps f c → keeps f (ignore c).
Proof. intros Hc s. apply Hc. Qed.
Lemma keeps_on_error {A B} (c : M E S A) (d : M E S B) : keeps f c → keeps f d → keeps f (on_error c d).
Proof.
  intros Hc Hd s. unfold on_error. specialize (Hc s). destruct (c s) as [[a|e] s']; [done|].
  simpl. by rewrite Hd.
Qed.
Lemma keeps_zoom {Y A} (get : S → Y) (set : Y → S → S) (c : M E Y A) :
  (∀ y s, f (set y s) = f s) → keeps f (zoom get set c).
Proof. intros Hs s. unfold zoom. destruct (c _). apply Hs. Qed.
Lemma keeps_zoom_opt {Y} (get : S → option Y) (set : option Y → S → S) (c : M E Y unit) :
  (∀ y s, f (set y s) = f s) → keeps f (zoom_opt get set c).
Proof. intros Hs s. unfold zoom_opt. destruct (get s); [|done]. destruct (c _). apply Hs. Qed.

Lemma keeps_run {A} (c : M E S A) s r s' : keeps f c → c s = (r, s') → f s' = f s.
Proof. intros Hc Hr. specialize (Hc s). by rewrite Hr in Hc. Qed.
(** A run of a bind whose first part keeps [f]. *)
Lemma bind_keeps {A B} (c : M E S A) (k : A → M E S B) s r s' :
  (c ≫= k) s = (r, s') → keeps f c →
  (∃ e, c s = (Err e, s') ∧ r = Err e ∧ f s' = f s) ∨ ∃ a s1, c s = (Ok a, s1) ∧ f s1 = f s ∧ k a s1 = (r, s').
Proof.
  unfold mbind, M_bind. intros Hrun Hc. specialize (Hc s). destruct (c s) as [[a|e] s1]; [right; eauto|left].
  injection Hrun as <- <-. eauto.
Qed.
End keeps.

(** [preserves P c]: [c] keeps the property [P] of the state, also when it
    fails. *)
Definition preserves {E S A} (P : S → Prop) (c : M E S A) : Prop := ∀ s, P s → P (c s).2.

Section preserves.
Context {E S : Type} (P : S → Prop).

Lemma preserves_keeps {X A} (f : S → X) (Q : X → Prop) (c : M E S A) : keeps f c → preserves (λ s, Q (f s)) c.
Proof. intros Hc s. by rewrite (Hc s). Qed.
Lemma preserves_bind {A B} (c : M E S A) (k : A → M E S B) :
  preserves P c → (∀ a, preserves P (k a)) → preserves P (c ≫= k).
Proof.
  intros Hc Hk s Hs. unfold mbind, M_bind. specialize (Hc s Hs). destruct (c s) as [[a|e] s']; [by apply Hk|done].
Qed.
Lemma preserves_ignore {A} (c : M E S A) : preserves P c → preserves P (ignore c).
Proof. intros Hc s. apply Hc. Qed.
Lemma preserves_zoom_opt {X} (get : S → option X) (set : option X → S → S) (Q : option X → Prop) (c : M E X unit) :
  (∀ s, P s ↔ Q (get s)) → (∀ x s, get (set x s) = x) → preserves (λ x, Q (Some x)) c → preserves P (zoom_opt get set c).
Proof.
  intros HP Hset Hc s. unfold zoom_opt. destruct (get s) as [x|] eqn:Hx; [|done].
  rewrite !HP, Hx. intros Hq. specialize (Hc x Hq). destruct (c x) as [r x']. cbn [snd] in *. by rewrite Hset.
Qed.
End preserves.

(** Follow the structure of a computation. *)
Ltac keeps :=
  repeat match goal with
    | |- keeps _ (mret _) => apply keeps_ret
    | |- keeps _ (lift _) => apply keeps_lift
    | |- keeps _ (fail _) => apply keeps_fail
    | |- keeps _ get => apply keeps_get
    | |- keeps _ (modify _) => apply keeps_modify; solve [auto | reflexivity]
    | |- keeps _ (ignore _) => apply keeps_ignore
    | |- keeps _ (on_error _ _) => apply keeps_on_error
    | |- keeps _ (_ ≫= _) => apply keeps_bind; [|intros ?]
    | |- keeps _ (zoom _ _ _) => apply keeps_zoom; solve [auto | reflexivity]
    | |- keeps _ (zoom_opt _ _ _) => apply keeps_zoom_opt; solve [auto | reflexivity]
    | |- keeps _ (match ?x with _ => _ end) => destruct x
    | |- keeps _ _ => solve [auto]
    end.

Section monad_laws.
Context {E S A B : Type}.
Implicit Types (m : M E S A) (s : S).

Lemma M_bind_ok (m : M E S A) (f : A → M E S B) s b s' :
  (m ≫= f) s = (Ok b, s') ↔ ∃ a s1, m s = (Ok a, s1) ∧ f a s1 = (Ok b, s').
Proof.
  unfold mbind, M_bind. destruct (m s) as [[a|e] s1] eqn:Hm; split.
  - eauto.
  - intros (a' & s2 & [= <- <-] & H). done.
  - done.
  - intros (a' & s2 & [=] & _).
Qed.

Lemma M_bind_err (m : M E S A) (f : A → M E S B) s e s' :
  (m ≫= f) s = (Err e, s') ↔
    m s = (Err e, s') ∨ ∃ a s1, m s = (Ok a, s1) ∧ f a s1 = (Err e, s').
Proof.
  unfold mbind, M_bind. destruct (m s) as [[a|e'] s1] eqn:Hm; naive_solver.
Qed.

Lemma on_fst_ok {T} (c : M E S A) s (t : T) a s' t' :
  on_fst c (s, t) = (Ok a, (s', t')) ↔ c s = (Ok a, s') ∧ t' = t.
Proof. simpl. destruct (c s) as [r s1]. naive_solver. Qed.
Lemma on_snd_ok {T} (c : M E S A) s (t : T) a s' t' :
  on_snd c (t, s) = (Ok a, (t', s')) ↔ c s = (Ok a, s') ∧ t' = t.
Proof. simpl. destruct (c s) as [r s1]. naive_solver. Qed.
End monad_laws.

Lemma map_err_ok {E F A} (f : E → F) (m : result E A) a : map_err f m = Ok a ↔ m = Ok a.
Proof. destruct m; naive_solver. Qed.
Lemma lift_ok {E S A} (m : result E A) (s : S) a s' : lift m s = (Ok a, s') ↔ m = Ok a ∧ s' = s.
Proof. unfold lift. naive_solver. Qed.
Lemma ok_or_ok {E A} (e : E) (o : option A) a : ok_or e o = Ok a ↔ o = Some a.
Proof. destruct o; naive_solver. Qed.

Lemma result_bind_ok {E A B} (m : result E A) (f : A → result E B) b :
  (m ≫= f) = Ok b ↔ ∃ a, m = Ok a ∧ f a = Ok b.
Proof. destruct m; simpl; split; naive_solver. Qed.

(** Early return on an error in code that threads its state by hand: the error
    is returned with the state reached so far. *)
Declare Scope agent_scope.
Delimit Scope agent_scope with agent.
#[global] Open Scope agent_scope.
Notation "'let?' x ':=' m 'with' s 'in' k" :=
  (match m with Ok x => k | Err e => (Err e, s) end)
  (at level 10, x binder, m at level 100, s at level 100, k at level 200) : agent_scope.

(** ** Machine integers

    A [u8], [u32] or [u64] is an integer in its range.  Unchecked [+] and [*]
    wrap, as they do in the release profile the repository builds (Cargo.toml
    sets no [overflow-checks]). *)

Definition u32_max : Z := 2 ^ 32 - 1.
Definition u64_max : Z := 2 ^ 64 - 1.
Definition is_u8 (z : Z) : Prop := 0 ≤ z < 2 ^ 8.
Definition is_u16 (z : Z) : Prop := 0 ≤ z < 2 ^ 16.
Definition is_u32 (z : Z) : Prop := 0 ≤ z < 2 ^ 32.
Definition is_u64 (z : Z) : Prop := 0 ≤ z < 2 ^ 64.

Definition u32_add (a b : Z) : Z := (a + b) mod 2 ^ 32.
Definition u64_add (a b : Z) : Z := (a + b) mod 2 ^ 64.
Definition u64_mul (a b : Z) : Z := (a * b) mod 2 ^ 64.
Definition u64_wrapping_sub (a b : Z) : Z := (a - b) mod 2 ^ 64.
Definition u64_saturating_add (a b : Z) : Z := Z.min (a + b) u64_max.
Definition u64_saturating_sub (a b : Z) : Z := Z.max 0 (a - b).

#[export] Instance is_u32_dec z : Decision (is_u32 z).
Proof. unfold is_u32. apply _. Defined.
#[export] Instance is_u64_dec z : Decision (is_u64 z).
Proof. unfold is_u64. apply _. Defined.

Lemma u32_add_small a b : is_u32 (a + b) → u32_add a b = a + b.
Proof. apply Z.mod_small. Qed.
Lemma u64_add_small a b : is_u64 (a + b) → u64_add a b = a + b.
Proof. apply Z.mod_small. Qed.

(** ** Bytes *)

Abbreviation byte := Byte.byte.
Abbreviation bytes := (list Byte.byte).

#[export] Instance byte_eq_dec : EqDecision byte := Byte.byte_eq_dec.
#[export] Program Instance byte_countable : Countable byte :=
  inj_countable Byte.to_N Byte.of_N _.
Next Obligation. intros b. apply Byte.of_to_N. Qed.

Definition byte_to_Z (b : byte) : Z := Z.of_N (Byte.to_N b).
Definition byte_of_Z (z : Z) : byte := default Byte.x00 (Byte.of_N (Z.to_N (z mod 256))).

Lemma byte_of_Z_of_byte b : byte_of_Z (byte_to_Z b) = b.
Proof.
  unfold byte_of_Z, byte_to_Z. pose proof (Byte.to_N_bounded b).
  rewrite Z.mod_small by lia. by rewrite N2Z.id, Byte.of_to_N.
Qed.

Lemma byte_to_Z_of_Z z : byte_to_Z (byte_of_Z z) = z mod 256.
Proof.
  unfold byte_of_Z, byte_to_Z. pose proof (Z.mod_pos_bound z 256 ltac:(lia)).
  destruct (Byte.of_N (Z.to_N (z mod 256))) as [b|] eqn:Hb; simpl.
  - apply Byte.to_of_N in Hb. rewrite Hb, Z2N.id; lia.
  - apply Byte.of_N_None_iff in Hb. lia.
Qed.

Lemma byte_to_Z_range b : 0 ≤ byte_to_Z b < 256.
Proof. unfold byte_to_Z. pose proof (Byte.to_N_bounded b). lia. Qed.

(** [uN::to_le_bytes] and [uN::from_le_bytes], [n] bytes wide. *)
Fixpoint le_bytes (n : nat) (z : Z) : bytes :=
  match n with
  | O => []
  | S n => byte_of_Z z :: le_bytes n (z / 256)
  end.

Fixpoint from_le_bytes (bs : bytes) : Z :=
  match bs with
  | [] => 0
  | b :: bs => byte_to_Z b + 256 * from_le_bytes bs
  end.

(** [u32::to_be_bytes]. *)
Definition be_bytes (n : nat) (z : Z) : bytes := reverse (le_bytes n z).

Lemma length_le_bytes n z : length (le_bytes n z) = n.
Proof. revert z; induction n; intros; simpl; auto. Qed.

Lemma from_le_bytes_le_bytes n z : from_le_bytes (le_bytes n z) = z mod 256 ^ Z.of_nat n.
Proof.
  revert z; induction n as [|n IH]; intros z; [by rewrite Z.mod_1_r|].
  cbn [le_bytes from_le_bytes]. rewrite IH, byte_to_Z_of_Z.
  rewrite Nat2Z.inj_succ, Z.pow_succ_r by lia.
  rewrite Z.rem_mul_r by (try apply Z.pow_nonzero; lia). lia.
Qed.

Lemma from_le_bytes_u64 z : is_u64 z → from_le_bytes (le_bytes 8 z) = z.
Proof. intros. rewrite from_le_bytes_le_bytes. by apply Z.mod_small. Qed.
Lemma from_le_bytes_u32 z : is_u32 z → from_le_bytes (le_bytes 4 z) = z.
Proof. intros. rewrite from_le_bytes_le_bytes. by apply Z.mod_small. Qed.

Lemma from_le_bytes_range bs : 0 ≤ from_le_bytes bs < 256 ^ Z.of_nat (length bs).
Proof.
  induction bs as [|b bs IH]; [simpl; lia|].
  cbn [from_le_bytes length]. rewrite Nat2Z.inj_succ, Z.pow_succ_r by lia.
  pose proof (byte_to_Z_range b). lia.
Qed.

Lemma le_bytes_inj n z1 z2 :
  0 ≤ z1 < 256 ^ Z.of_nat n → 0 ≤ z2 < 256 ^ Z.of_nat n →
  le_bytes n z1 = le_bytes n z2 → z1 = z2.
Proof.
  intros H1 H2 Heq%(f_equal from_le_bytes).
  rewrite !from_le_bytes_le_bytes, !Z.mod_small in Heq by lia. done.
Qed.

#[global] Arguments le_bytes : simpl never.
#[global] Arguments from_le_bytes : simpl never.

(** [str::trim], for the ASCII whitespace characters. *)
Definition is_ascii_space (c : Ascii.ascii) : bool :=
  let n := Ascii.nat_of_ascii c in bool_decide (n = 32 ∨ (9 ≤ n ≤ 13))%nat.
Fixpoint trim_front (s : string) : string :=
  match s with
  | String c s' => if is_ascii_space c then trim_front s' else s
  | EmptyString => s
  end.
Definition str_trim (s : string) : string := String.rev (trim_front (String.rev (trim_front s))).

(** The quotation mark, and [{:?}] of a string without escapes. *)
Definition quote : string := String (Ascii.ascii_of_nat 34) EmptyString.
Definition debug_str (s : string) : string := quote +:+ s +:+ quote.

(** [str::as_bytes]. *)
Definition as_bytes (s : string) : bytes := String.list_byte_of_string s.

Lemma as_bytes_inj s1 s2 : as_bytes s1 = as_bytes s2 → s1 = s2.
Proof.
  intros H%(f_equal String.string_of_list_byte). unfold as_bytes in H.
  by rewrite !String.string_of_list_byte_of_string in H.
Qed.

Lemma as_bytes_app s t : as_bytes (s +:+ t) = as_bytes s ++ as_bytes t.
Proof.
  induction s as [|c s IH]; [done|].
  change (Ascii.byte_of_ascii c :: as_bytes (s +:+ t) = Ascii.byte_of_ascii c :: as_bytes s ++ as_bytes t).
  by rewrite IH.
Qed.

(** ** Lists *)

Lemma filter_fmap_comm {A B} (f : A → B) (P : B → Prop) `{∀ b, Decision (P b)} (l : list A) :
  filter P (f <$> l) = f <$> filter (λ a, P (f a)) l.
Proof.
  induction l as [|a l IH]; [done|]. rewrite fmap_cons, !filter_cons, IH.
  by destruct (decide (P (f a))).
Qed.

(** ** Hash iteration order

    Rust's [HashSet] and [HashMap] iterate in an order their documentation
    leaves open.  Code whose result can depend on it takes the order as an
    instance of this class; [elements_order] is one such order. *)

Class HashOrder (K : Type) `{Countable K} := {
  iter_set : gset K → list K;
  iter_set_perm s : iter_set s ≡ₚ elements s;
}.

#[export] Instance elements_order K `{Countable K} : HashOrder K :=
  {| iter_set := elements; iter_set_perm s := reflexivity _ |}.

Section hash_order.
Context {K : Type} `{HashOrder K}.
Implicit Types (s : gset K) (x : K).

Lemma elem_of_iter_set s x : x ∈ iter_set s ↔ x ∈ s.
Proof. rewrite iter_set_perm. apply elem_of_elements. Qed.
Lemma NoDup_iter_set s : NoDup (iter_set s).
Proof. rewrite iter_set_perm. apply NoDup_elements. Qed.
Lemma iter_set_empty : iter_set ∅ = [].
Proof. apply Permutation_nil_r. by rewrite iter_set_perm, elements_empty. Qed.

(** [HashMap::iter]: the entries, keys in iteration order. *)
Definition iter_map {V} (m : gmap K V) : list (K * V) :=
  omap (λ k, (λ v, (k, v)) <$> m !! k) (iter_set (dom m)).
(** [HashMap::values]. *)
Definition iter_values {V} (m : gmap K V) : list V := (iter_map m).*2.

Lemma elem_of_iter_map {V} (m : gmap K V) k v : (k, v) ∈ iter_map m ↔ m !! k = Some v.
Proof.
  unfold iter_map. rewrite list_elem_of_omap. split.
  - intros (k' & _ & (v' & Hm & [= <- <-])%fmap_Some). done.
  - intros Hm. exists k. rewrite elem_of_iter_set, elem_of_dom, Hm. by split.
Qed.
Lemma elem_of_iter_values {V} (m : gmap K V) v : v ∈ iter_values m ↔ ∃ k, m !! k = Some v.
Proof.
  unfold iter_values. rewrite list_elem_of_fmap. split.
  - intros ([k v'] & -> & Hkv%elem_of_iter_map). eauto.
  - intros [k Hm%elem_of_iter_map]. by exists (k, v).
Qed.
End hash_order.

(** ** Automation *)

Create HintDb agent.
#[export] Hint Resolve length_le_bytes from_le_bytes_u64 from_le_bytes_u32 : agent.

(** Case analysis on every [match] and [if] of the goal, closing the
    contradictory branches. *)
Ltac split_cases := repeat (case_match || case_decide); simplify_eq/=; try done.

(** Invert a run of the monad that returned [Ok]. *)
Ltac inv_run :=
  repeat match goal with
  | H : (mbind _ _) ?s = (Ok _, _) |- _ =>
      apply M_bind_ok in H; destruct H as (? & ? & ? & ?)
  | H : mbind _ ?m = Ok _ |- _ =>
      apply result_bind_ok in H; destruct H as (? & ? & ?)
  | H : mret _ _ = (Ok _, _) |- _ => unfold mret, M_ret in H; simplify_eq
  end.

(** Equality of finite sets by elements: membership is unfolded through the set
    operations and the propositional rest left to [intuition]; membership facts
    of the context are kept as they are. *)
Ltac set_by_elements :=
  apply set_eq; let x := fresh "x" in intros x;
  rewrite ?elem_of_union, ?elem_of_difference, ?elem_of_singleton, ?elem_of_empty,
    ?elem_of_union, ?elem_of_difference, ?elem_of_singleton, ?elem_of_empty;
  intuition (subst; auto).

(** Results whose evaluation gives [Ok] (and [Ok (Some _)]), for the witnesses:
    only a boolean is computed. *)
Lemma is_ok_inv {E A} (m : result E A) : is_ok m = true → ∃ a, m = Ok a.
Proof. destruct m; [eauto|done]. Qed.
Definition is_ok_some {E A} (m : result E (option A)) : bool :=
  match m with Ok (Some _) => true | _ => false end.
Lemma is_ok_some_inv {E A} (m : result E (option A)) : is_ok_some m = true → ∃ a, m = Ok (Some a).
Proof. destruct m as [[a|]|]; [eauto|done..]. Qed.

(** A run is its outcome paired with its final state. *)
Lemma run_outcome {A B C} (r : A * (B * C)) a : r.1 = a → r = (a, (r.2.1, r.2.2)).
Proof. destruct r as [? [??]]. by intros <-. Qed.
Lemma run_result {A B} (r : A * B) a : r.1 = a → r = (a, r.2).
Proof. destruct r. by intros <-. Qed.
Definition from_ok {E A} (d : A) (m : result E A) : A :=
  match m with Ok a => a | Err _ => d end.
Lemma run_ok {E A S} (r : result E A * S) d : is_ok r.1 = true → r = (Ok (from_ok d r.1), r.2).
Proof. by destruct r as [[]]. Qed.
