(* ===== verification/Simulation.v ===== *)
(** Refinement of one deterministic machine by another: the runs of a detailed
    machine answer every sequence of operations as those of an abstract one do,
    when a relation between their states is kept by every step. *)
From S2P Require Import Prelude.

Section run.
Context {S Op Out : Type}.

(** The answers to a sequence of operations, and the state they leave. *)
Fixpoint run (step : S → Op → Out * S) (s : S) (ops : list Op) : list Out * S :=
  match ops with
  | [] => ([], s)
  | o :: ops =>
      let '(out, s) := step s o in
      let '(outs, s) := run step s ops in (out :: outs, s)
  end.

Lemma run_cons step s o ops :
  run step s (o :: ops) =
    ((step s o).1 :: (run step (step s o).2 ops).1, (run step (step s o).2 ops).2).
Proof. simpl. destruct (step s o) as [out s1]. simpl. by destruct (run step s1 ops). Qed.

Lemma run_app step s ops ops' :
  run step s (ops ++ ops') =
    ((run step s ops).1 ++ (run step (run step s ops).2 ops').1, (run step (run step s ops).2 ops').2).
Proof.
  revert s. induction ops as [|o ops IH]; intros s; cbn [app].
  - simpl. by destruct (run step s ops').
  - rewrite !run_cons, IH. done.
Qed.

Lemma length_run step s ops : length (run step s ops).1 = length ops.
Proof. revert s. induction ops as [|o ops IH]; intros s; [done|]. rewrite run_cons. simpl. by rewrite IH. Qed.

(** An invariant of the steps holds along the run. *)
Lemma run_invariant (I : S → Prop) (P : Op → Prop) step s ops :
  (∀ s o, P o → I s → I (step s o).2) → Forall P ops → I s → I (run step s ops).2.
Proof.
  intros Hstep Hops. revert s. induction Hops as [|o ops Ho _ IH]; intros s Hs; [done|].
  rewrite run_cons. simpl. auto.
Qed.
End run.

Section simulation.
Context {S T Op Out : Type} (step : S → Op → Out * S) (spec : T → Op → Out * T).
Context (P : Op → Prop) (R : S → T → Prop).

(** Related states answer an admissible operation alike and stay related. *)
Definition simulates : Prop :=
  ∀ s t o, P o → R s t → (step s o).1 = (spec t o).1 ∧ R (step s o).2 (spec t o).2.

Lemma simulation s t ops :
  simulates → Forall P ops → R s t →
  (run step s ops).1 = (run spec t ops).1 ∧ R (run step s ops).2 (run spec t ops).2.
Proof.
  intros Hsim Hops. revert s t. induction Hops as [|o ops Ho _ IH]; intros s t HR; [done|].
  rewrite !run_cons. destruct (Hsim s t o Ho HR) as [-> HR'].
  destruct (IH _ _ HR') as [-> ?]. done.
Qed.
End simulation.
