(* ===== verification/Errors.v ===== *)
(** Error type of the agent (src/error.rs).  A payload that wraps a library's
    error value is the text of that error. *)
From S2P Require Import Prelude.

Inductive AgentError : Type :=
| PendingUpstream (what : string)
| Config (msg : string)
| Storage (msg : string)
| Serialization (msg : string)
| Grpc (msg : string)
| GrpcTransport (msg : string)
| Rpc (msg : string)
| Attestation (msg : string)
| Identity (msg : string)
| Ebpf (msg : string)
| Io (msg : string)
| NoSvid
| JoinFailed (msg : string)
| Secret (msg : string)
| Policy (msg : string)
| Workload (msg : string)
| Internal (msg : string).

#[export] Instance AgentError_eq_dec : EqDecision AgentError.
Proof. solve_decision. Defined.

Definition is_pending_upstream (e : AgentError) : bool :=
  match e with PendingUpstream _ => true | _ => false end.

(** [AgentError]'s [Display] text. *)
Definition error_to_string (e : AgentError) : string :=
  match e with
  | PendingUpstream m => "upstream dependency not yet available: " +:+ m
  | Config m => "configuration error: " +:+ m
  | Storage m => "storage error: " +:+ m
  | Serialization m => "serialization error: " +:+ m
  | Grpc m => "gRPC status error: " +:+ m
  | GrpcTransport m => "gRPC transport error: " +:+ m
  | Rpc m => "RPC failed: " +:+ m
  | Attestation m => "attestation error: " +:+ m
  | Identity m => "identity error: " +:+ m
  | Ebpf m => "eBPF error: " +:+ m
  | Io m => "IO error: " +:+ m
  | NoSvid => "SVID not installed"
  | JoinFailed m => "join failed: " +:+ m
  | Secret m => "secret error: " +:+ m
  | Policy m => "policy error: " +:+ m
  | Workload m => "workload error: " +:+ m
  | Internal m => "internal error: " +:+ m
  end.

Abbreviation Result := (result AgentError).
