(* ===== verification/Store.v ===== *)
(** Persistent storage (src/storage.rs): the four fjall keyspaces behind an
    interface, and how they are opened and flushed.  fjall is not part of the
    repository, so a keyspace is any type with the two operations the agent calls,
    and the database any type with the calls of [Storage::open] and [flush];
    [KeyspaceLaws] and [FjallLaws] are the documented behaviour their clients
    rely on, which [gmap_keyspace] and [gmap_fjall] implement. *)
From S2P Require Import Prelude Errors.

Class Keyspace (K : Type) := {
  ks_get : K → bytes → result string (option bytes);
  ks_insert : K → bytes → bytes → result string unit * K;
}.

Class KeyspaceLaws (K : Type) `{Keyspace K} : Prop := {
  (** a successful insert is visible, and touches no other key *)
  ks_insert_ok k key v k' :
    ks_insert k key v = (Ok tt, k') →
    ∀ key', ks_get k' key' = if decide (key = key') then Ok (Some v) else ks_get k key';
  (** a failed insert leaves either the old value or the new one *)
  ks_insert_err k key v k' e :
    ks_insert k key v = (Err e, k') →
    ∀ key', ks_get k' key' = ks_get k key' ∨ (key' = key ∧ ks_get k' key' = Ok (Some v));
}.

#[export] Instance gmap_keyspace : Keyspace (gmap bytes bytes) := {
  ks_get m key := Ok (m !! key);
  ks_insert m key v := (Ok tt, <[key := v]> m);
}.
#[export] Instance gmap_keyspace_laws : KeyspaceLaws (gmap bytes bytes).
Proof.
  split; simpl; intros; simplify_eq.
  rewrite lookup_insert. by case_decide.
Qed.

(** The keyspaces; the database handle they were opened from is [B] below. *)
Record Storage (K : Type) := mkStorage {
  svid : K;
  secret_state : K;
  delegation : K;
  sequences : K;
}.
Arguments mkStorage {K}.
Arguments svid {K}.
Arguments secret_state {K}.
Arguments delegation {K}.
Arguments sequences {K}.

Definition with_svid {K} (k : K) (st : Storage K) : Storage K :=
  mkStorage k st.(secret_state) st.(delegation) st.(sequences).
Definition with_delegation {K} (k : K) (st : Storage K) : Storage K :=
  mkStorage st.(svid) st.(secret_state) k st.(sequences).
Definition with_sequences {K} (k : K) (st : Storage K) : Storage K :=
  mkStorage st.(svid) st.(secret_state) st.(delegation) k.

Section access.
Context {K : Type} `{Keyspace K}.

Definition read (sel : Storage K → K) (key : bytes) : M AgentError (Storage K) (option bytes) :=
  λ st, (map_err Errors.Storage (ks_get (sel st) key), st).

Definition write (sel : Storage K → K) (upd : K → Storage K → Storage K)
    (key v : bytes) : M AgentError (Storage K) unit :=
  λ st, let '(r, k) := ks_insert (sel st) key v in
        (map_err Errors.Storage r, upd k st).

Definition svid_get := read svid.
Definition svid_insert := write svid with_svid.
Definition delegation_get := read delegation.
Definition delegation_insert := write delegation with_delegation.
Definition sequences_get := read sequences.
Definition sequences_insert := write sequences with_sequences.

Lemma read_ok sel key st o st' :
  read sel key st = (Ok o, st') ↔ ks_get (sel st) key = Ok o ∧ st' = st.
Proof. unfold read. destruct (ks_get _ _); naive_solver. Qed.

Lemma write_ok sel upd key v st u st' :
  write sel upd key v st = (Ok u, st') →
  ∃ k, ks_insert (sel st) key v = (Ok tt, k) ∧ st' = upd k st.
Proof.
  unfold write. destruct (ks_insert _ _ _) as [[[]|e] k] eqn:Hk; intros [= <- <-]. eauto.
Qed.
End access.

(** ** Opening and flushing *)

(** [B] is the disk with the database on it; a keyspace is opened, or created,
    by its name. *)
Class Fjall (B K : Type) := {
  create_dir_all : string → M string B unit;
  database_open : string → M string B unit;
  keyspace : string → M string B K;
  (** [persist(SyncAll)] of the keyspaces that are open *)
  persist : list (string * K) → M string B unit;
}.

Section database.
Context {B K : Type} `{Fjall B K}.

Definition fjall {A} (c : M string B A) : M AgentError B A := λ b, let '(r, b) := c b in (map_err Errors.Storage r, b).

(** [Storage::open] and [Storage::flush]. *)
Definition Storage_open (path : string) : M AgentError B (Storage K) :=
  _ ← (λ b, let '(r, b) := create_dir_all path b in (map_err Errors.Io r, b));
  _ ← fjall (database_open path);
  svid ← fjall (keyspace "svid");
  secret_state ← fjall (keyspace "secret_state");
  delegation ← fjall (keyspace "delegation");
  sequences ← fjall (keyspace "sequences");
  mret (mkStorage svid secret_state delegation sequences).

Definition open_keyspaces (st : Storage K) : list (string * K) :=
  [("svid", st.(svid)); ("secret_state", st.(secret_state)); ("delegation", st.(delegation)); ("sequences", st.(sequences))].
Definition Storage_flush (st : Storage K) : M AgentError B unit := fjall (persist (open_keyspaces st)).
End database.

(** What is on disk under a name: opening a keyspace yields that and disturbs
    no other, neither do the calls before it, and a persisted keyspace is on disk. *)
Class FjallLaws (B K : Type) `{Fjall B K} := {
  on_disk : string → B → option K;
  keyspace_ok name b k b' : keyspace name b = (Ok k, b') →
    (∀ k0, on_disk name b = Some k0 → k = k0) ∧ on_disk name b' = Some k ∧
    ∀ name', name' ≠ name → on_disk name' b' = on_disk name' b;
  open_calls_keep path name b :
    on_disk name (create_dir_all path b).2 = on_disk name b ∧ on_disk name (database_open path b).2 = on_disk name b;
  persist_ok ks b b' : persist ks b = (Ok tt, b') → NoDup ks.*1 → ∀ name k, (name, k) ∈ ks → on_disk name b' = Some k;
}.

Section durability.
Context {B K : Type} `{FjallLaws B K}.

Lemma fjall_ok {A} (c : M string B A) b a b' : fjall c b = (Ok a, b') ↔ c b = (Ok a, b').
Proof. unfold fjall. destruct (c b) as [[]]; naive_solver. Qed.

(** An open storage is what is on disk, name by name. *)
Lemma Storage_open_ok path b st b' :
  Storage_open path b = (Ok st, b') →
  Forall (λ nk, ∀ k0, on_disk nk.1 b = Some k0 → nk.2 = k0) (open_keyspaces st) ∧
  Forall (λ nk, on_disk nk.1 b' = Some nk.2) (open_keyspaces st).
Proof.
  unfold Storage_open. intros ([] & b0 & Hdir & Hrun)%M_bind_ok.
  apply M_bind_ok in Hrun as ([] & b1 & Hopen%fjall_ok & Hrun).
  apply M_bind_ok in Hrun as (k1 & b2 & H1%fjall_ok%keyspace_ok & Hrun).
  apply M_bind_ok in Hrun as (k2 & b3 & H2%fjall_ok%keyspace_ok & Hrun).
  apply M_bind_ok in Hrun as (k3 & b4 & H3%fjall_ok%keyspace_ok & Hrun).
  apply M_bind_ok in Hrun as (k4 & b5 & H4%fjall_ok%keyspace_ok & [= <- <-]).
  assert (∀ name, on_disk name b1 = on_disk name b) as Hb.
  { intros name. pose proof (open_calls_keep path name b) as [Hd _]. pose proof (open_calls_keep path name b0) as [_ Ho].
    rewrite Hopen in Ho. destruct (create_dir_all path b) as [[]]; [|done]. injection Hdir as ->. cbn in *. congruence. }
  destruct H1 as (V1 & D1 & K1), H2 as (V2 & D2 & K2), H3 as (V3 & D3 & K3), H4 as (V4 & D4 & K4).
  unfold open_keyspaces. cbn [svid secret_state delegation sequences].
  split; repeat (apply Forall_cons; split); try (by apply Forall_nil); cbn [fst snd].
  - intros k0. rewrite <-Hb. apply V1.
  - intros k0. rewrite <-Hb, <-K1 by done. apply V2.
  - intros k0. rewrite <-Hb, <-K1, <-K2 by done. apply V3.
  - intros k0. rewrite <-Hb, <-K1, <-K2, <-K3 by done. apply V4.
  - by rewrite K4, K3, K2.
  - by rewrite K4, K3.
  - by rewrite K4.
  - done.
Qed.

(** What was flushed is what the next start opens. *)
Theorem flush_reopen path st b b1 st' b2 :
  Storage_flush st b = (Ok tt, b1) → Storage_open path b1 = (Ok st', b2) → st' = st.
Proof.
  intros Hp%fjall_ok [Hv _]%Storage_open_ok. pose proof (persist_ok _ _ _ Hp) as Hd.
  assert (NoDup (open_keyspaces st).*1) as Hnd by (by apply (bool_decide_unpack _); vm_compute).
  specialize (Hd Hnd). destruct st as [a b0 c d], st' as [a' b' c' d']. unfold open_keyspaces in *.
  rewrite !Forall_cons in Hv. destruct Hv as (V1 & V2 & V3 & V4 & _). cbn [fst snd] in *.
  f_equal; [apply V1|apply V2|apply V3|apply V4]; apply Hd; set_solver.
Qed.

(** No directory is an IO error, anything after it a storage error. *)
Lemma Storage_open_err path b e b' :
  Storage_open path b = (Err e, b') →
  (∃ msg, create_dir_all path b = (Err msg, b') ∧ e = Errors.Io msg) ∨
  (∃ b0 msg, create_dir_all path b = (Ok tt, b0) ∧ e = Errors.Storage msg).
Proof.
  assert (∀ A (c : M string B A) b e b', fjall c b = (Err e, b') → ∃ msg, e = Errors.Storage msg) as Hf.
  { clear. intros A c b e b'. unfold fjall. destruct (c b) as [[]]; naive_solver. }
  unfold Storage_open. intros [Hrun|([] & b0 & Hdir & Hrun)]%M_bind_err.
  { left. destruct (create_dir_all path b) as [[]]; naive_solver. }
  right. exists b0. assert (∃ msg, e = Errors.Storage msg) as [msg ->].
  { repeat (apply M_bind_err in Hrun as [Hrun%Hf|(? & ? & _ & Hrun)]; [exact Hrun|]). done. }
  exists msg. split; [|done]. by destruct (create_dir_all path b) as [[[]|]]; simplify_eq/=.
Qed.
End durability.

(** A disk that never fails. *)
#[export] Instance gmap_fjall : Fjall (gmap string (gmap bytes bytes)) (gmap bytes bytes) := {
  create_dir_all _ := mret tt;
  database_open _ := mret tt;
  keyspace name b := let k := default ∅ (b !! name) in (Ok k, <[name := k]> b);
  persist ks b := (Ok tt, list_to_map ks ∪ b);
}.
#[export] Instance gmap_fjall_laws : FjallLaws (gmap string (gmap bytes bytes)) (gmap bytes bytes).
Proof.
  refine {| on_disk name b := b !! name |}.
  - intros name b k b' [= <- <-]. split; [by intros k0 ->|]. rewrite lookup_insert. split; [by rewrite decide_True|].
    intros name' Hne. by rewrite lookup_insert_ne.
  - done.
  - intros ks b b' [= <-] Hnd name k Hk. apply lookup_union_Some_l. by apply elem_of_list_to_map_1.
Defined.

Definition sample_storage : Storage (gmap bytes bytes) := mkStorage {[ [x00] := [x01] ]} ∅ ∅ ∅.
Definition sample_flushed := Storage_flush sample_storage ∅.
Lemma flush_reopen_witness : (Storage_open "/var/lib/fleetos/state" sample_flushed.2).1 = Ok sample_storage.
Proof.
  destruct (Storage_open "/var/lib/fleetos/state" sample_flushed.2) as [[st|e] b] eqn:Hopen; [|discriminate Hopen].
  simpl. f_equal. exact (flush_reopen "/var/lib/fleetos/state" sample_storage ∅ sample_flushed.2 st b eq_refl Hopen).
Defined.
