(* ===== verification/Sequences.v ===== *)
(** Secret-sequence replay protection (src/identity/sequences.rs). *)
From S2P Require Import Prelude Errors Store.

Definition sequence_key (target : string) (svid_version : Z) : bytes :=
  as_bytes target ++ [Byte.x00] ++ le_bytes 8 svid_version.

Section sequences.
Context {K : Type} `{Keyspace K}.

(** The 8 leading bytes of a stored record, if it has them. *)
Definition decode_record (raw : option bytes) : option Z :=
  match raw with
  | Some bs => if decide (8 ≤ length bs)%nat then Some (from_le_bytes (take 8 bs)) else None
  | None => None
  end.

Definition check_and_record (target : string) (svid_version incoming_sequence : Z) :
    M AgentError (Storage K) bool :=
  if decide (incoming_sequence = 0) then mret false else
  let key := sequence_key target svid_version in
  existing ← sequences_get key;
  let last_seen := default 0 (decode_record existing) in
  if decide (incoming_sequence ≤ last_seen) then mret false else
  _ ← sequences_insert key (le_bytes 8 incoming_sequence);
  mret true.

Definition last_seen (target : string) (svid_version : Z) :
    M AgentError (Storage K) (option Z) :=
  raw ← sequences_get (sequence_key target svid_version);
  mret (decode_record raw).
End sequences.

(** ** Keys *)

Lemma sequence_key_inj t1 v1 t2 v2 :
  is_u64 v1 → is_u64 v2 → sequence_key t1 v1 = sequence_key t2 v2 → t1 = t2 ∧ v1 = v2.
Proof.
  unfold sequence_key. intros H1 H2 Heq.
  apply app_inj_2 in Heq as [Ht Hv]; [|by rewrite !length_app, !length_le_bytes].
  apply (inj (app [Byte.x00])), le_bytes_inj in Hv; [|done..].
  split; [by apply as_bytes_inj|done].
Qed.

(** ** Single calls *)

Section facts.
Context {K : Type} `{KeyspaceLaws K}.
Implicit Types (st : Storage K) (t : string) (v s : Z).

(** What is on record for a pair; [None] when the read fails. *)
Definition recorded st t v : option Z :=
  match ks_get st.(sequences) (sequence_key t v) with
  | Ok raw => Some (default 0 (decode_record raw))
  | Err _ => None
  end.

Lemma decode_record_le s : is_u64 s → decode_record (Some (le_bytes 8 s)) = Some s.
Proof.
  intros Hs. unfold decode_record. rewrite length_le_bytes, decide_True by lia.
  by rewrite take_ge, from_le_bytes_u64 by (rewrite ?length_le_bytes; done).
Qed.

(** The outcomes of one call, by cases. *)
Lemma check_and_record_spec st t v s r st' :
  check_and_record t v s st = (r, st') →
  (r = Ok true ∧ s ≠ 0 ∧ ∃ n k, recorded st t v = Some n ∧ n < s ∧
     ks_insert st.(sequences) (sequence_key t v) (le_bytes 8 s) = (Ok tt, k) ∧
     st' = with_sequences k st)
  ∨ (∃ n e k, r = Err (Errors.Storage e) ∧ recorded st t v = Some n ∧ n < s ∧
     ks_insert st.(sequences) (sequence_key t v) (le_bytes 8 s) = (Err e, k) ∧
     st' = with_sequences k st)
  ∨ (r ≠ Ok true ∧ st' = st).
Proof.
  unfold check_and_record, recorded, mbind, M_bind, sequences_get, read, mret, M_ret.
  case_decide; [naive_solver|].
  destruct (ks_get _ _) as [raw|e]; simpl; [|naive_solver].
  case_decide; [naive_solver|].
  unfold sequences_insert, write.
  destruct (ks_insert _ _ _) as [[[]|e] k] eqn:Hk; simpl; intros [= <- <-].
  - left. split; [done|]. split; [done|]. eexists _, _. split; [done|]. split; [lia|]. done.
  - right; left. eexists _, _, _. split; [done|]. split; [done|]. split; [lia|]. done.
Qed.

(** A record never decreases, and an accepted sequence is on record. *)
Lemma check_and_record_mono st t v s r st' t' v' n' :
  is_u64 v → is_u64 v' → is_u64 s →
  check_and_record t v s st = (r, st') →
  recorded st' t' v' = Some n' →
  ∃ n, recorded st t' v' = Some n ∧ n ≤ n' ∧
       (r = Ok true → t' = t → v' = v → n < s ∧ n' = s).
Proof.
  intros Hv Hv' Hs Hrun Hn'.
  destruct (check_and_record_spec _ _ _ _ _ _ Hrun)
    as [(-> & _ & n & k & Hn & Hlt & Hins & ->)|[(n & e & k & -> & Hn & Hlt & Hins & ->)|[Hr ->]]].
  - unfold recorded in Hn'. simpl in Hn'.
    rewrite (ks_insert_ok _ _ _ _ Hins) in Hn'.
    case_decide as Hk.
    + apply sequence_key_inj in Hk as [<- <-]; [|done..].
      rewrite (decode_record_le s) in Hn' by done. simplify_eq/=. exists n. naive_solver lia.
    + exists n'. split; [done|]. split; [lia|]. intros _ -> ->. done.
  - unfold recorded in Hn'. simpl in Hn'.
    destruct (ks_insert_err _ _ _ _ _ Hins (sequence_key t' v')) as [Heq|[Hk Heq]].
    + rewrite Heq in Hn'. exists n'. split; [done|]. split; [lia|done].
    + rewrite Heq, (decode_record_le s) in Hn' by done. simplify_eq/=.
      apply sequence_key_inj in Hk as [-> ->]; [|done..]. exists n. split; [done|]. split; [lia|done].
  - exists n'. split; [done|]. split; [lia|done].
Qed.

Lemma check_and_record_accept st t v s st' :
  is_u64 s → check_and_record t v s st = (Ok true, st') →
  recorded st' t v = Some s ∧ s ≠ 0.
Proof.
  intros Hs Hrun.
  destruct (check_and_record_spec _ _ _ _ _ _ Hrun)
    as [(_ & ? & n & k & Hn & Hlt & Hins & ->)|[(? & ? & ? & ? & _)|[? _]]]; [|done..].
  split; [|done]. unfold recorded. simpl.
  by rewrite (ks_insert_ok _ _ _ _ Hins), decide_True, decode_record_le.
Qed.

Lemma recorded_err_stable st t v s r st' t' v' :
  is_u64 v → is_u64 v' →
  check_and_record t v s st = (r, st') → recorded st t' v' = None → recorded st' t' v' = None.
Proof.
  intros Hv Hv' Hrun Hnone.
  destruct (check_and_record_spec _ _ _ _ _ _ Hrun)
    as [(-> & _ & n & k & Hn & _ & Hins & ->)|[(n & e & k & -> & Hn & _ & Hins & ->)|[_ ->]]]; [| |done].
  - unfold recorded in *. simpl. rewrite (ks_insert_ok _ _ _ _ Hins).
    case_decide as Hk; [|done]. apply sequence_key_inj in Hk as [-> ->]; [|done..]. by rewrite Hn in Hnone.
  - unfold recorded in *. simpl.
    destruct (ks_insert_err _ _ _ _ _ Hins (sequence_key t' v')) as [->|[Hk _]]; [done|].
    apply sequence_key_inj in Hk as [-> ->]; [|done..]. by rewrite Hn in Hnone.
Qed.

(** ** Any run of calls *)

Record request := mkRequest { req_target : string; req_version : Z; req_sequence : Z }.
Definition request_ok (q : request) : Prop := is_u64 q.(req_version) ∧ is_u64 q.(req_sequence).

Fixpoint run_requests (qs : list request) (st : Storage K) :
    list (request * Result bool) * Storage K :=
  match qs with
  | [] => ([], st)
  | q :: qs =>
      let '(r, st1) := check_and_record q.(req_target) q.(req_version) q.(req_sequence) st in
      let '(rs, st2) := run_requests qs st1 in
      ((q, r) :: rs, st2)
  end.

(** The sequences accepted for a pair, in order. *)
Definition accepted t v (log : list (request * Result bool)) : list Z :=
  omap (λ '(q, r), if decide (q.(req_target) = t ∧ q.(req_version) = v ∧ r = Ok true)
                   then Some q.(req_sequence) else None) log.

Lemma accepted_above qs st t v :
  is_u64 v → Forall request_ok qs →
  match recorded st t v with
  | Some n => Forall (λ s, n < s) (accepted t v (run_requests qs st).1)
  | None => accepted t v (run_requests qs st).1 = []
  end.
Proof.
  intros Hv. revert st. induction qs as [|q qs IH]; intros st Hqs.
  { simpl. destruct (recorded st t v); done. }
  inversion_clear Hqs as [|? ? [Hqv Hqs'] Hrest]. simpl.
  destruct (check_and_record _ _ _ st) as [r st1] eqn:Hrun.
  specialize (IH st1 Hrest). destruct (run_requests qs st1) as [rs st2] eqn:Hruns. simpl in *.
  destruct (recorded st1 t v) as [n1|] eqn:Hn1.
  - destruct (check_and_record_mono _ _ _ _ _ _ t v n1 Hqv Hv Hqs' Hrun Hn1) as (n & -> & Hle & Hacc).
    assert (Forall (λ s, n < s) (accepted t v rs)) by (eapply Forall_impl; [done|]; simpl; lia).
    case_decide as Hd; [|done]. destruct Hd as (<- & <- & ->). constructor; [naive_solver|done].
  - rewrite IH. destruct (recorded st t v) as [n|] eqn:Hn.
    + case_decide as Hd; [|done]. destruct Hd as (<- & <- & ->).
      apply check_and_record_accept in Hrun as [Hacc _]; [|done]. by rewrite Hacc in Hn1.
    + case_decide as Hd; [|done]. destruct Hd as (<- & <- & ->).
      apply check_and_record_accept in Hrun as [Hacc _]; [|done]. by rewrite Hacc in Hn1.
Qed.

(** C10: Replay protection over any history.  Whatever secrets arrive, for
    whatever targets and SVID versions and through storage failures, the
    sequences accepted for one (target, svid_version) pair are positive and
    strictly increasing, and all lie above what was on record at the start:
    no sequence is accepted twice. *)
Theorem accepted_increasing qs st t v :
  is_u64 v → Forall request_ok qs →
  StronglySorted Z.lt (accepted t v (run_requests qs st).1) ∧
  Forall (λ s, default 0 (recorded st t v) < s) (accepted t v (run_requests qs st).1).
Proof.
  intros Hv Hqs. split.
  - revert st. induction Hqs as [|q qs [Hqv Hqs'] Hrest IH]; intros st; [constructor|]. simpl.
    destruct (check_and_record _ _ _ st) as [r st1] eqn:Hrun.
    specialize (IH st1). pose proof (accepted_above qs st1 t v Hv Hrest) as Habove.
    destruct (run_requests qs st1) as [rs st2]. simpl in *.
    case_decide as Hd; [|done]. destruct Hd as (<- & <- & ->).
    apply check_and_record_accept in Hrun as [Hacc _]; [|done]. rewrite Hacc in Habove.
    by constructor.
  - pose proof (accepted_above qs st t v Hv Hqs) as Habove.
    destruct (recorded st t v); [done|]. by rewrite Habove.
Qed.
End facts.

(** A store holding 4 for (s, 1): the run accepts 5 and 9 and drops the
    replays in between. *)
Definition sample_store : Storage (gmap bytes bytes) :=
  mkStorage ∅ ∅ ∅ {[ sequence_key "s" 1 := le_bytes 8 4 ]}.
Definition sample_requests : list request :=
  [mkRequest "s" 1 5; mkRequest "s" 1 5; mkRequest "t" 1 7; mkRequest "s" 1 2; mkRequest "s" 1 9].

Lemma accepted_increasing_witness :
  accepted "s" 1 (run_requests sample_requests sample_store).1 = [5; 9] ∧
  StronglySorted Z.lt (accepted "s" 1 (run_requests sample_requests sample_store).1) ∧
  Forall (λ s, default 0 (recorded sample_store "s" 1) < s)
    (accepted "s" 1 (run_requests sample_requests sample_store).1).
Proof.
  split; [by vm_compute|]. apply (accepted_increasing sample_requests sample_store "s" 1).
  - by vm_compute.
  - repeat constructor; by vm_compute.
Defined.
