(* ===== verification/Core.v ===== *)
(** Interfaces to the code the agent calls outside this repository: the
    fleetos-core crate (SPIFFE identities, fingerprints, naming, sealing), the
    wire messages it defines, and the aya kernel maps.  Each is a class: its
    operations are arguments of the definitions that call them. *)
From S2P Require Import Prelude Errors.

(** ** fleetos-core and fleetos-ebpf-common *)

(** A DUMMY_IP_ROUTE_MAP value as src/routes/table.rs builds it. *)
Record DummyIpRouteValue := mkRouteValue {
  dst_fp : bytes;
  target_agent_fp : bytes;
  sag_version : Z;
}.
#[export] Instance DummyIpRouteValue_eq_dec : EqDecision DummyIpRouteValue.
Proof. solve_decision. Defined.

Class FleetCore := {
  SpiffeId : Type;
  SpiffeId_eq_dec :: EqDecision SpiffeId;
  SpiffeId_countable :: Countable SpiffeId;
  IdKind : Type;
  kind_sa : IdKind;
  kind_node : IdKind;
  (** [SpiffeId::new], [str::parse::<SpiffeId>], [to_string] and the fields *)
  spiffe_new : string → string → IdKind → string → SpiffeId;
  spiffe_parse : string → result string SpiffeId;
  spiffe_to_string : SpiffeId → string;
  spiffe_tenant : SpiffeId → string;
  spiffe_name : SpiffeId → string;
  (** [WorkloadRole::try_from] *)
  WorkloadRole : Type;
  role_parse : string → result string WorkloadRole;
  (** [IdentityFingerprint::of], the 16 bytes *)
  fingerprint_of : SpiffeId → option WorkloadRole → bytes;
  (** [naming::dummy_ip_hostname] *)
  dummy_ip_hostname : string → string → string → string → result string string;
  (** [HostOrderIpv4::from_network] and [bytemuck::bytes_of] on a route value *)
  from_network : Z → Z;
  route_value_bytes : DummyIpRouteValue → bytes;
}.

(** An instance for the witnesses: identities are (tenant, name) pairs written
    [tenant/name], and fingerprints spell the identity and role out. *)
Definition split_slash (s : string) : option (string * string) :=
  match String.index 0 "/" s with
  | Some n => Some (String.substring 0 n s, String.substring (S n) (String.length s) s)
  | None => None
  end.

#[export] Instance sample_core : FleetCore := {
  SpiffeId := string * string;
  IdKind := bool;
  kind_sa := true;
  kind_node := false;
  spiffe_new _ tenant _ name := (tenant, name);
  spiffe_parse s := ok_or "no tenant" (split_slash s);
  spiffe_to_string id := id.1 +:+ "/" +:+ id.2;
  spiffe_tenant := fst;
  spiffe_name := snd;
  WorkloadRole := string;
  role_parse s := if decide (s = "?") then Err "bad role" else Ok s;
  fingerprint_of id role := as_bytes (id.1 +:+ "/" +:+ id.2 +:+ "#" +:+ default "" role);
  dummy_ip_hostname svc role tenant td :=
    Ok (svc +:+ "." +:+ role +:+ "." +:+ tenant +:+ ".svc." +:+ td);
  from_network z := z;
  route_value_bytes v := v.(dst_fp) ++ v.(target_agent_fp) ++ le_bytes 8 v.(sag_version);
}.

(** ** Wire messages (fleetos_core::proto) *)

Record RouteEntry := mkRouteEntry {
  destination_svid : string;
  destination_role : string;
  target_agent_svid : string;
  dummy_ip : Z;
  source_spiffe_ids : list string;
}.
Record RouteUpdate := mkRouteUpdate { version : Z; routes : list RouteEntry }.

(** ** aya kernel maps

    [HashMap::insert] and [HashMap::remove] are syscalls that can fail: an
    insert when the map is full, a remove when the key is absent. *)

Class KernelMap (T K V : Type) := {
  km_lookup : T → K → option V;
  km_insert : T → K → V → result string unit * T;
  km_remove : T → K → result string unit * T;
}.

Class KernelMapLaws (T K V : Type) `{EqDecision K, KernelMap T K V} : Prop := {
  km_insert_ok m k v m' : km_insert m k v = (Ok tt, m') →
    ∀ k', km_lookup m' k' = if decide (k = k') then Some v else km_lookup m k';
  km_insert_err m k v m' e : km_insert m k v = (Err e, m') → m' = m;
  km_remove_ok m k m' : km_remove m k = (Ok tt, m') →
    ∀ k', km_lookup m' k' = if decide (k = k') then None else km_lookup m k';
  km_remove_err m k m' e : km_remove m k = (Err e, m') → m' = m;
  (** removing an absent key is an error *)
  km_remove_absent m k : km_lookup m k = None → ∃ e m', km_remove m k = (Err e, m');
  (** removing a present one is not *)
  km_remove_present m k v : km_lookup m k = Some v → ∃ m', km_remove m k = (Ok tt, m');
}.

(** A map of bounded capacity. *)
Record capmap (K V : Type) `{Countable K} := mkCapmap { cap : nat; contents : gmap K V }.
Arguments mkCapmap {K V _ _}.
Arguments cap {K V _ _}.
Arguments contents {K V _ _}.

#[export] Instance capmap_kernel_map {K V} `{Countable K} : KernelMap (capmap K V) K V := {
  km_lookup m k := m.(contents) !! k;
  km_insert m k v :=
    if decide (is_Some (m.(contents) !! k) ∨ (size m.(contents) < m.(cap))%nat)
    then (Ok tt, mkCapmap m.(cap) (<[k := v]> m.(contents)))
    else (Err "E2BIG", m);
  km_remove m k :=
    match m.(contents) !! k with
    | Some _ => (Ok tt, mkCapmap m.(cap) (delete k m.(contents)))
    | None => (Err "ENOENT", m)
    end;
}.

#[export] Instance capmap_laws {K V} `{Countable K} : KernelMapLaws (capmap K V) K V.
Proof.
  split; simpl; intros; repeat (case_match || case_decide); simplify_eq/=; eauto.
  - by rewrite lookup_insert_eq.
  - by rewrite lookup_insert_ne.
  - by rewrite lookup_delete_eq.
  - by rewrite lookup_delete_ne.
Qed.

(** ** std::fs

    The calls the agent makes can fail; a completed write is what a read
    returns. *)
Class FileSystem (F : Type) := {
  fs_read : F → string → option bytes;
  fs_write : string → bytes → M string F unit;
  fs_create_dir_all : string → M string F unit;
}.
Class FileSystemLaws (F : Type) `{FileSystem F} : Prop := {
  fs_write_ok p b f f' : fs_write p b f = (Ok tt, f') →
    ∀ p', fs_read f' p' = if decide (p = p') then Some b else fs_read f p';
}.
#[export] Instance gmap_files : FileSystem (gmap string bytes) := {
  fs_read f p := f !! p;
  fs_write p b f := (Ok tt, <[p := b]> f);
  fs_create_dir_all _ f := (Ok tt, f);
}.
#[export] Instance gmap_files_laws : FileSystemLaws (gmap string bytes).
Proof. split. intros p b f f' [= <-] p'. simpl. by rewrite lookup_insert. Qed.
