(* ===== verification/Diff.v ===== *)
(** Diff-based synchronisation of a kernel map, shared by the components that
    keep a set of tracked keys next to a map: the inserts are the desired
    entries whose key is not tracked, the deletes the tracked keys that are not
    desired. *)
From S2P Require Import Prelude Errors Core.

Section diff.
Context {K V T : Type} `{HashOrder K} `{!KernelMap T K V}.
Implicit Types (old new : gset K) (l : list (K * V)) (m : T).

Definition diff_inserts old l : list (K * V) := filter (λ kv, kv.1 ∉ old) l.
Definition diff_deletes old new : list K := filter (λ k, k ∉ new) (iter_set old).

(** Run the inserts (the deletes) one by one, stopping at the first error. *)
Fixpoint run_inserts (msg : string) l : M AgentError T unit :=
  match l with
  | [] => mret tt
  | (k, v) :: l =>
      _ ← (λ m, let '(r, m') := km_insert m k v in (map_err (λ e, Ebpf (msg +:+ e)) r, m'));
      run_inserts msg l
  end.
Fixpoint run_deletes (msg : string) (ks : list K) : M AgentError T unit :=
  match ks with
  | [] => mret tt
  | k :: ks =>
      _ ← (λ m, let '(r, m') := km_remove m k in (map_err (λ e, Ebpf (msg +:+ e)) r, m'));
      run_deletes msg ks
  end.

(** A later entry for the same key wins. *)
Definition last_value l : gmap K V := list_to_map (reverse l).

Lemma last_value_cons k v l k' :
  last_value ((k, v) :: l) !! k' =
    match last_value l !! k' with
    | Some x => Some x
    | None => if decide (k = k') then Some v else None
    end.
Proof.
  unfold last_value. rewrite reverse_cons, list_to_map_app, lookup_union. simpl.
  rewrite lookup_insert, lookup_empty. by destruct (list_to_map _ !! k'), (decide _).
Qed.

Lemma last_value_None l k : last_value l !! k = None ↔ k ∉ l.*1.
Proof.
  unfold last_value. rewrite <-not_elem_of_list_to_map, fmap_reverse.
  by rewrite elem_of_reverse.
Qed.

Lemma last_value_inserts old l k :
  k ∉ old → last_value (diff_inserts old l) !! k = last_value l !! k.
Proof.
  intros Hk. unfold diff_inserts. induction l as [|[k' v] l IH]; [done|].
  rewrite filter_cons. simpl. destruct (decide (k' ∉ old)) as [Hk'|Hk'].
  - rewrite !last_value_cons, IH. done.
  - rewrite last_value_cons, IH. destruct (last_value l !! k); [done|].
    rewrite decide_False by (by intros ->). done.
Qed.

(** Committing a diff to the tracked set leaves the desired set. *)
Lemma diff_commit old l :
  (old ∪ list_to_set (diff_inserts old l).*1) ∖ list_to_set (diff_deletes old (list_to_set l.*1))
  = list_to_set l.*1.
Proof.
  apply set_eq. intros x. unfold diff_inserts, diff_deletes.
  rewrite elem_of_difference, elem_of_union, !elem_of_list_to_set, list_elem_of_filter,
    elem_of_iter_set, elem_of_list_to_set, !list_elem_of_fmap.
  setoid_rewrite list_elem_of_filter. split.
  - intros [[Hx|(kv & -> & ? & ?)] Hn]; [|eauto].
    destruct (decide (x ∈ l.*1)) as [Hin|Hin]; [by apply list_elem_of_fmap in Hin|].
    exfalso. apply Hn. split; [|done]. by rewrite <-list_elem_of_fmap.
  - intros Hx. split; [|by intros [? _]].
    destruct (decide (x ∈ old)); [by left|right]. destruct Hx as (kv & -> & ?). eauto.
Qed.

Context `{!KernelMapLaws T K V}.

Lemma run_inserts_ok msg l m u m' k :
  run_inserts msg l m = (Ok u, m') →
  km_lookup m' k = match last_value l !! k with Some v => Some v | None => km_lookup m k end.
Proof.
  revert m. induction l as [|[k' v] l IH]; intros m Hrun; simpl in Hrun.
  { unfold mret, M_ret in Hrun. simplify_eq. unfold last_value. simpl. by rewrite lookup_empty. }
  apply M_bind_ok in Hrun as ([] & m1 & H1 & H2).
  destruct (km_insert m k' v) as [[[]|] m1'] eqn:Hop; simplify_eq/=.
  apply IH in H2. rewrite H2, last_value_cons, (km_insert_ok _ _ _ _ Hop).
  destruct (last_value l !! k); [done|]. by case_decide.
Qed.

Lemma run_deletes_ok msg ks m u m' k :
  run_deletes msg ks m = (Ok u, m') →
  km_lookup m' k = if decide (k ∈ ks) then None else km_lookup m k.
Proof.
  revert m. induction ks as [|k' ks IH]; intros m Hrun; simpl in Hrun.
  { unfold mret, M_ret in Hrun. simplify_eq. by rewrite decide_False by set_solver. }
  apply M_bind_ok in Hrun as ([] & m1 & H1 & H2).
  destruct (km_remove m k') as [[[]|] m1'] eqn:Hop; simplify_eq/=.
  apply IH in H2. rewrite H2, (km_remove_ok _ _ _ Hop). repeat case_decide; set_solver.
Qed.

(** What a lookup returns after an applied diff: new keys get the last
    desired value, tracked ones keep theirs, the rest is gone, provided the
    tracked set covered the map. *)
Lemma diff_kernel msg1 msg2 old l m m1 m2 u1 u2 k :
  (∀ k, is_Some (km_lookup m k) → k ∈ old) →
  run_inserts msg1 (diff_inserts old l) m = (Ok u1, m1) →
  run_deletes msg2 (diff_deletes old (list_to_set l.*1)) m1 = (Ok u2, m2) →
  km_lookup m2 k =
    if decide (k ∈ l.*1) then
      if decide (k ∈ old) then km_lookup m k else last_value l !! k
    else None.
Proof.
  intros Hcov Hi Hd.
  rewrite (run_deletes_ok _ _ _ _ _ k Hd), (run_inserts_ok _ _ _ _ _ k Hi).
  assert (k ∈ diff_deletes old (list_to_set l.*1) ↔ k ∉ l.*1 ∧ k ∈ old) as Hdel.
  { unfold diff_deletes. by rewrite list_elem_of_filter, elem_of_iter_set, elem_of_list_to_set. }
  destruct (decide (k ∈ old)) as [Ho|Ho].
  - assert (last_value (diff_inserts old l) !! k = None) as ->.
    { apply last_value_None. unfold diff_inserts. rewrite list_elem_of_fmap.
      intros (kv & -> & [? _]%list_elem_of_filter). done. }
    destruct (decide (k ∈ l.*1)).
    + by rewrite decide_False by naive_solver.
    + by rewrite decide_True by naive_solver.
  - rewrite decide_False by naive_solver.
    rewrite last_value_inserts by done.
    destruct (decide (k ∈ l.*1)) as [Hl|Hl].
    + destruct (last_value l !! k) eqn:Hv; [done|]. by apply last_value_None in Hv.
    + apply last_value_None in Hl. rewrite Hl. apply eq_None_not_Some. naive_solver.
Qed.

(** A tracked key the map lacks makes its own deletion fail. *)
Lemma run_deletes_absent msg ks m k :
  k ∈ ks → km_lookup m k = None → ∃ e m', run_deletes msg ks m = (Err e, m').
Proof.
  revert m. induction ks as [|k' ks IH]; intros m Hin Hnone; [by apply not_elem_of_nil in Hin|].
  simpl. unfold mbind, M_bind. destruct (km_remove m k') as [[[]|e] m1] eqn:Hop; simpl; [|eauto].
  apply elem_of_cons in Hin as [<-|Hin].
  - destruct (km_remove_absent m k Hnone) as (e & m2 & Hrm). by rewrite Hrm in Hop.
  - apply IH; [done|]. rewrite (km_remove_ok _ _ _ Hop). by case_decide.
Qed.
End diff.

(** ** Room in the map *)

Lemma capmap_insert_fits {K V} `{Countable K} (m : capmap K V) (ks : gset K) k v :
  dom m.(contents) ⊆ ks → k ∈ ks → (size ks ≤ m.(cap))%nat →
  km_insert m k v = (Ok tt, mkCapmap m.(cap) (<[k := v]> m.(contents))).
Proof.
  intros Hsub Hk Hsize. simpl. rewrite decide_True; [done|].
  destruct (decide (is_Some (m.(contents) !! k))) as [|Hnone]; [by left|right].
  rewrite <-(size_dom (D := gset K)). apply Nat.lt_le_trans with (size ks); [|done].
  apply subset_size. split; [done|]. intros Hsup. apply Hnone, elem_of_dom, Hsup, Hk.
Qed.

Section room.
Context {K V : Type} `{HashOrder K}.
Implicit Types (m : capmap K V) (old : gset K) (l : list (K * V)).

Lemma run_inserts_fit msg l m ks :
  dom m.(contents) ⊆ ks → (∀ k, k ∈ l.*1 → k ∈ ks) → (size ks ≤ m.(cap))%nat →
  ∃ m', run_inserts msg l m = (Ok tt, m') ∧ m'.(cap) = m.(cap) ∧ dom m.(contents) ⊆ dom m'.(contents).
Proof.
  revert m. induction l as [|[k v] l IH]; intros m Hm Hl Hc; [by exists m|].
  assert (k ∈ ks) as Hk by (apply Hl; by left). cbn [run_inserts]. unfold mbind, M_bind.
  rewrite (capmap_insert_fits m ks k v Hm Hk Hc).
  destruct (IH (mkCapmap m.(cap) (<[k := v]> m.(contents)))) as (m' & Hrun & Hcap & Hdom); [|intros ? ?; apply Hl; by right|done|].
  - simpl. rewrite dom_insert. set_solver.
  - exists m'. split; [exact Hrun|]. split; [exact Hcap|]. simpl in Hdom. rewrite dom_insert in Hdom. set_solver.
Qed.
Lemma run_deletes_fit msg ks m :
  NoDup ks → (∀ k, k ∈ ks → k ∈ dom m.(contents)) →
  ∃ m', run_deletes msg ks m = (Ok tt, m') ∧ m'.(cap) = m.(cap).
Proof.
  intros Hnd. revert m. induction Hnd as [|k ks Hk _ IH]; intros m Hm; [by exists m|].
  assert (is_Some (m.(contents) !! k)) as [v Hv] by (apply elem_of_dom, Hm; by left).
  destruct (IH (mkCapmap m.(cap) (delete k m.(contents)))) as (m' & Hrun & Hcap).
  { intros k' Hk'. simpl. rewrite dom_delete. specialize (Hm k'). set_solver. }
  exists m'. split; [|done]. cbn [run_deletes]. unfold mbind, M_bind. simpl. by rewrite Hv.
Qed.

(** What an entry list makes of a map: listed keys it has keep their value,
    the others get the last listed one, unlisted keys go. *)
Definition retain l (t : gmap K V) : gmap K V := filter (λ '(k, _), k ∈ l.*1) t ∪ last_value l.

(** A diff with room for old and new keys together applies, and does this. *)
Lemma diff_fits msg1 msg2 l m :
  (size (dom m.(contents) : gset K) + size (list_to_set l.*1 : gset K) ≤ m.(cap))%nat →
  ∃ m1 m2, run_inserts msg1 (diff_inserts (dom m.(contents)) l) m = (Ok tt, m1) ∧
    run_deletes msg2 (diff_deletes (dom m.(contents)) (list_to_set l.*1)) m1 = (Ok tt, m2) ∧
    m2.(cap) = m.(cap) ∧ m2.(contents) = retain l m.(contents).
Proof.
  intros Hroom. destruct (run_inserts_fit msg1 (diff_inserts (dom m.(contents)) l) m
    (dom m.(contents) ∪ list_to_set l.*1)) as (m1 & H1 & Hc1 & Hd1).
  { apply union_subseteq_l. }
  { intros k (kv & -> & [_ Hkv]%list_elem_of_filter)%list_elem_of_fmap.
    rewrite elem_of_union, elem_of_list_to_set. right. apply list_elem_of_fmap. eauto. }
  { etrans; [|exact Hroom]. rewrite size_union_alt. apply Nat.add_le_mono_l, subseteq_size. set_solver. }
  destruct (run_deletes_fit msg2 (diff_deletes (dom m.(contents)) (list_to_set l.*1)) m1) as (m2 & H2 & Hc2).
  { apply NoDup_filter, NoDup_iter_set. }
  { intros k [_ Hk%elem_of_iter_set]%list_elem_of_filter. by apply Hd1. }
  exists m1, m2. split; [done|]. split; [done|]. split; [congruence|]. apply map_eq. intros k.
  pose proof (diff_kernel msg1 msg2 (dom m.(contents)) l m m1 m2 tt tt k) as Hk.
  simpl in Hk. rewrite Hk; [|intros ? ?; by apply elem_of_dom|done..].
  unfold retain. rewrite lookup_union, map_lookup_filter.
  destruct (decide (k ∈ l.*1)) as [Hl|Hl].
  - destruct (decide (k ∈ dom m.(contents))) as [[v Hv]%elem_of_dom|Hno].
    + rewrite Hv. simpl. rewrite option_guard_True by done. by destruct (last_value l !! k).
    + apply not_elem_of_dom in Hno. rewrite Hno. simpl. by destruct (last_value l !! k).
  - apply last_value_None in Hl as Hlv. rewrite Hlv. destruct (m.(contents) !! k); simpl; [|done].
    by rewrite option_guard_False.
Qed.
End room.
