(* ===== verification/Routes.v ===== *)
(** Route table management (src/routes/table.rs) and /etc/hosts construction
    (src/routes/hosts.rs). *)
From S2P Require Import Prelude Errors Core.

(** ** State and mutations *)

Record RouteSyncState := mkRouteSyncState {
  current_version : Z;
  dummy_ip_keys : gset Z;
  local_workload_fps : gset bytes;
}.
Definition RouteSyncState_new : RouteSyncState := mkRouteSyncState 0 ∅ ∅.

Inductive RouteMutation :=
| InsertRoute (key : Z) (value : DummyIpRouteValue)
| DeleteRoute (key : Z)
| AddLocalWorkload (fingerprint : bytes)
| RemoveLocalWorkload (fingerprint : bytes).

Abbreviation RouteMutations := (list RouteMutation).

Section routes.
Context `{FleetCore} {OZ : HashOrder Z} {OB : HashOrder bytes}.

(** ** Reading one entry *)

Definition parse_destination (e : RouteEntry) : Result SpiffeId :=
  map_err (λ err, Policy ("invalid destination_svid '" +:+ e.(destination_svid) +:+ "': " +:+ err))
    (spiffe_parse e.(destination_svid)).

Definition parse_role (e : RouteEntry) : Result (option WorkloadRole) :=
  if decide (e.(destination_role) = "") then Ok None
  else map_err (λ err, Policy ("invalid destination_role '" +:+ e.(destination_role) +:+ "': " +:+ err))
         (Some <$> role_parse e.(destination_role)).

Definition parse_target_agent (e : RouteEntry) : Result SpiffeId :=
  map_err (λ err, Policy ("invalid target_agent_svid '" +:+ e.(target_agent_svid) +:+ "': " +:+ err))
    (spiffe_parse e.(target_agent_svid)).

(** The loop variables of [process_route_update]. *)
Record acc := mkAcc {
  mutations : RouteMutations;
  desired_keys : gset Z;
  desired_fps : gset bytes;
}.

Definition process_entry (state : RouteSyncState) (upd_version : Z) (own : SpiffeId)
    (a : acc) (e : RouteEntry) : Result acc :=
  dst_spiffe ← parse_destination e;
  dst_role ← parse_role e;
  target_agent ← parse_target_agent e;
  let fp := fingerprint_of dst_spiffe dst_role in
  let map_key := from_network e.(dummy_ip) in
  let value := mkRouteValue fp (fingerprint_of target_agent None) upd_version in
  let m1 := if decide (map_key ∈ state.(dummy_ip_keys)) then a.(mutations)
            else a.(mutations) ++ [InsertRoute map_key value] in
  let keys := {[map_key]} ∪ a.(desired_keys) in
  if decide (target_agent = own) then
    mret (mkAcc
      (if decide (fp ∈ state.(local_workload_fps)) then m1 else m1 ++ [AddLocalWorkload fp])
      keys ({[fp]} ∪ a.(desired_fps)))
  else mret (mkAcc m1 keys a.(desired_fps)).

Fixpoint process_entries (state : RouteSyncState) (upd_version : Z) (own : SpiffeId)
    (es : list RouteEntry) (a : acc) : Result acc :=
  match es with
  | [] => Ok a
  | e :: es => a' ← process_entry state upd_version own a e;
               process_entries state upd_version own es a'
  end.

Definition process_route_update (state : RouteSyncState) (update : RouteUpdate)
    (own : SpiffeId) : Result (option RouteMutations) :=
  if decide (update.(version) ≤ state.(current_version)) then Ok None else
  a ← process_entries state update.(version) own update.(routes) (mkAcc [] ∅ ∅);
  mret (Some (a.(mutations)
    ++ (DeleteRoute <$> filter (λ k, k ∉ a.(desired_keys)) (iter_set state.(dummy_ip_keys)))
    ++ (RemoveLocalWorkload <$>
          filter (λ fp, fp ∉ a.(desired_fps)) (iter_set state.(local_workload_fps))))).

(** ** Applying mutations *)

Definition apply_mutation_to_state (state : RouteSyncState) (m : RouteMutation) : RouteSyncState :=
  let '(mkRouteSyncState v ks fps) := state in
  match m with
  | InsertRoute k _ => mkRouteSyncState v ({[k]} ∪ ks) fps
  | DeleteRoute k => mkRouteSyncState v (ks ∖ {[k]}) fps
  | AddLocalWorkload fp => mkRouteSyncState v ks ({[fp]} ∪ fps)
  | RemoveLocalWorkload fp => mkRouteSyncState v ks (fps ∖ {[fp]})
  end.

Definition apply_mutations_to_state (state : RouteSyncState) (ms : RouteMutations)
    (new_version : Z) : RouteSyncState :=
  let s := foldl apply_mutation_to_state state ms in
  mkRouteSyncState new_version s.(dummy_ip_keys) s.(local_workload_fps).

(** The two kernel maps the mutations go to. *)
Context {D L : Type} `{!KernelMap D Z bytes} `{!KernelMap L bytes Z}.

Definition on_routes (msg : string) (op : D → result string unit * D) :
    M AgentError (D * L) unit :=
  λ '(d, l), let '(r, d') := op d in (map_err (λ e, Ebpf (msg +:+ e)) r, (d', l)).
Definition on_locals (msg : string) (op : L → result string unit * L) :
    M AgentError (D * L) unit :=
  λ '(d, l), let '(r, l') := op l in (map_err (λ e, Ebpf (msg +:+ e)) r, (d, l')).

Definition apply_mutation_to_maps (m : RouteMutation) : M AgentError (D * L) unit :=
  match m with
  | InsertRoute k v => on_routes "DUMMY_IP_ROUTE_MAP insert: " (λ d, km_insert d k (route_value_bytes v))
  | DeleteRoute k => on_routes "DUMMY_IP_ROUTE_MAP remove: " (λ d, km_remove d k)
  | AddLocalWorkload fp => on_locals "LOCAL_WORKLOADS insert: " (λ l, km_insert l fp 1)
  | RemoveLocalWorkload fp => on_locals "LOCAL_WORKLOADS remove: " (λ l, km_remove l fp)
  end.

Fixpoint apply_mutations_to_maps (ms : RouteMutations) : M AgentError (D * L) unit :=
  match ms with
  | [] => mret tt
  | m :: ms => _ ← apply_mutation_to_maps m; apply_mutations_to_maps ms
  end.

(** ** The table part of one [run_routes_watch] iteration (src/wiring.rs):
    compute, apply to the kernel, then commit the userspace mirror. *)
Inductive sync_outcome := Applied | Stale | MapFailed (e : AgentError) | Rejected (e : AgentError).

Definition sync_routes (own : SpiffeId) (update : RouteUpdate)
    (st : RouteSyncState * (D * L)) : sync_outcome * (RouteSyncState * (D * L)) :=
  let '(state, maps) := st in
  match process_route_update state update own with
  | Ok (Some ms) =>
      match apply_mutations_to_maps ms maps with
      | (Ok _, maps') => (Applied, (apply_mutations_to_state state ms update.(version), maps'))
      | (Err e, maps') => (MapFailed e, (state, maps'))
      end
  | Ok None => (Stale, st)
  | Err e => (Rejected e, st)
  end.
End routes.

(** ** /etc/hosts *)

Record HostsEntry := mkHostsEntry { ip : string; hostname : string }.

(** [Ipv4Addr::from(u32)] displayed in dotted-quad notation. *)
Definition ipv4_to_string (a : Z) : string :=
  pretty (a / 2 ^ 24 mod 256) +:+ "." +:+ pretty (a / 2 ^ 16 mod 256) +:+ "." +:+
  pretty (a / 2 ^ 8 mod 256) +:+ "." +:+ pretty (a mod 256).

Section hosts.
Context `{FleetCore}.

Fixpoint build_hosts_entries (rs : list RouteEntry) (trust_domain : string) :
    Result (list HostsEntry) :=
  match rs with
  | [] => Ok []
  | r :: rs =>
      dst ← parse_destination r;
      if decide (r.(destination_role) = "") then build_hosts_entries rs trust_domain else
      h ← map_err (λ e, Policy ("failed to compute hostname for " +:+ spiffe_name dst +:+ "." +:+
                           r.(destination_role) +:+ "." +:+ spiffe_tenant dst +:+ ": " +:+ e))
            (dummy_ip_hostname (spiffe_name dst) r.(destination_role) (spiffe_tenant dst) trust_domain);
      rest ← build_hosts_entries rs trust_domain;
      mret (mkHostsEntry (ipv4_to_string r.(dummy_ip)) h :: rest)
  end.

Definition nl : string := String (Ascii.ascii_of_nat 10) "".
Definition tab : string := String (Ascii.ascii_of_nat 9) "".
Definition hosts_line (e : HostsEntry) : string := e.(ip) +:+ tab +:+ e.(hostname) +:+ nl.

Definition hosts_header : string :=
  "# /etc/hosts — generated by fleetos-agent" +:+ nl +:+
  "# Do not edit. This file is regenerated on route updates." +:+ nl +:+
  "#" +:+ nl +:+
  "127.0.0.1" +:+ tab +:+ "localhost" +:+ nl +:+
  "::1" +:+ tab +:+ "localhost ip6-localhost ip6-loopback" +:+ nl +:+ nl.

Definition format_hosts_file (es : list HostsEntry) : string :=
  match es with
  | [] => hosts_header
  | _ => hosts_header +:+ "# FleetOS service resolution (Ruling E)" +:+ nl +:+
         String.concat "" (hosts_line <$> es)
  end.

Definition build_hosts_content (rs : list RouteEntry) (trust_domain : string) : Result string :=
  es ← build_hosts_entries rs trust_domain; mret (format_hosts_file es).
End hosts.

(** ** What an update asks for, independently of the loop *)

Section spec.
Context `{FleetCore}.

Record decoded := mkDecoded { d_key : Z; d_fp : bytes; d_agent : SpiffeId }.

Definition decode_entry (e : RouteEntry) : Result decoded :=
  dst_spiffe ← parse_destination e;
  dst_role ← parse_role e;
  target_agent ← parse_target_agent e;
  mret (mkDecoded (from_network e.(dummy_ip)) (fingerprint_of dst_spiffe dst_role) target_agent).

Fixpoint decode_all (es : list RouteEntry) : Result (list decoded) :=
  match es with
  | [] => Ok []
  | e :: es => d ← decode_entry e; ds ← decode_all es; mret (d :: ds)
  end.

Definition keys_of (ds : list decoded) : gset Z := list_to_set (d_key <$> ds).
Definition fps_of (own : SpiffeId) (ds : list decoded) : gset bytes :=
  list_to_set (d_fp <$> filter (λ d, d.(d_agent) = own) ds).
Definition value_of (v : Z) (d : decoded) : DummyIpRouteValue :=
  mkRouteValue d.(d_fp) (fingerprint_of d.(d_agent) None) v.
(** The route table the update describes; a later entry for the same dummy IP
    wins. *)
Definition table_of (v : Z) (ds : list decoded) : gmap Z bytes :=
  list_to_map (reverse ((λ d, (d.(d_key), route_value_bytes (value_of v d))) <$> ds)).
End spec.

Section facts.
Context `{FleetCore} {OZ : HashOrder Z} {OB : HashOrder bytes}.
Implicit Types (st : RouteSyncState) (ms : RouteMutations).

Lemma process_entry_decode st v own a e a' :
  process_entry st v own a e = Ok a' →
  ∃ d, decode_entry e = Ok d ∧
    a'.(desired_keys) = {[d.(d_key)]} ∪ a.(desired_keys) ∧
    a'.(desired_fps) = (if decide (d.(d_agent) = own) then {[d.(d_fp)]} else ∅) ∪ a.(desired_fps) ∧
    a'.(mutations) = a.(mutations)
      ++ (if decide (d.(d_key) ∈ st.(dummy_ip_keys)) then []
          else [InsertRoute d.(d_key) (value_of v d)])
      ++ (if decide (d.(d_agent) = own ∧ d.(d_fp) ∉ st.(local_workload_fps))
          then [AddLocalWorkload d.(d_fp)] else []).
Proof.
  unfold process_entry, decode_entry. intros (dst & -> & Hp)%result_bind_ok.
  apply result_bind_ok in Hp as (role & -> & Hp).
  apply result_bind_ok in Hp as (ag & -> & Hp).
  eexists; split; [reflexivity|]. unfold mret, result_ret in *. simpl in *.
  case_decide; simplify_eq/=; repeat case_decide; simplify_eq/=;
    rewrite ?app_nil_r, <-?app_assoc, ?(left_id_L ∅ (∪)); naive_solver.
Qed.

Lemma decode_all_cons e es d ds :
  decode_entry e = Ok d → decode_all es = Ok ds → decode_all (e :: es) = Ok (d :: ds).
Proof. intros Hd Hds. simpl. rewrite Hd. simpl. by rewrite Hds. Qed.

Lemma keys_of_cons d ds : keys_of (d :: ds) = {[d.(d_key)]} ∪ keys_of ds.
Proof. done. Qed.
Lemma fps_of_cons own d ds :
  fps_of own (d :: ds) = (if decide (d.(d_agent) = own) then {[d.(d_fp)]} else ∅) ∪ fps_of own ds.
Proof.
  unfold fps_of. rewrite filter_cons. case_decide; [done|]. by rewrite (left_id_L ∅ (∪)).
Qed.

Lemma process_entries_sets st v own es a a' :
  process_entries st v own es a = Ok a' →
  ∃ ds, decode_all es = Ok ds ∧
    a'.(desired_keys) = keys_of ds ∪ a.(desired_keys) ∧
    a'.(desired_fps) = fps_of own ds ∪ a.(desired_fps).
Proof.
  revert a. induction es as [|e es IH]; intros a Hp; simpl in Hp.
  { simplify_eq. exists []. unfold keys_of, fps_of. simpl. by rewrite !(left_id_L ∅ (∪)). }
  apply result_bind_ok in Hp as (a1 & He & Hes).
  apply process_entry_decode in He as (d & Hd & Hk & Hf & _).
  apply IH in Hes as (ds & Hds & Hk' & Hf').
  exists (d :: ds). split; [by apply decode_all_cons|].
  rewrite keys_of_cons, fps_of_cons, Hk', Hf', Hk, Hf. split; set_by_elements.
Qed.

(** The mutations the loop emits take the mirror to the union of the old and
    the desired sets. *)
Lemma process_entries_state st v own es a a' :
  process_entries st v own es a = Ok a' →
  ∀ s, foldl apply_mutation_to_state st a.(mutations) = s →
  s.(dummy_ip_keys) = st.(dummy_ip_keys) ∪ a.(desired_keys) →
  s.(local_workload_fps) = st.(local_workload_fps) ∪ a.(desired_fps) →
  ∃ s', foldl apply_mutation_to_state st a'.(mutations) = s' ∧
    s'.(dummy_ip_keys) = st.(dummy_ip_keys) ∪ a'.(desired_keys) ∧
    s'.(local_workload_fps) = st.(local_workload_fps) ∪ a'.(desired_fps).
Proof.
  revert a. induction es as [|e es IH]; intros a Hp s Hs Hk Hf; simpl in Hp.
  { simplify_eq. eauto. }
  apply result_bind_ok in Hp as (a1 & He & Hes).
  apply process_entry_decode in He as (d & _ & Hk1 & Hf1 & Hm1).
  rewrite <-Hs in Hk, Hf. clear Hs s.
  eapply IH; [done|reflexivity|..]; rewrite Hm1, !foldl_app, ?Hk1, ?Hf1;
    destruct (foldl apply_mutation_to_state st a.(mutations)) as [sv sk sf]; simpl in *; subst;
    destruct (decide (d.(d_fp) ∈ st.(local_workload_fps)));
    repeat case_decide; simpl; set_by_elements.
Qed.

Lemma foldl_deletes l v ks fps :
  foldl apply_mutation_to_state (mkRouteSyncState v ks fps) (DeleteRoute <$> l)
  = mkRouteSyncState v (ks ∖ list_to_set l) fps.
Proof.
  revert ks. induction l as [|k l IH]; intros ks; simpl; [f_equal; set_by_elements|].
  rewrite IH. f_equal. set_by_elements.
Qed.
Lemma foldl_removes l v ks fps :
  foldl apply_mutation_to_state (mkRouteSyncState v ks fps) (RemoveLocalWorkload <$> l)
  = mkRouteSyncState v ks (fps ∖ list_to_set l).
Proof.
  revert fps. induction l as [|k l IH]; intros fps; simpl; [f_equal; set_by_elements|].
  rewrite IH. f_equal. set_by_elements.
Qed.

Lemma process_route_update_inv st u own ms :
  process_route_update st u own = Ok (Some ms) →
  st.(current_version) < u.(version) ∧
  ∃ a, process_entries st u.(version) own u.(routes) (mkAcc [] ∅ ∅) = Ok a ∧
    ms = a.(mutations)
    ++ (DeleteRoute <$> filter (λ k, k ∉ a.(desired_keys)) (iter_set st.(dummy_ip_keys)))
    ++ (RemoveLocalWorkload <$>
          filter (λ fp, fp ∉ a.(desired_fps)) (iter_set st.(local_workload_fps))).
Proof.
  unfold process_route_update. case_decide; [done|].
  intros (a & Ha & [= <-])%result_bind_ok. split; [lia|]. eauto.
Qed.

Lemma union_stale_difference `{Countable T} {OT : HashOrder T} (old new : gset T) :
  (old ∪ new) ∖ list_to_set (filter (λ x, x ∉ new) (iter_set old)) = new.
Proof.
  apply set_eq. intros x. rewrite elem_of_difference, elem_of_union, elem_of_list_to_set,
    list_elem_of_filter, elem_of_iter_set. destruct (decide (x ∈ new)); naive_solver.
Qed.

(** Full-state sync of the userspace mirror.  When [process_route_update]
    returns mutations, committing them leaves exactly the update's version,
    its dummy IPs and the fingerprints of its destinations on this node,
    whatever the previous state and whatever order the old sets are walked
    in. *)
Theorem process_apply_desired st u own ms :
  process_route_update st u own = Ok (Some ms) →
  ∃ ds, decode_all u.(routes) = Ok ds ∧
    apply_mutations_to_state st ms u.(version)
    = mkRouteSyncState u.(version) (keys_of ds) (fps_of own ds).
Proof.
  intros (_ & a & Ha & ->)%process_route_update_inv.
  destruct (process_entries_sets _ _ _ _ _ _ Ha) as (ds & Hds & Hk & Hf). simpl in Hk, Hf.
  rewrite (right_id_L ∅ (∪)) in Hk. rewrite (right_id_L ∅ (∪)) in Hf.
  destruct (process_entries_state _ _ _ _ _ _ Ha st eq_refl) as ([v ks fps] & Hfold & Hks & Hfps);
    [simpl; by rewrite (right_id_L ∅ (∪))..|].
  exists ds. split; [done|]. unfold apply_mutations_to_state. simpl in *.
  rewrite !foldl_app, Hfold, foldl_deletes, foldl_removes, Hks, Hfps. simpl.
  by rewrite Hk, Hf, !union_stale_difference.
Qed.
End facts.

(** ** The kernel maps *)

Section kernel.
Context `{FleetCore} {OZ : HashOrder Z} {OB : HashOrder bytes}.
Context {D L : Type} `{!KernelMap D Z bytes} `{!KernelMap L bytes Z}.
Context `{!KernelMapLaws D Z bytes} `{!KernelMapLaws L bytes Z}.
Implicit Types (st : RouteSyncState) (ms : RouteMutations) (maps : D * L).

(** The effect of one mutation on what a lookup of [k] (of [fp]) returns. *)
Definition route_effect (k : Z) (o : option bytes) (m : RouteMutation) : option bytes :=
  match m with
  | InsertRoute k' v => if decide (k' = k) then Some (route_value_bytes v) else o
  | DeleteRoute k' => if decide (k' = k) then None else o
  | _ => o
  end.
Definition local_effect (fp : bytes) (o : option Z) (m : RouteMutation) : option Z :=
  match m with
  | AddLocalWorkload fp' => if decide (fp' = fp) then Some 1 else o
  | RemoveLocalWorkload fp' => if decide (fp' = fp) then None else o
  | _ => o
  end.

Lemma apply_mutation_ok m maps u maps' :
  apply_mutation_to_maps m maps = (Ok u, maps') →
  (∀ k, km_lookup maps'.1 k = route_effect k (km_lookup maps.1 k) m) ∧
  (∀ fp, km_lookup maps'.2 fp = local_effect fp (km_lookup maps.2 fp) m).
Proof.
  destruct maps as [d l]. destruct m as [k v|k|fp|fp]; simpl; unfold on_routes, on_locals.
  - destruct (km_insert d k _) as [[[]|] d'] eqn:Hop; intros [= <- <-]. split; [|done].
    intros k'. by apply km_insert_ok with (k' := k') in Hop.
  - destruct (km_remove d k) as [[[]|] d'] eqn:Hop; intros [= <- <-]. split; [|done].
    intros k'. by apply km_remove_ok with (k' := k') in Hop.
  - destruct (km_insert l fp 1) as [[[]|] l'] eqn:Hop; intros [= <- <-]. split; [done|].
    intros k'. by apply km_insert_ok with (k' := k') in Hop.
  - destruct (km_remove l fp) as [[[]|] l'] eqn:Hop; intros [= <- <-]. split; [done|].
    intros k'. by apply km_remove_ok with (k' := k') in Hop.
Qed.

Lemma apply_mutations_ok ms maps u maps' :
  apply_mutations_to_maps ms maps = (Ok u, maps') →
  (∀ k, km_lookup maps'.1 k = foldl (route_effect k) (km_lookup maps.1 k) ms) ∧
  (∀ fp, km_lookup maps'.2 fp = foldl (local_effect fp) (km_lookup maps.2 fp) ms).
Proof.
  revert maps. induction ms as [|m ms IH]; intros maps Hrun; simpl in *.
  { unfold mret, M_ret in Hrun. by simplify_eq. }
  apply M_bind_ok in Hrun as ([] & mid & Hm & Hms).
  apply apply_mutation_ok in Hm as [H1 H2]. apply IH in Hms as [H3 H4].
  split; intros; rewrite ?H3, ?H4, ?H1, ?H2; done.
Qed.

Lemma apply_mutations_app ms1 ms2 maps u maps' :
  apply_mutations_to_maps (ms1 ++ ms2) maps = (Ok u, maps') →
  ∃ mid, apply_mutations_to_maps ms1 maps = (Ok tt, mid) ∧
         apply_mutations_to_maps ms2 mid = (Ok u, maps').
Proof.
  revert maps. induction ms1 as [|m ms1 IH]; intros maps Hrun; simpl in *; [eauto|].
  apply M_bind_ok in Hrun as ([] & mid & Hm & Hms). apply IH in Hms as (mid' & H1 & H2).
  exists mid'. split; [|done]. unfold mbind, M_bind. by rewrite Hm.
Qed.

(** The mirror agrees with the kernel on which keys are present. *)
Definition mirrored st maps : Prop :=
  (∀ k, k ∈ st.(dummy_ip_keys) ↔ is_Some (km_lookup maps.1 k)) ∧
  (∀ fp, fp ∈ st.(local_workload_fps) ↔ is_Some (km_lookup maps.2 fp)).

Lemma mirrored_step m st maps u maps' :
  apply_mutation_to_maps m maps = (Ok u, maps') →
  mirrored st maps → mirrored (apply_mutation_to_state st m) maps'.
Proof.
  intros [H1 H2]%apply_mutation_ok [Hk Hf]. destruct st as [v ks fps].
  split; intros x; [rewrite H1|rewrite H2]; destruct m; simpl in *;
    rewrite ?elem_of_union, ?elem_of_difference, ?elem_of_singleton, ?Hk, ?Hf;
    case_decide || idtac; subst; naive_solver.
Qed.

Lemma mirrored_steps ms st maps u maps' :
  apply_mutations_to_maps ms maps = (Ok u, maps') →
  mirrored st maps → mirrored (foldl apply_mutation_to_state st ms) maps'.
Proof.
  revert st maps. induction ms as [|m ms IH]; intros st maps Hrun Hst; simpl in *.
  { unfold mret, M_ret in Hrun. by simplify_eq. }
  apply M_bind_ok in Hrun as ([] & mid & Hm & Hms). eauto using mirrored_step.
Qed.

Lemma table_of_cons v d ds k :
  table_of v (d :: ds) !! k =
    match table_of v ds !! k with
    | Some x => Some x
    | None => if decide (d.(d_key) = k) then Some (route_value_bytes (value_of v d)) else None
    end.
Proof.
  unfold table_of. rewrite fmap_cons, reverse_cons, list_to_map_app, lookup_union.
  simpl. rewrite lookup_insert, lookup_empty. by destruct (list_to_map _ !! k), (decide _).
Qed.

Lemma table_of_keys v ds k : is_Some (table_of v ds !! k) ↔ k ∈ keys_of ds.
Proof.
  induction ds as [|d ds IH].
  { unfold table_of, keys_of. simpl. rewrite lookup_empty, elem_of_empty.
    split; [by intros [? ?]|done]. }
  rewrite table_of_cons, keys_of_cons, elem_of_union, elem_of_singleton, <-IH.
  destruct (table_of v ds !! k); [naive_solver|]. case_decide; subst; [naive_solver|].
  split; [by intros [? ?]|]. intros [->|[? ?]]; done.
Qed.

Lemma foldl_add_effect k o (P : Prop) `{Decision P} fp :
  foldl (route_effect k) o (if decide P then [AddLocalWorkload fp] else []) = o.
Proof. by destruct (decide P). Qed.

(** The loop inserts, for the dummy IPs it did not track, the last value the
    update gives; tracked ones are left alone. *)
Lemma process_entries_effect st v own es a a' k o :
  process_entries st v own es a = Ok a' →
  ∃ ds, decode_all es = Ok ds ∧
    foldl (route_effect k) o a'.(mutations) =
      if decide (k ∈ st.(dummy_ip_keys)) then foldl (route_effect k) o a.(mutations)
      else match table_of v ds !! k with
           | Some x => Some x
           | None => foldl (route_effect k) o a.(mutations)
           end.
Proof.
  revert a. induction es as [|e es IH]; intros a Hp; simpl in Hp.
  { simplify_eq. exists []. split; [done|]. unfold table_of. simpl.
    rewrite lookup_empty. by case_decide. }
  apply result_bind_ok in Hp as (a1 & He & Hes).
  apply process_entry_decode in He as (d & Hd & _ & _ & Hm).
  apply IH in Hes as (ds & Hds & Heff). exists (d :: ds). split; [by apply decode_all_cons|].
  rewrite Heff, table_of_cons, Hm, !foldl_app.
  set (m0 := foldl (route_effect k) o (mutations a)).
  rewrite foldl_add_effect. clear Hm IH Heff.
  case_decide as Hk.
  - case_decide as Hd'; [done|]. simpl. case_decide as He; [by rewrite He in Hd'|done].
  - destruct (table_of v ds !! k); [done|].
    destruct (decide (d.(d_key) = k)) as [->|Hne].
    + rewrite decide_False by done. simpl. by rewrite decide_True.
    + case_decide; simpl; [done|]. by rewrite decide_False.
Qed.

Lemma foldl_delete_effect k o l :
  foldl (route_effect k) o (DeleteRoute <$> l) = if decide (k ∈ l) then None else o.
Proof.
  revert o. induction l as [|k' l IH]; intros o; simpl; [done|].
  rewrite IH. repeat case_decide; set_solver.
Qed.

Lemma foldl_remove_effect k o l :
  foldl (route_effect k) o (RemoveLocalWorkload <$> l) = o.
Proof. induction l as [|fp l IH]; simpl; done. Qed.

(** What the mutations of an update do to one dummy IP. *)
Lemma route_mutations_effect own u st ms :
  process_route_update st u own = Ok (Some ms) →
  ∃ ds, decode_all u.(routes) = Ok ds ∧ ∀ k o,
    foldl (route_effect k) o ms =
      if decide (k ∈ keys_of ds) then
        if decide (k ∈ st.(dummy_ip_keys)) then o else table_of u.(version) ds !! k
      else if decide (k ∈ st.(dummy_ip_keys)) then None else o.
Proof.
  intros (_ & a & Ha & ->)%process_route_update_inv.
  destruct (process_entries_sets _ _ _ _ _ _ Ha) as (ds & Hds & Hk & _).
  simpl in Hk. rewrite (right_id_L ∅ (∪)) in Hk. exists ds. split; [done|]. intros k o.
  rewrite !foldl_app, foldl_remove_effect, foldl_delete_effect.
  destruct (process_entries_effect _ _ _ _ _ _ k o Ha) as (ds' & Hds' & ->).
  rewrite Hds in Hds'. injection Hds' as <-. cbn [mutations foldl].
  pose proof (table_of_keys u.(version) ds k) as Htab.
  destruct (decide (k ∈ filter _ _)) as [Hf|Hf]; rewrite list_elem_of_filter, elem_of_iter_set, Hk in Hf.
  - by rewrite decide_False, decide_True by naive_solver.
  - destruct (decide (k ∈ keys_of ds)) as [Hin|Hin]; [by apply Htab in Hin as [x ->]|].
    assert (table_of u.(version) ds !! k = None) as -> by (apply eq_None_not_Some; by rewrite Htab).
    by destruct (decide (k ∈ st.(dummy_ip_keys))); [destruct Hf|].
Qed.

(** What reaches DUMMY_IP_ROUTE_MAP.  From a state whose mirror agrees
    with the kernel, an applied update leaves exactly the update's dummy IPs
    in the map: those that were absent get the update's value (the last entry
    for the IP), those that were present keep the value they had, and the
    others are gone; and the mirror agrees with the kernel again. *)
Theorem sync_routes_kernel own u st maps st' maps' :
  mirrored st maps →
  sync_routes own u (st, maps) = (Applied, (st', maps')) →
  ∃ ds, decode_all u.(routes) = Ok ds ∧ mirrored st' maps' ∧
    ∀ k, km_lookup maps'.1 k =
      if decide (k ∈ keys_of ds) then
        if decide (k ∈ st.(dummy_ip_keys)) then km_lookup maps.1 k
        else table_of u.(version) ds !! k
      else None.
Proof.
  intros Hst. unfold sync_routes.
  destruct (process_route_update st u own) as [[ms|]|] eqn:Hp; [|done..].
  destruct (apply_mutations_to_maps ms maps) as [[[]|] maps1] eqn:Happ; intros [= <- <-].
  destruct (route_mutations_effect _ _ _ _ Hp) as (ds & Hds & Heff). exists ds. split; [done|]. split.
  - destruct (mirrored_steps _ _ _ _ _ Happ Hst) as [Hm1 Hm2]. done.
  - intros k. apply apply_mutations_ok in Happ as [-> _]. rewrite Heff.
    destruct (decide (k ∈ keys_of ds)); [done|]. case_decide as Hk; [done|].
    apply eq_None_not_Some. by rewrite <-(proj1 Hst).
Qed.

Lemma delete_absent_fails l maps u maps' k :
  apply_mutations_to_maps (DeleteRoute <$> l) maps = (Ok u, maps') →
  km_lookup maps.1 k = None → k ∉ l.
Proof.
  revert maps. induction l as [|k' l IH]; intros maps Hrun Hnone; [apply not_elem_of_nil|].
  simpl in Hrun. apply M_bind_ok in Hrun as ([] & mid & Hm & Hms).
  apply not_elem_of_cons. split.
  - intros <-. destruct maps as [d l']. simpl in Hm. unfold on_routes in Hm. simpl in Hnone.
    destruct (km_remove_absent d k Hnone) as (e & d' & Hrm). by rewrite Hrm in Hm.
  - apply (IH mid); [done|]. apply (apply_mutation_ok (DeleteRoute k')) in Hm as [Hm _]. rewrite Hm. simpl.
    case_decide; done.
Qed.

Lemma process_entries_total st v own es ds a :
  decode_all es = Ok ds → ∃ a', process_entries st v own es a = Ok a'.
Proof.
  revert ds a. induction es as [|e es IH]; intros ds a Hds; simpl in *; [eauto|].
  apply result_bind_ok in Hds as (d & Hd & (ds' & Hds' & _)%result_bind_ok).
  assert (∃ a1, process_entry st v own a e = Ok a1) as [a1 ->]; [|simpl; eauto].
  unfold decode_entry in Hd. apply result_bind_ok in Hd as (x & Hx & Hd).
  apply result_bind_ok in Hd as (y & Hy & Hd). apply result_bind_ok in Hd as (z & Hz & Hd).
  unfold process_entry. rewrite Hx. simpl. rewrite Hy. simpl. rewrite Hz. simpl.
  case_decide; unfold mret, result_ret; eauto.
Qed.

(** A route removal that was applied and not committed wedges the table.
    If the mirror still tracks a dummy IP the kernel map no longer has (an
    earlier sync failed after deleting it), every newer update that does not
    list that IP fails in the kernel maps and leaves the mirror as it is. *)
Theorem sync_routes_wedged own u st maps k ds :
  k ∈ st.(dummy_ip_keys) → km_lookup maps.1 k = None →
  st.(current_version) < u.(version) →
  decode_all u.(routes) = Ok ds → k ∉ keys_of ds →
  ∃ e maps', sync_routes own u (st, maps) = (MapFailed e, (st, maps')).
Proof.
  intros Hk Hnone Hv Hds Hkds. unfold sync_routes.
  destruct (process_route_update st u own) as [[ms|]|e] eqn:Hp.
  - destruct (apply_mutations_to_maps ms maps) as [[[]|e] maps1] eqn:Happ; [|eauto]. exfalso.
    destruct (process_route_update_inv _ _ _ _ Hp) as (_ & a & Ha & ->).
    destruct (process_entries_sets _ _ _ _ _ _ Ha) as (ds' & Hds' & Hks & _).
    rewrite Hds in Hds'. injection Hds' as <-. simpl in Hks.
    rewrite (right_id_L ∅ (∪)) in Hks.
    apply apply_mutations_app in Happ as (mid & H1 & H2).
    apply apply_mutations_app in H2 as (mid' & H2 & _).
    apply apply_mutations_ok in H1 as [H1 _]. specialize (H1 k).
    destruct (process_entries_effect _ _ _ _ _ _ k (km_lookup maps.1 k) Ha) as (ds2 & _ & Heff).
    rewrite Heff, decide_True, Hnone in H1 by done. simpl in H1.
    eapply delete_absent_fails in H2; [|exact H1]. apply H2.
    apply list_elem_of_filter. rewrite elem_of_iter_set, Hks. done.
  - unfold process_route_update in Hp. case_decide; [lia|]. apply result_bind_ok in Hp as (? & _ & [=]).
  - exfalso. unfold process_route_update in Hp. case_decide; [lia|].
    destruct (process_entries_total st u.(version) own u.(routes) ds (mkAcc [] ∅ ∅) Hds) as [a' Ha'].
    by rewrite Ha' in Hp.
Qed.
End kernel.

(** ** Concrete runs *)

Definition node_a : @SpiffeId sample_core := ("system", "a").
Definition entry (dst : string) (role : string) (agent : string) (ip : Z) : RouteEntry :=
  mkRouteEntry dst role agent ip [].
Definition update1 : RouteUpdate :=
  mkRouteUpdate 1 [entry "acme/db" "primary" "system/a" 7; entry "acme/web" "" "system/b" 8].
Definition update2 : RouteUpdate :=
  mkRouteUpdate 2 [entry "acme/db" "primary" "system/b" 7; entry "acme/api" "" "system/a" 9].

Abbreviation routes_map := (capmap Z bytes).
Abbreviation locals_map := (capmap bytes Z).
Definition maps0 : routes_map * locals_map := (mkCapmap 4 ∅, mkCapmap 4 ∅).
Definition after1 : RouteSyncState * (routes_map * locals_map) :=
  (sync_routes (H := sample_core) node_a update1 (RouteSyncState_new, maps0)).2.
Definition after2 : RouteSyncState * (routes_map * locals_map) :=
  (sync_routes (H := sample_core) node_a update2 after1).2.

Lemma process_apply_desired_witness :
  ∃ ds ms, process_route_update (H := sample_core) after1.1 update2 node_a = Ok (Some ms) ∧
  decode_all (H := sample_core) update2.(routes) = Ok ds ∧
  apply_mutations_to_state after1.1 ms 2 = mkRouteSyncState 2 (keys_of ds) (fps_of node_a ds).
Proof.
  destruct (is_ok_some_inv (process_route_update (H := sample_core) after1.1 update2 node_a))
    as [ms Hp]; [by vm_compute|].
  destruct (process_apply_desired (H := sample_core) after1.1 update2 node_a ms Hp) as (ds & Hds & Heq).
  exists ds, ms. split; [exact Hp|]. split; [exact Hds|exact Heq].
Defined.

Lemma mirrored_empty : mirrored RouteSyncState_new maps0.
Proof.
  split; intros x; simpl; rewrite lookup_empty, elem_of_empty; (split; [done|by intros [? ?]]).
Qed.

Lemma sync_routes_kernel_witness :
  mirrored after1.1 after1.2 ∧ km_lookup after1.2.1 9 = None ∧ is_Some (km_lookup after1.2.1 8).
Proof.
  destruct (sync_routes_kernel (H := sample_core) node_a update1 RouteSyncState_new maps0
    after1.1 after1.2 mirrored_empty) as (ds & _ & Hm & _); [apply run_outcome; by vm_compute|].
  split; [exact Hm|]. split; [by vm_compute|]. vm_compute. eauto.
Defined.

(** Retargeting: the second update moves dummy IP 7 from node a to node b, and
    the kernel map still routes it to node a, under version 1. *)
Example retarget_ignored :
  km_lookup after2.2.1 7 = km_lookup after1.2.1 7 ∧ after2.1.(current_version) = 2.
Proof. by vm_compute. Qed.

(** A partly applied removal: the mirror of [after1] over a map that lost IP 8. *)
Definition lost8 : routes_map * locals_map :=
  (mkCapmap 4 (delete 8 after1.2.1.(contents)), after1.2.2).

Lemma sync_routes_wedged_witness :
  ∃ e maps', sync_routes (H := sample_core) node_a update2 (after1.1, lost8)
             = (MapFailed e, (after1.1, maps')).
Proof.
  assert (8 ∉ match decode_all (H := sample_core) update2.(routes) with
              | Ok ds => keys_of ds | Err _ => ∅ end) as Hk by by vm_compute.
  destruct (is_ok_inv (decode_all (H := sample_core) update2.(routes))) as [ds Hds]; [by vm_compute|].
  rewrite Hds in Hk.
  apply (sync_routes_wedged (H := sample_core) node_a update2 after1.1 lost8 8 ds);
    [by vm_compute|by vm_compute|by vm_compute|exact Hds|exact Hk].
Defined.
