(* ===== verification/RouteTable.v ===== *)
(** What route synchronisation promises: a table that takes newer frames, keeps
    the entry of a dummy IP for as long as frames list it, and forgets the
    others.  The mutation list, the userspace mirror and the two kernel maps of
    src/routes/table.rs and src/wiring.rs answer every history of frames as this
    table does, as long as the kernel maps have twice the room of a frame: new
    entries are inserted before old ones are removed. *)
From S2P Require Import Prelude Simulation Errors Core Diff Routes.

Record route_table := mkTable {
  rt_version : Z;
  rt_routes : gmap Z bytes;
  rt_locals : gset bytes;
}.

Section table.
Context `{FleetCore}.

Definition table_step (own : SpiffeId) (t : route_table) (u : RouteUpdate) : sync_outcome * route_table :=
  if decide (u.(version) ≤ t.(rt_version)) then (Stale, t) else
  match decode_all u.(routes) with
  | Err e => (Rejected e, t)
  | Ok ds =>
      (Applied, mkTable u.(version)
         (filter (λ '(k, _), k ∈ keys_of ds) t.(rt_routes) ∪ table_of u.(version) ds)
         (fps_of own ds))
  end.
End table.

(** ** Room in the kernel maps *)

Section room.
Context `{FleetCore} {OZ : HashOrder Z} {OB : HashOrder bytes}.
Abbreviation routes_map := (capmap Z bytes).
Abbreviation locals_map := (capmap bytes Z).
Implicit Types (d : routes_map) (l : locals_map) (ms : RouteMutations).

Lemma apply_mutations_comp ms ms' (maps mid : routes_map * locals_map) :
  apply_mutations_to_maps ms maps = (Ok tt, mid) →
  apply_mutations_to_maps (ms ++ ms') maps = apply_mutations_to_maps ms' mid.
Proof.
  revert maps. induction ms as [|m ms IH]; intros maps Hrun; [by injection Hrun as <-|].
  simpl in *. apply M_bind_ok in Hrun as ([] & mid' & Hm & Hms).
  unfold mbind at 1, M_bind. rewrite Hm. by apply IH.
Qed.

(** [m] only inserts, keys of [ks] and [fps]. *)
Definition inserts (ks : gset Z) (fps : gset bytes) (m : RouteMutation) : Prop :=
  match m with InsertRoute k _ => k ∈ ks | AddLocalWorkload fp => fp ∈ fps | _ => False end.

Lemma inserts_fit ks fps ms d l :
  Forall (inserts ks fps) ms → dom d.(contents) ⊆ ks → dom l.(contents) ⊆ fps →
  (size ks ≤ d.(cap))%nat → (size fps ≤ l.(cap))%nat →
  ∃ d' l', apply_mutations_to_maps ms (d, l) = (Ok tt, (d', l')) ∧ d'.(cap) = d.(cap) ∧ l'.(cap) = l.(cap) ∧
    dom d.(contents) ⊆ dom d'.(contents) ∧ dom l.(contents) ⊆ dom l'.(contents).
Proof.
  intros Hms. revert d l. induction Hms as [|m ms Hm _ IH]; intros d l Hd Hl Hcd Hcl; [by exists d, l|].
  destruct m as [k v|k|fp|fp]; try done; simpl in Hm.
  - assert (dom (<[k := route_value_bytes v]> d.(contents)) ⊆ ks) as Hd' by (rewrite dom_insert; set_solver).
    destruct (IH (mkCapmap d.(cap) (<[k := route_value_bytes v]> d.(contents))) l)
      as (d' & l' & Hrun & Hc & Hc' & Hs & Hs'); [done..|].
    exists d', l'. cbn [apply_mutations_to_maps apply_mutation_to_maps]. unfold mbind, M_bind, on_routes.
    rewrite (capmap_insert_fits d ks) by done. split; [exact Hrun|]. do 2 (split; [done|]).
    split; [|done]. simpl in Hs. rewrite dom_insert in Hs. set_solver.
  - assert (dom (<[fp := 1]> l.(contents)) ⊆ fps) as Hl' by (rewrite dom_insert; set_solver).
    destruct (IH d (mkCapmap l.(cap) (<[fp := 1]> l.(contents))))
      as (d' & l' & Hrun & Hc & Hc' & Hs & Hs'); [done..|].
    exists d', l'. cbn [apply_mutations_to_maps apply_mutation_to_maps]. unfold mbind, M_bind, on_locals.
    rewrite (capmap_insert_fits l fps) by done. split; [exact Hrun|]. do 3 (split; [done|]).
    simpl in Hs'. rewrite dom_insert in Hs'. set_solver.
Qed.

Lemma deletes_fit ks d l :
  NoDup ks → (∀ k, k ∈ ks → k ∈ dom d.(contents)) →
  ∃ d', apply_mutations_to_maps (DeleteRoute <$> ks) (d, l) = (Ok tt, (d', l)) ∧ d'.(cap) = d.(cap).
Proof.
  intros Hnd. revert d. induction Hnd as [|k ks Hk _ IH]; intros d Hd; [by exists d|].
  assert (is_Some (d.(contents) !! k)) as [v Hv] by (apply elem_of_dom, Hd; by left).
  destruct (IH (mkCapmap d.(cap) (delete k d.(contents)))) as (d' & Hrun & Hc).
  { intros k' Hk'. simpl. rewrite dom_delete. specialize (Hd k'). set_solver. }
  exists d'. cbn [fmap list_fmap apply_mutations_to_maps apply_mutation_to_maps]. unfold mbind, M_bind, on_routes.
  simpl. by rewrite Hv.
Qed.
Lemma removes_fit fps d l :
  NoDup fps → (∀ fp, fp ∈ fps → fp ∈ dom l.(contents)) →
  ∃ l', apply_mutations_to_maps (RemoveLocalWorkload <$> fps) (d, l) = (Ok tt, (d, l')) ∧ l'.(cap) = l.(cap).
Proof.
  intros Hnd. revert l. induction Hnd as [|fp fps Hfp _ IH]; intros l Hl; [by exists l|].
  assert (is_Some (l.(contents) !! fp)) as [v Hv] by (apply elem_of_dom, Hl; by left).
  destruct (IH (mkCapmap l.(cap) (delete fp l.(contents)))) as (l' & Hrun & Hc).
  { intros fp' Hfp'. simpl. rewrite dom_delete. specialize (Hl fp'). set_solver. }
  exists l'. cbn [fmap list_fmap apply_mutations_to_maps apply_mutation_to_maps]. unfold mbind, M_bind, on_locals.
  simpl. by rewrite Hv.
Qed.

(** The loop of [process_route_update] only inserts, and only what the frame
    lists. *)
Lemma process_entries_inserts st v own es a a' ks fps :
  process_entries st v own es a = Ok a' → Forall (inserts ks fps) a.(mutations) →
  (∀ ds, decode_all es = Ok ds → keys_of ds ⊆ ks ∧ fps_of own ds ⊆ fps) →
  Forall (inserts ks fps) a'.(mutations).
Proof.
  revert a. induction es as [|e es IH]; intros a Hp Ha Hsub; simpl in Hp; [by simplify_eq|].
  apply result_bind_ok in Hp as (a1 & He & Hes).
  pose proof (process_entries_sets _ _ _ _ _ _ Hes) as (ds & Hds & _).
  apply process_entry_decode in He as (dd & Hdd & _ & _ & Hm).
  destruct (Hsub (dd :: ds)) as [Hks Hfps]; [by apply decode_all_cons|].
  rewrite keys_of_cons in Hks. rewrite fps_of_cons in Hfps. apply (IH a1 Hes).
  - rewrite Hm, !Forall_app. split; [done|]. split.
    + destruct (decide (_ ∈ _)); repeat constructor. simpl. apply Hks, elem_of_union. left. by apply elem_of_singleton.
    + destruct (decide (_ ∧ _)) as [[Hl _]|]; repeat constructor. simpl. apply Hfps, elem_of_union. left.
      rewrite decide_True by done. by apply elem_of_singleton.
  - intros ds'. rewrite Hds. intros [= <-].
    split; (etrans; [apply union_subseteq_r|done]).
Qed.

(** A frame with room for itself and its predecessor applies. *)
Lemma mutations_fit own u st ms d l ds :
  process_route_update st u own = Ok (Some ms) → decode_all u.(routes) = Ok ds →
  st.(dummy_ip_keys) = dom d.(contents) → st.(local_workload_fps) = dom l.(contents) →
  (size st.(dummy_ip_keys) + size (keys_of ds) ≤ d.(cap))%nat →
  (size st.(local_workload_fps) + size (fps_of own ds) ≤ l.(cap))%nat →
  ∃ d' l', apply_mutations_to_maps ms (d, l) = (Ok tt, (d', l')) ∧ d'.(cap) = d.(cap) ∧ l'.(cap) = l.(cap).
Proof.
  intros (_ & a & Ha & ->)%process_route_update_inv Hds Hd Hl Hcd Hcl.
  assert (∀ (T : Type) `{Countable T} (X Y : gset T), (size (X ∪ Y) ≤ size X + size Y)%nat) as Hunion.
  { intros. rewrite size_union_alt. apply Nat.add_le_mono_l, subseteq_size. set_solver. }
  destruct (inserts_fit (st.(dummy_ip_keys) ∪ keys_of ds) (st.(local_workload_fps) ∪ fps_of own ds)
    a.(mutations) d l) as (d1 & l1 & Hrun & Hc1 & Hc2 & Hs1 & Hs2).
  { apply (process_entries_inserts _ _ _ _ _ _ _ _ Ha); [constructor|].
    intros ds'. rewrite Hds. intros [= <-]. split; apply union_subseteq_r. }
  { rewrite Hd. apply union_subseteq_l. }
  { rewrite Hl. apply union_subseteq_l. }
  { etrans; [apply Hunion|done]. }
  { etrans; [apply Hunion|done]. }
  destruct (deletes_fit (filter (λ k, k ∉ a.(desired_keys)) (iter_set st.(dummy_ip_keys))) d1 l1) as (d2 & Hrun2 & Hc3).
  { apply NoDup_filter, NoDup_iter_set. }
  { intros k [_ Hk%elem_of_iter_set]%list_elem_of_filter. apply Hs1. by rewrite <-Hd. }
  destruct (removes_fit (filter (λ fp, fp ∉ a.(desired_fps)) (iter_set st.(local_workload_fps))) d2 l1) as (l2 & Hrun3 & Hc4).
  { apply NoDup_filter, NoDup_iter_set. }
  { intros k [_ Hk%elem_of_iter_set]%list_elem_of_filter. apply Hs2. by rewrite <-Hl. }
  exists d2, l2. split; [|split; congruence].
  by rewrite (apply_mutations_comp _ _ _ _ Hrun), (apply_mutations_comp _ _ _ _ Hrun2).
Qed.
End room.

(** ** Every history *)

Section refinement.
Context `{FleetCore} {OZ : HashOrder Z} {OB : HashOrder bytes}.
Context (own : SpiffeId) (cap_routes cap_locals : nat).

(** At most half of either kernel map. *)
Definition fits (u : RouteUpdate) : Prop := ∀ ds, decode_all u.(routes) = Ok ds →
  (2 * size (keys_of ds) ≤ cap_routes ∧ 2 * size (fps_of own ds) ≤ cap_locals)%nat.

Record represents (s : RouteSyncState * (capmap Z bytes * capmap bytes Z)) (t : route_table) : Prop := mkRep {
  rep_version : s.1.(current_version) = t.(rt_version);
  rep_routes : s.2.1.(contents) = t.(rt_routes);
  rep_locals : dom s.2.2.(contents) = t.(rt_locals);
  rep_keys : s.1.(dummy_ip_keys) = dom s.2.1.(contents);
  rep_fps : s.1.(local_workload_fps) = dom s.2.2.(contents);
  rep_cap : s.2.1.(cap) = cap_routes ∧ s.2.2.(cap) = cap_locals;
  rep_size : (2 * size s.1.(dummy_ip_keys) ≤ cap_routes ∧ 2 * size s.1.(local_workload_fps) ≤ cap_locals)%nat;
}.

Lemma mirrored_dom (st : RouteSyncState) (d : capmap Z bytes) (l : capmap bytes Z) :
  mirrored st (d, l) ↔ st.(dummy_ip_keys) = dom d.(contents) ∧ st.(local_workload_fps) = dom l.(contents).
Proof. unfold mirrored. simpl. rewrite !set_eq. by setoid_rewrite elem_of_dom. Qed.

Lemma decode_entry_err e err (st : RouteSyncState) v a : decode_entry e = Err err → process_entry st v own a e = Err err.
Proof.
  unfold decode_entry, process_entry. destruct (parse_destination e); simpl; [|congruence].
  destruct (parse_role e); simpl; [|congruence]. by destruct (parse_target_agent e); simpl; [|congruence].
Qed.
Lemma decode_all_err es err (st : RouteSyncState) v a : decode_all es = Err err → process_entries st v own es a = Err err.
Proof.
  revert a. induction es as [|e es IH]; intros a Hes; [done|]. simpl in Hes |- *.
  destruct (decode_entry e) as [d|err'] eqn:Hd; simpl in Hes.
  - destruct (process_entry st v own a e) as [a'|err'] eqn:Ha.
    + simpl. apply IH. by destruct (decode_all es); simpl in Hes; [|congruence].
    + destruct (process_entries_total st v own [e] [d] a) as [? Hok]; [by simpl; rewrite Hd|].
      simpl in Hok. by rewrite Ha in Hok.
  - injection Hes as ->. by rewrite (decode_entry_err e err).
Qed.

Lemma lookup_kept {V} (ks : gset Z) (m : gmap Z V) k :
  filter (λ '(j, _), j ∈ ks) m !! k = if decide (k ∈ ks) then m !! k else None.
Proof.
  rewrite map_lookup_filter. destruct (m !! k); simpl; case_decide; try done;
    [by rewrite option_guard_True|by rewrite option_guard_False].
Qed.

Lemma routes_simulate :
  simulates (λ s u, sync_routes own u s) (table_step own) fits represents.
Proof.
  intros [st [d l]] t u Hfit [Hv Hr Hl Hk Hf [Hcd Hcl] [Hsk Hsf]]. simpl in *.
  unfold sync_routes, table_step.
  destruct (process_route_update st u own) as [[ms|]|e] eqn:Hp.
  - pose proof Hp as [Hver _]%process_route_update_inv. rewrite decide_False by lia.
    destruct (process_apply_desired st u own ms Hp) as (ds & Hds & Hst).
    destruct (route_mutations_effect own u st ms Hp) as (ds' & Hds' & Heff).
    rewrite Hds in Hds' |- *. injection Hds' as <-. destruct (Hfit ds Hds) as [Hfk Hff].
    destruct (mutations_fit own u st ms d l ds Hp Hds Hk Hf) as (d' & l' & Hrun & Hcd' & Hcl'); [lia..|].
    rewrite Hrun. split; [done|]. rewrite Hst.
    assert (mirrored st (d, l)) as Hm by by apply mirrored_dom.
    pose proof (mirrored_steps _ _ _ _ _ Hrun Hm) as [Hm1 Hm2]%mirrored_dom.
    unfold apply_mutations_to_state in Hst. injection Hst as Hkeys Hfps.
    rewrite Hkeys in Hm1. rewrite Hfps in Hm2.
    split; simpl; try done; [|split; congruence].
    apply map_eq. intros k. pose proof (proj1 (apply_mutations_ok _ _ _ _ Hrun) k) as Hlk.
    simpl in Hlk. rewrite Hlk, Heff, lookup_union, lookup_kept, Hr, Hk, Hr.
    pose proof (table_of_keys u.(version) ds k) as Htab.
    destruct (decide (k ∈ keys_of ds)) as [Hin|Hin].
    + destruct (decide (k ∈ dom _)) as [[x ->]%elem_of_dom|Hout]; [by destruct (table_of _ _ !! k)|].
      apply not_elem_of_dom in Hout as ->. by destruct (table_of _ _ !! k).
    + assert (table_of u.(version) ds !! k = None) as -> by (apply eq_None_not_Some; by rewrite Htab).
      destruct (decide (k ∈ dom _)) as [|Hout]; [done|]. by apply not_elem_of_dom in Hout as ->.
  - unfold process_route_update in Hp. rewrite Hv in Hp. destruct (decide _); [done|].
    by apply result_bind_ok in Hp as (? & _ & ?).
  - unfold process_route_update in Hp. rewrite Hv in Hp. destruct (decide _); [done|].
    destruct (decode_all u.(routes)) as [ds|err] eqn:Hds.
    + destruct (process_entries_total st u.(version) own u.(routes) ds (mkAcc [] ∅ ∅) Hds) as [a Ha].
      by rewrite Ha in Hp.
    + rewrite (decode_all_err _ _ _ _ _ Hds) in Hp. injection Hp as <-. by split.
Qed.

(** C11: Route synchronisation implements the table.  From a fresh agent with
    empty kernel maps, whatever frames come, when each lists at most half of
    either map's capacity, every frame is answered as the table answers it (no
    kernel call fails), and the two kernel maps then hold exactly the table's
    routes and local workloads. *)
Theorem routes_refine us :
  Forall fits us →
  let detailed := run (λ s u, sync_routes own u s) (RouteSyncState_new, (mkCapmap cap_routes ∅, mkCapmap cap_locals ∅)) us in
  let spec := run (table_step own) (mkTable 0 ∅ ∅) us in
  detailed.1 = spec.1 ∧ detailed.2.2.1.(contents) = spec.2.(rt_routes) ∧
  dom detailed.2.2.2.(contents) = spec.2.(rt_locals).
Proof.
  intros Hus. destruct (simulation _ _ _ _ (RouteSyncState_new, (mkCapmap cap_routes ∅, mkCapmap cap_locals ∅))
    (mkTable 0 ∅ ∅) us routes_simulate Hus) as [Hout Hrep].
  - split; rewrite ?dom_empty_L; try done. split; apply Nat.le_0_l.
  - split; [exact Hout|]. split; [apply Hrep|]. by rewrite (rep_locals _ _ Hrep).
Qed.
End refinement.

(** Half the capacity is what it takes: a map of three entries cannot replace
    two by two others, and every later frame without the old entries fails the
    same way. *)
Definition disjoint_frames : list RouteUpdate :=
  [mkRouteUpdate 1 [entry "acme/db" "primary" "system/a" 1; entry "acme/web" "" "system/b" 2];
   mkRouteUpdate 2 [entry "acme/db" "primary" "system/a" 3; entry "acme/web" "" "system/b" 4];
   mkRouteUpdate 3 [entry "acme/db" "primary" "system/a" 5; entry "acme/web" "" "system/b" 6]].
Definition sync_with (n : nat) : list sync_outcome * (RouteSyncState * (capmap Z bytes * capmap bytes Z)) :=
  run (λ s u, sync_routes (H := sample_core) node_a u s) (RouteSyncState_new, (mkCapmap n ∅, mkCapmap 4 ∅)) disjoint_frames.
Example full_replacement_stuck :
  match (sync_with 3).1 with [Applied; MapFailed _; MapFailed _] => true | _ => false end = true.
Proof. by vm_compute. Qed.

Definition decoded_sizes (u : RouteUpdate) : nat * nat :=
  match decode_all (H := sample_core) u.(routes) with
  | Ok ds => (size (keys_of ds), size (fps_of node_a ds))
  | Err _ => (0, 0)%nat
  end.
Lemma frames_fit : Forall (fits (H := sample_core) node_a 4 4) disjoint_frames.
Proof.
  assert (Forall (λ u, 2 * (decoded_sizes u).1 ≤ 4 ∧ 2 * (decoded_sizes u).2 ≤ 4)%nat disjoint_frames) as Hs
    by (apply (bool_decide_unpack _); by vm_compute).
  eapply Forall_impl; [exact Hs|]. intros u Hu ds Hds. unfold decoded_sizes in Hu. by rewrite Hds in Hu.
Qed.
Lemma routes_refine_witness :
  match (sync_with 4).1 with [Applied; Applied; Applied] => true | _ => false end = true ∧
  (sync_with 4).2.2.1.(contents) =
    (run (table_step (H := sample_core) node_a) (mkTable 0 ∅ ∅) disjoint_frames).2.(rt_routes).
Proof. split; [by vm_compute|]. apply (routes_refine (H := sample_core) node_a 4 4 _ frames_fit). Defined.
