(* ===== verification/Policy.v ===== *)
(** Policy sync (src/policy/sync.rs) and its application to the kernel maps
    ([sync_policy] in src/wiring.rs).  The SAG compiler and the bytemuck casts
    are outside the repository and enter as the class [PolicyCompiler]. *)
From S2P Require Import Prelude Errors Core Diff.

Class PolicyCompiler := {
  ProtoSagRule : Type;
  SagRule : Type;
  CompiledPolicyEntry : Type;
  EbpfPolicyKey : Type;
  EbpfPolicyWildcardKey : Type;
  EbpfPolicyValue : Type;
  proto_rule_to_core : ProtoSagRule → result string SagRule;
  (** [compile_policy_set rules version trust_domain], the [entries] *)
  compile_policy_set : list SagRule → Z → string → result string (list CompiledPolicyEntry);
  (** whether the entry is [CompiledPolicyEntry::Exact] *)
  is_exact : CompiledPolicyEntry → bool;
  to_ebpf_exact_key : CompiledPolicyEntry → option EbpfPolicyKey;
  to_ebpf_wildcard_key : CompiledPolicyEntry → option EbpfPolicyWildcardKey;
  to_ebpf_value : CompiledPolicyEntry → EbpfPolicyValue;
  (** [bytemuck::bytes_of] on the three structs *)
  exact_key_pod : EbpfPolicyKey → bytes;
  wildcard_key_pod : EbpfPolicyWildcardKey → bytes;
  value_pod : EbpfPolicyValue → bytes;
}.

Record PolicySyncState := mkPolicySyncState {
  current_version : Z;
  exact_keys : gset bytes;
  wildcard_keys : gset bytes;
}.
Definition PolicySyncState_new : PolicySyncState := mkPolicySyncState 0 ∅ ∅.

Section policy.
Context `{PolicyCompiler} {OB : HashOrder bytes}.

Record PolicyMutations := mkPolicyMutations {
  insert_exact : list (EbpfPolicyKey * EbpfPolicyValue);
  delete_exact : list bytes;
  insert_wildcard : list (EbpfPolicyWildcardKey * EbpfPolicyValue);
  delete_wildcard : list bytes;
}.

Definition mutations_is_empty (m : PolicyMutations) : bool :=
  match m with
  | mkPolicyMutations [] [] [] [] => true
  | _ => false
  end.

Definition exact_key_bytes (k : EbpfPolicyKey) : bytes := exact_key_pod k.
Definition wildcard_key_bytes (k : EbpfPolicyWildcardKey) : bytes := wildcard_key_pod k.

(** The loop variables: the inserts so far and the two desired key sets. *)
Record acc := mkAcc {
  a_exact : list (EbpfPolicyKey * EbpfPolicyValue);
  a_wildcard : list (EbpfPolicyWildcardKey * EbpfPolicyValue);
  desired_exact : gset bytes;
  desired_wildcard : gset bytes;
}.

Definition sync_entry (state : PolicySyncState) (a : acc) (entry : CompiledPolicyEntry) : acc :=
  if is_exact entry then
    match to_ebpf_exact_key entry with
    | Some key =>
        let kb := exact_key_bytes key in
        mkAcc (if decide (kb ∈ state.(exact_keys)) then a.(a_exact)
               else a.(a_exact) ++ [(key, to_ebpf_value entry)])
          a.(a_wildcard) ({[kb]} ∪ a.(desired_exact)) a.(desired_wildcard)
    | None => a
    end
  else
    match to_ebpf_wildcard_key entry with
    | Some key =>
        let kb := wildcard_key_bytes key in
        mkAcc a.(a_exact)
          (if decide (kb ∈ state.(wildcard_keys)) then a.(a_wildcard)
           else a.(a_wildcard) ++ [(key, to_ebpf_value entry)])
          a.(desired_exact) ({[kb]} ∪ a.(desired_wildcard))
    | None => a
    end.

Definition compute_sync_mutations (state : PolicySyncState)
    (entries : list CompiledPolicyEntry) : PolicyMutations :=
  let a := foldl (sync_entry state) (mkAcc [] [] ∅ ∅) entries in
  mkPolicyMutations a.(a_exact)
    (filter (λ k, k ∉ a.(desired_exact)) (iter_set state.(exact_keys)))
    a.(a_wildcard)
    (filter (λ k, k ∉ a.(desired_wildcard)) (iter_set state.(wildcard_keys))).

Fixpoint convert_rules (rules : list ProtoSagRule) : Result (list SagRule) :=
  match rules with
  | [] => Ok []
  | r :: rules =>
      c ← map_err (λ e, Errors.Policy ("proto→core conversion failed: " +:+ e)) (proto_rule_to_core r);
      cs ← convert_rules rules;
      mret (c :: cs)
  end.

Definition compile_and_sync (state : PolicySyncState) (proto_rules : list ProtoSagRule)
    (version : Z) (data_trust_domain : string) :
    Result (option (PolicyMutations * list CompiledPolicyEntry)) :=
  if decide (version ≤ state.(current_version)) then Ok None else
  core_rules ← convert_rules proto_rules;
  compiled ← map_err (λ e, Errors.Policy ("compilation failed: " +:+ e))
               (compile_policy_set core_rules version data_trust_domain);
  mret (Some (compute_sync_mutations state compiled, compiled)).

Definition apply_mutations_to_state (state : PolicySyncState) (m : PolicyMutations)
    (new_version : Z) : PolicySyncState :=
  let add (ks : gset bytes) (kb : bytes) := {[kb]} ∪ ks in
  let del (ks : gset bytes) (kb : bytes) := ks ∖ {[kb]} in
  mkPolicySyncState new_version
    (foldl del (foldl add state.(exact_keys) ((λ kv, exact_key_bytes kv.1) <$> m.(insert_exact)))
       m.(delete_exact))
    (foldl del (foldl add state.(wildcard_keys)
       ((λ kv, wildcard_key_bytes kv.1) <$> m.(insert_wildcard))) m.(delete_wildcard)).

(** ** src/wiring.rs: [sync_policy] *)

Record SagUpdate := mkSagUpdate { version : Z; rules : list ProtoSagRule }.

Context {T : Type} `{!KernelMap T bytes bytes}.

(** The state pairs POLICY_EXACT with POLICY_WILDCARD. *)
Definition apply_policy_mutations (m : PolicyMutations) : M AgentError (T * T) unit :=
  _ ← on_fst (run_inserts "POLICY_EXACT insert failed: "
        ((λ kv, (exact_key_bytes kv.1, value_pod kv.2)) <$> m.(insert_exact)));
  _ ← on_fst (run_deletes "POLICY_EXACT remove failed: " m.(delete_exact));
  _ ← on_snd (run_inserts "POLICY_WILDCARD insert failed: "
        ((λ kv, (wildcard_key_bytes kv.1, value_pod kv.2)) <$> m.(insert_wildcard)));
  on_snd (run_deletes "POLICY_WILDCARD remove failed: " m.(delete_wildcard)).

Definition sync_policy (update : SagUpdate) (data_trust_domain : string) :
    M AgentError (PolicySyncState * (T * T)) unit :=
  λ '(state, maps),
    match compile_and_sync state update.(rules) update.(version) data_trust_domain with
    | Err e => (Err e, (state, maps))
    | Ok None => (Ok tt, (state, maps))
    | Ok (Some (m, _)) =>
        match apply_policy_mutations m maps with
        | (Err e, maps') => (Err e, (state, maps'))
        | (Ok _, maps') => (Ok tt, (apply_mutations_to_state state m update.(version), maps'))
        end
    end.
End policy.

(** ** The desired entries, as key and value bytes *)

Section facts.
Context `{PolicyCompiler} {OB : HashOrder bytes}.
Implicit Types (st : PolicySyncState) (es : list CompiledPolicyEntry).

Definition exact_pair (e : CompiledPolicyEntry) : option (EbpfPolicyKey * EbpfPolicyValue) :=
  if is_exact e then (λ k, (k, to_ebpf_value e)) <$> to_ebpf_exact_key e else None.
Definition wildcard_pair (e : CompiledPolicyEntry) :
    option (EbpfPolicyWildcardKey * EbpfPolicyValue) :=
  if is_exact e then None else (λ k, (k, to_ebpf_value e)) <$> to_ebpf_wildcard_key e.
Definition exact_pod (kv : EbpfPolicyKey * EbpfPolicyValue) : bytes * bytes :=
  (exact_key_bytes kv.1, value_pod kv.2).
Definition wildcard_pod (kv : EbpfPolicyWildcardKey * EbpfPolicyValue) : bytes * bytes :=
  (wildcard_key_bytes kv.1, value_pod kv.2).
Definition exact_table es : list (bytes * bytes) := exact_pod <$> omap exact_pair es.
Definition wildcard_table es : list (bytes * bytes) := wildcard_pod <$> omap wildcard_pair es.

(** One iteration: the entry's pair is inserted when its key is not tracked,
    and its key is desired in any case. *)
Lemma sync_entry_spec st a e :
  sync_entry st a e =
    mkAcc (a.(a_exact) ++ filter (λ kv, exact_key_bytes kv.1 ∉ st.(exact_keys))
             (option_list (exact_pair e)))
      (a.(a_wildcard) ++ filter (λ kv, wildcard_key_bytes kv.1 ∉ st.(wildcard_keys))
             (option_list (wildcard_pair e)))
      (list_to_set (exact_table [e]).*1 ∪ a.(desired_exact))
      (list_to_set (wildcard_table [e]).*1 ∪ a.(desired_wildcard)).
Proof.
  unfold sync_entry, exact_table, wildcard_table, exact_pair, wildcard_pair. simpl.
  destruct a as [ae aw de dw], (is_exact e); simpl.
  - destruct (to_ebpf_exact_key e) as [k|]; simpl;
      rewrite ?filter_cons, ?filter_nil, ?app_nil_r, ?(left_id_L ∅ (∪)), ?(right_id_L ∅ (∪)); [|done].
    simpl. destruct (decide (exact_key_bytes k ∈ exact_keys st)) as [Hin|Hin].
    + rewrite (decide_False (P := _ ∉ _)) by naive_solver. by rewrite app_nil_r.
    + by rewrite (decide_True (P := _ ∉ _)) by done.
  - destruct (to_ebpf_wildcard_key e) as [k|]; simpl;
      rewrite ?filter_cons, ?filter_nil, ?app_nil_r, ?(left_id_L ∅ (∪)), ?(right_id_L ∅ (∪)); [|done].
    simpl. destruct (decide (wildcard_key_bytes k ∈ wildcard_keys st)) as [Hin|Hin].
    + rewrite (decide_False (P := _ ∉ _)) by naive_solver. by rewrite app_nil_r.
    + by rewrite (decide_True (P := _ ∉ _)) by done.
Qed.

Lemma omap_cons_app {A B} (f : A → option B) x l :
  omap f (x :: l) = omap f [x] ++ omap f l.
Proof. simpl. by destruct (f x). Qed.
Lemma option_list_omap {A B} (f : A → option B) x : option_list (f x) = omap f [x].
Proof. simpl. by destruct (f x). Qed.

Lemma sync_entries_spec st es a :
  foldl (sync_entry st) a es =
    mkAcc (a.(a_exact) ++ filter (λ kv, exact_key_bytes kv.1 ∉ st.(exact_keys)) (omap exact_pair es))
      (a.(a_wildcard) ++
         filter (λ kv, wildcard_key_bytes kv.1 ∉ st.(wildcard_keys)) (omap wildcard_pair es))
      (list_to_set (exact_table es).*1 ∪ a.(desired_exact))
      (list_to_set (wildcard_table es).*1 ∪ a.(desired_wildcard)).
Proof.
  revert a. induction es as [|e es IH]; intros a.
  { simpl. rewrite !app_nil_r, !(left_id_L ∅ (∪)). by destruct a. }
  simpl foldl. rewrite IH, sync_entry_spec. simpl a_exact. simpl a_wildcard.
  simpl desired_exact. simpl desired_wildcard. unfold exact_table, wildcard_table.
  rewrite (omap_cons_app exact_pair e es), (omap_cons_app wildcard_pair e es), !option_list_omap.
  rewrite !filter_app, !fmap_app, !list_to_set_app_L.
  f_equal; [by rewrite !app_assoc..|set_by_elements|set_by_elements].
Qed.

(** The mutations are the two diffs. *)
Lemma insert_exact_diff st es :
  exact_pod <$> (compute_sync_mutations st es).(insert_exact)
  = diff_inserts st.(exact_keys) (exact_table es).
Proof.
  unfold compute_sync_mutations. rewrite sync_entries_spec. simpl.
  unfold diff_inserts, exact_table. by rewrite filter_fmap_comm.
Qed.
Lemma insert_wildcard_diff st es :
  wildcard_pod <$> (compute_sync_mutations st es).(insert_wildcard)
  = diff_inserts st.(wildcard_keys) (wildcard_table es).
Proof.
  unfold compute_sync_mutations. rewrite sync_entries_spec. simpl.
  unfold diff_inserts, wildcard_table. by rewrite filter_fmap_comm.
Qed.
Lemma delete_diff st es :
  (compute_sync_mutations st es).(delete_exact)
    = diff_deletes st.(exact_keys) (list_to_set (exact_table es).*1) ∧
  (compute_sync_mutations st es).(delete_wildcard)
    = diff_deletes st.(wildcard_keys) (list_to_set (wildcard_table es).*1).
Proof.
  unfold compute_sync_mutations. rewrite sync_entries_spec. simpl.
  by rewrite !(right_id_L ∅ (∪)).
Qed.

Lemma foldl_add_keys (ks : list bytes) (s : gset bytes) :
  foldl (λ ks kb, {[kb]} ∪ ks) s ks = s ∪ list_to_set ks.
Proof.
  revert s. induction ks as [|k ks IH]; intros s; simpl; [by rewrite (right_id_L ∅ (∪))|].
  rewrite IH. set_by_elements.
Qed.
Lemma foldl_del_keys (ks : list bytes) (s : gset bytes) :
  foldl (λ ks kb, ks ∖ {[kb]}) s ks = s ∖ list_to_set ks.
Proof.
  revert s. induction ks as [|k ks IH]; intros s; simpl; [by rewrite difference_empty_L|].
  rewrite IH. set_by_elements.
Qed.

(** Committing computed mutations leaves exactly the desired keys. *)
Lemma commit_desired st es v :
  apply_mutations_to_state st (compute_sync_mutations st es) v
  = mkPolicySyncState v (list_to_set (exact_table es).*1) (list_to_set (wildcard_table es).*1).
Proof.
  unfold apply_mutations_to_state. destruct (delete_diff st es) as [-> ->].
  rewrite !foldl_del_keys, !foldl_add_keys.
  pose proof (diff_commit st.(exact_keys) (exact_table es)) as H1.
  pose proof (diff_commit st.(wildcard_keys) (wildcard_table es)) as H2.
  rewrite <-insert_exact_diff in H1. rewrite <-insert_wildcard_diff in H2.
  rewrite <-list_fmap_compose in H1. rewrite <-list_fmap_compose in H2. f_equal; [exact H1|exact H2].
Qed.

Context {T : Type} `{!KernelMap T bytes bytes} `{!KernelMapLaws T bytes bytes}.
Implicit Types maps : T * T.

(** The userspace mirror tracks exactly the keys of the two kernel maps. *)
Definition tracks (keys : gset bytes) (m : T) : Prop :=
  ∀ k, is_Some (km_lookup m k) ↔ k ∈ keys.
Definition mirrored st maps : Prop :=
  tracks st.(exact_keys) maps.1 ∧ tracks st.(wildcard_keys) maps.2.

(** What a synchronised map holds: a tracked desired key keeps its value. *)
Definition synced (old : gset bytes) (m m' : T) (l : list (bytes * bytes)) : Prop :=
  ∀ k, km_lookup m' k =
    if decide (k ∈ l.*1) then
      if decide (k ∈ old) then km_lookup m k else last_value l !! k
    else None.

Lemma synced_tracks old m m' l :
  tracks old m → synced old m m' l → tracks (list_to_set l.*1) m'.
Proof.
  intros Ht Hs k. rewrite Hs, elem_of_list_to_set.
  destruct (decide (k ∈ l.*1)) as [Hl|Hl]; [|split; [by intros []|done]].
  destruct (decide (k ∈ old)) as [Ho|Ho]; [by rewrite (Ht k)|].
  split; [done|intros _]. destruct (last_value l !! k) eqn:Hv; [eauto|].
  by apply last_value_None in Hv.
Qed.

(** The four loops of one apply are a diff of each map. *)
Lemma apply_policy_mutations_ok st es maps u maps' :
  mirrored st maps →
  apply_policy_mutations (compute_sync_mutations st es) maps = (Ok u, maps') →
  synced st.(exact_keys) maps.1 maps'.1 (exact_table es) ∧
  synced st.(wildcard_keys) maps.2 maps'.2 (wildcard_table es).
Proof.
  intros [H1 H2]. destruct maps as [e w]. unfold apply_policy_mutations.
  fold exact_pod wildcard_pod. destruct (delete_diff st es) as [-> ->].
  change (λ kv, (exact_key_bytes kv.1, value_pod kv.2)) with exact_pod.
  change (λ kv, (wildcard_key_bytes kv.1, value_pod kv.2)) with wildcard_pod.
  rewrite insert_exact_diff, insert_wildcard_diff.
  unfold mbind, M_bind, on_fst, on_snd. intros Hrun.
  destruct (run_inserts _ _ e) as [[u1|] e1] eqn:R1; [|done].
  destruct (run_deletes _ _ e1) as [[u2|] e2] eqn:R2; [|done].
  destruct (run_inserts _ _ w) as [[u3|] w1] eqn:R3; [|done].
  destruct (run_deletes _ _ w1) as [[u4|] w2] eqn:R4; [|done].
  injection Hrun as _ <-. split; intros k.
  - eapply diff_kernel; [|exact R1|exact R2]. intros ? ?. by apply H1.
  - eapply diff_kernel; [|exact R3|exact R4]. intros ? ?. by apply H2.
Qed.

(** A policy frame that is applied compiled its full rule set; afterwards
    the tracked keys are exactly the compiled ones at the frame's version, the
    mirror still agrees with POLICY_EXACT and POLICY_WILDCARD, stale keys are
    gone from both, new keys hold the compiled value, and a key already present
    keeps the value it had. *)
Theorem sync_policy_kernel td u st maps st' maps' :
  mirrored st maps → st.(current_version) < u.(version) →
  sync_policy u td (st, maps) = (Ok tt, (st', maps')) →
  ∃ core es, convert_rules u.(rules) = Ok core ∧
    compile_policy_set core u.(version) td = Ok es ∧
    st' = mkPolicySyncState u.(version)
            (list_to_set (exact_table es).*1) (list_to_set (wildcard_table es).*1) ∧
    mirrored st' maps' ∧
    synced st.(exact_keys) maps.1 maps'.1 (exact_table es) ∧
    synced st.(wildcard_keys) maps.2 maps'.2 (wildcard_table es).
Proof.
  intros Hm Hv Hrun. unfold sync_policy, compile_and_sync in Hrun.
  rewrite decide_False in Hrun by lia.
  destruct (convert_rules u.(rules)) as [core|] eqn:Hcore; [|done]. simpl in Hrun.
  destruct (compile_policy_set core u.(version) td) as [es|] eqn:Hes; [|done]. simpl in Hrun.
  destruct (apply_policy_mutations _ maps) as [[[]|] maps1] eqn:Happ; [|done].
  injection Hrun as <- <-. exists core, es. rewrite commit_desired.
  destruct (apply_policy_mutations_ok _ _ _ _ _ Hm Happ) as [He Hw].
  do 3 (split; [done|]). split; [|done].
  destruct Hm as [H1 H2].
  split; [exact (synced_tracks _ _ _ _ H1 He)|exact (synced_tracks _ _ _ _ H2 Hw)].
Qed.

(** A frame whose version is not newer, and one whose rules do not convert
    or compile, leave the tracked keys and both kernel maps as they were; the
    stale frame is not an error. *)
Theorem sync_policy_rejected td u st maps r st' maps' :
  st.(current_version) >= u.(version) ∨
    (∀ core es, convert_rules u.(rules) = Ok core → compile_policy_set core u.(version) td ≠ Ok es) →
  sync_policy u td (st, maps) = (r, (st', maps')) →
  st' = st ∧ maps' = maps ∧ (is_ok r = true ↔ st.(current_version) >= u.(version)).
Proof.
  intros Hbad Hrun. unfold sync_policy, compile_and_sync in Hrun.
  destruct (decide (u.(version) ≤ st.(current_version))) as [Hv|Hv].
  { simplify_eq. repeat split; intros; lia || done. }
  destruct Hbad as [|Hbad]; [lia|].
  destruct (convert_rules u.(rules)) as [core|] eqn:Hcore; simpl in Hrun.
  2:{ simplify_eq. repeat split; intros; simpl in *; lia || done. }
  destruct (compile_policy_set core u.(version) td) as [es|] eqn:Hes; simpl in Hrun.
  { by destruct (Hbad core es). }
  simplify_eq. repeat split; intros; simpl in *; lia || done.
Qed.
End facts.

(** ** Witnesses *)

(** Rules (exact?, key, action) compile to one entry each; a negative key does
    not convert, and action 255 does not compile. *)
#[local] Instance sample_compiler : PolicyCompiler := {
  ProtoSagRule := bool * Z * Z;
  SagRule := bool * Z * Z;
  CompiledPolicyEntry := bool * Z * Z;
  EbpfPolicyKey := Z;
  EbpfPolicyWildcardKey := Z;
  EbpfPolicyValue := Z;
  proto_rule_to_core r := if decide (r.1.2 < 0) then Err "bad SVID" else Ok r;
  compile_policy_set rs _ _ :=
    if decide (Exists (λ r, r.2 = 255) rs) then Err "reserved action" else Ok rs;
  is_exact e := e.1.1;
  to_ebpf_exact_key e := Some e.1.2;
  to_ebpf_wildcard_key e := Some e.1.2;
  to_ebpf_value e := e.2;
  exact_key_pod := le_bytes 4;
  wildcard_key_pod := le_bytes 4;
  value_pod := le_bytes 2;
}.

Definition policy_map := capmap bytes bytes.
Definition pmaps0 : policy_map * policy_map := (mkCapmap 4 ∅, mkCapmap 4 ∅).
Definition sag1 : SagUpdate := mkSagUpdate 1 [(true, 1, 10); (true, 2, 20); (false, 3, 30)].
Definition sag2 : SagUpdate := mkSagUpdate 2 [(true, 2, 21); (false, 3, 30); (true, 4, 40)].
Definition sag3 : SagUpdate := mkSagUpdate 3 [(true, 2, 255)].
Definition psync (u : SagUpdate) (s : PolicySyncState * (policy_map * policy_map)) :=
  sync_policy u "data" s.
Definition psynced1 := (psync sag1 (PolicySyncState_new, pmaps0)).2.
Definition psynced2 := (psync sag2 psynced1).2.

Lemma policy_mirrored_empty : mirrored PolicySyncState_new pmaps0.
Proof.
  split; intros x; simpl; rewrite lookup_empty, elem_of_empty; (split; [by intros [? ?]|done]).
Qed.

Lemma sync_policy_kernel_witness :
  mirrored psynced1.1 psynced1.2 ∧ psynced1.1.(current_version) = 1.
Proof.
  destruct (sync_policy_kernel "data" sag1 PolicySyncState_new pmaps0 psynced1.1 psynced1.2
    policy_mirrored_empty ltac:(by vm_compute)) as (core & es & _ & _ & _ & Hm & _);
    [apply run_outcome; by vm_compute|].
  split; [exact Hm|by vm_compute].
Defined.

(** The second frame: key 1 is swept, key 4 is new, key 2 keeps action 20. *)
Example policy_second_frame :
  (λ k, from_le_bytes <$> km_lookup psynced2.2.1 (le_bytes 4 k)) <$> [1; 2; 3; 4]
  = [None; Some 20; None; Some 40].
Proof. by vm_compute. Qed.

Lemma sync_policy_rejected_witness :
  ∃ e, psync sag3 psynced2 = (Err e, psynced2) ∧ psync sag1 psynced2 = (Ok tt, psynced2).
Proof.
  assert (∀ core es, convert_rules sag3.(rules) = Ok core →
    compile_policy_set core sag3.(version) "data" ≠ Ok es) as Hbad.
  { intros core es [= <-]. by vm_compute. }
  assert (∀ r s, psync sag3 psynced2 = (r, s) → s = psynced2) as Hs.
  { intros r [st ms] Hrun.
    destruct (sync_policy_rejected "data" sag3 psynced2.1 psynced2.2 r st ms
      (or_intror Hbad)) as (-> & -> & _); [|done]. rewrite <-Hrun. by destruct psynced2. }
  destruct (psync sag3 psynced2) as [r s] eqn:Hrun. rewrite (Hs r s eq_refl).
  destruct r as [[]|e].
  - exfalso. cut (is_ok (psync sag3 psynced2).1 = false); [by rewrite Hrun|by vm_compute].
  - exists e. split; [done|]. unfold psync.
    destruct psynced2 as [st ms] eqn:Hp. unfold sync_policy, compile_and_sync.
    rewrite decide_True; [done|]. cut (psynced2.1.(current_version) = 2); [|by vm_compute].
    rewrite Hp. simpl. intros ->. by vm_compute.
Defined.
