(* ===== verification/PolicyTable.v ===== *)
(** What policy synchronisation promises: a table per kernel map that takes newer
    frames whose whole rule set compiles, keeps the verdict of a rule for as long
    as frames list its key, and forgets the others.  compile_and_sync and its
    mutations (src/policy/sync.rs), the mirror and the two kernel maps of
    src/wiring.rs answer every history of frames as this table does, as long as the
    kernel maps have twice the room of a frame. *)
From S2P Require Import Prelude Simulation Errors Core Diff Policy.

Record policy_table := mkPolicyTable {
  pt_version : Z;
  pt_exact : gmap bytes bytes;
  pt_wildcard : gmap bytes bytes;
}.

Section refinement.
Context `{PolicyCompiler} {OB : HashOrder bytes}.
Context (data_trust_domain : string) (cap_exact cap_wildcard : nat).

(** The entries of a frame, when all its rules convert and compile. *)
Definition compiled (u : SagUpdate) : Result (list CompiledPolicyEntry) :=
  core ← convert_rules u.(rules);
  map_err (λ e, Errors.Policy ("compilation failed: " +:+ e)) (compile_policy_set core u.(version) data_trust_domain).

(** A stale frame is no error. *)
Definition policy_step (t : policy_table) (u : SagUpdate) : Result unit * policy_table :=
  if decide (u.(version) ≤ t.(pt_version)) then (Ok tt, t) else
  match compiled u with
  | Err e => (Err e, t)
  | Ok es => (Ok tt, mkPolicyTable u.(version) (retain (exact_table es) t.(pt_exact))
                       (retain (wildcard_table es) t.(pt_wildcard)))
  end.

(** At most half of either kernel map. *)
Definition policy_fits (u : SagUpdate) : Prop := ∀ es, compiled u = Ok es →
  (2 * size (list_to_set (exact_table es).*1 : gset bytes) ≤ cap_exact ∧
   2 * size (list_to_set (wildcard_table es).*1 : gset bytes) ≤ cap_wildcard)%nat.

#[local] Abbreviation policy_map := (capmap bytes bytes).
Record policy_represents (s : PolicySyncState * (policy_map * policy_map)) (t : policy_table) : Prop := mkPolicyRep {
  pr_version : s.1.(current_version) = t.(pt_version);
  pr_exact : s.2.1.(contents) = t.(pt_exact) ∧ s.1.(exact_keys) = dom t.(pt_exact);
  pr_wildcard : s.2.2.(contents) = t.(pt_wildcard) ∧ s.1.(wildcard_keys) = dom t.(pt_wildcard);
  pr_cap : s.2.1.(cap) = cap_exact ∧ s.2.2.(cap) = cap_wildcard;
  pr_size : (2 * size (dom t.(pt_exact) : gset bytes) ≤ cap_exact ∧ 2 * size (dom t.(pt_wildcard) : gset bytes) ≤ cap_wildcard)%nat;
}.

Lemma dom_retain (l : list (bytes * bytes)) (t : gmap bytes bytes) : dom (retain l t) = list_to_set l.*1.
Proof.
  apply set_eq. intros k. unfold retain. rewrite elem_of_dom, lookup_union, elem_of_list_to_set, map_lookup_filter.
  pose proof (last_value_None l k) as Hlv. destruct (last_value l !! k) as [v|].
  - destruct (decide (k ∈ l.*1)) as [Hl|Hl]; [|by apply Hlv in Hl]. split; [done|].
    intros _. destruct (t !! k); simpl; [by rewrite option_guard_True|done].
  - assert (k ∉ l.*1) as Hl by by apply Hlv. split; [|done]. intros [x Hx].
    destruct (t !! k); simpl in Hx; [|done]. by rewrite option_guard_False in Hx.
Qed.

(** The four loops, from maps that hold the table. *)
Lemma apply_policy_fits st es e w :
  st.(exact_keys) = dom e.(contents) → st.(wildcard_keys) = dom w.(contents) →
  (size (dom e.(contents) : gset bytes) + size (list_to_set (exact_table es).*1 : gset bytes) ≤ e.(cap))%nat →
  (size (dom w.(contents) : gset bytes) + size (list_to_set (wildcard_table es).*1 : gset bytes) ≤ w.(cap))%nat →
  ∃ e' w', apply_policy_mutations (compute_sync_mutations st es) (e, w) = (Ok tt, (e', w')) ∧
    e'.(cap) = e.(cap) ∧ w'.(cap) = w.(cap) ∧
    e'.(contents) = retain (exact_table es) e.(contents) ∧ w'.(contents) = retain (wildcard_table es) w.(contents).
Proof.
  intros He Hw Hre Hrw. unfold apply_policy_mutations.
  change (λ kv, (exact_key_bytes kv.1, value_pod kv.2)) with exact_pod.
  change (λ kv, (wildcard_key_bytes kv.1, value_pod kv.2)) with wildcard_pod.
  destruct (delete_diff st es) as [-> ->]. rewrite insert_exact_diff, insert_wildcard_diff, He, Hw.
  destruct (diff_fits "POLICY_EXACT insert failed: " "POLICY_EXACT remove failed: " (exact_table es) e Hre)
    as (e1 & e2 & I1 & D1 & Ce & Ee).
  destruct (diff_fits "POLICY_WILDCARD insert failed: " "POLICY_WILDCARD remove failed: " (wildcard_table es) w Hrw)
    as (w1 & w2 & I2 & D2 & Cw & Ew).
  exists e2, w2. unfold mbind, M_bind, on_fst, on_snd. by rewrite I1, D1, I2, D2.
Qed.

Lemma compile_and_sync_compiled st u :
  compile_and_sync st u.(rules) u.(version) data_trust_domain =
    if decide (u.(version) ≤ st.(current_version)) then Ok None else
    es ← compiled u; mret (Some (compute_sync_mutations st es, es)).
Proof.
  unfold compile_and_sync, compiled. destruct (decide _); [done|]. by destruct (convert_rules u.(rules)).
Qed.

Lemma policy_simulate :
  simulates (λ s u, sync_policy u data_trust_domain s) policy_step policy_fits policy_represents.
Proof.
  intros [st [e w]] t u Hfit [Hv [He Hke] [Hw Hkw] [Hce Hcw] [Hse Hsw]]. simpl in *.
  unfold sync_policy, policy_step. rewrite compile_and_sync_compiled, Hv.
  destruct (decide (u.(version) ≤ t.(pt_version))); [by split|].
  destruct (compiled u) as [es|err] eqn:Hc; cbn [mbind result_bind]; [|by split].
  destruct (Hfit es Hc) as [Hfe Hfw].
  destruct (apply_policy_fits st es e w) as (e' & w' & Hrun & Hce' & Hcw' & Ee & Ew);
    [congruence|congruence|rewrite He; lia|rewrite Hw; lia|].
  cbn [mret result_ret]. rewrite Hrun, commit_desired. split; [done|].
  split; simpl; rewrite ?Ee, ?Ew, ?He, ?Hw, ?dom_retain; split_and?; try done; congruence.
Qed.

(** C12: Policy synchronisation implements the table.  From a fresh agent with
    empty kernel maps, whatever frames come, when each compiles to at most half of
    either map's capacity, every frame is answered as the table answers it (no
    kernel call fails), and the two kernel maps then hold exactly the table's
    rules. *)
Theorem policy_refines us :
  Forall policy_fits us →
  let detailed := run (λ s u, sync_policy u data_trust_domain s)
    (PolicySyncState_new, (mkCapmap cap_exact ∅, mkCapmap cap_wildcard ∅)) us in
  let spec := run policy_step (mkPolicyTable 0 ∅ ∅) us in
  detailed.1 = spec.1 ∧ detailed.2.2.1.(contents) = spec.2.(pt_exact) ∧
  detailed.2.2.2.(contents) = spec.2.(pt_wildcard).
Proof.
  intros Hus. destruct (simulation _ _ _ _ (PolicySyncState_new, (mkCapmap cap_exact ∅, mkCapmap cap_wildcard ∅))
    (mkPolicyTable 0 ∅ ∅) us policy_simulate Hus) as [Hout [_ [He _] [Hw _] _ _]]; [|by split_and!].
  split; simpl; rewrite ?dom_empty_L; try done. split; apply Nat.le_0_l.
Qed.
End refinement.

(** ** Witness: the sample frames of Policy.v, a stale one among them *)

#[local] Existing Instance sample_compiler.
Definition policy_frames : list SagUpdate := [sag1; sag2; sag1; sag3].

Lemma policy_frames_fit : Forall (policy_fits "data" 4 4) policy_frames.
Proof.
  assert (∀ u, match compiled "data" u with
    | Ok es => bool_decide (2 * size (list_to_set (exact_table es).*1 : gset bytes) ≤ 4 ∧
                            2 * size (list_to_set (wildcard_table es).*1 : gset bytes) ≤ 4)%nat
    | Err _ => true end = true → policy_fits "data" 4 4 u) as Hfit.
  { intros u Hu es Hes. rewrite Hes in Hu. by apply bool_decide_eq_true in Hu. }
  unfold policy_frames. rewrite !Forall_cons. split_and!; [apply Hfit; by vm_compute..|done].
Qed.

Lemma policy_refines_witness :
  is_ok <$> (run (λ s u, sync_policy u "data" s) (PolicySyncState_new, pmaps0) policy_frames).1 = [true; true; true; false] ∧
  (run (λ s u, sync_policy u "data" s) (PolicySyncState_new, pmaps0) policy_frames).2.2.1.(contents) =
    (run (policy_step "data") (mkPolicyTable 0 ∅ ∅) policy_frames).2.(pt_exact).
Proof.
  split; [by vm_compute|]. apply (policy_refines "data" 4 4 policy_frames policy_frames_fit).
Defined.
