(* ===== verification/Svid.v ===== *)
(** Node SVID state and its persistence (src/identity/svid.rs).  Postcard's
    encoding of the certificate chain is a parameter. *)
From S2P Require Import Prelude Errors Store.

Definition KEY_CERT_CHAIN : bytes := as_bytes "cert_chain".
Definition KEY_VERSION : bytes := as_bytes "svid_version".
Definition KEY_GENERATION : bytes := as_bytes "generation".
Definition KEY_INSTALLED : bytes := as_bytes "installed".

Record SvidState := mkSvidState {
  cert_chain_der : list bytes;
  svid_version : Z;
  generation : Z;
}.
#[export] Instance SvidState_eq_dec : EqDecision SvidState.
Proof. solve_decision. Defined.

Definition SvidState_default : SvidState := mkSvidState [] 0 0.
Definition is_none (s : SvidState) : bool := bool_decide (s.(cert_chain_der) = []).

(** [postcard::to_allocvec] and [from_bytes] at [Vec<Vec<u8>>]. *)
Class ChainCodec := {
  chain_to_bytes : list bytes → result string bytes;
  chain_from_bytes : bytes → result string (list bytes);
  chain_roundtrip c b : chain_to_bytes c = Ok b → chain_from_bytes b = Ok c;
}.

Section svid.
Context {K : Type} `{Keyspace K} `{ChainCodec}.

(** [u64::from_le_bytes(raw.try_into()?)]: exactly eight bytes. *)
Definition u64_of_record (raw : bytes) : option Z :=
  if decide (length raw = 8)%nat then Some (from_le_bytes raw) else None.

Definition load : M AgentError (Storage K) SvidState :=
  installed_bytes ← svid_get KEY_INSTALLED;
  let installed :=
    match installed_bytes with
    | Some (b :: _) => bool_decide (byte_to_Z b = 1)
    | _ => false
    end in
  if negb installed then mret SvidState_default else
  cert_chain_raw ← svid_get KEY_CERT_CHAIN;
  cert_chain_raw ← lift (ok_or (Identity "SVID marked installed but cert chain missing") cert_chain_raw);
  chain ← lift (map_err Serialization (chain_from_bytes cert_chain_raw));
  version_raw ← svid_get KEY_VERSION;
  version_raw ← lift (ok_or (Identity "SVID marked installed but version missing") version_raw);
  version ← lift (ok_or (Identity "corrupt svid_version") (u64_of_record version_raw));
  gen_raw ← svid_get KEY_GENERATION;
  gen_raw ← lift (ok_or (Identity "SVID marked installed but generation missing") gen_raw);
  gen ← lift (ok_or (Identity "corrupt generation") (u64_of_record gen_raw));
  mret (mkSvidState chain version gen).

Definition store (chain : list bytes) (version current_generation : Z) :
    M AgentError (Storage K) SvidState :=
  let gen := u64_add current_generation 1 in
  cert_bytes ← lift (map_err Serialization (chain_to_bytes chain));
  _ ← svid_insert KEY_CERT_CHAIN cert_bytes;
  _ ← svid_insert KEY_VERSION (le_bytes 8 version);
  _ ← svid_insert KEY_GENERATION (le_bytes 8 gen);
  _ ← svid_insert KEY_INSTALLED [byte_of_Z 1];
  mret (mkSvidState chain version gen).

Definition clear : M AgentError (Storage K) unit :=
  svid_insert KEY_INSTALLED [byte_of_Z 0].
(** The installation of a new SVID (src/join): the generation on record is the
    one the new one follows. *)
Definition install (cert_chain_der : list bytes) (svid_version : Z) : M AgentError (Storage K) SvidState :=
  current ← load;
  store cert_chain_der svid_version current.(generation).
Fixpoint install_all (rotations : list (list bytes * Z)) : M AgentError (Storage K) unit :=
  match rotations with
  | [] => mret tt
  | (chain, v) :: rotations => _ ← install chain v; install_all rotations
  end.
End svid.

Section facts.
Context {K : Type} `{KeyspaceLaws K} `{ChainCodec}.
Implicit Types (st : Storage K).

Lemma u64_of_record_le z : is_u64 z → u64_of_record (le_bytes 8 z) = Some z.
Proof.
  intros Hz. unfold u64_of_record. rewrite length_le_bytes, decide_True by done.
  by rewrite from_le_bytes_u64.
Qed.

Lemma u64_add_range a b : is_u64 (u64_add a b).
Proof. unfold u64_add, is_u64. apply Z.mod_pos_bound. lia. Qed.

(** What the four records of a completed [store] hold. *)
Lemma store_records chain v g st s st' :
  store chain v g st = (Ok s, st') →
  s = mkSvidState chain v (u64_add g 1) ∧
  ∃ b, chain_to_bytes chain = Ok b ∧
    ks_get st'.(svid) KEY_CERT_CHAIN = Ok (Some b) ∧
    ks_get st'.(svid) KEY_VERSION = Ok (Some (le_bytes 8 v)) ∧
    ks_get st'.(svid) KEY_GENERATION = Ok (Some (le_bytes 8 (u64_add g 1))) ∧
    ks_get st'.(svid) KEY_INSTALLED = Ok (Some [byte_of_Z 1]).
Proof.
  unfold store. intros Hrun.
  apply M_bind_ok in Hrun as (b & st0 & Hb & Hrun).
  unfold lift in Hb. destruct (chain_to_bytes chain) as [b'|] eqn:Hc; [|done].
  injection Hb as -> <-.
  apply M_bind_ok in Hrun as ([] & st1 & (k1 & Hk1 & ->)%write_ok & Hrun).
  apply M_bind_ok in Hrun as ([] & st2 & (k2 & Hk2 & ->)%write_ok & Hrun).
  apply M_bind_ok in Hrun as ([] & st3 & (k3 & Hk3 & ->)%write_ok & Hrun).
  apply M_bind_ok in Hrun as ([] & st4 & (k4 & Hk4 & ->)%write_ok & Hrun).
  unfold mret, M_ret in Hrun. injection Hrun as <- <-. simpl in *.
  split; [done|]. exists b. split; [done|].
  rewrite !(ks_insert_ok _ _ _ _ Hk4), !(ks_insert_ok _ _ _ _ Hk3),
    !(ks_insert_ok _ _ _ _ Hk2), !(ks_insert_ok _ _ _ _ Hk1).
  repeat split; repeat (rewrite decide_True by done || rewrite decide_False by done); done.
Qed.

Lemma store_load chain v g st s st' :
  is_u64 v → store chain v g st = (Ok s, st') → load st' = (Ok s, st').
Proof.
  intros Hv (-> & b & Hb & Hchain & Hver & Hgen & Hinst)%store_records.
  unfold load, mbind, M_bind, svid_get, read. rewrite Hinst. simpl.
  rewrite Hchain. simpl. unfold lift. rewrite (chain_roundtrip _ _ Hb). simpl.
  rewrite Hver. cbn [map_err ok_or]. rewrite u64_of_record_le by done. cbn [ok_or].
  rewrite Hgen. cbn [map_err ok_or]. by rewrite u64_of_record_le by apply u64_add_range.
Qed.

(** Loading writes nothing. *)
Lemma load_reads st r st' : load st = (r, st') → st' = st.
Proof.
  intros Hl. assert (keeps (λ s, s) load) as Hk; [|by apply (Hk st), keeps_run in Hl || by rewrite <-(Hk st), Hl].
  unfold load, svid_get, read. keeps; intros ?; done.
Qed.

(** A failed installation has written nothing, or a write of the store failed. *)
Lemma install_err chain v st e st' :
  install chain v st = (Err e, st') → st' = st ∨ ∃ msg, e = Errors.Storage msg.
Proof.
  assert (∀ key b st1 st2, svid_insert (K := K) key b st1 = (Err e, st2) → ∃ msg, e = Errors.Storage msg) as Hins.
  { intros key b st1 st2. unfold svid_insert, write.
    destruct (ks_insert _ _ _) as [[[]|msg] k]; intros [= <- _]. eauto. }
  unfold install. intros [Hl|(s & st1 & Hl & Hs)]%M_bind_err.
  { left. by eapply load_reads. }
  apply load_reads in Hl as ->. unfold store in Hs.
  apply M_bind_err in Hs as [[_ ->]%pair_equal_spec|(b & st2 & [_ ->]%lift_ok & Hs)]; [by left|]. right.
  do 4 (apply M_bind_err in Hs as [Hs|([] & ? & _ & Hs)]; [by eapply Hins|]). done.
Qed.

Lemma keeps_delegation_install chain v : keeps delegation (install chain v).
Proof.
  assert (∀ key b, keeps delegation (svid_insert (K := K) key b)) as Hins.
  { intros key b st. unfold svid_insert, write. by destruct (ks_insert _ _ _). }
  unfold install, load, store, svid_get, read. keeps; intros ?; done.
Qed.

Lemma install_ok chain v st s st' :
  is_u64 v → install chain v st = (Ok s, st') →
  ∃ s0, load st = (Ok s0, st) ∧ s = mkSvidState chain v (u64_add s0.(generation) 1) ∧ load st' = (Ok s, st').
Proof.
  intros Hv (s0 & st1 & Hl & Hs)%M_bind_ok. pose proof (load_reads _ _ _ Hl) as ->.
  exists s0. split; [done|]. split; [by apply store_records in Hs as [-> _]|]. by eapply store_load.
Qed.

(** Installed SVIDs survive restarts.  After any number of installations
    the store loads back the last chain and version, and the generation has
    gone up by one for each, modulo 2^64. *)
Theorem svid_rotations rotations chain v s0 st u st' :
  Forall (λ r, is_u64 r.2) rotations → last rotations = Some (chain, v) →
  load st = (Ok s0, st) → install_all rotations st = (Ok u, st') →
  load st' = (Ok (mkSvidState chain v ((s0.(generation) + Z.of_nat (length rotations)) mod 2 ^ 64)), st').
Proof.
  intros Hv. revert s0 st. induction Hv as [|[c w] rotations Hw _ IH]; intros s0 st Hlast Hload Hrun; [done|].
  apply M_bind_ok in Hrun as (s1 & st1 & Hins & Hrun).
  apply install_ok in Hins as (s0' & Hl & -> & Hload1); [|done].
  rewrite Hload in Hl. injection Hl as <-. rewrite last_cons in Hlast.
  destruct (last rotations) as [[c' w']|] eqn:Hl.
  - injection Hlast as -> ->. rewrite (IH _ _ eq_refl Hload1 Hrun). simpl. do 3 f_equal.
    unfold u64_add. rewrite Zplus_mod_idemp_l. f_equal. lia.
  - apply last_None in Hl as ->. injection Hrun as <- <-. injection Hlast as -> ->. done.
Qed.

Lemma svid_cleared st st' : clear st = (Ok tt, st') → load st' = (Ok SvidState_default, st').
Proof.
  intros (k & Hk & ->)%write_ok. unfold load, mbind, M_bind, svid_get, read. simpl.
  by rewrite (ks_insert_ok _ _ _ _ Hk), decide_True.
Qed.

(** After [clear] the agent has no SVID, so [load] sends it back to the
    join flow; the generation it then reports is 0 whatever it was before. *)
Theorem svid_clear_load st st' :
  clear st = (Ok tt, st') →
  load st' = (Ok SvidState_default, st') ∧ is_none SvidState_default = true.
Proof.
  intros H'%svid_cleared. by split.
Qed.
End facts.

(** ** Witnesses *)

(** A chain encoding for the witnesses: a tag byte before every content byte,
    another after each certificate. *)
Fixpoint tagged_to_bytes (c : list bytes) : bytes :=
  match c with
  | [] => []
  | b :: c => concat ((λ x, [Byte.x01; x]) <$> b) ++ [Byte.x00] ++ tagged_to_bytes c
  end.
Fixpoint tagged_from_bytes (cur : bytes) (bs : bytes) : result string (list bytes) :=
  match bs with
  | [] => if decide (cur = []) then Ok [] else Err "unexpected end"
  | Byte.x00 :: bs => (λ c, reverse cur :: c) <$> tagged_from_bytes [] bs
  | Byte.x01 :: x :: bs => tagged_from_bytes (x :: cur) bs
  | _ => Err "bad tag"
  end.

Lemma tagged_certificate b bs cur :
  tagged_from_bytes cur (concat ((λ x, [Byte.x01; x]) <$> b) ++ [Byte.x00] ++ bs)
  = (λ c, (reverse cur ++ b) :: c) <$> tagged_from_bytes [] bs.
Proof.
  revert cur. induction b as [|x b IH]; intros cur; simpl; [by rewrite app_nil_r|].
  rewrite IH, reverse_cons. by rewrite <-app_assoc.
Qed.
Lemma tagged_roundtrip c : tagged_from_bytes [] (tagged_to_bytes c) = Ok c.
Proof.
  induction c as [|b c IH]; [done|]. cbn [tagged_to_bytes].
  rewrite tagged_certificate, IH. done.
Qed.
#[export] Program Instance tagged_chain_codec : ChainCodec := {
  chain_to_bytes c := Ok (tagged_to_bytes c);
  chain_from_bytes := tagged_from_bytes [];
}.
Next Obligation. simpl. intros c b [= <-]. apply tagged_roundtrip. Qed.

Definition empty_store : Storage (gmap bytes bytes) := mkStorage ∅ ∅ ∅ ∅.
Definition joined : result AgentError SvidState * Storage (gmap bytes bytes) :=
  store [as_bytes "leaf"; as_bytes "root"] 7 3 empty_store.

(** A join, then a rotation. *)
Definition rotated := install_all [([as_bytes "leaf"], 7); ([as_bytes "leaf2"; as_bytes "root"], 8)] empty_store.
Lemma svid_rotations_witness :
  load rotated.2 = (Ok (mkSvidState [as_bytes "leaf2"; as_bytes "root"] 8 2), rotated.2).
Proof.
  apply (svid_rotations [([as_bytes "leaf"], 7); ([as_bytes "leaf2"; as_bytes "root"], 8)]
    [as_bytes "leaf2"; as_bytes "root"] 8 SvidState_default empty_store tt); [|done| |].
  - by repeat constructor.
  - reflexivity.
  - apply run_result. by vm_compute.
Defined.

Lemma svid_clear_load_witness :
  load (clear joined.2).2 = (Ok SvidState_default, (clear joined.2).2) ∧
  is_none SvidState_default = true.
Proof. apply (svid_clear_load joined.2 (clear joined.2).2). reflexivity. Defined.
