(* ===== verification/Keystore.v ===== *)
(** Sensitive-key storage (src/identity/keystore.rs): TPM sealing, envelope
    sealing and software sealing over the [delegation] keyspace.  The TPM, the
    ciphers, the entropy source and postcard are outside the repository and
    enter as the class [Sealing]. *)
From S2P Require Import Prelude Errors Store Svid.

Record SealedSecret := mkSealedSecret {
  sealed_for_svid_version : Z;
  sequence : Z;
  ephemeral_pubkey : bytes;
  ciphertext : bytes;
}.

(** [W] is the state outside the process: the TPM and the entropy source. *)
Class Sealing (W : Type) := {
  TpmEndpoint : Type;
  SealedBlob : Type;
  Cipher : Type;
  fill_bytes : nat → W → bytes * W;
  seal_to_pcr : TpmEndpoint → bytes → list Z → M string W SealedBlob;
  tpm_unseal : TpmEndpoint → SealedBlob → M string W bytes;
  (** [ChaCha20Poly1305::new_from_slice], [encrypt] and [decrypt]:
      nonce, message (ciphertext), additional data *)
  cipher_new : bytes → result string Cipher;
  encrypt : Cipher → bytes → bytes → bytes → result string bytes;
  decrypt : Cipher → bytes → bytes → bytes → result string bytes;
  (** [fleetos_core::crypto]: (private, public); recipient and plaintext *)
  generate_sealing_keypair : W → bytes * bytes * W;
  crypto_seal : bytes → bytes → Z → Z → M string W SealedSecret;
  crypto_unseal : bytes → SealedSecret → result string bytes;
  (** postcard *)
  blob_to_bytes : SealedBlob → result string bytes;
  blob_from_bytes : bytes → result string SealedBlob;
  secret_to_bytes : SealedSecret → result string bytes;
  secret_from_bytes : bytes → result string SealedSecret;
}.

Definition DEFAULT_SEAL_PCRS : list Z := [0; 7; 9].
Definition KEY_SEALING_KEY_BLOB : bytes := as_bytes "sealing_key_blob".
Definition KEY_SVID_PRIVATE_KEY : bytes := as_bytes "svid_private_key".
Definition SOFTWARE_MASTER_KEY_LABEL : bytes := as_bytes "software_master_key".
Definition SEAL_PREFIX_TPM : Z := 1.
Definition SEAL_PREFIX_SOFTWARE : Z := 2.
Definition SEAL_PREFIX_TPM_ENVELOPE : Z := 3.
Definition TPM_SEAL_MAX_BYTES : nat := 64.

Section keystore.
Context {K W : Type} `{Keyspace K} `{Sealing W}.

(** The store, and the world outside it. *)
Definition KM (A : Type) : Type := M AgentError (Storage K * W) A.

Definition world {A} (f : string → AgentError) (c : M string W A) : KM A :=
  λ '(st, w), let '(r, w') := c w in (map_err f r, (st, w')).

Definition draw {A} (c : W → A * W) : KM A :=
  λ '(st, w), let '(a, w') := c w in (Ok a, (st, w')).

(** The layout [[prefix][u32_le(blob_len)][blob][nonce][ciphertext]]. *)
Definition envelope_bytes (blob nonce ct : bytes) : bytes :=
  byte_of_Z SEAL_PREFIX_TPM_ENVELOPE ::
    le_bytes 4 (Z.of_nat (length blob)) ++ blob ++ nonce ++ ct.

Definition envelope_seal (endpoint : TpmEndpoint) (key_label plaintext : bytes) : KM unit :=
  dek ← draw (fill_bytes 32);
  sealed_dek ← world (λ e, Secret ("envelope DEK sealing failed: " +:+ e))
    (seal_to_pcr endpoint dek DEFAULT_SEAL_PCRS);
  cipher ← lift (map_err (λ e, Secret ("envelope cipher init failed: " +:+ e)) (cipher_new dek));
  nonce_bytes ← draw (fill_bytes 12);
  ct ← lift (map_err (λ e, Secret ("envelope encryption failed: " +:+ e))
    (encrypt cipher nonce_bytes plaintext key_label));
  sealed_blob_bytes ← lift (map_err Serialization (blob_to_bytes sealed_dek));
  on_fst (delegation_insert key_label (envelope_bytes sealed_blob_bytes nonce_bytes ct)).

(** [raw] is everything after the prefix byte. *)
Definition envelope_unseal (endpoint : TpmEndpoint) (key_label raw : bytes) : KM bytes :=
  if decide (length raw < 4)%nat then fail (Secret "envelope blob too short") else
  let blob_len := Z.to_nat (from_le_bytes (take 4 raw)) in
  if decide (length raw < 4 + blob_len + 12)%nat then fail (Secret "envelope blob truncated") else
  let sealed_blob_bytes := take blob_len (drop 4 raw) in
  let nonce_start := (4 + blob_len)%nat in
  let nonce_bytes := take 12 (drop nonce_start raw) in
  let ct := drop (nonce_start + 12) raw in
  sealed_dek ← lift (map_err Serialization (blob_from_bytes sealed_blob_bytes));
  dek ← world (λ e, Secret ("envelope DEK unseal failed: " +:+ e)) (tpm_unseal endpoint sealed_dek);
  cipher ← lift (map_err (λ e, Secret ("envelope cipher init failed: " +:+ e)) (cipher_new dek));
  lift (map_err (λ _, Secret "envelope decryption failed (wrong key_label or corrupted blob)")
    (decrypt cipher nonce_bytes ct key_label)).

Definition get_or_create_software_master_key : KM (bytes * bytes) :=
  existing ← on_fst (delegation_get SOFTWARE_MASTER_KEY_LABEL);
  let create :=
    '(private_key, public_key) ← draw generate_sealing_keypair;
    _ ← on_fst (delegation_insert SOFTWARE_MASTER_KEY_LABEL (private_key ++ public_key));
    mret (private_key, public_key) in
  match existing with
  | Some key_bytes =>
      if decide (length key_bytes = 64)%nat
      then mret (take 32 key_bytes, drop 32 key_bytes)
      else create
  | None => create
  end.

Definition software_seal (key_label plaintext : bytes) : KM unit :=
  '(_, public_key) ← get_or_create_software_master_key;
  sealed ← world (λ e, Secret ("software seal failed: " +:+ e)) (crypto_seal public_key plaintext 0 1);
  sealed_bytes ← lift (map_err Serialization (secret_to_bytes sealed));
  on_fst (delegation_insert key_label (byte_of_Z SEAL_PREFIX_SOFTWARE :: sealed_bytes)).

Definition software_unseal_from_bytes (sealed_bytes : bytes) : KM (option bytes) :=
  '(private_key, _) ← get_or_create_software_master_key;
  sealed ← lift (map_err Serialization (secret_from_bytes sealed_bytes));
  plaintext ← lift (map_err (λ e, Secret ("software unseal failed: " +:+ e))
    (crypto_unseal private_key sealed));
  mret (Some plaintext).

Definition store_sealed (endpoint : option TpmEndpoint) (key_label plaintext : bytes) : KM unit :=
  λ s,
    match endpoint with
    | Some ep =>
        if decide (TPM_SEAL_MAX_BYTES < length plaintext)%nat then
          match envelope_seal ep key_label plaintext s with
          | (Ok _, s') => (Ok tt, s')
          | (Err _, s') => software_seal key_label plaintext s'
          end
        else
          match world Secret (seal_to_pcr ep plaintext DEFAULT_SEAL_PCRS) s with
          | (Ok sealed, s') =>
              (blob_bytes ← lift (map_err Serialization (blob_to_bytes sealed));
               on_fst (delegation_insert key_label (byte_of_Z SEAL_PREFIX_TPM :: blob_bytes))) s'
          | (Err _, s') => software_seal key_label plaintext s'
          end
    | None => software_seal key_label plaintext s
    end.

Definition load_sealed (endpoint : option TpmEndpoint) (key_label : bytes) : KM (option bytes) :=
  raw ← on_fst (delegation_get key_label);
  match raw with
  | Some (tag :: rest) =>
      if decide (byte_to_Z tag = SEAL_PREFIX_TPM) then
        ep ← lift (ok_or (Secret "cannot unseal TPM blob without a TPM endpoint") endpoint);
        sealed ← lift (map_err Serialization (blob_from_bytes rest));
        plaintext ← world (λ e, Secret ("TPM unseal failed: " +:+ e)) (tpm_unseal ep sealed);
        mret (Some plaintext)
      else if decide (byte_to_Z tag = SEAL_PREFIX_TPM_ENVELOPE) then
        ep ← lift (ok_or (Secret "cannot unseal TPM envelope blob without a TPM endpoint") endpoint);
        plaintext ← envelope_unseal ep key_label rest;
        mret (Some plaintext)
      else if decide (byte_to_Z tag = SEAL_PREFIX_SOFTWARE) then software_unseal_from_bytes rest
      else fail (Secret "unknown seal prefix")
  | _ => mret None
  end.

Definition load_svid_private_key (endpoint : option TpmEndpoint) : KM (option bytes) :=
  load_sealed endpoint KEY_SVID_PRIVATE_KEY.
Definition load_sealing_secret (endpoint : option TpmEndpoint) : KM (option bytes) :=
  load_sealed endpoint KEY_SEALING_KEY_BLOB.
Definition generate_and_store_sealing_key (endpoint : option TpmEndpoint) : KM bytes :=
  '(secret, public) ← draw generate_sealing_keypair;
  _ ← store_sealed endpoint KEY_SEALING_KEY_BLOB secret;
  mret public.
End keystore.

(** What the agent relies on: authenticated encryption that binds its
    additional data, a TPM that unseals what it sealed exactly while the PCRs it
    was sealed to have the values they had then, and faithful encodings.  None
    of these calls extends a PCR. *)
Class SealingLaws (W : Type) `{Sealing W} := {
  keypair : bytes → bytes → Prop;
  (** the value of a register *)
  pcr : W → Z → bytes;
  fill_bytes_length n w : length (fill_bytes n w).1 = n;
  tpm_seal_unseal ep p pcrs w b w' w2 :
    seal_to_pcr ep p pcrs w = (Ok b, w') → Forall (λ i, pcr w2 i = pcr w i) pcrs → (tpm_unseal ep b w2).1 = Ok p;
  tpm_seal_refuses ep p pcrs w b w' w2 :
    seal_to_pcr ep p pcrs w = (Ok b, w') → ¬ Forall (λ i, pcr w2 i = pcr w i) pcrs → ∃ e, (tpm_unseal ep b w2).1 = Err e;
  fill_bytes_pcr n w : pcr (fill_bytes n w).2 = pcr w;
  seal_pcr ep p pcrs w : pcr (seal_to_pcr ep p pcrs w).2 = pcr w;
  unseal_pcr ep b w : pcr (tpm_unseal ep b w).2 = pcr w;
  keypair_pcr w : pcr (generate_sealing_keypair w).2 = pcr w;
  crypto_seal_pcr pk p v q w : pcr (crypto_seal pk p v q w).2 = pcr w;
  encrypt_decrypt c n m a ct : encrypt c n m a = Ok ct → decrypt c n ct a = Ok m;
  encrypt_binds c n m a ct a' m' : encrypt c n m a = Ok ct → decrypt c n ct a' = Ok m' → a' = a;
  generate_keypair w sk pk w' :
    generate_sealing_keypair w = (sk, pk, w') → length sk = 32%nat ∧ length pk = 32%nat ∧ keypair sk pk;
  seal_unseal sk pk p v q w ss w' :
    keypair sk pk → crypto_seal pk p v q w = (Ok ss, w') → crypto_unseal sk ss = Ok p;
  blob_roundtrip b bs : blob_to_bytes b = Ok bs → blob_from_bytes bs = Ok b;
  blob_length b bs : blob_to_bytes b = Ok bs → is_u32 (Z.of_nat (length bs));
  secret_roundtrip ss bs : secret_to_bytes ss = Ok bs → secret_from_bytes bs = Ok ss;
}.

Section facts.
Context {K W : Type} `{KeyspaceLaws K} `{SealingLaws W}.
Implicit Types (st : Storage K) (w : W) (label p : bytes) (ep : TpmEndpoint).

Lemma world_ok {A} f (c : M string W A) st w a st' w' :
  world f c (st, w) = (Ok a, (st', w')) ↔ c w = (Ok a, w') ∧ st' = st.
Proof. simpl. destruct (c w) as [[]?]; simpl; naive_solver. Qed.
Lemma draw_ok {A} (c : W → A * W) st w a st' w' :
  draw c (st, w) = (Ok a, (st', w')) ↔ c w = (a, w') ∧ st' = st.
Proof. simpl. destruct (c w); naive_solver. Qed.

(** The PCRs the agent seals to are in [w2] what they were in [w]; without a TPM
    nothing depends on them. *)
Definition same_pcrs w w2 : Prop := Forall (λ i, pcr w2 i = pcr w i) DEFAULT_SEAL_PCRS.
#[export] Instance same_pcrs_dec w w2 : Decision (same_pcrs w w2).
Proof. unfold same_pcrs. apply _. Defined.
Definition opens (endpoint : option TpmEndpoint) w w2 : Prop :=
  match endpoint with Some _ => same_pcrs w w2 | None => True end.

Lemma same_pcrs_eq w0 w w2 : pcr w0 = pcr w → same_pcrs w0 w2 ↔ same_pcrs w w2.
Proof. unfold same_pcrs. by intros ->. Qed.
Lemma opens_eq endpoint w0 w w2 : pcr w0 = pcr w → opens endpoint w0 w2 ↔ opens endpoint w w2.
Proof. intros Heq. destruct endpoint; [by apply same_pcrs_eq|done]. Qed.
Lemma opens_refl endpoint w w2 : pcr w2 = pcr w → opens endpoint w w2.
Proof. intros Heq. destruct endpoint; [|done]. unfold opens, same_pcrs. rewrite Heq. by apply Forall_true. Qed.

(** Split one monadic step of a run over the store and the world. *)
Lemma km_bind_ok {A B} (m : KM A) (f : A → KM B) st w b st' w' :
  (m ≫= f) (st, w) = (Ok b, (st', w')) →
  ∃ a st1 w1, m (st, w) = (Ok a, (st1, w1)) ∧ f a (st1, w1) = (Ok b, (st', w')).
Proof. intros (a & [st1 w1] & ? & ?)%M_bind_ok. eauto. Qed.

Lemma delegation_insert_ok key v st w u st' w' :
  on_fst (delegation_insert key v) (st, w) = (Ok u, (st', w')) →
  w' = w ∧ ∀ key', ks_get st'.(delegation) key' =
    if decide (key = key') then Ok (Some v) else ks_get st.(delegation) key'.
Proof.
  intros [Hw ->]%on_fst_ok. apply write_ok in Hw as (k & Hk & ->).
  split; [done|]. apply (ks_insert_ok _ _ _ _ Hk).
Qed.

(** Whatever the outcome, an insert leaves the other keys alone. *)
Lemma delegation_insert_other key v st w r st' w' key' :
  key ≠ key' → on_fst (delegation_insert key v) (st, w) = (r, (st', w')) →
  ks_get st'.(delegation) key' = ks_get st.(delegation) key'.
Proof.
  intros Hne. unfold on_fst, delegation_insert, write.
  destruct (ks_insert _ key v) as [[[]|e] k] eqn:Hk; intros [= <- <- <-]; simpl.
  - by rewrite (ks_insert_ok _ _ _ _ Hk), decide_False.
  - destruct (ks_insert_err _ _ _ _ _ Hk key') as [|[-> _]]; done.
Qed.

(** *** Sealing writes to the delegation keyspace only *)

Definition svid_part (s : Storage K * W) : K := s.1.(svid).

Lemma keeps_svid_world {A} f (c : M string W A) : keeps svid_part (world f c).
Proof. intros [st w]. unfold world. by destruct (c w). Qed.
Lemma keeps_svid_draw {A} (c : W → A * W) : keeps svid_part (draw c).
Proof. intros [st w]. unfold draw. by destruct (c w). Qed.
Lemma keeps_svid_get key : keeps svid_part (on_fst (T := W) (delegation_get key)).
Proof. by intros [st w]. Qed.
Lemma keeps_svid_insert key v : keeps svid_part (on_fst (T := W) (delegation_insert key v)).
Proof.
  intros [st w]. unfold on_fst, delegation_insert, write. by destruct (ks_insert _ _ _).
Qed.
#[local] Hint Resolve keeps_svid_world keeps_svid_draw keeps_svid_get keeps_svid_insert : core.

Lemma keeps_svid_store endpoint label p : keeps svid_part (store_sealed endpoint label p).
Proof.
  assert (keeps svid_part (software_seal label p)) as Hsw.
  { unfold software_seal, get_or_create_software_master_key. keeps. }
  intros s. unfold store_sealed. destruct endpoint as [ep|]; [|apply Hsw].
  assert (keeps svid_part (envelope_seal ep label p)) as He by (unfold envelope_seal; keeps).
  destruct (decide _).
  - specialize (He s). destruct (envelope_seal ep label p s) as [[u|e] s1]; [exact He|].
    rewrite <-He. apply Hsw.
  - pose proof (keeps_svid_world Secret (seal_to_pcr ep p DEFAULT_SEAL_PCRS) s) as Hs.
    destruct (world Secret _ s) as [[sealed|e] s1]; simpl in Hs; rewrite <-Hs; [|apply Hsw].
    match goal with |- svid_part (?c s1).2 = _ => assert (keeps svid_part c) as Hk by keeps end. apply Hk.
Qed.
Lemma keeps_svid_sealing_key endpoint : keeps svid_part (generate_and_store_sealing_key endpoint).
Proof. unfold generate_and_store_sealing_key. keeps. apply keeps_svid_store. Qed.

(** *** No sealing extends a PCR *)

Definition pcrs_of (s : Storage K * W) : Z → bytes := pcr s.2.

Lemma keeps_pcr_world {A} f (c : M string W A) : (∀ w, pcr (c w).2 = pcr w) → keeps pcrs_of (world f c).
Proof. intros Hc [st w]. unfold world, pcrs_of. specialize (Hc w). by destruct (c w). Qed.
Lemma keeps_pcr_draw {A} (c : W → A * W) : (∀ w, pcr (c w).2 = pcr w) → keeps pcrs_of (draw c).
Proof. intros Hc [st w]. unfold draw, pcrs_of. specialize (Hc w). by destruct (c w). Qed.
Lemma keeps_pcr_fst {A} (c : M AgentError (Storage K) A) : keeps pcrs_of (on_fst c).
Proof. intros [st w]. unfold on_fst, pcrs_of. by destruct (c st). Qed.
#[local] Hint Resolve keeps_pcr_world keeps_pcr_draw keeps_pcr_fst fill_bytes_pcr seal_pcr unseal_pcr keypair_pcr
  crypto_seal_pcr : core.

Lemma keeps_pcr_master : keeps pcrs_of get_or_create_software_master_key.
Proof. unfold get_or_create_software_master_key. keeps. Qed.
Lemma keeps_pcr_software label p : keeps pcrs_of (software_seal label p).
Proof. unfold software_seal. keeps. apply keeps_pcr_master. Qed.
Lemma keeps_pcr_envelope ep label p : keeps pcrs_of (envelope_seal ep label p).
Proof. unfold envelope_seal. keeps. Qed.
Lemma keeps_pcr_store endpoint label p : keeps pcrs_of (store_sealed endpoint label p).
Proof.
  intros s. unfold store_sealed. destruct endpoint as [ep|]; [|apply keeps_pcr_software]. destruct (decide _).
  - pose proof (keeps_pcr_envelope ep label p s) as He. destruct (envelope_seal ep label p s) as [[u|e] s1]; [exact He|].
    rewrite <-He. apply keeps_pcr_software.
  - assert (keeps pcrs_of (world Secret (seal_to_pcr ep p DEFAULT_SEAL_PCRS))) as Hs by auto. specialize (Hs s).
    destruct (world Secret _ s) as [[sealed|e] s1]; simpl in Hs; rewrite <-Hs; [|apply keeps_pcr_software].
    match goal with |- pcrs_of (?c s1).2 = _ => assert (keeps pcrs_of c) as Hk by keeps end. apply Hk.
Qed.
Lemma keeps_pcr_sealing_key endpoint : keeps pcrs_of (generate_and_store_sealing_key endpoint).
Proof. unfold generate_and_store_sealing_key. keeps. apply keeps_pcr_store. Qed.
Lemma keeps_pcr_load endpoint label : keeps pcrs_of (load_sealed endpoint label).
Proof.
  assert (∀ bs, keeps pcrs_of (software_unseal_from_bytes bs)) as Hsw.
  { intros bs. unfold software_unseal_from_bytes. keeps. apply keeps_pcr_master. }
  unfold load_sealed, envelope_unseal. keeps.
Qed.

(** *** The envelope layout *)

Lemma envelope_parse blob nonce ct :
  is_u32 (Z.of_nat (length blob)) → length nonce = 12%nat →
  let raw := le_bytes 4 (Z.of_nat (length blob)) ++ blob ++ nonce ++ ct in
  let n := Z.to_nat (from_le_bytes (take 4 raw)) in
  (4 + n + 12 ≤ length raw)%nat ∧ n = length blob ∧
  take n (drop 4 raw) = blob ∧ take 12 (drop (4 + n) raw) = nonce ∧
  drop (4 + n + 12) raw = ct.
Proof.
  intros Hb Hn raw n.
  assert (length (le_bytes 4 (Z.of_nat (length blob))) = 4%nat) as H4 by auto with agent.
  assert (n = length blob) as ->.
  { subst n raw. rewrite (take_app_length' _ _ 4) by done.
    rewrite from_le_bytes_u32 by done. apply Nat2Z.id. }
  subst raw. split; [rewrite !length_app; lia|]. split; [done|].
  rewrite <-!drop_drop, (drop_app_length' _ _ 4) by done.
  rewrite take_app_length, drop_app_length. split; [done|].
  by rewrite take_app_length', drop_app_length'.
Qed.

Lemma envelope_roundtrip ep label p sealed dek w0 w0' c nonce ct blob st :
  seal_to_pcr ep dek DEFAULT_SEAL_PCRS w0 = (Ok sealed, w0') → cipher_new dek = Ok c →
  length nonce = 12%nat → encrypt c nonce p label = Ok ct → blob_to_bytes sealed = Ok blob →
  ∀ w label', ∃ w',
    (same_pcrs w0 w → envelope_unseal ep label' (drop 1 (envelope_bytes blob nonce ct)) (st, w)
     = (map_err (λ _, Secret "envelope decryption failed (wrong key_label or corrupted blob)")
          (decrypt c nonce ct label'), (st, w'))) ∧
    (¬ same_pcrs w0 w → ∃ e, envelope_unseal ep label' (drop 1 (envelope_bytes blob nonce ct)) (st, w)
     = (Err (Secret e), (st, w'))).
Proof.
  intros Hseal Hc Hn Henc Hblob w label'. unfold envelope_bytes. rewrite skipn_cons, drop_0.
  destruct (envelope_parse blob nonce ct) as (Hlen & Hbl & Hb & Hno & Hct);
    [by eapply blob_length|done|]. cbv zeta in *.
  unfold envelope_unseal. rewrite decide_False by lia. rewrite decide_False by lia.
  rewrite Hb, Hno, Hct. unfold mbind, M_bind, lift, world.
  rewrite (blob_roundtrip _ _ Hblob). simpl.
  pose proof (tpm_seal_unseal _ _ _ _ _ _ w Hseal) as Hun. pose proof (tpm_seal_refuses _ _ _ _ _ _ w Hseal) as Hre.
  destruct (tpm_unseal ep sealed w) as [r w']. simpl in Hun, Hre. exists w'. split.
  - intros ->%Hun. simpl. by rewrite Hc.
  - intros [e ->]%Hre. by eexists.
Qed.

Lemma envelope_seal_ok ep label p st w u st' w' :
  envelope_seal ep label p (st, w) = (Ok u, (st', w')) →
  ∃ sealed dek w0 w0' c nonce ct blob,
    pcr w0 = pcr w ∧ seal_to_pcr ep dek DEFAULT_SEAL_PCRS w0 = (Ok sealed, w0') ∧ cipher_new dek = Ok c ∧
    length nonce = 12%nat ∧ encrypt c nonce p label = Ok ct ∧ blob_to_bytes sealed = Ok blob ∧
    ∀ key, ks_get st'.(delegation) key =
      if decide (label = key) then Ok (Some (envelope_bytes blob nonce ct))
      else ks_get st.(delegation) key.
Proof.
  unfold envelope_seal. intros Hrun.
  apply km_bind_ok in Hrun as (dek & st1 & w1 & [Hdek ->]%draw_ok & Hrun).
  apply km_bind_ok in Hrun as (sealed & st2 & w2 & [Hseal ->]%world_ok & Hrun).
  apply km_bind_ok in Hrun as (c & st3 & w3 & [Hc%map_err_ok [= -> ->]]%lift_ok & Hrun).
  apply km_bind_ok in Hrun as (nonce & st4 & w4 & [Hn ->]%draw_ok & Hrun).
  apply km_bind_ok in Hrun as (ct & st5 & w5 & [Henc%map_err_ok [= -> ->]]%lift_ok & Hrun).
  apply km_bind_ok in Hrun as (blob & st6 & w6 & [Hblob%map_err_ok [= -> ->]]%lift_ok & Hrun).
  apply delegation_insert_ok in Hrun as [-> Hst].
  exists sealed, dek, w1, w2, c, nonce, ct, blob.
  split; [by rewrite <-(fill_bytes_pcr 32 w), Hdek|]. do 2 (split; [done|]).
  split; [|done]. by rewrite <-(fill_bytes_length 12 w2), Hn.
Qed.

Lemma envelope_seal_other ep label p st w r st' w' key :
  label ≠ key → envelope_seal ep label p (st, w) = (r, (st', w')) →
  ks_get st'.(delegation) key = ks_get st.(delegation) key.
Proof.
  intros Hne. unfold envelope_seal, mbind, M_bind, draw, world, lift.
  destruct (fill_bytes 32 w) as [dek w1].
  destruct (seal_to_pcr ep dek _ w1) as [[sealed|] w2]; simpl; [|by intros [= _ <- _]].
  destruct (cipher_new dek) as [c|]; simpl; [|by intros [= _ <- _]].
  destruct (fill_bytes 12 w2) as [nonce w3].
  destruct (encrypt c nonce p label) as [ct|]; simpl; [|by intros [= _ <- _]].
  destruct (blob_to_bytes sealed) as [blob|]; simpl; [|by intros [= _ <- _]].
  intros Hins. eapply (delegation_insert_other label _ st w3); [done|exact Hins].
Qed.

(** *** The software master key *)

(** A 64-byte master record is a key pair. *)
Definition master_ok st : Prop :=
  ∀ kb, ks_get st.(delegation) SOFTWARE_MASTER_KEY_LABEL = Ok (Some kb) →
    length kb = 64%nat → keypair (take 32 kb) (drop 32 kb).

Definition master_record st (sk pk : bytes) : Prop :=
  ∃ kb, ks_get st.(delegation) SOFTWARE_MASTER_KEY_LABEL = Ok (Some kb) ∧
    length kb = 64%nat ∧ take 32 kb = sk ∧ drop 32 kb = pk.

Lemma master_key_ok st w sk pk st' w' :
  master_ok st →
  get_or_create_software_master_key (st, w) = (Ok (sk, pk), (st', w')) →
  keypair sk pk ∧ master_record st' sk pk.
Proof.
  intros Hm Hrun. unfold get_or_create_software_master_key in Hrun.
  apply km_bind_ok in Hrun as (existing & st1 & w1 & [Hex ->]%on_fst_ok & Hrun).
  apply read_ok in Hex as [Hex ->].
  assert (∀ (c : KM (bytes * bytes)),
    c = ('(private_key, public_key) ← draw generate_sealing_keypair;
         _ ← on_fst (delegation_insert SOFTWARE_MASTER_KEY_LABEL (private_key ++ public_key));
         mret (private_key, public_key)) →
    c (st, w) = (Ok (sk, pk), (st', w')) → keypair sk pk ∧ master_record st' sk pk) as Hcreate.
  { intros c -> Hc. apply km_bind_ok in Hc as ([sk' pk'] & st1 & w1 & [Hgen ->]%draw_ok & Hc).
    apply km_bind_ok in Hc as ([] & st2 & w2 & Hins & [= <- <- <- <-]).
    apply delegation_insert_ok in Hins as [-> Hins].
    apply generate_keypair in Hgen as (Hs & Hp & Hkp).
    split; [done|]. exists (sk' ++ pk'). rewrite Hins, decide_True, length_app by done.
    split; [done|]. split; [lia|]. by rewrite take_app_length', drop_app_length'. }
  destruct existing as [kb|]; [|by eapply Hcreate].
  destruct (decide (length kb = 64%nat)) as [Hl|]; [|by eapply Hcreate].
  injection Hrun as <- <- <- <-. split; [by apply Hm|]. by exists kb.
Qed.

Lemma master_record_get st w sk pk :
  master_record st sk pk →
  get_or_create_software_master_key (st, w) = (Ok (sk, pk), (st, w)).
Proof.
  intros (kb & Hkb & Hl & <- & <-).
  unfold get_or_create_software_master_key, mbind, M_bind, on_fst, delegation_get, read.
  rewrite Hkb. simpl. by rewrite decide_True.
Qed.

(** *** Round trips per tier *)

Lemma load_tagged endpoint label (tag : Z) rest st w :
  ks_get st.(delegation) label = Ok (Some (byte_of_Z tag :: rest)) → is_u8 tag →
  load_sealed endpoint label (st, w) =
    (if decide (tag = SEAL_PREFIX_TPM) then
       ep ← lift (ok_or (Secret "cannot unseal TPM blob without a TPM endpoint") endpoint);
       sealed ← lift (map_err Serialization (blob_from_bytes rest));
       plaintext ← world (λ e, Secret ("TPM unseal failed: " +:+ e)) (tpm_unseal ep sealed);
       mret (Some plaintext)
     else if decide (tag = SEAL_PREFIX_TPM_ENVELOPE) then
       ep ← lift (ok_or (Secret "cannot unseal TPM envelope blob without a TPM endpoint") endpoint);
       plaintext ← envelope_unseal ep label rest;
       mret (Some plaintext)
     else if decide (tag = SEAL_PREFIX_SOFTWARE) then software_unseal_from_bytes rest
     else fail (Secret "unknown seal prefix")) (st, w).
Proof.
  intros Hget Htag. unfold load_sealed at 1, mbind at 1, M_bind, on_fst, delegation_get, read.
  rewrite Hget. cbn [map_err]. rewrite byte_to_Z_of_Z, Z.mod_small by exact Htag. done.
Qed.

(** Enough of a store to load a label: its record and the master key. *)
Definition retains label st st2 : Prop :=
  ks_get st2.(delegation) label = ks_get st.(delegation) label ∧
  ∀ sk pk, master_record st sk pk → master_record st2 sk pk.

Lemma retains_trans label st1 st2 st3 : retains label st1 st2 → retains label st2 st3 → retains label st1 st3.
Proof. intros [Hg1 Hm1] [Hg2 Hm2]. split; [congruence|auto]. Qed.

Lemma software_roundtrip endpoint label p st w u st' w' :
  master_ok st → label ≠ SOFTWARE_MASTER_KEY_LABEL →
  software_seal label p (st, w) = (Ok u, (st', w')) →
  master_ok st' ∧
  ∀ st2 w2, retains label st' st2 → load_sealed endpoint label (st2, w2) = (Ok (Some p), (st2, w2)).
Proof.
  intros Hm Hne Hrun. unfold software_seal in Hrun.
  apply km_bind_ok in Hrun as ([sk pk] & st1 & w1 & Hkey & Hrun).
  destruct (master_key_ok _ _ _ _ _ _ Hm Hkey) as [Hkp (kb & Hkb & Hl & Hsk & Hpk)].
  apply km_bind_ok in Hrun as (ss & st2 & w2 & [Hseal ->]%world_ok & Hrun).
  apply km_bind_ok in Hrun as (bs & st3 & w3 & [Hbs%map_err_ok [= -> ->]]%lift_ok & Hrun).
  apply delegation_insert_ok in Hrun as [-> Hst].
  assert (master_record st' sk pk) as Hrec.
  { exists kb. rewrite Hst, decide_False by done. done. }
  split.
  - intros kb' Hkb' _. rewrite Hst, decide_False in Hkb' by done. congruence.
  - intros stl wl [Hget Hkeep]. rewrite (load_tagged _ _ SEAL_PREFIX_SOFTWARE bs) by
      (rewrite ?Hget, ?Hst, ?decide_True; done).
    rewrite !decide_False, decide_True by done. unfold software_unseal_from_bytes, mbind, M_bind.
    rewrite (master_record_get _ _ _ _ (Hkeep _ _ Hrec)). unfold lift.
    rewrite (secret_roundtrip _ _ Hbs). simpl. by rewrite (seal_unseal _ _ _ _ _ _ _ _ Hkp Hseal).
Qed.

(** What loading [p] gives in the world [w2] when it was sealed in [w]: [p], or an
    error where the registers have changed since. *)
Definition loaded endpoint p w w2 (run : result AgentError (option bytes) * (Storage K * W)) (s : Storage K * W) : Prop :=
  run = (Ok (Some p), s) ∨ ¬ opens endpoint w w2 ∧ ∃ e, run = (Err e, s).
Lemma loaded_opens endpoint p w w2 run s :
  loaded endpoint p w w2 run s → opens endpoint w w2 → run = (Ok (Some p), s).
Proof. by intros [?|[Hno _]] Ho. Qed.
Lemma loaded_eq endpoint p w w' w2 run s :
  pcr w = pcr w' → loaded endpoint p w w2 run s → loaded endpoint p w' w2 run s.
Proof. intros Heq [?|[Hno ?]]; [by left|]. right. split; [|done]. by rewrite <-(opens_eq _ _ _ _ Heq). Qed.

Lemma tpm_roundtrip ep label p st w0 w0' sealed blob :
  seal_to_pcr ep p DEFAULT_SEAL_PCRS w0 = (Ok sealed, w0') → blob_to_bytes sealed = Ok blob →
  ks_get st.(delegation) label = Ok (Some (byte_of_Z SEAL_PREFIX_TPM :: blob)) →
  ∀ w, ∃ w', loaded (Some ep) p w0 w (load_sealed (Some ep) label (st, w)) (st, w').
Proof.
  intros Hseal Hblob Hget w. rewrite (load_tagged _ _ SEAL_PREFIX_TPM blob) by done.
  rewrite decide_True by done. unfold mbind, M_bind, lift, world.
  rewrite (blob_roundtrip _ _ Hblob). simpl.
  pose proof (tpm_seal_unseal _ _ _ _ _ _ w Hseal) as Hun. pose proof (tpm_seal_refuses _ _ _ _ _ _ w Hseal) as Hno.
  destruct (tpm_unseal ep sealed w) as [r w']. simpl in Hun, Hno. exists w'.
  destruct (decide (same_pcrs w0 w)) as [Hs|Hs].
  - rewrite (Hun Hs). by left.
  - destruct (Hno Hs) as [e ->]. right. split; [done|]. by eexists.
Qed.

Lemma load_envelope ep label blob nonce ct st w :
  ks_get st.(delegation) label = Ok (Some (envelope_bytes blob nonce ct)) →
  load_sealed (Some ep) label (st, w) =
    (plaintext ← envelope_unseal ep label (drop 1 (envelope_bytes blob nonce ct));
     mret (Some plaintext)) (st, w).
Proof.
  intros Hget. unfold envelope_bytes in *. rewrite skipn_cons, drop_0.
  rewrite (load_tagged _ _ SEAL_PREFIX_TPM_ENVELOPE _ _ _ Hget) by done.
  by rewrite decide_False, decide_True.
Qed.

Lemma store_loads endpoint label p st w st' w' :
  master_ok st → label ≠ SOFTWARE_MASTER_KEY_LABEL →
  store_sealed endpoint label p (st, w) = (Ok tt, (st', w')) →
  master_ok st' ∧
  ∀ st2 w2, retains label st' st2 → ∃ w3, loaded endpoint p w w2 (load_sealed endpoint label (st2, w2)) (st2, w3).
Proof.
  intros Hm Hne Hrun.
  assert (∀ st1 w1, ks_get st1.(delegation) SOFTWARE_MASTER_KEY_LABEL
                    = ks_get st.(delegation) SOFTWARE_MASTER_KEY_LABEL →
    software_seal label p (st1, w1) = (Ok tt, (st', w')) → master_ok st' ∧
    ∀ st2 w2, retains label st' st2 →
      ∃ w3, loaded endpoint p w w2 (load_sealed endpoint label (st2, w2)) (st2, w3)) as Hsoft.
  { intros st1 w1 Heq Hsw. apply (software_roundtrip endpoint) in Hsw as [? Hl];
      [split; [done|]; intros st2 w2 Hr; exists w2; left; by apply Hl|..|done].
    intros kb. rewrite Heq. apply Hm. }
  unfold store_sealed in Hrun. destruct endpoint as [ep|]; [|by eapply Hsoft].
  destruct (decide (TPM_SEAL_MAX_BYTES < length p)%nat).
  - destruct (envelope_seal ep label p (st, w)) as [[u|e] [st1 w1]] eqn:He.
    + injection Hrun as <- <-.
      apply envelope_seal_ok in He
        as (sealed & dek & w0 & w0' & c & nonce & ct & blob & Hpcr & Hs & Hc & Hn & Henc & Hblob & Hst).
      split. { intros kb. rewrite Hst, decide_False by done. apply Hm. }
      intros st2 w2 [Hget _]. destruct (envelope_roundtrip ep label p sealed dek w0 w0' c nonce ct blob st2
        Hs Hc Hn Henc Hblob w2 label) as (w3 & Hsame & Hother).
      exists w3. apply (loaded_eq _ _ w0); [done|].
      rewrite (load_envelope _ _ blob nonce ct) by (by rewrite Hget, Hst, decide_True).
      unfold mbind, M_bind. destruct (decide (same_pcrs w0 w2)) as [Hp|Hp].
      * left. by rewrite (Hsame Hp), (encrypt_decrypt _ _ _ _ _ Henc).
      * right. split; [done|]. destruct (Hother Hp) as [e ->]. by eexists.
    + eapply Hsoft; [|exact Hrun]. by eapply envelope_seal_other.
  - destruct (world Secret _ (st, w)) as [[sealed|e] [st1 w1]] eqn:Hs.
    + apply world_ok in Hs as [Hs ->].
      apply km_bind_ok in Hrun as (blob & st2 & w2 & [Hblob%map_err_ok [= -> ->]]%lift_ok & Hrun).
      apply delegation_insert_ok in Hrun as [-> Hst].
      split. { intros kb. rewrite Hst, decide_False by done. apply Hm. }
      intros st2 w2 [Hget _]. eapply tpm_roundtrip; [done..|]. by rewrite Hget, Hst, decide_True.
    + eapply Hsoft; [|exact Hrun]. unfold world in Hs.
      destruct (seal_to_pcr ep p _ w) as [r w2]. by injection Hs as _ <- _.
Qed.

(** *** What a store leaves alone, also when it fails *)

Lemma master_record_stays st st' sk pk :
  ks_get st'.(delegation) SOFTWARE_MASTER_KEY_LABEL = ks_get st.(delegation) SOFTWARE_MASTER_KEY_LABEL →
  master_record st sk pk → master_record st' sk pk.
Proof. intros Heq (kb & Hkb & Hr). exists kb. by rewrite Heq. Qed.

Lemma master_key_retains label st w r st' w' :
  label ≠ SOFTWARE_MASTER_KEY_LABEL →
  get_or_create_software_master_key (st, w) = (r, (st', w')) → retains label st st'.
Proof.
  intros Hne Hrun. split.
  - assert (∀ (c : KM (bytes * bytes)),
      c = ('(private_key, public_key) ← draw generate_sealing_keypair;
           _ ← on_fst (delegation_insert SOFTWARE_MASTER_KEY_LABEL (private_key ++ public_key));
           mret (private_key, public_key)) →
      c (st, w) = (r, (st', w')) → ks_get st'.(delegation) label = ks_get st.(delegation) label) as Hcreate.
    { intros c ->. unfold mbind at 1, M_bind at 1, draw.
      destruct (generate_sealing_keypair w) as [[sk pk] w1]. unfold mbind, M_bind.
      destruct (on_fst _ (st, w1)) as [[[]|e] [st1 w2]] eqn:Hi; intros [= _ <- _];
        by apply (delegation_insert_other _ _ _ _ _ _ _ label) in Hi. }
    unfold get_or_create_software_master_key in Hrun.
    unfold mbind at 1, M_bind at 1, on_fst at 1, delegation_get, read in Hrun.
    destruct (ks_get _ SOFTWARE_MASTER_KEY_LABEL) as [[kb|]|e]; simpl in Hrun;
      [|by eapply Hcreate|by injection Hrun as _ <- _].
    destruct (decide _); [by injection Hrun as _ <- _|by eapply Hcreate].
  - intros sk pk Hrec. rewrite (master_record_get _ _ _ _ Hrec) in Hrun. by injection Hrun as _ <- _.
Qed.

Lemma software_seal_retains label label' p st w r st' w' :
  label ≠ label' → label ≠ SOFTWARE_MASTER_KEY_LABEL → label' ≠ SOFTWARE_MASTER_KEY_LABEL →
  software_seal label p (st, w) = (r, (st', w')) → retains label' st st'.
Proof.
  intros Hne Hl Hl' Hrun. unfold software_seal, mbind, M_bind in Hrun.
  destruct (get_or_create_software_master_key (st, w)) as [[[sk pk]|e] [st1 w1]] eqn:Hk;
    apply (master_key_retains label') in Hk; try done; [|by injection Hrun as _ <- _].
  eapply retains_trans; [exact Hk|]. unfold world, lift in Hrun.
  destruct (crypto_seal _ _ _ _ w1) as [[ss|e] w2]; simpl in Hrun; [|by injection Hrun as _ <- _].
  destruct (secret_to_bytes ss) as [bs|e]; simpl in Hrun; [|by injection Hrun as _ <- _].
  assert (∀ k, label ≠ k → ks_get st'.(delegation) k = ks_get st1.(delegation) k) as Hk'.
  { intros k Hlk. by eapply (delegation_insert_other label _ st1 w2). }
  split; [by apply Hk'|]. intros sk' pk'. apply master_record_stays. by apply Hk'.
Qed.

Lemma store_retains endpoint label label' p st w r st' w' :
  label ≠ label' → label ≠ SOFTWARE_MASTER_KEY_LABEL → label' ≠ SOFTWARE_MASTER_KEY_LABEL →
  store_sealed endpoint label p (st, w) = (r, (st', w')) → retains label' st st'.
Proof.
  intros Hne Hl Hl' Hrun.
  assert (∀ st1, (∀ k, label ≠ k → ks_get st1.(delegation) k = ks_get st.(delegation) k) →
    retains label' st st1) as Hother.
  { intros st1 Hk. split; [by apply Hk|]. intros sk pk. apply master_record_stays. by apply Hk. }
  unfold store_sealed in Hrun. destruct endpoint as [ep|]; [|by eapply software_seal_retains].
  destruct (decide (TPM_SEAL_MAX_BYTES < length p)%nat).
  - destruct (envelope_seal ep label p (st, w)) as [[u|e] [st1 w1]] eqn:He;
      assert (retains label' st st1) by (apply Hother; intros; by eapply envelope_seal_other);
      [by injection Hrun as _ <- _|].
    eapply retains_trans; [done|]. by eapply software_seal_retains.
  - unfold world in Hrun. destruct (seal_to_pcr ep p _ w) as [[sealed|e] w1]; simpl in Hrun;
      [|by eapply software_seal_retains].
    unfold mbind, M_bind, lift in Hrun. destruct (blob_to_bytes sealed) as [blob|e]; simpl in Hrun;
      [|by injection Hrun as _ <- _].
    apply Hother. intros k Hk. by eapply (delegation_insert_other label _ st w1).
Qed.

(** C13: What was sealed under a label loads back under that label, whichever
    of the three tiers took it (direct TPM sealing up to 64 bytes, envelope
    above, software without a TPM or when sealing failed), and whatever is
    sealed under other labels in between, successfully or not. *)
Theorem sealed_roundtrip endpoint label p st w st' w' stores st2 w2 :
  master_ok st → label ≠ SOFTWARE_MASTER_KEY_LABEL →
  store_sealed endpoint label p (st, w) = (Ok tt, (st', w')) →
  Forall (λ s, s.1 ≠ label ∧ s.1 ≠ SOFTWARE_MASTER_KEY_LABEL) stores →
  foldl (λ s '(l, q), (store_sealed endpoint l q s).2) (st', w') stores = (st2, w2) →
  ∃ w3, load_sealed endpoint label (st2, w2) = (Ok (Some p), (st2, w3)).
Proof.
  intros Hm Hne Hrun Hs Hfold. pose proof (keeps_pcr_store endpoint label p (st, w)) as Hp1. rewrite Hrun in Hp1.
  apply store_loads in Hrun as [_ Hload]; [|done..].
  assert (retains label st' st2 ∧ pcr w2 = pcr w') as [Hret Hp2].
  { clear Hload Hp1. revert st' w' Hfold. induction Hs as [|[l q] stores [Hl Hlm] _ IH]; intros st' w' Hfold.
    { by injection Hfold as -> ->. }
    simpl in Hfold. pose proof (keeps_pcr_store endpoint l q (st', w')) as Hp1.
    destruct (store_sealed endpoint l q (st', w')) as [r [st1 w1]] eqn:Hst.
    apply IH in Hfold as [Hr Hp2]. unfold pcrs_of in Hp1. simpl in Hp1. split; [|congruence].
    eapply retains_trans; [by eapply store_retains|done]. }
  destruct (Hload st2 w2 Hret) as [w3 Hl]. exists w3. eapply loaded_opens; [exact Hl|].
  apply opens_refl. unfold pcrs_of in Hp1. simpl in Hp1. congruence.
Qed.

(** C40: An envelope moved to another label does not load there: the label is part
    of the authenticated data, so its decryption fails while the PCRs are those
    it was sealed under, and the load fails in any case. *)
Theorem envelope_label_bound ep label label' p st w st' w' st2 w2 :
  envelope_seal ep label p (st, w) = (Ok tt, (st', w')) → label' ≠ label →
  ks_get st2.(delegation) label' = ks_get st'.(delegation) label →
  ∃ e w3, load_sealed (Some ep) label' (st2, w2) = (Err (Secret e), (st2, w3)) ∧
    (same_pcrs w w2 → e = "envelope decryption failed (wrong key_label or corrupted blob)").
Proof.
  intros He Hne Hcopy.
  apply envelope_seal_ok in He
    as (sealed & dek & w0 & w0' & c & nonce & ct & blob & Hpcr & Hs & Hc & Hn & Henc & Hblob & Hst).
  rewrite Hst, decide_True in Hcopy by done. setoid_rewrite <-(same_pcrs_eq w0 w w2 Hpcr).
  destruct (envelope_roundtrip ep label p sealed dek w0 w0' c nonce ct blob st2
    Hs Hc Hn Henc Hblob w2 label') as (w3 & Hsame & Hother).
  rewrite (load_envelope _ _ _ _ _ _ _ Hcopy). unfold mbind, M_bind. destruct (decide (same_pcrs w0 w2)) as [Hp|Hp].
  - eexists _, w3. rewrite (Hsame Hp). destruct (decrypt c nonce ct label') as [m'|e] eqn:Hd; [|done].
    by apply (encrypt_binds _ _ _ _ _ _ _ Henc) in Hd.
  - destruct (Hother Hp) as [e ->]. by exists e, w3.
Qed.
End facts.

(** ** Witnesses *)

(** A toy world for the witnesses: a counter for entropy that goes up by two, its
    parity being what all registers hold, a TPM that is present or not and writes
    the parity into its blobs, and a cipher that spells its additional data out in
    front of the message. *)
Definition aead_header (a : bytes) : bytes := replicate (length a) Byte.x01 ++ Byte.x00 :: a.

Lemma aead_header_inj a m a' m' :
  aead_header a ++ m = aead_header a' ++ m' → a = a' ∧ m = m'.
Proof.
  unfold aead_header. rewrite <-!app_assoc. simpl.
  intros Heq. cut (length a = length a' ∧ a ++ m = a' ++ m').
  { intros [? ?]. by apply app_inj_1. }
  revert Heq. generalize (a ++ m) (a' ++ m') (length a) (length a').
  intros l l' n. induction n as [|n IH]; intros [|n'] Heq; simplify_eq/=; [done|].
  by apply IH in Heq as [-> ->].
Qed.

Definition toy_draw (n : nat) (w : nat) : bytes * nat :=
  (replicate n (byte_of_Z (Z.of_nat w)), S (S w)).
Definition toy_pcr (w : nat) : bytes := if Nat.even w then [Byte.x01] else [Byte.x02].

#[export] Instance toy_sealing : Sealing nat := {
  TpmEndpoint := bool;
  SealedBlob := bytes;
  Cipher := bytes;
  fill_bytes := toy_draw;
  seal_to_pcr ep p pcrs w :=
    (if ep : bool then Ok ((if decide (pcrs = []) then [Byte.x00] else toy_pcr w) ++ p) else Err "no TPM", w);
  tpm_unseal _ b w :=
    (if decide (take 1 b = [Byte.x00] ∨ take 1 b = toy_pcr w) then Ok (drop 1 b) else Err "PolicyPCR", w);
  cipher_new k := if decide (length k = 32)%nat then Ok k else Err "invalid length";
  encrypt _ _ m a := Ok (aead_header a ++ m);
  decrypt _ _ ct a :=
    let h := aead_header a in
    if decide (take (length h) ct = h) then Ok (drop (length h) ct) else Err "aead::Error";
  generate_sealing_keypair w := (replicate 32 (byte_of_Z (Z.of_nat w)), replicate 32 (byte_of_Z (Z.of_nat w)), S (S w));
  crypto_seal pk p v q w := (Ok (mkSealedSecret v q pk p), w);
  crypto_unseal sk ss := if decide (sk = ss.(ephemeral_pubkey)) then Ok ss.(ciphertext) else Err "wrong key";
  blob_to_bytes b := if decide (is_u32 (Z.of_nat (length b))) then Ok b else Err "too long";
  blob_from_bytes := Ok;
  secret_to_bytes ss :=
    if decide (is_u64 ss.(sealed_for_svid_version) ∧ is_u64 ss.(sequence)) then
      Ok (tagged_to_bytes [le_bytes 8 ss.(sealed_for_svid_version); le_bytes 8 ss.(sequence);
                           ss.(ephemeral_pubkey); ss.(ciphertext)])
    else Err "not u64";
  secret_from_bytes bs :=
    match tagged_from_bytes [] bs with
    | Ok [v; q; e; c] => Ok (mkSealedSecret (from_le_bytes v) (from_le_bytes q) e c)
    | _ => Err "malformed"
    end;
}.

#[export] Program Instance toy_sealing_laws : SealingLaws nat := { keypair sk pk := sk = pk; pcr w _ := toy_pcr w }.
Next Obligation. intros n w. simpl. apply length_replicate. Qed.
Next Obligation.
  simpl. intros [] p pcrs w b w' w2 Hs Hall; [|done]. injection Hs as <- _.
  destruct pcrs as [|i pcrs]; [done|]. apply Forall_cons_1 in Hall as [Heq _]. rewrite Heq. cbn.
  unfold toy_pcr. destruct (Nat.even w); cbn; rewrite decide_True by auto; done.
Qed.
Next Obligation.
  simpl. intros [] p pcrs w b w' w2 Hs Hne; [|done]. injection Hs as <- _.
  destruct pcrs as [|i pcrs]; [by destruct Hne|]. cbn.
  assert (toy_pcr w2 ≠ toy_pcr w) as Hw by (intros Heq; destruct Hne; rewrite Heq; by apply Forall_true).
  unfold toy_pcr in *. destruct (Nat.even w), (Nat.even w2); cbn; try done; rewrite decide_False by (by intros [?|?]); eauto.
Qed.
Next Obligation. done. Qed.
Next Obligation. done. Qed.
Next Obligation. done. Qed.
Next Obligation. done. Qed.
Next Obligation. done. Qed.
Next Obligation.
  simpl. intros c n m a ct [= <-]. rewrite take_app_length, drop_app_length. by rewrite decide_True.
Qed.
Next Obligation.
  simpl. intros c n m a ct a' m' [= <-] Hd.
  destruct (decide (take _ _ = _)) as [Ht|]; [|done].
  destruct (aead_header_inj a m a' (drop (length (aead_header a')) (aead_header a ++ m))); [|done].
  etrans; [symmetry; apply (take_drop (length (aead_header a')))|]. by rewrite Ht.
Qed.
Next Obligation. simpl. intros w sk pk w' [= <- <- <-]. done. Qed.
Next Obligation. simpl. intros sk pk p v q w ss w' -> Hs. simplify_eq. simpl. by rewrite decide_True. Qed.
Next Obligation. simpl. intros b bs Hb. by case_decide; simplify_eq. Qed.
Next Obligation. simpl. intros b bs Hb. by case_decide; simplify_eq. Qed.
Next Obligation.
  cbn [secret_to_bytes secret_from_bytes toy_sealing]. intros [v q e c] bs Hs.
  destruct (decide _) as [[Hv Hq]|]; [|done].
  assert (tagged_to_bytes [le_bytes 8 v; le_bytes 8 q; e; c] = bs) as <- by (injection Hs; done).
  rewrite tagged_roundtrip. by rewrite !from_le_bytes_u64.
Qed.

Definition tpm_up : TpmEndpoint (W := nat) := true.
Definition tpm_down : TpmEndpoint (W := nat) := false.
Definition long_key : bytes := replicate 138 Byte.x42.
Definition sealed_long : result AgentError unit * (Storage (gmap bytes bytes) * nat) :=
  store_sealed (Some tpm_up) KEY_SVID_PRIVATE_KEY long_key (empty_store, 0%nat).
Definition sealed_soft : result AgentError unit * (Storage (gmap bytes bytes) * nat) :=
  store_sealed (Some tpm_down) KEY_SVID_PRIVATE_KEY long_key (empty_store, 0%nat).

Lemma empty_master_ok : master_ok empty_store.
Proof. intros kb Hkb. simpl in Hkb. rewrite lookup_empty in Hkb. done. Qed.

(** The sealing key, stored after the SVID key. *)
Definition resealed (ep : TpmEndpoint (W := nat)) (s : Storage (gmap bytes bytes) * nat) :
    Storage (gmap bytes bytes) * nat := (store_sealed (Some ep) KEY_SEALING_KEY_BLOB [Byte.x01] s).2.

Lemma sealed_roundtrip_witness :
  (∃ w, load_sealed (Some tpm_up) KEY_SVID_PRIVATE_KEY (resealed tpm_up sealed_long.2)
        = (Ok (Some long_key), ((resealed tpm_up sealed_long.2).1, w))) ∧
  (∃ w, load_sealed (Some tpm_down) KEY_SVID_PRIVATE_KEY (resealed tpm_down sealed_soft.2)
        = (Ok (Some long_key), ((resealed tpm_down sealed_soft.2).1, w))).
Proof.
  split.
  - rewrite (surjective_pairing (resealed tpm_up sealed_long.2)).
    apply (sealed_roundtrip (Some tpm_up) KEY_SVID_PRIVATE_KEY long_key empty_store 0%nat
      sealed_long.2.1 sealed_long.2.2 [(KEY_SEALING_KEY_BLOB, [Byte.x01])] _ _ empty_master_ok);
      [done|apply run_outcome; by vm_compute|by repeat constructor|by apply surjective_pairing].
  - rewrite (surjective_pairing (resealed tpm_down sealed_soft.2)).
    apply (sealed_roundtrip (Some tpm_down) KEY_SVID_PRIVATE_KEY long_key empty_store 0%nat
      sealed_soft.2.1 sealed_soft.2.2 [(KEY_SEALING_KEY_BLOB, [Byte.x01])] _ _ empty_master_ok);
      [done|apply run_outcome; by vm_compute|by repeat constructor|by apply surjective_pairing].
Defined.

(** The envelope of the SVID key, copied over the sealing key. *)
Definition enveloped : result AgentError unit * (Storage (gmap bytes bytes) * nat) :=
  envelope_seal tpm_up KEY_SVID_PRIVATE_KEY long_key (empty_store, 0%nat).
Definition swapped : Storage (gmap bytes bytes) :=
  with_delegation (match enveloped.2.1.(delegation) !! KEY_SVID_PRIVATE_KEY with
                   | Some b => {[ KEY_SEALING_KEY_BLOB := b ]} | None => ∅ end) empty_store.

Lemma envelope_label_bound_witness :
  ∃ w e, load_sealing_secret (Some tpm_up) (swapped, 0%nat) = (Err (Secret e), (swapped, w)).
Proof.
  destruct (envelope_label_bound tpm_up KEY_SVID_PRIVATE_KEY KEY_SEALING_KEY_BLOB long_key
    empty_store 0%nat enveloped.2.1 enveloped.2.2 swapped 0%nat) as (e & w3 & Hw & _);
    [apply run_outcome; by vm_compute|done|by vm_compute|].
  exists w3, e. exact Hw.
Defined.
