(* ===== verification/Retry.v ===== *)
(** Redirect-and-retry (src/client/retry.rs) and the RPC loops built on it
    (src/client/unary.rs, and the redirect loops of src/join).  The transport is
    outside the repository: a call, a connection attempt and a sleep act on an
    abstract state. *)
From Stdlib Require Import Ascii.
From S2P Require Import Prelude Errors.

(** [tonic::Code]: the agent only tells [Unavailable] apart. *)
Inductive Code := Unavailable | OtherCode (debug : string).
#[export] Instance Code_eq_dec : EqDecision Code.
Proof. solve_decision. Defined.
Definition code_debug (c : Code) : string :=
  match c with Unavailable => "Unavailable" | OtherCode s => s end.

(** [leader]: the [leader-dc-address] metadata, [Some None] when it is present
    but [to_str] fails. *)
Record Status := mkStatus { code : Code; leader : option (option string); message : string }.

Definition MAX_REDIRECT_HOPS : nat := 5.
Definition BASE_RETRY_DELAY_MS : Z := 100.
Definition MAX_RETRY_DELAY_MS : Z := 5000.

Inductive RetryAction :=
| RetrySameTarget (delay : Z)
| RedirectAndRetry (new_target : string) (delay : Z)
| GiveUp (reason : string).

(** [str::trim] on text that passed [to_str]: visible ASCII, space and tab. *)
Definition is_blank (c : ascii) : bool := bool_decide (c = " "%char ∨ c = "009"%char).
Fixpoint trim_start (s : string) : string :=
  match s with
  | String c s' => if is_blank c then trim_start s' else s
  | EmptyString => s
  end.
Definition trim (s : string) : string := String.rev (trim_start (String.rev (trim_start s))).

(** [Some addr] when the status names a leader to go to. *)
Definition leader_of (status : Status) : option string :=
  match status.(leader) with
  | Some (Some v) => let addr := trim v in if decide (addr = "") then None else Some addr
  | _ => None
  end.

Definition classify_error (status : Status) (redirect_hops : nat) : RetryAction :=
  if decide (MAX_REDIRECT_HOPS < redirect_hops)%nat then
    GiveUp ("max redirect hops (" +:+ pretty MAX_REDIRECT_HOPS +:+ ") exceeded")
  else if decide (status.(code) = Unavailable) then
    match leader_of status with
    | Some addr => RedirectAndRetry addr 0
    | None =>
        let delay_ms :=
          Z.min (u64_mul BASE_RETRY_DELAY_MS (2 ^ Z.of_nat redirect_hops)) MAX_RETRY_DELAY_MS in
        RetrySameTarget delay_ms
    end
  else GiveUp ("non-retryable gRPC error: " +:+ code_debug status.(code) +:+ " - " +:+ status.(message)).

Definition MAX_TRANSIENT_RETRIES : nat := 3.

(** The control-plane client as its callers see it. *)
Class ControlClient (S : Type) := {
  Channel : Type;
  get_channel : M AgentError S Channel;
  retarget : string → S → S;
  sleep_ms : Z → S → S;
}.

Section unary.
Context {S : Type} `{ControlClient S}.

(** The loop every wrapper of unary.rs runs; [None] is out of fuel. *)
Fixpoint rpc_loop {A} (fuel : nat) (name : string) (call : Channel → M Status S A)
    (redirect_hops transient_retries : nat) (s : S) : option (Result A * S) :=
  match fuel with
  | O => None
  | Datatypes.S fuel =>
      match get_channel s with
      | (Err e, s) => Some (Err e, s)
      | (Ok channel, s) =>
          match call channel s with
          | (Ok response, s) => Some (Ok response, s)
          | (Err status, s) =>
              match classify_error status redirect_hops with
              | RedirectAndRetry new_target _ =>
                  rpc_loop fuel name call (Datatypes.S redirect_hops) transient_retries
                    (retarget new_target s)
              | RetrySameTarget delay =>
                  let transient_retries := Datatypes.S transient_retries in
                  if decide (MAX_TRANSIENT_RETRIES < transient_retries)%nat then
                    Some (Err (Rpc (name +:+ " failed after " +:+ pretty transient_retries
                                    +:+ " retries: " +:+ status.(message))), s)
                  else rpc_loop fuel name call redirect_hops transient_retries (sleep_ms delay s)
              | GiveUp reason => Some (Err (Rpc (name +:+ " failed: " +:+ reason)), s)
              end
          end
      end
  end.

(** Six redirects, three transient retries and the call that ends the loop. *)
Definition RPC_FUEL : nat := 10.

Definition unary {A} (name : string) (call : Channel → M Status S A) : M AgentError S A :=
  λ s, default (Err (Internal "out of fuel"), s) (rpc_loop RPC_FUEL name call 0 0 s).

(** The wrappers: the request is built afresh from the arguments on every turn. *)
Context {SealedSecret StatusAck MetricsAck DelegatedKeyResponse SvidResponse TrustBundle : Type}.
Context {WorkloadStatusReport PodMetrics PodEvent DelegatedKeyRequest : Type}.

Definition fetch_secret (rpc : Channel → string → Z → M Status S SealedSecret)
    (target_spiffe_id : string) (svid_version : Z) : M AgentError S SealedSecret :=
  unary "FetchSecret" (λ channel, rpc channel target_spiffe_id svid_version).
Definition report_workload_status (rpc : Channel → WorkloadStatusReport → M Status S StatusAck)
    (report : WorkloadStatusReport) : M AgentError S StatusAck :=
  unary "ReportWorkloadStatus" (λ channel, rpc channel report).
Definition report_pod_metrics (rpc : Channel → PodMetrics → M Status S MetricsAck)
    (metrics : PodMetrics) : M AgentError S MetricsAck :=
  unary "ReportPodMetrics" (λ channel, rpc channel metrics).
Definition report_pod_events (rpc : Channel → list PodEvent → M Status S unit)
    (events : list PodEvent) : M AgentError S unit :=
  unary "ReportPodEvents" (λ channel, rpc channel events).
Definition request_delegated_key (rpc : Channel → DelegatedKeyRequest → M Status S DelegatedKeyResponse)
    (request : DelegatedKeyRequest) : M AgentError S DelegatedKeyResponse :=
  unary "RequestDelegatedKey" (λ channel, rpc channel request).
Definition submit_csr (rpc : Channel → bytes → M Status S SvidResponse)
    (csr_der : bytes) : M AgentError S SvidResponse :=
  unary "SubmitCsr" (λ channel, rpc channel csr_der).
Definition get_trust_bundle (rpc : Channel → M Status S TrustBundle) : M AgentError S TrustBundle :=
  unary "GetTrustBundle" rpc.
End unary.

(** ** What one call does, observed *)

(** A log of the RPCs sent, the retargetings and the sleeps. *)
Inductive event := Call | Redirect (addr : string) | Sleep (ms : Z).
#[export] Instance event_eq_dec : EqDecision event.
Proof. solve_decision. Defined.

Definition is_call (e : event) : bool := match e with Call => true | _ => false end.
Definition is_redirect (e : event) : bool := match e with Redirect _ => true | _ => false end.
Definition is_sleep (e : event) : bool := match e with Sleep _ => true | _ => false end.

Definition calls (l : list event) : nat := length (List.filter is_call l).
Definition redirects (l : list event) : nat := length (List.filter is_redirect l).
Definition sleeps (l : list event) : nat := length (List.filter is_sleep l).

Section logged.
Context {S : Type} `{ControlClient S}.

(** Any client, with a log. *)
#[export] Instance logged_client : ControlClient (S * list event) := {
  Channel := Channel (S := S);
  get_channel := on_fst get_channel;
  retarget addr '(s, l) := (retarget addr s, l ++ [Redirect addr]);
  sleep_ms ms '(s, l) := (sleep_ms ms s, l ++ [Sleep ms]);
}.
Definition logged_call {A} (call : Channel (S := S) → M Status S A) :
    Channel (S := S * list event) → M Status (S * list event) A :=
  λ c '(s, l), let '(r, s') := call c s in (r, (s', l ++ [Call])).

(** Forgetting the log gives the run of the client itself. *)
Lemma logged_forget {A} fuel name (call : Channel (S := S) → M Status S A) h t s l :
  (λ '(r, (s', _)), (r, s')) <$> rpc_loop (S := S * list event) fuel name (logged_call call) h t (s, l)
  = rpc_loop (S := S) fuel name call h t s.
Proof.
  revert h t s l. induction fuel as [|fuel IH]; intros h t s l; [done|]. simpl.
  destruct (get_channel s) as [[c|e] s1]; [|done]. simpl.
  destruct (call c s1) as [[a|st] s2]; [done|].
  destruct (classify_error st h); [|by rewrite IH|done].
  case_decide; [done|by rewrite IH].
Qed.
End logged.

Lemma classify_redirect st h addr d : classify_error st h = RedirectAndRetry addr d →
  (h ≤ MAX_REDIRECT_HOPS)%nat ∧ addr ≠ "" ∧ d = 0.
Proof.
  unfold classify_error. intros Hc. destruct (decide (_ < h)%nat); [done|].
  destruct (decide _); [|done]. destruct (leader_of st) as [a|] eqn:Hl; [|done].
  injection Hc as <- <-. split; [lia|]. split; [|done].
  unfold leader_of in Hl. destruct (leader st) as [[v|]|]; [|done..]. by case_decide; simplify_eq.
Qed.

(** The delay depends on the redirect count alone, and stays below the cap. *)
Lemma classify_retry st h d : classify_error st h = RetrySameTarget d →
  (h ≤ MAX_REDIRECT_HOPS)%nat ∧ d = 100 * 2 ^ Z.of_nat h ∧ 100 ≤ d ≤ 3200.
Proof.
  unfold classify_error. intros Hc. destruct (decide (_ < h)%nat) as [|Hh]; [done|].
  destruct (decide _); [|done]. destruct (leader_of st); [done|]. injection Hc as <-.
  unfold MAX_REDIRECT_HOPS in *.
  do 6 (destruct h as [|h]; [by split; [lia|]|]). lia.
Qed.

Section termination.
Context {S : Type} `{ControlClient S}.

(** Fuel for the redirects and retries that are left, and the last call. *)
Lemma rpc_loop_terminates {A} name (call : Channel → M Status S A) fuel h t s :
  (h ≤ 6)%nat → (t ≤ 3)%nat → (6 - h + (3 - t) < fuel)%nat →
  is_Some (rpc_loop fuel name call h t s).
Proof.
  revert h t s. induction fuel as [|fuel IH]; intros h t s Hh Ht Hf; [lia|]. simpl.
  destruct (get_channel s) as [[c|e] s1]; [|eauto].
  destruct (call c s1) as [[a|st] s2]; [eauto|].
  destruct (classify_error st h) as [d|addr d|] eqn:Hc; [| |eauto].
  - unfold MAX_TRANSIENT_RETRIES. case_decide; [eauto|]. apply IH; lia.
  - apply classify_redirect in Hc as [? _]. unfold MAX_REDIRECT_HOPS in *. apply IH; lia.
Qed.

Lemma rpc_loop_more {A} name (call : Channel → M Status S A) fuel fuel' h t s x :
  rpc_loop fuel name call h t s = Some x → (fuel ≤ fuel')%nat →
  rpc_loop fuel' name call h t s = Some x.
Proof.
  revert fuel' h t s. induction fuel as [|fuel IH]; intros [|fuel'] h t s Hx Hle; [done|done|lia|].
  simpl in *. destruct (get_channel s) as [[c|e] s1]; [|done].
  destruct (call c s1) as [[a|st] s2]; [done|].
  destruct (classify_error st h); [case_decide; [done|]|..]; try (apply IH; [done|lia]). done.
Qed.

End termination.

Section bounds.
Context {S : Type} `{ControlClient S}.

(** What a log may hold when [h] redirects and [t] retries are spent. *)
Definition within (h t : nat) (l : list event) : Prop :=
  (redirects l ≤ 6 - h)%nat ∧ (sleeps l ≤ 3 - t)%nat ∧
  (calls l ≤ redirects l + sleeps l + 1)%nat ∧
  Forall (λ e, match e with Sleep d => 100 ≤ d ≤ 3200 | Redirect a => a ≠ "" | Call => True end) l.

Lemma rpc_loop_within {A} name (call : Channel (S := S) → M Status S A) fuel h t s l r s' l' :
  (h ≤ 6)%nat → (t ≤ 3)%nat →
  rpc_loop (S := S * list event) fuel name (logged_call call) h t (s, l) = Some (r, (s', l')) →
  ∃ new, l' = l ++ new ∧ within h t new.
Proof.
  revert h t s l. induction fuel as [|fuel IH]; intros h t s l Hh Ht Hrun; [done|]. simpl in Hrun.
  assert (within h t []) as Hnil.
  { unfold within, calls, redirects, sleeps. simpl. repeat split; try lia. constructor. }
  assert (within h t [Call]) as Hone.
  { unfold within, calls, redirects, sleeps. simpl. repeat split; try lia. by repeat constructor. }
  destruct (get_channel s) as [[c|e] s1];
    [|injection Hrun as _ _ <-; exists []; by rewrite app_nil_r]. simpl in Hrun.
  destruct (call c s1) as [[a|st] s2]; [injection Hrun as _ _ <-; by exists [Call]|].
  destruct (classify_error st h) as [d|addr d|] eqn:Hc; [| |injection Hrun as _ _ <-; by exists [Call]].
  - apply classify_retry in Hc as (_ & _ & Hd). unfold MAX_TRANSIENT_RETRIES in Hrun.
    case_decide; [injection Hrun as _ _ <-; by exists [Call]|].
    apply IH in Hrun as (new & -> & (H1 & H2 & H3 & H4)); [|lia..].
    exists (Call :: Sleep d :: new). rewrite <-!app_assoc. split; [done|].
    unfold within, calls, redirects, sleeps in *. simpl in *.
    split; [lia|]. split; [lia|]. split; [lia|]. by do 2 (constructor; [done|]).
  - apply classify_redirect in Hc as (Hle & Ha & _). unfold MAX_REDIRECT_HOPS in Hle.
    apply IH in Hrun as (new & -> & (H1 & H2 & H3 & H4)); [|lia..].
    exists (Call :: Redirect addr :: new). rewrite <-!app_assoc. split; [done|].
    unfold within, calls, redirects, sleeps in *. simpl in *.
    split; [lia|]. split; [lia|]. split; [lia|]. by do 2 (constructor; [done|]).
Qed.

(** C28: Every RPC wrapper returns, whatever the control plane answers: the
    model's fuel is never what ends the loop.  One logical call sends at most
    ten RPCs, follows at most six redirects (to non-empty addresses) and
    sleeps at most three times, each time between 100 and 3200 ms. *)
Theorem unary_bounded {A} name (call : Channel (S := S) → M Status S A) s r s' l :
  unary (S := S * list event) name (logged_call call) (s, []) = (r, (s', l)) →
  (∀ fuel, (RPC_FUEL ≤ fuel)%nat → rpc_loop (S := S) fuel name call 0 0 s = Some (r, s')) ∧
  unary (S := S) name call s = (r, s') ∧
  (calls l ≤ 10)%nat ∧ (redirects l ≤ 6)%nat ∧ (sleeps l ≤ 3)%nat ∧
  ∀ d, Sleep d ∈ l → 100 ≤ d ≤ 3200.
Proof.
  unfold unary. intros Hrun.
  destruct (rpc_loop_terminates (S := S * list event) name (logged_call call) RPC_FUEL 0 0 (s, []))
    as [x Hx]; [unfold RPC_FUEL; lia..|]. rewrite Hx in Hrun. simpl in Hrun. subst x.
  pose proof (logged_forget RPC_FUEL name call 0 0 s []) as Hf. rewrite Hx in Hf.
  change (Some (r, s') = rpc_loop (S := S) RPC_FUEL name call 0 0 s) in Hf.
  apply rpc_loop_within in Hx as (new & -> & (H1 & H2 & H3 & H4)); [|lia..]. rewrite app_nil_l.
  split. { intros fuel Hfuel. eapply rpc_loop_more; [symmetry; exact Hf|exact Hfuel]. }
  split. { by rewrite <-Hf. }
  do 3 (split; [lia|]). intros d Hd.
  rewrite Forall_forall in H4. by apply (H4 (Sleep d)).
Qed.

(** A success ends the loop with that response, and an error other than
    [Unavailable] ends it at once as an [Rpc] error: in both cases a single
    RPC is sent. *)
Theorem unary_first_answer {A} name (call : Channel → M Status S A) s c s1 x s2 :
  get_channel s = (Ok c, s1) → call c s1 = (x, s2) →
  (∀ st, x = Err st → st.(code) ≠ Unavailable) →
  unary name call s =
    (match x with
     | Ok a => Ok a
     | Err st => Err (Rpc (name +:+ " failed: non-retryable gRPC error: "
                           +:+ code_debug st.(code) +:+ " - " +:+ st.(message)))
     end, s2).
Proof.
  intros Hc Hcall Hx. unfold unary, RPC_FUEL. cbn [rpc_loop]. rewrite Hc, Hcall.
  destruct x as [a|st]; [done|]. unfold classify_error.
  rewrite decide_False by (unfold MAX_REDIRECT_HOPS; lia).
  by rewrite decide_False by (by apply Hx).
Qed.
End bounds.

(** ** Witnesses *)

(** A server that sends every call on to another leader, whose clock is the
    state. *)
#[export] Instance clock_client : ControlClient Z := {
  Channel := unit;
  get_channel s := (Ok tt, s);
  retarget _ s := s;
  sleep_ms d s := s + d;
}.
Definition always (st : Status) : Channel (S := Z) → M Status Z Z := λ _ s, (Err st, s).
Definition redirecting : Status := mkStatus Unavailable (Some (Some " 10.0.0.2:9443 ")) "not leader".
Definition busy : Status := mkStatus Unavailable None "busy".
Definition redirected_run := unary (S := Z * list event) "SubmitCsr" (logged_call (always redirecting)) (0, []).
Definition busy_run := unary (S := Z * list event) "SubmitCsr" (logged_call (always busy)) (0, []).

Lemma unary_bounded_witness :
  redirects redirected_run.2.2 = 6%nat ∧ (calls redirected_run.2.2 ≤ 10)%nat ∧
  sleeps busy_run.2.2 = 3%nat ∧ (calls busy_run.2.2 ≤ 10)%nat.
Proof.
  destruct (unary_bounded "SubmitCsr" (always redirecting) 0 redirected_run.1
    redirected_run.2.1 redirected_run.2.2) as (_ & _ & H1 & _); [by vm_compute|].
  destruct (unary_bounded "SubmitCsr" (always busy) 0 busy_run.1
    busy_run.2.1 busy_run.2.2) as (_ & _ & H2 & _); [by vm_compute|].
  split; [by vm_compute|]. split; [exact H1|]. split; [by vm_compute|exact H2].
Defined.

(** Six hops are taken before the error that names five. *)
Example redirect_limit :
  redirected_run.1 = Err (Rpc "SubmitCsr failed: max redirect hops (5) exceeded") ∧
  redirects redirected_run.2.2 = 6%nat.
Proof. by vm_compute. Qed.

Lemma unary_first_answer_witness :
  unary (S := Z) "SubmitCsr" (always (mkStatus (OtherCode "PermissionDenied") None "no")) 5
  = (Err (Rpc "SubmitCsr failed: non-retryable gRPC error: PermissionDenied - no"), 5).
Proof.
  apply (unary_first_answer "SubmitCsr" (always (mkStatus (OtherCode "PermissionDenied") None "no"))
    5 tt 5 (Err (mkStatus (OtherCode "PermissionDenied") None "no")) 5); [done|done|].
  intros st [= <-]. done.
Defined.
