(* ===== verification/Secrets.v ===== *)
(** Secret delivery: replay check, conversion and unsealing
    (src/secret/deliver.rs), the leader-bound fetch (src/secret/fetch.rs) and
    the [SecretsHandler] of src/wiring.rs that joins them. *)
From Stdlib Require Import Ascii.
From S2P Require Import Prelude Errors Store Sequences Core Svid Keystore Retry.

(** [fleetos_core::proto::secret::SealedSecret]. *)
Record ProtoSealedSecret := mkProtoSecret {
  target_spiffe_id : string;
  proto_svid_version : Z;
  proto_sequence : Z;
  proto_ephemeral_pubkey : bytes;
  proto_ciphertext : bytes;
}.

Definition proto_to_core (proto : ProtoSealedSecret) : Result SealedSecret :=
  if decide (length proto.(proto_ephemeral_pubkey) = 32)%nat then
    Ok (mkSealedSecret proto.(proto_svid_version) proto.(proto_sequence)
          proto.(proto_ephemeral_pubkey) proto.(proto_ciphertext))
  else Err (Secret ("ephemeral_pubkey must be 32 bytes, got "
                    +:+ pretty (length proto.(proto_ephemeral_pubkey)))).

Section deliver.
Context {K W : Type} `{Keyspace K} `{Sealing W}.

Definition deliver_secret (proto_secret : ProtoSealedSecret) (private_key : bytes) :
    M AgentError (Storage K) bytes :=
  let target := proto_secret.(target_spiffe_id) in
  let svid_version := proto_secret.(proto_svid_version) in
  let sequence := proto_secret.(proto_sequence) in
  accepted ← check_and_record target svid_version sequence;
  if negb accepted then
    fail (Secret ("secret rejected: sequence " +:+ pretty sequence +:+ " is not newer for target "
                  +:+ target +:+ " (svid_version=" +:+ pretty svid_version +:+ ")"))
  else
    core_secret ← lift (proto_to_core proto_secret);
    lift (map_err (λ e, Secret ("unseal failed: " +:+ e)) (crypto_unseal private_key core_secret)).
End deliver.

(** ** src/secret/fetch.rs

    This variant does not retarget: a redirect is an error naming the leader. *)
Section fetch.
Context {S : Type}.

Fixpoint fetch_loop (fuel : nat) (call : string → Z → M Status S ProtoSealedSecret)
    (sleep : Z → S → S) (target_spiffe_id : string) (svid_version : Z)
    (transient_retries : nat) (s : S) : option (Result ProtoSealedSecret * S) :=
  match fuel with
  | O => None
  | Datatypes.S fuel =>
      match call target_spiffe_id svid_version s with
      | (Ok response, s) => Some (Ok response, s)
      | (Err status, s) =>
          match classify_error status 0 with
          | RedirectAndRetry new_target _ =>
              Some (Err (Internal ("redirect to " +:+ new_target +:+ " required (hops=1)")), s)
          | RetrySameTarget delay =>
              let transient_retries := Datatypes.S transient_retries in
              if decide (MAX_TRANSIENT_RETRIES < transient_retries)%nat then
                Some (Err (Secret ("FetchSecret failed after " +:+ pretty transient_retries
                                   +:+ " retries: " +:+ status.(message))), s)
              else fetch_loop fuel call sleep target_spiffe_id svid_version transient_retries (sleep delay s)
          | GiveUp reason => Some (Err (Secret ("FetchSecret failed: " +:+ reason)), s)
          end
      end
  end.

Definition fetch_secret_channel (fuel : nat) (call : string → Z → M Status S ProtoSealedSecret)
    (sleep : Z → S → S) (svid_state : SvidState) (target_spiffe_id : string) (s : S) :
    option (Result ProtoSealedSecret * S) :=
  if is_none svid_state then Some (Err NoSvid, s)
  else fetch_loop fuel call sleep target_spiffe_id svid_state.(svid_version) 0 s.
End fetch.

(** ** src/wiring.rs: [SecretsHandler] *)

(** [spiffe_id.replace(['/', ':'], "_")]. *)
Fixpoint sanitize (s : string) : string :=
  match s with
  | EmptyString => EmptyString
  | String c s =>
      String (if decide (c = "/"%char ∨ c = ":"%char) then "_"%char else c) (sanitize s)
  end.
Definition secrets_dir : string := "/run/fleetos/secrets".
(** [path.parent()] of [secrets_dir/name], for a name without separators. *)
Definition secret_parent (name : string) : string :=
  if decide (name = "" ∨ name = ".") then "/run/fleetos" else secrets_dir.

Section handler.
Context {K W S F : Type} `{Keyspace K} `{Sealing W} `{ControlClient S} `{FileSystem F} `{FleetCore}.

Record SecretsHandler := mkHandler {
  storage : Storage K;
  sealing_world : W;
  control_client : S;
  files : F;
  svid_state : SvidState;
  secrets : gmap string bytes;
}.

Context (rpc : Channel → string → Z → M Status S ProtoSealedSecret).
(** the keystore's TPM endpoint *)
Context (endpoint : option (TpmEndpoint (W := W))).

Definition current_svid_version (h : SecretsHandler) : Z := h.(svid_state).(svid_version).

Definition on_client {A} (c : M AgentError S A) : M AgentError SecretsHandler A := λ h,
  let '(r, s) := c h.(control_client) in
  (r, mkHandler h.(storage) h.(sealing_world) s h.(files) h.(svid_state) h.(secrets)).
Definition on_keystore {A} (c : KM (K := K) (W := W) A) : M AgentError SecretsHandler A := λ h,
  let '(r, (st, w)) := c (h.(storage), h.(sealing_world)) in
  (r, mkHandler st w h.(control_client) h.(files) h.(svid_state) h.(secrets)).
Definition on_files {A} (c : M string F A) : M AgentError SecretsHandler A := λ h,
  let '(r, f) := c h.(files) in
  (map_err Io r, mkHandler h.(storage) h.(sealing_world) h.(control_client) f h.(svid_state) h.(secrets)).

Definition unseal (sealed : ProtoSealedSecret) : M AgentError SecretsHandler bytes :=
  node_private_key ← on_keystore (load_sealing_secret endpoint);
  node_private_key ← lift (ok_or (Secret "node sealing private key missing") node_private_key);
  if decide (length node_private_key = 32)%nat then
    on_keystore (on_fst (deliver_secret sealed node_private_key))
  else fail (Secret ("node sealing key must be 32 bytes (X25519), got " +:+ pretty (length node_private_key))).

Definition deliver (spiffe_id : string) (plaintext : bytes) : M AgentError SecretsHandler unit :=
  _ ← lift (map_err (λ e, Secret ("invalid SPIFFE ID for delivery: " +:+ e)) (spiffe_parse spiffe_id));
  let safe_name := sanitize spiffe_id in
  _ ← on_files (fs_create_dir_all (secret_parent safe_name));
  on_files (fs_write (secrets_dir +:+ "/" +:+ safe_name) plaintext).

(** [self.secrets.write().insert]. *)
Definition cache_secret (spiffe_id : string) (plaintext : bytes) : M AgentError SecretsHandler unit :=
  λ h, (Ok tt, mkHandler h.(storage) h.(sealing_world) h.(control_client) h.(files) h.(svid_state)
                 (<[spiffe_id := plaintext]> h.(secrets))).

Definition handle_rotation (spiffe_id : string) (svid_version : Z) :
    M AgentError SecretsHandler unit :=
  sealed ← on_client (Retry.fetch_secret rpc spiffe_id svid_version);
  plaintext ← unseal sealed;
  _ ← deliver spiffe_id plaintext;
  cache_secret spiffe_id plaintext.

(** [run_events_watch]: one event; an error is logged and dropped. *)
Inductive WatchEvent :=
| SecretRotation (spiffe_id : string)
| SvidRotation (spiffe_id : string) (svid_version : Z)
| NoEvent.

Definition on_event (event : WatchEvent) (h : SecretsHandler) : SecretsHandler :=
  match event with
  | SecretRotation id => (handle_rotation id (current_svid_version h) h).2
  | SvidRotation id v => (handle_rotation id v h).2
  | NoEvent => h
  end.
End handler.

(** ** Delivery *)

Section facts.
Context {K W : Type} `{KeyspaceLaws K} `{Sealing W}.
Implicit Types (st : Storage K) (q : ProtoSealedSecret) (key p : bytes).

Definition proto_ok q : Prop := is_u64 q.(proto_svid_version) ∧ is_u64 q.(proto_sequence).

Lemma deliver_inv q key st r st' :
  deliver_secret q key st = (r, st') →
  ∃ acc, check_and_record q.(target_spiffe_id) q.(proto_svid_version) q.(proto_sequence) st = (acc, st') ∧
    match acc with
    | Err e => r = Err e
    | Ok false => ∃ m, r = Err (Secret m)
    | Ok true => r = (core ← proto_to_core q;
                      map_err (λ e, Secret ("unseal failed: " +:+ e)) (crypto_unseal key core))
    end.
Proof.
  unfold deliver_secret. unfold mbind at 1, M_bind.
  destruct (check_and_record _ _ _ st) as [acc st1]. destruct acc as [[]|e]; simpl.
  - intros Hrun. exists (Ok true). unfold mbind, M_bind, lift in *.
    destruct (proto_to_core q); simpl in *; by injection Hrun as <- <-.
  - intros [= <- <-]. exists (Ok false). eauto.
  - intros [= <- <-]. exists (Err e). eauto.
Qed.

(** A delivered secret had a well-formed key, unseals under the agent's
    private key to the returned plaintext, and carried a sequence above the
    one on record; that sequence is on record afterwards. *)
Theorem deliver_secret_ok q key st p st' :
  proto_ok q → deliver_secret q key st = (Ok p, st') →
  ∃ core n, proto_to_core q = Ok core ∧ crypto_unseal key core = Ok p ∧
    recorded st q.(target_spiffe_id) q.(proto_svid_version) = Some n ∧ n < q.(proto_sequence) ∧
    recorded st' q.(target_spiffe_id) q.(proto_svid_version) = Some q.(proto_sequence).
Proof.
  intros [Hv Hs] Hrun. apply deliver_inv in Hrun as (acc & Hc & Hr).
  destruct acc as [[]|e]; [|by destruct Hr|done].
  destruct (proto_to_core q) as [core|] eqn:Hcore; [|done]. simpl in Hr.
  destruct (crypto_unseal key core) as [p'|] eqn:Hu; [|done]. injection Hr as <-.
  pose proof (check_and_record_accept _ _ _ _ _ Hs Hc) as [Hrec _].
  destruct (check_and_record_mono _ _ _ _ _ _ _ _ _ Hv Hv Hs Hc Hrec) as (n & Hn & _ & Hlt).
  exists core, n. split; [done|]. split; [done|]. split; [done|]. split; [|done]. by apply Hlt.
Qed.

(** A sequence is spent by the attempt, not by its success: once the
    replay check accepted it, neither it nor an older one is delivered again,
    also when the key was malformed or unsealing failed. *)
Theorem deliver_spends_sequence q key st st1 q' key' :
  proto_ok q →
  check_and_record q.(target_spiffe_id) q.(proto_svid_version) q.(proto_sequence) st = (Ok true, st1) →
  q'.(target_spiffe_id) = q.(target_spiffe_id) → q'.(proto_svid_version) = q.(proto_svid_version) →
  q'.(proto_sequence) ≤ q.(proto_sequence) →
  (deliver_secret q key st).2 = st1 ∧
  ∃ m, deliver_secret q' key' st1 = (Err (Secret m), st1).
Proof.
  intros [Hv Hs] Hc Ht Hq Hle. split.
  { destruct (deliver_secret q key st) as [r st'] eqn:Hd.
    apply deliver_inv in Hd as (acc & Hc' & _). simpl. congruence. }
  apply check_and_record_accept in Hc as [Hrec Hpos]; [|done].
  unfold recorded in Hrec.
  unfold deliver_secret, check_and_record, mbind, M_bind, sequences_get, read. rewrite Ht, Hq.
  destruct (decide (proto_sequence q' = 0)); simpl; [unfold fail; eauto|].
  destruct (ks_get _ _) as [raw|]; [|done]. injection Hrec as Hrec. simpl.
  rewrite Hrec, decide_True by done. unfold mret, M_ret, fail. simpl. eauto.
Qed.
End facts.

(** ** The handler *)

(** No separator survives: the name is a single path component. *)
Fixpoint has_separator (s : string) : bool :=
  match s with
  | EmptyString => false
  | String c s => bool_decide (c = "/"%char ∨ c = ":"%char) || has_separator s
  end.

Lemma sanitize_no_separator s : has_separator (sanitize s) = false.
Proof.
  induction s as [|c s IH]; [done|]. simpl. rewrite IH, orb_false_r.
  destruct (decide (c = "/"%char ∨ c = ":"%char)) as [Hc|Hc]; [done|]. by apply bool_decide_false.
Qed.

Section handler_facts.
Context {K W S F : Type} `{KeyspaceLaws K} `{Sealing W} `{ControlClient S} `{FileSystemLaws F} `{FleetCore}.
Context (rpc : Channel → string → Z → M Status S ProtoSealedSecret).
Context (endpoint : option (TpmEndpoint (W := W))).
Implicit Types (h : SecretsHandler (K := K) (W := W) (S := S) (F := F)).

(** The steps before caching leave the cache alone. *)
Lemma unseal_secrets q h r h' : unseal endpoint q h = (r, h') → h'.(secrets) = h.(secrets).
Proof.
  unfold unseal, mbind, M_bind, on_keystore.
  destruct (load_sealing_secret endpoint _) as [[k|e] [st w]]; [|by intros [= _ <-]].
  unfold lift. destruct k as [k|]; [|by intros [= _ <-]]. cbn [ok_or].
  case_decide; [|by intros [= _ <-]].
  destruct (on_fst _ _) as [r' [st' w']]. by intros [= _ <-].
Qed.
Lemma deliver_secrets id p h r h' : deliver id p h = (r, h') → h'.(secrets) = h.(secrets).
Proof.
  unfold deliver, mbind, M_bind, lift, on_files.
  destruct (spiffe_parse id); [|by intros [= _ <-]]. cbn [map_err].
  destruct (fs_create_dir_all _ _) as [[u|e] f1]; cbn [map_err]; [|by intros [= _ <-]].
  destruct (fs_write _ _ _) as [r2 f2]. by intros [= _ <-].
Qed.

End handler_facts.

(** ** Witnesses *)

(** A node whose sealing key is in the store, software-sealed. *)
Definition node_key := generate_and_store_sealing_key None (empty_store, 0%nat).
Definition node_pub : bytes := match node_key.1 with Ok b => b | Err _ => [] end.
Definition secret5 : ProtoSealedSecret := mkProtoSecret "spiffe://f/t/sa/web" 1 5 node_pub (as_bytes "hunter2").
Definition malformed6 : ProtoSealedSecret := mkProtoSecret "spiffe://f/t/sa/web" 1 6 [] (as_bytes "?").
Definition secret6 : ProtoSealedSecret := mkProtoSecret "spiffe://f/t/sa/web" 1 6 node_pub (as_bytes "ok").

Definition delivered5 := deliver_secret (W := nat) secret5 node_pub node_key.2.1.

Lemma deliver_secret_ok_witness :
  recorded delivered5.2 "spiffe://f/t/sa/web" 1 = Some 5 ∧ delivered5.1 = Ok (as_bytes "hunter2").
Proof.
  destruct (deliver_secret_ok (W := nat) secret5 node_pub node_key.2.1 (as_bytes "hunter2") delivered5.2)
    as (core & n & _ & _ & _ & _ & Hrec); [split; by vm_compute|reflexivity|].
  split; [exact Hrec|reflexivity].
Defined.

(** The malformed secret spends sequence 6: its well-formed resend is rejected. *)
Lemma deliver_spends_sequence_witness :
  ∃ st1 m, (deliver_secret (W := nat) malformed6 node_pub delivered5.2).2 = st1 ∧
    deliver_secret (W := nat) secret6 node_pub st1 = (Err (Secret m), st1).
Proof.
  destruct (deliver_spends_sequence (W := nat) malformed6 node_pub delivered5.2
    (check_and_record "spiffe://f/t/sa/web" 1 6 delivered5.2).2 secret6 node_pub) as [Hst [m Hm]];
    [split; by vm_compute|apply run_result; by vm_compute|reflexivity|reflexivity|by vm_compute|].
  eexists _, m. split; [exact Hst|exact Hm].
Defined.

Definition handler0 : SecretsHandler := mkHandler (S := Z) (F := gmap string bytes)
  node_key.2.1 node_key.2.2 0 ∅ (mkSvidState [as_bytes "leaf"] 1 1) ∅.
Definition serve (q : ProtoSealedSecret) : Channel (S := Z) → string → Z → M Status Z ProtoSealedSecret :=
  λ _ _ _ s, (Ok q, s).
Definition rotated := handle_rotation (serve secret5) None "spiffe://f/t/sa/web" 1 handler0.

