(* ===== verification/Client.v ===== *)
(** The control-plane client (src/client/mod.rs) and its channels
    (src/client/channels.rs): when a channel is reused and when it is rebuilt,
    and the order in which the two methods take the client's locks. *)
From S2P Require Import Prelude Errors Store Svid Keystore Retry Locks.

(** ** src/client/channels.rs *)

Definition ensure_scheme (address : string) : string :=
  if String.prefix "http://" address || String.prefix "https://" address
  then address else "https://" +:+ address.

(** [chunks(n)] of a text, with fuel its length. *)
Fixpoint chunks (fuel n : nat) (s : string) : list string :=
  match fuel with
  | O => []
  | S fuel =>
      if decide (s = "") then []
      else String.substring 0 n s
           :: chunks fuel n (String.substring n (String.length s - n) s)
  end.
Definition newline : string := String (Ascii.ascii_of_nat 10) "".

Section pem.
(** base64, [STANDARD.encode] *)
Context (base64 : bytes → string).

Definition der_to_pem (der : bytes) (label : string) : string :=
  let b64 := base64 der in
  "-----BEGIN " +:+ label +:+ "-----" +:+ newline +:+
  foldr (λ chunk pem, chunk +:+ newline +:+ pem) "" (chunks (String.length b64) 64 b64) +:+
  "-----END " +:+ label +:+ "-----" +:+ newline.
Definition ders_to_pem (ders : list bytes) (label : string) : string :=
  foldr (λ der pem, der_to_pem der label +:+ pem) "" ders.
End pem.

(** tonic's endpoint: address, trust bundle, and for mTLS the certificate chain
    and private key in PEM. *)
Class Tonic (N : Type) := {
  Conn : Type;
  base64 : bytes → string;
  connect : string → string → option (string * string) → M AgentError N Conn;
}.

Section client.
Context {K W N : Type} `{Keyspace K} `{Sealing W} `{Tonic N}.

Definition build_server_trust_channel (address trust_bundle_pem : string) : M AgentError N Conn :=
  connect (ensure_scheme address) trust_bundle_pem None.
Definition build_mtls_channel (address trust_bundle_pem : string) (cert_chain_der : list bytes)
    (private_key_der : bytes) : M AgentError N Conn :=
  let cert_pem := ders_to_pem base64 cert_chain_der "CERTIFICATE" in
  let key_pem := der_to_pem base64 private_key_der "PRIVATE KEY" in
  connect (ensure_scheme address) trust_bundle_pem (Some (cert_pem, key_pem)).

(** The client, with the shared SVID state and storage, and the world it acts
    on ([net]: connections and time). *)
Record ControlPlaneClient := mkClient {
  current_target : string;
  channel : option Conn;
  last_svid_generation : Z;
  client_storage : Storage K;
  keystore_world : W;
  endpoint : option (TpmEndpoint (W := W));
  trust_bundle_pem : string;
  svid_state : SvidState;
  net : N;
}.
Definition set_channel (ch : option Conn) (g : Z) (c : ControlPlaneClient) : ControlPlaneClient :=
  mkClient c.(current_target) ch g c.(client_storage) c.(keystore_world) c.(endpoint)
    c.(trust_bundle_pem) c.(svid_state) c.(net).

Definition client_load_key : M AgentError ControlPlaneClient (option bytes) := λ c,
  let '(r, (st, w)) := load_svid_private_key c.(endpoint) (c.(client_storage), c.(keystore_world)) in
  (r, mkClient c.(current_target) c.(channel) c.(last_svid_generation) st w c.(endpoint)
        c.(trust_bundle_pem) c.(svid_state) c.(net)).
Definition client_connect (key : bytes) : M AgentError ControlPlaneClient Conn := λ c,
  let '(r, n) := build_mtls_channel c.(current_target) c.(trust_bundle_pem)
                   c.(svid_state).(cert_chain_der) key c.(net) in
  (r, mkClient c.(current_target) c.(channel) c.(last_svid_generation) c.(client_storage)
        c.(keystore_world) c.(endpoint) c.(trust_bundle_pem) c.(svid_state) n).

Definition cache_channel (new_channel : Conn) : M AgentError ControlPlaneClient Conn :=
  λ c, (Ok new_channel, set_channel (Some new_channel) c.(last_svid_generation) c).

Definition client_get_channel : M AgentError ControlPlaneClient Conn := λ c,
  let c :=
    if decide (c.(last_svid_generation) < c.(svid_state).(generation))
    then set_channel None c.(svid_state).(generation) c else c in
  match c.(channel) with
  | Some chan => (Ok chan, c)
  | None =>
      (key ← client_load_key;
       key ← lift (ok_or (Identity "SVID private key not found in keystore") key);
       new_channel ← client_connect key;
       cache_channel new_channel) c
  end.

Definition client_retarget (new_target : string) (c : ControlPlaneClient) : ControlPlaneClient :=
  if decide (c.(current_target) = new_target) then c
  else mkClient new_target None c.(last_svid_generation) c.(client_storage) c.(keystore_world)
         c.(endpoint) c.(trust_bundle_pem) c.(svid_state) c.(net).

(** The client as the RPC wrappers use it. *)
#[export] Instance control_plane_client (sleep : Z → N → N) : ControlClient ControlPlaneClient := {
  Channel := Conn;
  get_channel := client_get_channel;
  retarget := client_retarget;
  sleep_ms ms c := mkClient c.(current_target) c.(channel) c.(last_svid_generation)
    c.(client_storage) c.(keystore_world) c.(endpoint) c.(trust_bundle_pem) c.(svid_state)
    (sleep ms c.(net));
}.
End client.

Section facts.
Context {K W N : Type} `{Keyspace K} `{Sealing W} `{Tonic N}.
Implicit Types (c : ControlPlaneClient (K := K) (W := W) (N := N)) (ch : Conn).

Definition with_svid_state (s : SvidState) c : ControlPlaneClient :=
  mkClient c.(current_target) c.(channel) c.(last_svid_generation) c.(client_storage)
    c.(keystore_world) c.(endpoint) c.(trust_bundle_pem) s c.(net).

(** A channel that is cached and not outdated is handed out as it is;
    otherwise one is built and cached. *)
Lemma get_channel_cached c ch :
  c.(svid_state).(generation) ≤ c.(last_svid_generation) → c.(channel) = Some ch →
  client_get_channel c = (Ok ch, c).
Proof. intros Hle Hch. unfold client_get_channel. rewrite decide_False by lia. by rewrite Hch. Qed.

Lemma get_channel_built c ch c' :
  ¬ (c.(svid_state).(generation) ≤ c.(last_svid_generation) ∧ is_Some c.(channel)) →
  client_get_channel c = (Ok ch, c') →
  c'.(channel) = Some ch ∧ c'.(current_target) = c.(current_target) ∧
  c'.(last_svid_generation) = Z.max c.(last_svid_generation) c.(svid_state).(generation) ∧
  ∃ key st w n,
    load_svid_private_key c.(endpoint) (c.(client_storage), c.(keystore_world)) = (Ok (Some key), (st, w)) ∧
    build_mtls_channel c.(current_target) c.(trust_bundle_pem)
      c.(svid_state).(cert_chain_der) key c.(net) = (Ok ch, n).
Proof.
  unfold client_get_channel. intros Hold Hrun.
  set (c1 := if decide _ then _ else c) in Hrun.
  assert (c1 = set_channel None (Z.max c.(last_svid_generation) c.(svid_state).(generation)) c) as Hc1.
  { subst c1. destruct (decide (last_svid_generation c < _)) as [Hlt|Hle].
    { f_equal. lia. }
    apply Z.nlt_ge in Hle. rewrite Z.max_l by done. destruct c as [? [ch0|]]; [|done]. destruct Hold. eauto. }
  clearbody c1. subst c1. cbn [channel set_channel] in Hrun.
  unfold mbind, M_bind, client_load_key, lift, client_connect, cache_channel in Hrun. simpl in Hrun.
  destruct (load_svid_private_key _ _) as [[[key|]|] [st w]]; simpl in Hrun; [|done..].
  destruct (build_mtls_channel _ _ _ _ _) as [[ch2|] n] eqn:Hbuild; [|done].
  injection Hrun as <- <-. eauto 10.
Qed.

(** The channel handed out is cached, and belongs to the installed SVID:
    it is the cached one only when the generation has not moved past the one
    it was built at and no redirect dropped it, and is otherwise built for the
    current target from the installed chain and the sealed private key. *)
Theorem get_channel_current c ch c' :
  client_get_channel c = (Ok ch, c') →
  c'.(channel) = Some ch ∧ c'.(current_target) = c.(current_target) ∧
  c'.(last_svid_generation) = Z.max c.(last_svid_generation) c.(svid_state).(generation) ∧
  (if decide (c.(svid_state).(generation) ≤ c.(last_svid_generation) ∧ is_Some c.(channel))
   then c.(channel) = Some ch ∧ c' = c
   else ∃ key st w n,
     load_svid_private_key c.(endpoint) (c.(client_storage), c.(keystore_world)) = (Ok (Some key), (st, w)) ∧
     build_mtls_channel c.(current_target) c.(trust_bundle_pem)
       c.(svid_state).(cert_chain_der) key c.(net) = (Ok ch, n)).
Proof.
  intros Hrun. destruct (decide (generation (svid_state c) ≤ _ ∧ _)) as [[Hle [ch0 Hch]]|Hold].
  - rewrite (get_channel_cached c ch0) in Hrun by done. injection Hrun as -> <-.
    rewrite Z.max_l by done. done.
  - by apply get_channel_built.
Qed.

(** A redirect to another address takes effect on the next call: the
    cached channel is dropped, so the next channel is built for the leader. *)
Theorem retarget_rebuilds c addr ch c' :
  addr ≠ c.(current_target) →
  client_get_channel (client_retarget addr c) = (Ok ch, c') →
  c'.(current_target) = addr ∧ ∃ key n,
    build_mtls_channel addr c.(trust_bundle_pem) c.(svid_state).(cert_chain_der) key c.(net) = (Ok ch, n).
Proof.
  unfold client_retarget. intros Hne. rewrite decide_False by done.
  intros (_ & Ht & _ & key & st & w & n & _ & Hb)%get_channel_built; [eauto|by intros [_ []]].
Qed.

(** After [clear] and a rejoin the stored generation restarts at 1, so a
    client that has seen any generation goes on handing out the channel built
    with the cleared SVID. *)
Theorem rejoin_keeps_channel `{!KeyspaceLaws K} `{ChainCodec} c ch st st1 s1 chain v s2 st2 :
  c.(channel) = Some ch → 1 ≤ c.(last_svid_generation) →
  clear st = (Ok tt, st1) → load st1 = (Ok s1, st1) →
  Svid.store chain v s1.(generation) st1 = (Ok s2, st2) →
  s2.(cert_chain_der) = chain ∧
  client_get_channel (with_svid_state s2 c) = (Ok ch, with_svid_state s2 c).
Proof.
  intros Hch Hlast Hclear Hload Hstore.
  apply svid_cleared in Hclear. rewrite Hclear in Hload. injection Hload as <-.
  apply store_records in Hstore as [-> _]. split; [done|].
  unfold client_get_channel. simpl.
  rewrite decide_False by (unfold u64_add; simpl; rewrite Z.mod_small; lia). simpl. by rewrite Hch.
Qed.
End facts.

(** ** Lock order

    The locks each method takes, in order, with the guards dropped where the
    source drops them: [client_get_channel] keeps [channel] and
    [last_svid_generation] to its end, reads [current_target] within one
    statement, and drops the [svid_state] guard before it builds. *)
Inductive client_lock := ChannelLock | SvidLock | LastLock | TargetLock.
#[export] Instance client_lock_eq_dec : EqDecision client_lock.
Proof. solve_decision. Defined.
Definition client_rank (l : client_lock) : nat :=
  match l with ChannelLock => 0 | SvidLock => 1 | LastLock => 2 | TargetLock => 3 end.

(** [cached]: the channel was there and no rotation dropped it. *)
Definition get_channel_locks (cached : bool) : list (action client_lock) :=
  [Acquire Write ChannelLock; Acquire Read SvidLock; Acquire Write LastLock] ++
  (if cached then [Release LastLock; Release SvidLock; Release ChannelLock]
   else [Acquire Read TargetLock; Release TargetLock; Release SvidLock;
         Release LastLock; Release ChannelLock]).
(** [changed]: the new target differs from the current one. *)
Definition retarget_locks (changed : bool) : list (action client_lock) :=
  [Acquire Write TargetLock] ++
  (if changed then [Acquire Write ChannelLock; Release ChannelLock] else []) ++
  [Release TargetLock].
Definition current_target_locks : list (action client_lock) :=
  [Acquire Read TargetLock; Release TargetLock].

(** The calls that follow the rank of the locks. *)
Definition ranked_calls : list (list (action client_lock)) :=
  [get_channel_locks true; get_channel_locks false; retarget_locks false; current_target_locks].

Lemma ranked_ordered prog : prog ∈ ranked_calls → ordered client_rank [] prog.
Proof.
  unfold ranked_calls. rewrite !elem_of_cons.
  intros [->|[->|[->|[->|[]%not_elem_of_nil]]]]; simpl; repeat split;
    repeat (constructor; simpl; try lia).
Qed.

(** C30: Any number of tasks that get channels, read the target or retarget to
    the address already in use can interleave in any way without getting stuck:
    every reachable state has finished or can step, and every step leaves less
    work, so all of them return. *)
Theorem get_channel_progress progs ts :
  Forall (λ p, p ∈ ranked_calls) progs →
  rtc step (start <$> progs) ts →
  (finished ts ∨ ∃ ts', step ts ts') ∧ (∀ ts', step ts ts' → (work ts' < work ts)%nat).
Proof.
  intros Hprogs Hrun. split; [|by intros; apply step_work].
  apply (ordered_progress client_rank ts 3); [|by intros []; simpl; lia].
  assert (well_ordered client_rank (start <$> progs)) as Hstart.
  { apply Forall_fmap. eapply Forall_impl; [exact Hprogs|]. intros p Hp. by apply ranked_ordered. }
  clear Hprogs. induction Hrun as [|ts1 ts2 ts3 Hstep _ IH]; [done|].
  apply IH. by eapply step_ordered.
Qed.

(** [get_channel] waits for the target lock while it holds the channel lock;
    [retarget] the other way round. *)
Definition deadlocked : list (thread client_lock) :=
  [ mkThread [(Write, LastLock); (Read, SvidLock); (Write, ChannelLock)]
      [Acquire Read TargetLock; Release TargetLock; Release SvidLock; Release LastLock; Release ChannelLock];
    mkThread [(Write, TargetLock)] [Acquire Write ChannelLock; Release ChannelLock; Release TargetLock] ].

(** Thread [i] acquires a lock no other thread holds incompatibly. *)
Ltac take_lock i :=
  eapply (step_acquire _ i); [done..|];
  intros [|[|?]] ? ? ?; simplify_eq/=; unfold compatible; simpl; set_solver.

(** C31: A task that builds a channel and a task that follows a redirect can
    deadlock: a state is reachable in which neither has finished and neither
    can ever take another step. *)
Theorem retarget_deadlock :
  rtc step [start (get_channel_locks false); start (retarget_locks true)] deadlocked ∧
  stuck deadlocked ∧ ¬ finished deadlocked.
Proof.
  split; [|split].
  - do 3 (eapply rtc_l; [take_lock 0%nat|]). eapply rtc_l; [take_lock 1%nat|apply rtc_refl].
  - intros ts' Hstep.
    inversion Hstep as [? i m l t prog Hi Htodo Hc|? i l t prog Hi Htodo]; subst;
      destruct i as [|[|i]]; simplify_eq/=.
    + destruct (Hc 1%nat _ ltac:(done) eq_refl Write) as [_ ?]; [by left|done].
    + destruct (Hc 0%nat _ ltac:(done) eq_refl Write) as [? _]; [by right; right; left|done].
  - intros Hf. by inversion Hf.
Qed.

(** ** Witnesses *)

(** Connections are the address and client certificate they were made with. *)
#[export] Instance sample_tonic : Tonic Z := {
  Conn := string * string;
  base64 := String.string_of_list_byte;
  connect address _ identity n := (Ok (address, default "" (fst <$> identity)), n + 1);
}.

Definition keyed := store_sealed None KEY_SVID_PRIVATE_KEY (as_bytes "key") (empty_store, 0%nat).
Definition client0 : ControlPlaneClient :=
  mkClient (N := Z) "10.0.0.1:9443" None 0 keyed.2.1 keyed.2.2 None "ca"
    (mkSvidState [as_bytes "leaf"] 1 1) 0.
Definition got0 := client_get_channel client0.
Definition conn0 : Conn (N := Z) := from_ok ("", "") got0.1.

Lemma got0_run : client_get_channel client0 = (Ok conn0, got0.2).
Proof. apply run_ok. by vm_compute. Qed.

Lemma get_channel_current_witness :
  got0.2.(channel) = Some conn0 ∧ got0.2.(last_svid_generation) = 1.
Proof.
  destruct (get_channel_current client0 conn0 got0.2 got0_run) as (Hc & _ & Hl & _).
  split; [exact Hc|]. rewrite Hl. reflexivity.
Defined.

Definition redirected0 := client_get_channel (client_retarget "10.0.0.2:9443" got0.2).
Lemma retarget_rebuilds_witness :
  redirected0.2.(current_target) = "10.0.0.2:9443" ∧ redirected0.1 ≠ got0.1.
Proof.
  destruct (retarget_rebuilds got0.2 "10.0.0.2:9443"
    (from_ok conn0 redirected0.1) redirected0.2) as (Ht & _);
    [by vm_compute|apply run_ok; by vm_compute|].
  split; [exact Ht|by vm_compute].
Defined.

Lemma rejoin_keeps_channel_witness :
  ∃ s2, s2.(cert_chain_der) = [as_bytes "new"] ∧
  client_get_channel (with_svid_state s2 got0.2) = (Ok conn0, with_svid_state s2 got0.2).
Proof.
  exists (mkSvidState [as_bytes "new"] 2 1).
  apply (rejoin_keeps_channel got0.2 conn0 joined.2 (clear joined.2).2 SvidState_default
    [as_bytes "new"] 2 (mkSvidState [as_bytes "new"] 2 1)
    (Svid.store [as_bytes "new"] 2 0 (clear joined.2).2).2); first [reflexivity|by vm_compute].
Defined.

Lemma get_channel_progress_witness :
  finished [start (get_channel_locks false); start (retarget_locks false)] ∨
  ∃ ts', step [start (get_channel_locks false); start (retarget_locks false)] ts'.
Proof.
  apply (get_channel_progress [get_channel_locks false; retarget_locks false]); [|apply rtc_refl].
  unfold ranked_calls. repeat constructor.
Defined.
