(* ===== verification/Watch.v ===== *)
(** The reconnecting watch streams (src/client/watch.rs).  A stream is a
    generator that never returns, so it is modelled as a machine: [watch_loop_step]
    takes the next answer of the environment and gives the next state with what
    the generator did (requests, items yielded, sleeps, redirects). *)
From S2P Require Import Prelude Errors Retry.

Section watch.
Context {U : Type}.

Inductive phase := Connecting | Streaming.

(** The generator's locals and where it is in its two nested loops. *)
Record watch_state := mkWatch {
  last_known_version : Z;
  redirect_hops : nat;
  consecutive_failures : nat;
  at_phase : phase;
}.
Definition watch_init : watch_state := mkWatch 0 0 0 Connecting.

Inductive answer :=
| ChannelFailed (e : AgentError)      (** [get_channel] *)
| Accepted                            (** the watch RPC opened a stream *)
| Refused (status : Status)           (** the watch RPC failed *)
| Message (update : U)                (** [stream.message()] *)
| Closed
| StreamFailed (status : Status).

Inductive output :=
| Request (last_known_version : Z)
| Yield (item : Result U)
| Slept (ms : Z)
| Retargeted (addr : string).

(** [2u64.pow(n)] wraps in the release profile. *)
Definition backoff_ms (failures : nat) : Z :=
  Z.min (u64_mul BASE_RETRY_DELAY_MS (2 ^ Z.of_nat failures mod 2 ^ 64)) MAX_RETRY_DELAY_MS.

Definition on_refused (st : watch_state) (status : Status) : watch_state * list output :=
  match classify_error status st.(redirect_hops) with
  | RedirectAndRetry new_target delay =>
      (mkWatch st.(last_known_version) (S st.(redirect_hops)) st.(consecutive_failures) Connecting,
       [Retargeted new_target; Slept delay])
  | RetrySameTarget delay => (st, [Slept delay])
  | GiveUp reason =>
      let failures := S st.(consecutive_failures) in
      (mkWatch st.(last_known_version) st.(redirect_hops) failures Connecting,
       [Yield (Err (Rpc ("watch connection failed: " +:+ reason))); Slept (backoff_ms failures)])
  end.
(** A stream error reconnects without a delay of its own. *)
Definition on_stream_failed (st : watch_state) (status : Status) : watch_state * list output :=
  match classify_error status st.(redirect_hops) with
  | RedirectAndRetry new_target delay =>
      (mkWatch st.(last_known_version) (S st.(redirect_hops)) st.(consecutive_failures) Connecting,
       [Retargeted new_target; Slept delay])
  | _ => (mkWatch st.(last_known_version) st.(redirect_hops) st.(consecutive_failures) Connecting, [])
  end.

(** [requested] is the version in the request; [on_message] what a frame does
    to the last version and whether it is yielded. *)
Definition watch_loop_step (requested : watch_state → Z) (on_message : Z → U → Z * bool)
    (st : watch_state) (a : answer) : option (watch_state * list output) :=
  match st.(at_phase), a with
  | Connecting, ChannelFailed e => Some (st, [Yield (Err e); Slept BASE_RETRY_DELAY_MS])
  | Connecting, Accepted =>
      Some (mkWatch st.(last_known_version) 0 0 Streaming, [Request (requested st)])
  | Connecting, Refused status =>
      let '(st', out) := on_refused st status in Some (st', Request (requested st) :: out)
  | Streaming, Message update =>
      let '(v, yielded) := on_message st.(last_known_version) update in
      Some (mkWatch v st.(redirect_hops) st.(consecutive_failures) Streaming,
            if yielded then [Yield (Ok update)] else [])
  | Streaming, Closed =>
      Some (mkWatch st.(last_known_version) st.(redirect_hops) st.(consecutive_failures) Connecting, [])
  | Streaming, StreamFailed status => Some (on_stream_failed st status)
  | _, _ => None
  end.

(** [watch_sag], [watch_schedule], [watch_routes]. *)
Definition watch_versioned (version : U → Z) : watch_state → answer → option (watch_state * list output) :=
  watch_loop_step last_known_version
    (λ last update, if decide (last < version update) then (version update, true) else (last, false)).
(** [watch_events] is unversioned. *)
Definition watch_events : watch_state → answer → option (watch_state * list output) :=
  watch_loop_step (λ _, 0) (λ last _, (last, true)).

Fixpoint watch_run (step : watch_state → answer → option (watch_state * list output))
    (st : watch_state) (script : list answer) : option (watch_state * list output) :=
  match script with
  | [] => Some (st, [])
  | a :: script =>
      '(st1, out1) ← step st a;
      '(st2, out2) ← watch_run step st1 script;
      mret (st2, out1 ++ out2)
  end.

(** The items yielded, and the errors reported. *)
Definition items (out : list output) : list U :=
  omap (λ o, match o with Yield (Ok u) => Some u | _ => None end) out.
End watch.
Arguments answer : clear implicits.
Arguments output : clear implicits.

Section facts.
Context {U : Type} (version : U → Z).
Implicit Types (st : watch_state) (a : answer U) (out : list (output U)).

(** Requests name the version reached so far. *)
Fixpoint requests_follow (v : Z) out : Prop :=
  match out with
  | [] => True
  | Request w :: out => w = v ∧ requests_follow v out
  | Yield (Ok u) :: out => requests_follow (version u) out
  | _ :: out => requests_follow v out
  end.

Lemma requests_follow_app v out1 out2 :
  requests_follow v (out1 ++ out2) ↔
  requests_follow v out1 ∧ requests_follow (default v (last (version <$> items out1))) out2.
Proof.
  revert v. induction out1 as [|o out1 IH]; intros v; [simpl; tauto|].
  destruct o as [w|[u|e]|ms|addr]; simpl; rewrite IH; try tauto.
  rewrite last_cons. by destruct (last (list_fmap _ _ version (items out1))) eqn:Hl; unfold fmap; rewrite Hl.
Qed.

(** One answer yields at most one frame, newer than the last one. *)
Lemma versioned_step st a st' out :
  watch_versioned version st a = Some (st', out) →
  (items out = [] ∧ st'.(last_known_version) = st.(last_known_version) ∨
   ∃ u, items out = [u] ∧ st.(last_known_version) < version u ∧ st'.(last_known_version) = version u) ∧
  requests_follow st.(last_known_version) out.
Proof.
  unfold watch_versioned, watch_loop_step, on_refused, on_stream_failed. intros Hstep.
  destruct (at_phase st), a; simplify_eq/=; eauto.
  - destruct (classify_error status _); simplify_eq/=; eauto.
  - case_decide; simplify_eq/=; [|by eauto]. split; [right; eauto|done].
  - destruct (classify_error status _); simplify_eq/=; eauto.
Qed.

(** The frames of a script that are newer than all before them, from version
    [known] on. *)
Fixpoint newer_frames (known : Z) (script : list (answer U)) : list U :=
  match script with
  | [] => []
  | Message u :: script =>
      if decide (known < version u) then u :: newer_frames (version u) script else newer_frames known script
  | _ :: script => newer_frames known script
  end.

(** These are what a versioned watch yields. *)
Lemma watch_run_items script st st' out :
  watch_run (watch_versioned version) st script = Some (st', out) →
  items out = newer_frames st.(last_known_version) script.
Proof.
  revert st st' out. induction script as [|a script IH]; intros st st' out Hrun.
  { simpl in Hrun. by injection Hrun as _ <-. }
  simpl in Hrun. destruct (watch_versioned version st a) as [[st1 out1]|] eqn:Hstep; [|done].
  simpl in Hrun. destruct (watch_run _ st1 script) as [[st2 out2]|] eqn:Hrest; [|done].
  simpl in Hrun. unfold mret, option_ret in Hrun. injection Hrun as <- <-. apply IH in Hrest.
  assert (items (out1 ++ out2) = items out1 ++ items out2) as -> by apply omap_app. rewrite Hrest. clear IH Hrest.
  revert Hstep. unfold watch_versioned, watch_loop_step, on_refused, on_stream_failed.
  destruct (at_phase st), a; try done; try (by intros [= <- <-]);
    try (destruct (classify_error status _); by intros [= <- <-]).
  cbn [newer_frames]. by destruct (decide _); intros [= <- <-].
Qed.

(** The run of a versioned watch. *)
Lemma watch_run_increasing script st st' out :
  watch_run (watch_versioned version) st script = Some (st', out) →
  StronglySorted Z.lt (version <$> items out) ∧
  Forall (λ u, st.(last_known_version) < version u) (items out) ∧
  st'.(last_known_version) = default st.(last_known_version) (last (version <$> items out)) ∧
  requests_follow st.(last_known_version) out.
Proof.
  revert st st' out. induction script as [|a script IH]; intros st st' out Hrun.
  { simpl in Hrun. simplify_eq/=. repeat split; constructor. }
  simpl in Hrun. destruct (watch_versioned version st a) as [[st1 out1]|] eqn:Hstep; [|done].
  simpl in Hrun. destruct (watch_run _ st1 script) as [[st2 out2]|] eqn:Hrest; [|done].
  simpl in Hrun. unfold mret, option_ret in Hrun. injection Hrun as <- <-.
  destruct (IH _ _ _ Hrest) as (Hsort & Hall & Hlast & Hreq).
  apply versioned_step in Hstep as [Hitems Hreq1].
  assert (items (out1 ++ out2) = items out1 ++ items out2) as Happ by apply omap_app.
  rewrite Happ, requests_follow_app.
  destruct Hitems as [[Hi Hv]|(u & Hi & Hlt & Hv)]; rewrite Hi, Hv in *; simpl.
  - split; [done|]. split; [done|]. split; [done|]. by split.
  - split; [|split; [|split; [|by split]]].
    + constructor; [done|]. apply Forall_fmap. eapply Forall_impl; [exact Hall|]. simpl. lia.
    + constructor; [done|]. eapply Forall_impl; [exact Hall|]. simpl. lia.
    + rewrite last_cons, Hlast. by destruct (last (version <$> items out2)) eqn:Hl; unfold fmap in Hl; rewrite Hl.
Qed.

(** C29: Whatever the control plane answers, and across reconnects, redirects
    and failures, the frames a watch hands on have strictly increasing
    versions, all above the version it started from; and every request names
    the version of the last frame handed on. *)
Theorem watch_increasing script st st' out :
  watch_run (watch_versioned version) st script = Some (st', out) →
  StronglySorted Z.lt (version <$> items out) ∧
  Forall (λ u, st.(last_known_version) < version u) (items out) ∧
  st'.(last_known_version) = default st.(last_known_version) (last (version <$> items out)) ∧
  requests_follow st.(last_known_version) out.
Proof. apply watch_run_increasing. Qed.
End facts.

(** ** Backoff *)

Lemma pow2_mod_small n : (n < 64)%nat → 2 ^ Z.of_nat n mod 2 ^ 64 = 2 ^ Z.of_nat n.
Proof. intros. apply Z.mod_small. split; [lia|]. apply Z.pow_lt_mono_r; lia. Qed.

Lemma backoff_small n : (n ≤ 57)%nat → backoff_ms n = Z.min (100 * 2 ^ Z.of_nat n) 5000.
Proof.
  intros Hn. unfold backoff_ms, u64_mul, BASE_RETRY_DELAY_MS, MAX_RETRY_DELAY_MS.
  rewrite pow2_mod_small by lia. f_equal. apply Z.mod_small. split; [lia|].
  apply Z.le_lt_trans with (100 * 2 ^ 57); [|lia].
  apply Z.mul_le_mono_nonneg_l; [lia|]. apply Z.pow_le_mono_r; lia.
Qed.

Lemma backoff_wraps n : (62 ≤ n)%nat → backoff_ms n = 0.
Proof.
  intros Hn. unfold backoff_ms, u64_mul, BASE_RETRY_DELAY_MS.
  rewrite Z.mul_mod_idemp_r by lia.
  replace (Z.of_nat n) with (62 + (Z.of_nat n - 62)) by lia.
  rewrite Z.pow_add_r, Z.mul_assoc by lia.
  replace (100 * 2 ^ 62) with (25 * 2 ^ 64) by lia.
  replace (25 * 2 ^ 64 * 2 ^ (Z.of_nat n - 62)) with (25 * 2 ^ (Z.of_nat n - 62) * 2 ^ 64) by lia.
  by rewrite Z.mod_mul by lia.
Qed.

Section backoff.
Context {U : Type} (version : U → Z).

Lemma refused_fatal status st :
  status.(code) ≠ Unavailable → st.(at_phase) = Connecting →
  (st.(redirect_hops) ≤ MAX_REDIRECT_HOPS)%nat →
  ∃ reason, watch_versioned version st (Refused status) =
    Some (mkWatch st.(last_known_version) st.(redirect_hops) (S st.(consecutive_failures)) Connecting,
          [Request st.(last_known_version); Yield (Err (Rpc reason));
           Slept (backoff_ms (S st.(consecutive_failures)))]).
Proof.
  intros Hs Hp Hh. unfold watch_versioned, watch_loop_step. rewrite Hp.
  unfold on_refused, classify_error. rewrite decide_False by lia. rewrite decide_False by done. eauto.
Qed.

(** A control plane that refuses with a fatal status [n] times in a row. *)
Lemma refused_run status n st :
  status.(code) ≠ Unavailable → st.(at_phase) = Connecting →
  (st.(redirect_hops) ≤ MAX_REDIRECT_HOPS)%nat →
  ∃ out, watch_run (watch_versioned version) st (replicate n (Refused status))
    = Some (mkWatch st.(last_known_version) st.(redirect_hops)
              (n + st.(consecutive_failures)) Connecting, out).
Proof.
  intros Hs. revert st. induction n as [|n IH]; intros st Hp Hh.
  { exists []. destruct st. simpl in *. by subst. }
  destruct (IH (mkWatch st.(last_known_version) st.(redirect_hops) (S st.(consecutive_failures)) Connecting)
    eq_refl Hh) as [out Hout].
  destruct (refused_fatal status st Hs Hp Hh) as [reason Hstep].
  simpl. rewrite Hstep. simpl. rewrite Hout. simpl. eexists. unfold mret, option_ret. do 3 f_equal. lia.
Qed.

(** Failed connections back off exponentially from 200 ms to the 5 s cap,
    and hold the cap up to the 61st failure in a row; from the 62nd on the
    64-bit product wraps to zero, and a control plane that keeps refusing is
    asked again without any delay. *)
Theorem watch_backoff status n :
  status.(code) ≠ Unavailable →
  ∃ st out, watch_run (watch_versioned version) watch_init (replicate n (Refused status)) = Some (st, out) ∧
    st.(consecutive_failures) = n ∧
    ∃ st' reason, watch_versioned version st (Refused status)
      = Some (st', [Request 0; Yield (Err (Rpc reason)); Slept
          (if decide (S n ≤ 5)%nat then 100 * 2 ^ Z.of_nat (S n)
           else if decide (S n ≤ 61)%nat then 5000 else 0)]).
Proof.
  intros Hs. destruct (refused_run status n watch_init Hs eq_refl ltac:(simpl; lia)) as [out Hout].
  rewrite Nat.add_0_r in Hout. eexists _, out. split; [exact Hout|]. split; [done|].
  destruct (refused_fatal status (mkWatch 0 0 n Connecting) Hs eq_refl ltac:(simpl; lia)) as [reason Hstep].
  eexists _, reason. simpl in *. rewrite Hstep. do 6 f_equal.
  destruct (decide (S n ≤ 5)%nat).
  { rewrite backoff_small by lia. apply Z.min_l. do 6 (destruct n as [|n]; [simpl; lia|]). lia. }
  destruct (decide (S n ≤ 61)%nat); [|apply backoff_wraps; lia].
  destruct (decide (S n ≤ 57)%nat).
  - rewrite backoff_small by lia. apply Z.min_r.
    apply Z.le_trans with (100 * 2 ^ 6); [lia|]. apply Z.mul_le_mono_nonneg_l; [lia|].
    apply Z.pow_le_mono_r; lia.
  - assert (n = 57 ∨ n = 58 ∨ n = 59 ∨ n = 60)%nat as [->|[->|[->| ->]]] by lia; by vm_compute.
Qed.
End backoff.

(** ** Witnesses *)

(** Frames 3, 2 (stale), a lost stream, then 3 again (stale) and 7. *)
Definition script : list (answer Z) :=
  [Accepted; Message 3; Message 2; StreamFailed (mkStatus (OtherCode "Unknown") None "reset");
   Accepted; Message 3; Message 7].
Definition script_run := watch_run (watch_versioned id) watch_init script.
Definition script_out : list (output Z) := default [] (snd <$> script_run).

Lemma watch_increasing_witness :
  items script_out = [3; 7] ∧ StronglySorted Z.lt (id <$> items script_out).
Proof.
  split; [by vm_compute|].
  apply (watch_increasing id script watch_init (default watch_init (fst <$> script_run)) script_out).
  by vm_compute.
Defined.

Lemma watch_backoff_witness :
  ∃ st st' reason, watch_versioned (U := Z) id st (Refused (mkStatus (OtherCode "Internal") None ""))
    = Some (st', [Request 0; Yield (Err (Rpc reason)); Slept 0]).
Proof.
  destruct (watch_backoff id (mkStatus (OtherCode "Internal") None "") 61) as
    (st & out & _ & _ & st' & reason & Hs); [done|]. by exists st, st', reason.
Defined.
