(* ===== verification/Ipv4.v ===== *)
(** The parts of std's number and IPv4 parsing that configuration reaches:
    [u32::from_str], [Ipv4Addr::from_str] and [str::split_once]. *)
From Stdlib Require Import Ascii.
From S2P Require Import Prelude.

Definition digit (c : ascii) : option Z :=
  let n := Z.of_nat (nat_of_ascii c) - 48 in
  if decide (0 ≤ n ≤ 9) then Some n else None.

(** [u32::from_str]: an optional plus sign, then digits, with the overflow
    check on every digit. *)
Fixpoint parse_digits (acc : Z) (s : string) : result string Z :=
  match s with
  | EmptyString => Ok acc
  | String c s =>
      match digit c with
      | None => Err "invalid digit found in string"
      | Some d =>
          if decide (acc * 10 + d < 2 ^ 32) then parse_digits (acc * 10 + d) s
          else Err "number too large to fit in target type"
      end
  end.
Definition parse_u32 (s : string) : result string Z :=
  match s with
  | EmptyString => Err "cannot parse integer from empty string"
  | String "+" EmptyString => Err "invalid digit found in string"
  | String "+" s => parse_digits 0 s
  | s => parse_digits 0 s
  end.

(** [str::split_once] on one character. *)
Fixpoint split_once (sep : ascii) (s : string) : option (string * string) :=
  match s with
  | EmptyString => None
  | String c s =>
      if decide (c = sep) then Some ("", s)
      else (λ '(a, b), (String c a, b)) <$> split_once sep s
  end.

(** One octet: one to three digits, no leading zero, at most 255. *)
Fixpoint read_octet (fuel : nat) (acc : Z) (s : string) : option (Z * string) :=
  match fuel, s with
  | S fuel, String c s' =>
      match digit c with
      | Some d =>
          if decide (acc * 10 + d < 256) then read_octet fuel (acc * 10 + d) s' else None
      | None => Some (acc, s)
      end
  | _, _ => Some (acc, s)
  end.
Definition octet (s : string) : option (Z * string) :=
  match s with
  | String c s' =>
      match digit c with
      | None => None
      | Some 0 =>
          (* a zero stands alone *)
          match s' with
          | String c' _ => match digit c' with Some _ => None | None => Some (0, s') end
          | EmptyString => Some (0, s')
          end
      | Some d => read_octet 2 d s'
      end
  | EmptyString => None
  end.
Definition dot (s : string) : option string :=
  match s with String "." s => Some s | _ => None end.

(** [Ipv4Addr::from_str], as the [u32] of its big-endian octets. *)
Definition parse_ipv4 (s : string) : result string Z :=
  match
    '(a, s) ← octet s; s ← dot s;
    '(b, s) ← octet s; s ← dot s;
    '(c, s) ← octet s; s ← dot s;
    '(d, s) ← octet s;
    if decide (s = "") then Some (a * 2 ^ 24 + b * 2 ^ 16 + c * 2 ^ 8 + d) else None
  with
  | Some ip => Ok ip
  | None => Err "invalid IPv4 address syntax"
  end.

Lemma digit_range c d : digit c = Some d → 0 ≤ d ≤ 9.
Proof. unfold digit. intros. by case_decide; simplify_eq. Qed.

Lemma parse_digits_u32 acc s n : is_u32 acc → parse_digits acc s = Ok n → is_u32 n.
Proof.
  revert acc. induction s as [|c s IH]; intros acc Hacc Hp; simpl in Hp; [by simplify_eq|].
  destruct (digit c) as [d|] eqn:Hd; [|done]. apply digit_range in Hd.
  case_decide; [|done]. eapply IH; [|exact Hp]. unfold is_u32 in *. lia.
Qed.
Lemma parse_u32_range s n : parse_u32 s = Ok n → is_u32 n.
Proof.
  assert (is_u32 0) as H0 by (unfold is_u32; lia).
  unfold parse_u32. intros Hp. repeat case_match; simplify_eq; by eapply parse_digits_u32.
Qed.

Lemma read_octet_range fuel acc s n s' :
  0 ≤ acc < 256 → read_octet fuel acc s = Some (n, s') → 0 ≤ n < 256.
Proof.
  revert acc s. induction fuel as [|fuel IH]; intros acc s Hacc Hr; simpl in Hr; [by simplify_eq|].
  destruct s as [|c s]; [by simplify_eq|].
  destruct (digit c) as [d|] eqn:Hd; [|by simplify_eq]. apply digit_range in Hd.
  case_decide; [|done]. eapply IH; [|exact Hr]. lia.
Qed.
Lemma octet_range s n s' : octet s = Some (n, s') → 0 ≤ n < 256.
Proof.
  unfold octet. intros Ho. destruct s as [|c s]; [done|].
  destruct (digit c) as [d|] eqn:Hd; [|done]. apply digit_range in Hd.
  destruct d as [|d|d]; [|eapply read_octet_range; [|exact Ho]; lia|lia].
  destruct s as [|c' s]; [|destruct (digit c')]; by simplify_eq.
Qed.

Lemma parse_ipv4_range s ip : parse_ipv4 s = Ok ip → is_u32 ip.
Proof.
  unfold parse_ipv4. intros Hp.
  destruct (octet s) as [[a s1]|] eqn:Ha; [|done]. simpl in Hp. destruct (dot s1) as [s2|]; [|done]. simpl in Hp.
  destruct (octet s2) as [[b s3]|] eqn:Hb; [|done]. simpl in Hp. destruct (dot s3) as [s4|]; [|done]. simpl in Hp.
  destruct (octet s4) as [[c s5]|] eqn:Hc; [|done]. simpl in Hp. destruct (dot s5) as [s6|]; [|done]. simpl in Hp.
  destruct (octet s6) as [[d s7]|] eqn:Hd; [|done]. simpl in Hp.
  destruct (decide (s7 = "")); [|done]. injection Hp as <-.
  apply octet_range in Ha, Hb, Hc, Hd. unfold is_u32. lia.
Qed.

Example parse_ipv4_examples :
  parse_ipv4 "10.1.0.255" = Ok (10 * 2 ^ 24 + 2 ^ 16 + 255) ∧ is_ok (parse_ipv4 "10.01.0.1") = false ∧
  is_ok (parse_ipv4 "10.1.0.256") = false ∧ is_ok (parse_ipv4 "10.1.0") = false ∧
  is_ok (parse_ipv4 "1.2.3.4 ") = false ∧ parse_ipv4 "0.0.0.0" = Ok 0.
Proof. by vm_compute. Qed.
