(* ===== verification/IpAllocator.v ===== *)
(** The node-local workload IP allocator ([NodeIpAllocator] in
    src/workloads/mod.rs). *)
From Stdlib Require Import Ascii.
From S2P Require Import Prelude Errors Ipv4.

Record NodeIpAllocator := mkAllocator {
  base : Z;
  host_count : Z;
  next_offset : Z;
  free : gset Z;
  allocated : gmap Z string;
}.

Definition parse_cidr (cidr : string) : Result (Z * Z) :=
  '(addr, prefix) ← ok_or (Workload "CIDR missing /prefix") (split_once "/"%char cidr);
  ip ← map_err (λ e, Workload ("bad CIDR address: " +:+ e)) (parse_ipv4 addr);
  prefix ← map_err (λ e, Workload ("bad CIDR prefix: " +:+ e)) (parse_u32 prefix);
  if decide (32 < prefix) then Err (Workload "CIDR prefix > 32") else mret (ip, prefix).

Definition NodeIpAllocator_new (cidr : string) : Result NodeIpAllocator :=
  '(ip, prefix) ← parse_cidr cidr;
  if decide (¬ 8 ≤ prefix ≤ 28) then
    Err (Workload ("workload_ip_cidr prefix /" +:+ pretty prefix +:+ " outside 8..=28"))
  else
    let mask := if decide (prefix = 0) then 0 else Z.shiftl u32_max (32 - prefix) mod 2 ^ 32 in
    let base := Z.land ip mask in
    if decide (Z.shiftr base 28 = 15) then
      Err (Workload "workload_ip_cidr overlaps the 240.0.0.0/4 dummy space")
    else Ok (mkAllocator base (Z.shiftl 1 (32 - prefix)) 1 ∅ ∅).

Definition exhausted : AgentError := Workload "node workload IP space exhausted".

Section allocate.
Context {OZ : HashOrder Z}.

(** A single address; the offset reused is the first the set iterates. *)
Definition allocate (pod_id : string) : M AgentError NodeIpAllocator Z := λ a,
  match iter_set a.(free) with
  | o :: _ =>
      (Ok (u32_add a.(base) o),
       mkAllocator a.(base) a.(host_count) a.(next_offset) (a.(free) ∖ {[o]})
         (<[o := pod_id]> a.(allocated)))
  | [] =>
      let o := a.(next_offset) in
      if decide (a.(host_count) - 1 ≤ o) then (Err exhausted, a)
      else (Ok (u32_add a.(base) o),
            mkAllocator a.(base) a.(host_count) (u32_add o 1) a.(free)
              (<[o := pod_id]> a.(allocated)))
  end.
End allocate.

(** [allocated.retain]: entries of the given owners move to the free set. *)
Definition release_where (owners : string → bool) (a : NodeIpAllocator) : NodeIpAllocator :=
  mkAllocator a.(base) a.(host_count) a.(next_offset)
    (dom (filter (λ '(_, pid), owners pid = true) a.(allocated)) ∪ a.(free))
    (filter (λ '(_, pid), owners pid = false) a.(allocated)).

Definition release (pod_id : string) : NodeIpAllocator → NodeIpAllocator :=
  release_where (λ pid, bool_decide (pid = pod_id)).

Definition allocated_count (a : NodeIpAllocator) : nat := size a.(allocated).

(** [while o % 4 != 1 { o += 1 }]. *)
Fixpoint align_pair (fuel : nat) (o : Z) : Z :=
  match fuel with
  | O => o
  | S fuel => if decide (o mod 4 ≠ 1) then align_pair fuel (u32_add o 1) else o
  end.

(** The lowest freed offset that starts a pair. *)
Definition reusable (a : NodeIpAllocator) : option Z :=
  let candidates := merge_sort Z.le (elements a.(free)) in
  head (filter (λ o, o mod 4 = 1 ∧ u32_add o 1 ∈ a.(free)) candidates).

Definition gw_owner (pod_id : string) : string := pod_id +:+ ":gw".

Definition allocate_microvm_pair (pod_id : string) : M AgentError NodeIpAllocator (Z * Z) := λ a,
  match reusable a with
  | Some o =>
      let o1 := u32_add o 1 in
      (Ok (u32_add a.(base) o, u32_add (u32_add a.(base) o) 1),
       mkAllocator a.(base) a.(host_count) a.(next_offset) (a.(free) ∖ {[o]} ∖ {[o1]})
         (<[o1 := pod_id]> (<[o := gw_owner pod_id]> a.(allocated))))
  | None =>
      let o := align_pair 4 a.(next_offset) in
      if decide (a.(host_count) - 1 ≤ u32_add o 1) then (Err exhausted, a) else
      let gw_offset := o in
      let guest_offset := u32_add o 1 in
      (Ok (u32_add a.(base) gw_offset, u32_add a.(base) guest_offset),
       mkAllocator a.(base) a.(host_count) (u32_add o 4) a.(free)
         (<[guest_offset := pod_id]> (<[gw_offset := gw_owner pod_id]> a.(allocated))))
  end.

Definition release_microvm_pair (pod_id : string) : NodeIpAllocator → NodeIpAllocator :=
  release_where (λ pid, bool_decide (pid = pod_id) || bool_decide (pid = gw_owner pod_id)).

Definition allocate_p2p_pair := allocate_microvm_pair.
Definition release_p2p_pair := release_microvm_pair.

(** ** Well-formed allocators *)

(** The range is a block of [host_count] addresses below 240.0.0.0, the offsets
    handed out lie strictly between its network and broadcast address, and none
    is both free and allocated. *)
Definition usable (a : NodeIpAllocator) (o : Z) : Prop := 1 ≤ o < a.(host_count) - 1 ∧ o < a.(next_offset).
Record wf (a : NodeIpAllocator) : Prop := mkWf {
  wf_count : 16 ≤ a.(host_count) ≤ 2 ^ 24;
  wf_align : a.(base) mod a.(host_count) = 0 ∧ a.(host_count) mod 16 = 0;
  wf_base : 0 ≤ a.(base) ∧ a.(base) + a.(host_count) ≤ 15 * 2 ^ 28;
  wf_next : 1 ≤ a.(next_offset) ≤ a.(host_count) + 1;
  wf_free o : o ∈ a.(free) → usable a o;
  wf_allocated o : is_Some (a.(allocated) !! o) → usable a o;
  wf_disjoint o : o ∈ a.(free) → a.(allocated) !! o = None;
}.

Lemma land_high_bits ip k :
  0 ≤ k < 32 → is_u32 ip → Z.land ip (Z.shiftl u32_max k mod 2 ^ 32) = Z.shiftl (Z.shiftr ip k) k.
Proof.
  intros Hk Hip. apply Z.bits_inj'. intros n Hn.
  rewrite Z.land_spec, Z.shiftl_spec by lia.
  destruct (decide (n < 32)).
  - rewrite Z.mod_pow2_bits_low, Z.shiftl_spec by lia.
    destruct (decide (n < k)).
    + by rewrite !(Z.testbit_neg_r _ (n - k)), andb_false_r by lia.
    + rewrite Z.shiftr_spec by lia. replace (n - k + k) with n by lia.
      change u32_max with (Z.ones 32). by rewrite Z.ones_spec_low, andb_true_r by lia.
  - rewrite Z.mod_pow2_bits_high, andb_false_r by lia.
    rewrite Z.shiftr_spec by lia. replace (n - k + k) with n by lia.
    symmetry. apply Z.bits_above_log2; [unfold is_u32 in *; lia|].
    unfold is_u32 in Hip. destruct (decide (ip = 0)) as [->|]; [simpl; lia|].
    apply Z.log2_lt_pow2; [lia|]. apply Z.lt_le_trans with (2 ^ 32); [lia|]. apply Z.pow_le_mono_r; lia.
Qed.

(** The arithmetic of a block: aligned down, and below the dummy range. *)
Lemma block_bounds ip k :
  4 ≤ k ≤ 24 → is_u32 ip →
  let b := Z.shiftl (Z.shiftr ip k) k in
  let n := Z.shiftl 1 k in
  Z.shiftr b 28 ≠ 15 →
  16 ≤ n ≤ 2 ^ 24 ∧ (b mod n = 0 ∧ n mod 16 = 0) ∧ 0 ≤ b ∧ b + n ≤ 15 * 2 ^ 28.
Proof.
  intros Hk Hip b n Htop. subst b n. unfold is_u32 in Hip.
  rewrite Z.shiftl_1_l. rewrite Z.shiftl_mul_pow2, !Z.shiftr_div_pow2 in * by lia.
  assert (2 ^ 4 ≤ 2 ^ k) as Hlo by (apply Z.pow_le_mono_r; lia).
  assert (2 ^ k ≤ 2 ^ 24) as Hhi by (apply Z.pow_le_mono_r; lia).
  assert (2 ^ k mod 16 = 0) as H16.
  { replace k with (k - 4 + 4) by lia. rewrite Z.pow_add_r by lia. apply Z.mod_mul. lia. }
  assert (2 ^ 28 = 2 ^ (28 - k) * 2 ^ k) as H28 by (rewrite <-Z.pow_add_r by lia; f_equal; lia).
  assert (0 ≤ ip / 2 ^ k) by (apply Z.div_pos; lia).
  assert (ip / 2 ^ k * 2 ^ k ≤ ip) as Hle by (rewrite Z.mul_comm; apply Z.mul_div_le; lia).
  assert (ip / 2 ^ k * 2 ^ k mod 2 ^ k = 0) by (apply Z.mod_mul; lia).
  set (q := ip / 2 ^ k) in *. set (p := 2 ^ k) in *. set (r := 2 ^ (28 - k)) in *. clearbody q p r.
  assert (q * p < 15 * 2 ^ 28) as Hlt.
  { assert (q * p / 2 ^ 28 < 16) by (apply Z.div_lt_upper_bound; lia).
    apply Z.nle_gt. intros Hge. apply (Z.div_le_mono _ _ (2 ^ 28)) in Hge; [|lia].
    rewrite Z.div_mul in Hge by lia. lia. }
  change (2 ^ 4) with 16 in Hlo. split; [lia|]. split; [done|]. split; [nia|].
  rewrite H28 in *. assert (q < 15 * r) by nia. nia.
Qed.

Lemma parse_cidr_range cidr ip prefix : parse_cidr cidr = Ok (ip, prefix) → is_u32 ip ∧ prefix ≤ 32.
Proof.
  unfold parse_cidr. intros Hp. destruct (split_once _ _) as [[addr p]|]; [|done]. simpl in Hp.
  destruct (parse_ipv4 addr) as [ip'|] eqn:Hip; [|done]. simpl in Hp.
  destruct (parse_u32 p) as [p'|]; [|done]. simpl in Hp. case_decide; [done|].
  injection Hp as -> ->. split; [by eapply parse_ipv4_range|lia].
Qed.

(** Whatever the configured CIDR, [new] gives an allocator only for a block
    of 16 to 2^24 addresses, aligned to its size and disjoint from the
    240.0.0.0/4 dummy range; it starts well formed and empty. *)
Theorem new_wf cidr a :
  NodeIpAllocator_new cidr = Ok a → wf a ∧ a.(allocated) = ∅ ∧ a.(free) = ∅ ∧ a.(next_offset) = 1.
Proof.
  unfold NodeIpAllocator_new. intros ([ip prefix] & Hp & Hrun)%result_bind_ok.
  apply parse_cidr_range in Hp as [Hip _].
  destruct (decide (¬ 8 ≤ prefix ≤ 28)) as [|Hpre]; [done|].
  apply dec_stable in Hpre.
  destruct (decide (prefix = 0)) as [|_]; [lia|]. rewrite land_high_bits in Hrun by (lia || done).
  destruct (decide (_ = 15)) as [|Htop]; [done|]. injection Hrun as <-.
  destruct (block_bounds ip (32 - prefix)) as (Hc & Ha & Hb); [lia|done|done|].
  split; [|done]. split; simpl; try done; try lia; try set_solver.
  intros o. rewrite lookup_empty. by intros [].
Qed.

(** ** Pairs *)

Lemma u32_add_offset a o k : wf a → 0 ≤ o ≤ a.(host_count) + 8 → 0 ≤ k ≤ 8 → u32_add o k = o + k.
Proof. intros [Hc _ _ _ _ _ _] Ho Hk. apply u32_add_small. unfold is_u32. lia. Qed.
Lemma u32_add_base a o : wf a → 0 ≤ o < a.(host_count) → u32_add a.(base) o = a.(base) + o.
Proof. intros [Hc _ [Hb Hb'] _ _ _ _] Ho. apply u32_add_small. unfold is_u32. lia. Qed.

(** The alignment loop ends within three turns. *)
Lemma align_pair_spec n : 0 ≤ n ≤ 2 ^ 25 →
  align_pair 4 n mod 4 = 1 ∧ n ≤ align_pair 4 n ≤ n + 3.
Proof.
  intros Hn.
  assert (∀ m, 0 ≤ m ≤ 2 ^ 25 + 8 → u32_add m 1 = m + 1) as Hadd
    by (intros; apply u32_add_small; unfold is_u32; lia).
  cbn [align_pair].
  destruct (decide (n mod 4 ≠ 1)) as [H1|H1%dec_stable]; [|lia].
  rewrite (Hadd n) by lia.
  destruct (decide ((n + 1) mod 4 ≠ 1)) as [H2|H2%dec_stable]; [|lia].
  rewrite (Hadd (n + 1)) by lia.
  destruct (decide ((n + 1 + 1) mod 4 ≠ 1)) as [H3|H3%dec_stable]; [|lia].
  rewrite (Hadd (n + 1 + 1)) by lia.
  destruct (decide ((n + 1 + 1 + 1) mod 4 ≠ 1)) as [H4|H4%dec_stable]; [|lia].
  exfalso. clear Hadd. Z.to_euclidean_division_equations. lia.
Qed.

Lemma reusable_spec a : wf a →
  match reusable a with
  | Some o => o ∈ a.(free) ∧ o mod 4 = 1 ∧ o + 1 ∈ a.(free)
  | None => ∀ o, o ∈ a.(free) → o mod 4 = 1 → o + 1 ∉ a.(free)
  end.
Proof.
  intros Hwf. unfold reusable.
  assert (∀ o, o ∈ a.(free) → u32_add o 1 = o + 1) as Hadd.
  { intros o Ho. apply (u32_add_offset a); [done| |lia]. pose proof (wf_free a Hwf o Ho) as [? _]. lia. }
  assert (∀ o, o ∈ filter (λ o, o mod 4 = 1 ∧ u32_add o 1 ∈ a.(free)) (merge_sort Z.le (elements a.(free))) ↔
    o ∈ a.(free) ∧ o mod 4 = 1 ∧ o + 1 ∈ a.(free)) as Hin.
  { intros o. rewrite list_elem_of_filter, merge_sort_Permutation, elem_of_elements.
    split; [intros [[H1 H2] H3]; rewrite Hadd in H2 by done; done|].
    intros (H1 & H2 & H3). by rewrite Hadd. }
  destruct (filter _ _) as [|o l] eqn:Hf; simpl.
  - intros o H1 H2 H3. apply (not_elem_of_nil (A := Z) o). by apply Hin.
  - apply Hin. by left.
Qed.

(** Where the next fresh pair goes. *)
Definition fresh_pair (a : NodeIpAllocator) : Z := align_pair 4 a.(next_offset).

Lemma align_offset a o : wf a → o mod 4 = 1 → (a.(base) + o) mod 4 = 1.
Proof.
  intros Hwf Ho. pose proof (wf_count a Hwf). destruct (wf_align a Hwf) as [[q Hq]%Z.mod_divide H16]; [|lia].
  apply Z.mod_divide in H16 as [c Hc]; [|lia].
  rewrite Hq, Hc. replace (q * (c * 16) + o) with (o + (q * c * 4) * 4) by lia. by rewrite Z.mod_add.
Qed.

(** The addresses of a pair, without the wrap-around of their additions. *)
Lemma pair_addresses a o : wf a → 0 ≤ o → o + 1 < a.(host_count) →
  u32_add o 1 = o + 1 ∧ u32_add a.(base) o = a.(base) + o ∧
  u32_add a.(base) (o + 1) = a.(base) + (o + 1) ∧ u32_add (a.(base) + o) 1 = a.(base) + (o + 1).
Proof.
  intros Hwf Ho Ho1. pose proof (wf_base a Hwf).
  rewrite (u32_add_offset a o 1), !(u32_add_base a) by (done || lia).
  rewrite (u32_add_small (a.(base) + o) 1) by (unfold is_u32; lia). lia.
Qed.

(** The state after the pair at [o] went to [pod]. *)
Definition with_pair (a : NodeIpAllocator) (o : Z) (pod : string) (next : Z) : NodeIpAllocator :=
  mkAllocator a.(base) a.(host_count) next (a.(free) ∖ {[o]} ∖ {[o + 1]})
    (<[o + 1 := pod]> (<[o := gw_owner pod]> a.(allocated))).

Lemma fresh_unseen a o : wf a → a.(next_offset) ≤ o → a.(allocated) !! o = None ∧ o ∉ a.(free).
Proof.
  intros Hwf Ho. split.
  - apply eq_None_not_Some. intros [_ ?]%(wf_allocated a Hwf). lia.
  - intros [_ ?]%(wf_free a Hwf). lia.
Qed.

(** The three outcomes of an allocation. *)
Lemma allocate_reuse pod a o : wf a → reusable a = Some o →
  allocate_microvm_pair pod a =
    (Ok (a.(base) + o, a.(base) + (o + 1)), with_pair a o pod a.(next_offset)).
Proof.
  intros Hwf Hre. pose proof (reusable_spec a Hwf) as Hs. rewrite Hre in Hs. destruct Hs as (Ho & _ & Ho1).
  apply (wf_free a Hwf) in Ho as [? ?], Ho1 as [? ?].
  destruct (pair_addresses a o Hwf) as (E1 & E2 & _ & E4); [lia..|].
  unfold allocate_microvm_pair. by rewrite Hre, E1, E2, E4.
Qed.
Lemma allocate_fresh pod a : wf a → reusable a = None → fresh_pair a + 1 < a.(host_count) - 1 →
  allocate_microvm_pair pod a =
    (Ok (a.(base) + fresh_pair a, a.(base) + (fresh_pair a + 1)),
     with_pair a (fresh_pair a) pod (fresh_pair a + 4)).
Proof.
  intros Hwf Hre Hroom. pose proof (wf_next a Hwf). pose proof (wf_count a Hwf).
  pose proof (align_pair_spec a.(next_offset) ltac:(lia)) as [_ ?]. fold (fresh_pair a) in *.
  destruct (pair_addresses a (fresh_pair a) Hwf) as (E1 & E2 & E3 & _); [lia..|].
  destruct (fresh_unseen a (fresh_pair a) Hwf) as [_ Hf0]; [lia|].
  destruct (fresh_unseen a (fresh_pair a + 1) Hwf) as [_ Hf1]; [lia|].
  unfold allocate_microvm_pair, with_pair. rewrite Hre. fold (fresh_pair a).
  rewrite E1, E2, E3, (u32_add_offset a _ 4), decide_False by (done || lia).
  by rewrite !difference_disjoint_L by set_solver.
Qed.
Lemma allocate_full pod a : wf a → reusable a = None → a.(host_count) - 1 ≤ fresh_pair a + 1 →
  allocate_microvm_pair pod a = (Err exhausted, a).
Proof.
  intros Hwf Hre Hfull. pose proof (wf_next a Hwf). pose proof (wf_count a Hwf).
  pose proof (align_pair_spec a.(next_offset) ltac:(lia)) as [_ ?]. fold (fresh_pair a) in *.
  unfold allocate_microvm_pair. rewrite Hre. fold (fresh_pair a).
  by rewrite (u32_add_offset a _ 1), decide_True by (done || lia).
Qed.

Lemma with_pair_wf a o pod next :
  wf a → 1 ≤ o → o + 1 < a.(host_count) - 1 → a.(next_offset) ≤ next ≤ a.(host_count) + 1 → o + 1 < next →
  wf (with_pair a o pod next).
Proof.
  intros [Hc Hal Hb Hn Hfree Halloc Hdis] Ho Ho1 Hnext Hlt. split; simpl; try done; try lia.
  - intros x Hx. assert (x ∈ a.(free)) as [? ?]%Hfree by set_solver. unfold usable. simpl. lia.
  - intros x. rewrite !lookup_insert_is_Some. unfold usable in *. simpl.
    intros [<-|[_ [<-|[_ [? ?]%Halloc]]]]; lia.
  - intros x Hx. rewrite !lookup_insert_None.
    rewrite !elem_of_difference, !elem_of_singleton in Hx. destruct Hx as [[Hx ?] ?]. auto.
Qed.

(** Where the pair of an allocation starts, what state it leaves, or why there
    is none. *)
Lemma allocate_cases pod a r a' : wf a → allocate_microvm_pair pod a = (r, a') →
  match r with
  | Ok (gw, guest) => ∃ o next, gw = a.(base) + o ∧ guest = a.(base) + (o + 1) ∧ a' = with_pair a o pod next ∧
      o mod 4 = 1 ∧ 1 ≤ o ∧ o + 1 < a.(host_count) - 1 ∧ a.(next_offset) ≤ next ≤ a.(host_count) + 1 ∧
      o + 1 < next ∧ a.(allocated) !! o = None ∧ a.(allocated) !! (o + 1) = None
  | Err e => a' = a ∧ e = exhausted ∧ a.(host_count) - 1 ≤ fresh_pair a + 1 ∧ reusable a = None
  end.
Proof.
  intros Hwf Hrun. pose proof (wf_next a Hwf). pose proof (wf_count a Hwf).
  pose proof (reusable_spec a Hwf) as Hre. destruct (reusable a) as [o|] eqn:Ho.
  - rewrite (allocate_reuse pod a o Hwf Ho) in Hrun. injection Hrun as <- <-.
    destruct Hre as (Hf & Ho4 & Hf1). pose proof (wf_free a Hwf o Hf) as [? ?].
    pose proof (wf_free a Hwf _ Hf1) as [? ?]. pose proof (wf_disjoint a Hwf).
    exists o, a.(next_offset). repeat split; eauto; lia.
  - pose proof (align_pair_spec a.(next_offset) ltac:(lia)) as [Ho4 ?]. fold (fresh_pair a) in *.
    destruct (decide (a.(host_count) - 1 ≤ fresh_pair a + 1)).
    { rewrite allocate_full in Hrun by done. by injection Hrun as <- <-. }
    rewrite allocate_fresh in Hrun by (done || lia). injection Hrun as <- <-.
    destruct (fresh_unseen a (fresh_pair a) Hwf) as [? _]; [lia|].
    destruct (fresh_unseen a (fresh_pair a + 1) Hwf) as [? _]; [lia|].
    exists (fresh_pair a), (fresh_pair a + 4). destruct (wf_align a Hwf) as [_ ?].
    repeat split; try done; Z.to_euclidean_division_equations; lia.
Qed.

(** A pair is handed out whole and to one owner: two consecutive addresses
    inside the block, below 240.0.0.0, the gateway at 1 modulo 4, neither
    allocated before; every other entry is untouched.  The allocator stays well
    formed.  It refuses, unchanged, only when no freed pair is left and the next
    one would reach the broadcast address. *)
Theorem allocate_pair_spec pod a r a' :
  wf a → allocate_microvm_pair pod a = (r, a') →
  wf a' ∧ a'.(base) = a.(base) ∧ a'.(host_count) = a.(host_count) ∧
  match r with
  | Ok (gw, guest) =>
      guest = gw + 1 ∧ a.(base) < gw ∧ guest < a.(base) + a.(host_count) - 1 ∧ guest < 15 * 2 ^ 28 ∧
      gw mod 4 = 1 ∧ a.(allocated) !! (gw - a.(base)) = None ∧ a.(allocated) !! (guest - a.(base)) = None ∧
      a'.(allocated) = <[guest - a.(base) := pod]> (<[gw - a.(base) := gw_owner pod]> a.(allocated)) ∧
      a'.(free) = a.(free) ∖ {[gw - a.(base)]} ∖ {[guest - a.(base)]}
  | Err e => a' = a ∧ e = exhausted ∧ a.(host_count) - 1 ≤ fresh_pair a + 1 ∧
      ∀ o, o ∈ a.(free) → o mod 4 = 1 → o + 1 ∉ a.(free)
  end.
Proof.
  intros Hwf Hrun%allocate_cases; [|done]. pose proof (wf_base a Hwf). destruct r as [[gw guest]|e].
  - destruct Hrun as (o & next & -> & -> & -> & Ho4 & Ho & Ho1 & Hn & Hlt & Hfo & Hfo1).
    split; [by apply with_pair_wf|]. split; [done|]. split; [done|]. unfold with_pair. simpl.
    replace (base a + (o + 1) - base a) with (o + 1) by lia. replace (base a + o - base a) with o by lia.
    repeat split; try done; try lia. by apply align_offset.
  - destruct Hrun as (-> & -> & Hfull & Hre). pose proof (reusable_spec a Hwf) as Hs. by rewrite Hre in Hs.
Qed.

(** ** Release, and whole histories *)

Definition pair_owner (pod_id pid : string) : bool :=
  bool_decide (pid = pod_id) || bool_decide (pid = gw_owner pod_id).
#[global] Arguments pair_owner : simpl never.

Lemma release_lookup owners a o :
  (release_where owners a).(allocated) !! o =
    (pid ← a.(allocated) !! o; if owners pid then None else Some pid).
Proof.
  simpl. rewrite map_lookup_filter. destruct (a.(allocated) !! o) as [pid|]; [|done]. simpl.
  destruct (owners pid) eqn:Hp; simpl; rewrite ?option_guard_False, ?option_guard_True; congruence.
Qed.
Lemma release_free owners a o :
  o ∈ (release_where owners a).(free) ↔
  o ∈ a.(free) ∨ ∃ pid, a.(allocated) !! o = Some pid ∧ owners pid = true.
Proof.
  simpl. rewrite elem_of_union, elem_of_dom. unfold is_Some.
  setoid_rewrite map_lookup_filter_Some. naive_solver.
Qed.

Lemma release_wf owners a : wf a → wf (release_where owners a).
Proof.
  intros Hwf. pose proof Hwf as [Hc Hal Hb Hn Hfree Halloc Hdis]. split; try done.
  - intros o [Ho|(pid & Ho & _)]%release_free; [by apply Hfree|]. apply Halloc. eauto.
  - intros o [pid Ho]. rewrite release_lookup in Ho. apply Halloc.
    destruct (a.(allocated) !! o); [eauto|done].
  - intros o Ho%release_free. rewrite release_lookup.
    destruct Ho as [Ho|(pid & -> & Hp)]; [by rewrite (Hdis o Ho)|]. simpl. by rewrite Hp.
Qed.

(** The pods holding a pair, with their addresses: (pod, gateway, guest). *)
Inductive op := AllocatePair (pod_id : string) | ReleasePair (pod_id : string).
Definition lease : Type := string * Z * Z.
Definition pod_of (o : op) : string := match o with AllocatePair p | ReleasePair p => p end.

Definition run_op (s : NodeIpAllocator * list lease) (o : op) : NodeIpAllocator * list lease :=
  let '(a, ls) := s in
  match o with
  | AllocatePair pod =>
      match allocate_p2p_pair pod a with
      | (Ok (gw, guest), a') => (a', (pod, gw, guest) :: ls)
      | (Err _, a') => (a', ls)
      end
  | ReleasePair pod => (release_p2p_pair pod a, filter (λ l, l.1.1 ≠ pod) ls)
  end.

Definition addresses (ls : list lease) : list Z := concat ((λ l, [l.1.2; l.2]) <$> ls).

Lemma elem_of_addresses ls x : x ∈ addresses ls ↔ ∃ l, l ∈ ls ∧ (x = l.1.2 ∨ x = l.2).
Proof.
  unfold addresses. induction ls as [|l ls IH]; simpl.
  - split; [intros []%not_elem_of_nil|intros (? & []%not_elem_of_nil & _)].
  - rewrite !elem_of_cons, IH. setoid_rewrite elem_of_cons. naive_solver.
Qed.

(** Pod ids that no other pod's gateway entry can be mistaken for. *)
Definition ids_ok (ids : gset string) : Prop := ∀ p q, p ∈ ids → q ∈ ids → p ≠ gw_owner q.

Record leased (ids : gset string) (a : NodeIpAllocator) (ls : list lease) : Prop := mkLeased {
  l_wf : wf a;
  l_nodup : NoDup (addresses ls);
  l_entry pod gw guest : (pod, gw, guest) ∈ ls →
    pod ∈ ids ∧ guest = gw + 1 ∧ gw mod 4 = 1 ∧
    a.(allocated) !! (gw - a.(base)) = Some (gw_owner pod) ∧
    a.(allocated) !! (guest - a.(base)) = Some pod;
  l_complete o : is_Some (a.(allocated) !! o) → a.(base) + o ∈ addresses ls;
}.

Lemma gw_owner_inj p q : gw_owner p = gw_owner q → p = q.
Proof.
  unfold gw_owner. intros H%(f_equal as_bytes). rewrite !as_bytes_app in H.
  apply as_bytes_inj. by apply (inj (λ l, l ++ as_bytes ":gw")) in H.
Qed.

Lemma pair_owner_true pod pid : pair_owner pod pid = true ↔ pid = pod ∨ pid = gw_owner pod.
Proof. unfold pair_owner. by rewrite orb_true_iff, !bool_decide_eq_true. Qed.

(** Among admissible ids, only the pod itself and its gateway entry are its
    own. *)
Lemma pair_owner_pod ids pod p :
  ids_ok ids → pod ∈ ids → p ∈ ids → pair_owner pod p = bool_decide (p = pod).
Proof.
  intros Hids Hpod Hp. apply eq_bool_prop_intro. rewrite !Is_true_true, pair_owner_true, bool_decide_eq_true.
  specialize (Hids p pod Hp Hpod). naive_solver.
Qed.
Lemma pair_owner_gw ids pod p :
  ids_ok ids → pod ∈ ids → p ∈ ids → pair_owner pod (gw_owner p) = bool_decide (p = pod).
Proof.
  intros Hids Hpod Hp. apply eq_bool_prop_intro. rewrite !Is_true_true, pair_owner_true, bool_decide_eq_true.
  specialize (Hids pod p Hpod Hp). pose proof (gw_owner_inj p pod). naive_solver.
Qed.

Lemma lease_recorded ids a ls x : leased ids a ls → x ∈ addresses ls → is_Some (a.(allocated) !! (x - a.(base))).
Proof.
  intros Hl ([[pod gw] guest] & Hin & Hx)%elem_of_addresses.
  destruct (l_entry _ _ _ Hl _ _ _ Hin) as (_ & _ & _ & H1 & H2). simpl in Hx. destruct Hx as [->| ->]; eauto.
Qed.

Lemma leased_allocate ids a ls pod a' ls' :
  leased ids a ls → pod ∈ ids → run_op (a, ls) (AllocatePair pod) = (a', ls') →
  leased ids a' ls' ∧ a'.(base) = a.(base) ∧ a'.(host_count) = a.(host_count).
Proof.
  intros Hl Hpod Hrun. pose proof Hl as [Hwf Hnd He Hc]. simpl in Hrun. unfold allocate_p2p_pair in Hrun.
  destruct (allocate_microvm_pair pod a) as [r a1] eqn:Ha.
  destruct (allocate_pair_spec _ _ _ _ Hwf Ha) as (Hwf' & Hb & Hh & Hr).
  destruct r as [[gw guest]|e]; injection Hrun as <- <-; [|destruct Hr as (-> & _); split; done].
  destruct Hr as (Hg & _ & _ & _ & Hm & Hn1 & Hn2 & Hal & _). split; [|done].
  assert (∀ x, a.(allocated) !! (x - a.(base)) = None → x ∉ addresses ls) as Hnew.
  { intros x Hx Hin. apply (lease_recorded _ _ _ _ Hl) in Hin as [? Hin]. congruence. }
  split; [done| | |].
  - change (addresses ((pod, gw, guest) :: ls)) with (gw :: guest :: addresses ls).
    apply NoDup_cons. split; [|apply NoDup_cons; split; [by apply Hnew|done]].
    intros [?|?]%elem_of_cons; [lia|by apply (Hnew gw Hn1)].
  - intros pod' gw' guest' [[= -> -> ->]|Hin]%elem_of_cons; rewrite Hb, Hal.
    + repeat split; try done.
      * by rewrite lookup_insert_ne, lookup_insert_eq by lia.
      * by rewrite lookup_insert_eq.
    + destruct (He _ _ _ Hin) as (Hp & Hgg & Hmm & H1 & H2). repeat split; try done.
      * rewrite !lookup_insert_ne; [done|intros Heq; rewrite Heq in *; congruence..].
      * rewrite !lookup_insert_ne; [done|intros Heq; rewrite Heq in *; congruence..].
  - intros o. rewrite Hb, Hal.
    change (addresses ((pod, gw, guest) :: ls)) with (gw :: guest :: addresses ls).
    rewrite !elem_of_cons, !lookup_insert_is_Some.
    intros [<-|[_ [<-|[_ Ho]]]]; [right; left; lia|left; lia|right; right; by apply Hc].
Qed.

Lemma leased_release ids a ls pod a' ls' :
  ids_ok ids → leased ids a ls → pod ∈ ids → run_op (a, ls) (ReleasePair pod) = (a', ls') →
  leased ids a' ls' ∧ a'.(base) = a.(base) ∧ a'.(host_count) = a.(host_count).
Proof.
  intros Hids Hl Hpod [= <- <-]. split; [|done]. pose proof Hl as [Hwf Hnd He Hc].
  assert (∀ p, p ∈ ids → pair_owner pod p = false ↔ p ≠ pod) as Hown1.
  { intros p Hp. by rewrite (pair_owner_pod ids), bool_decide_eq_false. }
  assert (∀ p, p ∈ ids → pair_owner pod (gw_owner p) = false ↔ p ≠ pod) as Hown2.
  { intros p Hp. by rewrite (pair_owner_gw ids), bool_decide_eq_false. }
  unfold release_p2p_pair, release_microvm_pair. fold (pair_owner pod). split.
  - by apply release_wf.
  - clear -Hnd. induction ls as [|l ls IH]; [constructor|].
    change (addresses (l :: ls)) with ([l.1.2; l.2] ++ addresses ls) in Hnd.
    apply NoDup_app in Hnd as (H1 & H2 & H3). rewrite filter_cons. destruct (decide _); [|by apply IH].
    change (addresses (l :: filter _ ls)) with ([l.1.2; l.2] ++ addresses (filter (λ l, l.1.1 ≠ pod) ls)).
    apply NoDup_app. split; [done|]. split; [|by apply IH].
    intros x Hx (l' & [_ Hin]%list_elem_of_filter & Hl')%elem_of_addresses.
    apply (H2 x Hx), elem_of_addresses. eauto.
  - intros p gw guest [Hne Hin]%list_elem_of_filter. simpl in Hne.
    destruct (He _ _ _ Hin) as (Hp & Hgg & Hmm & H1 & H2). rewrite !release_lookup. simpl.
    rewrite H1, H2. simpl. rewrite (proj2 (Hown1 p Hp) Hne), (proj2 (Hown2 p Hp) Hne). done.
  - intros o [pid Ho]. rewrite release_lookup in Ho. simpl.
    destruct (a.(allocated) !! o) as [pid'|] eqn:Hao; [|done]. simpl in Ho.
    destruct (pair_owner pod pid') eqn:Hown; [done|].
    destruct (proj1 (elem_of_addresses _ _) (Hc o (ex_intro _ _ Hao))) as ([[p gw] guest] & Hin & Hx).
    destruct (He _ _ _ Hin) as (Hp & Hgg & Hmm & H1 & H2). simpl in Hx.
    apply elem_of_addresses. exists (p, gw, guest). split; [|done].
    apply list_elem_of_filter. split; [|done]. simpl.
    destruct Hx as [Hx|Hx].
    + apply (Hown2 p Hp). assert (o = gw - a.(base)) as -> by lia. congruence.
    + apply (Hown1 p Hp). assert (o = guest - a.(base)) as -> by lia. congruence.
Qed.

Lemma leased_run ids ops a0 ls0 a ls :
  ids_ok ids → leased ids a0 ls0 → Forall (λ o, pod_of o ∈ ids) ops →
  foldl run_op (a0, ls0) ops = (a, ls) →
  leased ids a ls ∧ a.(base) = a0.(base) ∧ a.(host_count) = a0.(host_count).
Proof.
  intros Hids. revert a0 ls0. induction ops as [|o ops IH]; intros a0 ls0 Hl Hops Hrun.
  { simpl in Hrun. by simplify_eq. }
  inversion_clear Hops as [|? ? Ho Hops']. cbn [foldl] in Hrun.
  destruct (run_op (a0, ls0) o) as [a1 ls1] eqn:Hop.
  assert (leased ids a1 ls1 ∧ a1.(base) = a0.(base) ∧ a1.(host_count) = a0.(host_count)) as (Hl1 & Hb1 & Hh1).
  { destruct o as [pod|pod]; [by eapply leased_allocate|by eapply leased_release]. }
  destruct (IH _ _ Hl1 Hops' Hrun) as (? & ? & ?). split; [done|]. split; congruence.
Qed.

Lemma leased_new ids cidr a : NodeIpAllocator_new cidr = Ok a → leased ids a [].
Proof.
  intros (Hwf & Hal & _ & _)%new_wf. split; [done|constructor| |].
  - intros ? ? ? []%not_elem_of_nil.
  - intros o. rewrite Hal, lookup_empty. by intros [].
Qed.

(** Over any history of pair allocations and releases from a fresh
    allocator, no two live pods share an address, every live address is a usable
    host of the configured block, and the allocator's table holds exactly the
    live pairs: none is lost.  The pod ids must not end in another's gateway
    name. *)
Theorem leases_disjoint ids cidr a0 ops a ls :
  NodeIpAllocator_new cidr = Ok a0 → ids_ok ids → Forall (λ o, pod_of o ∈ ids) ops →
  foldl run_op (a0, []) ops = (a, ls) →
  NoDup (addresses ls) ∧
  (∀ x, x ∈ addresses ls → a0.(base) < x < a0.(base) + a0.(host_count) - 1) ∧
  allocated_count a = (2 * length ls)%nat.
Proof.
  intros Hnew Hids Hops Hrun.
  destruct (leased_run ids ops a0 [] a ls Hids (leased_new _ _ _ Hnew) Hops Hrun) as (Hl & Hb & Hh).
  pose proof Hl as [Hwf Hnd He Hc]. split; [done|]. split.
  - intros x Hx. apply (lease_recorded _ _ _ _ Hl) in Hx.
    apply (wf_allocated a Hwf) in Hx as [? ?]. lia.
  - assert (dom a.(allocated) = list_to_set ((λ x, x - a.(base)) <$> addresses ls)) as Hdom.
    { apply set_eq. intros o. rewrite elem_of_dom, elem_of_list_to_set, list_elem_of_fmap. split.
      - intros Ho. exists (base a + o). split; [lia|by apply Hc].
      - intros (x & -> & Hx). by eapply lease_recorded. }
    unfold allocated_count. rewrite <-size_dom, Hdom, size_list_to_set, length_fmap.
    + clear. induction ls as [|l ls IH]; [done|].
      change (addresses (l :: ls)) with (l.1.2 :: l.2 :: addresses ls). cbn [length]. lia.
    + apply NoDup_fmap_2; [|done]. intros x y Hxy. lia.
Qed.

(** A released pair is not lost: right after the eviction of a pod that
    held one, the next boot gets a pair. *)
Theorem released_is_reusable ids cidr a0 ops a ls pod gw guest pod' :
  NodeIpAllocator_new cidr = Ok a0 → ids_ok ids → Forall (λ o, pod_of o ∈ ids) ops →
  foldl run_op (a0, []) ops = (a, ls) → (pod, gw, guest) ∈ ls →
  is_ok (allocate_p2p_pair pod' (release_p2p_pair pod a)).1 = true.
Proof.
  intros Hnew Hids Hops Hrun Hin.
  destruct (leased_run ids ops a0 [] a ls Hids (leased_new _ _ _ Hnew) Hops Hrun) as (Hl & _ & _).
  pose proof Hl as [Hwf Hnd He Hc]. destruct (He _ _ _ Hin) as (Hp & -> & Hm & H1 & H2).
  unfold allocate_p2p_pair, release_p2p_pair, release_microvm_pair. fold (pair_owner pod).
  destruct (allocate_microvm_pair pod' _) as [r a'] eqn:Ha.
  apply allocate_pair_spec in Ha as (_ & _ & _ & Hr); [|by apply release_wf].
  destruct r as [|e]; [done|]. destruct Hr as (_ & _ & _ & Hnone). exfalso.
  apply (Hnone (gw - base a)).
  - apply release_free. right. exists (gw_owner pod). split; [done|]. apply pair_owner_true. by right.
  - pose proof (wf_align a Hwf) as [Hal H16].
    apply Z.mod_divide in Hal as [q Hq]; [|pose proof (wf_count a Hwf); lia].
    apply Z.mod_divide in H16 as [c Hc16]; [|lia].
    rewrite Hq, Hc16. replace (gw - q * (c * 16)) with (gw + (- q * c * 4) * 4) by lia. by rewrite Z.mod_add.
  - apply release_free. right. exists pod. replace (gw - base a + 1) with (gw + 1 - base a) by lia.
    split; [done|]. apply pair_owner_true. by left.
Qed.

(** ** Witnesses *)

Definition node_block : string := "10.244.1.0/28".
Definition block0 : NodeIpAllocator := mkAllocator (10 * 2 ^ 24 + 244 * 2 ^ 16 + 2 ^ 8) 16 1 ∅ ∅.
Lemma block0_new : NodeIpAllocator_new node_block = Ok block0.
Proof. reflexivity. Qed.

Lemma new_wf_witness : wf block0 ∧ is_ok (NodeIpAllocator_new "241.0.0.0/8") = false.
Proof. split; [apply (new_wf node_block block0 block0_new)|reflexivity]. Defined.

Definition pods : gset string := {["a"; "b"; "c"; "d"; "e"]}.
Definition history : list op :=
  [AllocatePair "a"; AllocatePair "b"; AllocatePair "c"; ReleasePair "b"; AllocatePair "d"; AllocatePair "e"].
Definition reached := foldl run_op (block0, []) history.

Lemma pods_ok : ids_ok pods.
Proof. unfold ids_ok, pods, gw_owner. set_unfold. intros p q. intuition subst; done. Qed.
Lemma history_ok : Forall (λ o, pod_of o ∈ pods) history.
Proof. unfold history, pods. repeat constructor; simpl; set_solver. Qed.

(** A /28 has room for four pairs: [d] takes the one [b] released, [e] the last
    fresh one. *)
Lemma leases_disjoint_witness :
  length reached.2 = 4%nat ∧ NoDup (addresses reached.2) ∧ allocated_count reached.1 = 8%nat.
Proof.
  destruct (leases_disjoint pods node_block block0 history reached.1 reached.2
    block0_new pods_ok history_ok) as (Hnd & _ & Hcount); [apply surjective_pairing|].
  assert (length reached.2 = 4%nat) as Hlen by by vm_compute.
  split; [exact Hlen|]. split; [exact Hnd|]. rewrite Hcount, Hlen. reflexivity.
Defined.

Lemma released_is_reusable_witness :
  is_ok (allocate_p2p_pair "e" (release_p2p_pair "a" reached.1)).1 = true.
Proof.
  apply (released_is_reusable pods node_block block0 history reached.1 reached.2 "a"
    (block0.(base) + 1) (block0.(base) + 2) "e" block0_new pods_ok history_ok); [apply surjective_pairing|].
  apply (bool_decide_unpack _). by vm_compute.
Defined.

Definition first_pair := allocate_microvm_pair "a" block0.
Lemma allocate_pair_spec_witness :
  wf first_pair.2 ∧ is_ok first_pair.1 = true.
Proof.
  split; [|by vm_compute].
  apply (allocate_pair_spec "a" block0 first_pair.1 first_pair.2); [|apply surjective_pairing].
  apply (new_wf node_block block0 block0_new).
Defined.
