(* ===== verification/LeaseTable.v ===== *)
(** What the workload IP allocator promises: a table of slots, each leased to
    at most one pod, in which a pod gets the lowest free slot.  The allocator of
    src/workloads/mod.rs, with its freed set, its bump pointer and its map of
    single offsets, answers every history as the table does. *)
From S2P Require Import Prelude Errors Ipv4 IpAllocator Simulation.

(** ** The table *)

(** Slot [k] stands for the gateway at offset [4k + 1] and the guest after it. *)
Abbreviation table := (gmap Z string).

Definition free_slot (capacity : Z) (t : table) : option Z :=
  head (filter (λ k, t !! k = None) (seqZ 0 capacity)).

Inductive answer := Granted (gw guest : Z) | Refused (e : AgentError) | Released.

Definition table_step (block capacity : Z) (t : table) (o : op) : answer * table :=
  match o with
  | AllocatePair pod =>
      match free_slot capacity t with
      | Some k => (Granted (block + 4 * k + 1) (block + 4 * k + 2), <[k := pod]> t)
      | None => (Refused exhausted, t)
      end
  | ReleasePair pod => (Released, filter (λ '(_, p), p ≠ pod) t)
  end.

(** ** The allocator's answers *)

Definition allocator_step (a : NodeIpAllocator) (o : op) : answer * NodeIpAllocator :=
  match o with
  | AllocatePair pod =>
      match allocate_p2p_pair pod a with
      | (Ok (gw, guest), a') => (Granted gw guest, a')
      | (Err e, a') => (Refused e, a')
      end
  | ReleasePair pod => (Released, release_p2p_pair pod a)
  end.

(** ** How the two states correspond *)

(** The owner the table gives an offset. *)
Definition entry (t : table) (o : Z) : option string :=
  if decide (o mod 4 = 1) then gw_owner <$> t !! (o / 4)
  else if decide (o mod 4 = 2) then t !! (o / 4) else None.

(** The first [n] slots have been handed out at least once. *)
Record represents (ids : gset string) (n : Z) (a : NodeIpAllocator) (t : table) : Prop := mkRepresents {
  r_wf : wf a;
  r_next : a.(next_offset) = 4 * n + 1 ∧ 0 ≤ n ∧ 4 * n ≤ a.(host_count);
  r_slots k p : t !! k = Some p → 0 ≤ k < n ∧ p ∈ ids;
  r_allocated o : a.(allocated) !! o = entry t o;
  r_free o : o ∈ a.(free) ↔ (o mod 4 = 1 ∨ o mod 4 = 2) ∧ 0 ≤ o / 4 < n ∧ t !! (o / 4) = None;
}.

Lemma entry_gw t k : entry t (4 * k + 1) = gw_owner <$> t !! k.
Proof.
  unfold entry. replace (4 * k + 1) with (1 + k * 4) by lia. rewrite Z.mod_add, Z.div_add by lia.
  by rewrite decide_True.
Qed.
Lemma entry_guest t k : entry t (4 * k + 2) = t !! k.
Proof.
  unfold entry. replace (4 * k + 2) with (2 + k * 4) by lia. rewrite Z.mod_add, Z.div_add by lia.
  by rewrite decide_False, decide_True by done.
Qed.

Lemma slot_of o : (o mod 4 = 1 → o = 4 * (o / 4) + 1) ∧ (o mod 4 = 2 → o = 4 * (o / 4) + 2).
Proof. pose proof (Z.div_mod o 4). lia. Qed.
Lemma slot_gw k : (4 * k + 1) / 4 = k ∧ (4 * k + 1) mod 4 = 1.
Proof. split; Z.to_euclidean_division_equations; lia. Qed.
Lemma slot_guest k : (4 * k + 2) / 4 = k ∧ (4 * k + 2) mod 4 = 2.
Proof. split; Z.to_euclidean_division_equations; lia. Qed.

(** Leasing slot [k] fills its two offsets. *)
Lemma entry_lease t k pod o :
  entry (<[k := pod]> t) o =
    if decide (o = 4 * k + 2) then Some pod else if decide (o = 4 * k + 1) then Some (gw_owner pod) else entry t o.
Proof.
  destruct (decide (o = 4 * k + 2)) as [->|H2]; [by rewrite entry_guest, lookup_insert_eq|].
  destruct (decide (o = 4 * k + 1)) as [->|H1]; [by rewrite entry_gw, lookup_insert_eq|].
  destruct (slot_of o) as [Hg Hs]. unfold entry.
  destruct (decide (o mod 4 = 1)); [by rewrite lookup_insert_ne by lia|].
  destruct (decide (o mod 4 = 2)); [by rewrite lookup_insert_ne by lia|done].
Qed.

(** Releasing a pod empties the offsets of its slots. *)
Lemma entry_release ids t pod o :
  ids_ok ids → pod ∈ ids → (∀ k p, t !! k = Some p → p ∈ ids) →
  entry (filter (λ '(_, p), p ≠ pod) t) o =
    (pid ← entry t o; if pair_owner pod pid then None else Some pid).
Proof.
  intros Hids Hpod Ht.
  assert (filter (λ '(_, p), p ≠ pod) t !! (o / 4) =
    (p ← t !! (o / 4); if bool_decide (p = pod) then None else Some p)) as Hf.
  { rewrite map_lookup_filter. destruct (t !! (o / 4)) as [p|]; [|done]. simpl.
    case_bool_decide; [by rewrite option_guard_False by auto|by rewrite option_guard_True]. }
  unfold entry. rewrite Hf. destruct (t !! (o / 4)) as [p|] eqn:Hp; simpl; [|by repeat case_decide].
  rewrite <-(pair_owner_pod ids) by eauto.
  destruct (decide (o mod 4 = 1)); simpl; [|by destruct (decide (o mod 4 = 2))].
  rewrite (pair_owner_gw ids), (pair_owner_pod ids) by eauto. by case_bool_decide.
Qed.

(** The offsets that belong to a pod. *)
Lemma entry_owned ids t pod o :
  ids_ok ids → pod ∈ ids → (∀ k p, t !! k = Some p → p ∈ ids) →
  (∃ pid, entry t o = Some pid ∧ pair_owner pod pid = true) ↔
  (o mod 4 = 1 ∨ o mod 4 = 2) ∧ t !! (o / 4) = Some pod.
Proof.
  intros Hids Hpod Ht. unfold entry. destruct (t !! (o / 4)) as [p|] eqn:Hp.
  2: { split; [|by intros [_ ?]]. by repeat case_decide; intros (? & ? & _). }
  pose proof (pair_owner_pod ids pod p Hids Hpod (Ht _ _ Hp)) as Hown.
  pose proof (pair_owner_gw ids pod p Hids Hpod (Ht _ _ Hp)) as Hgw. simpl.
  split.
  - intros (pid & He & Ho). repeat case_decide; simplify_eq/=; (split; [tauto|congruence]).
  - intros [[H1|H2] [= ->]].
    + exists (gw_owner pod). rewrite decide_True by done. by rewrite pair_owner_true; auto.
    + exists pod. rewrite decide_False, decide_True by lia. by rewrite pair_owner_true; auto.
Qed.

(** ** The lowest free slot *)

Lemma head_filter_least (P : Z → Prop) `{∀ x, Decision (P x)} (l : list Z) :
  StronglySorted Z.le l →
  match head (filter P l) with
  | Some x => x ∈ l ∧ P x ∧ ∀ y, y ∈ l → P y → x ≤ y
  | None => ∀ y, y ∈ l → ¬ P y
  end.
Proof.
  induction 1 as [|x l Hl IH Hx]; simpl; [by intros y ?%not_elem_of_nil|].
  rewrite filter_cons. destruct (decide (P x)) as [HP|HP]; simpl.
  - split; [by left|]. split; [done|]. rewrite Forall_forall in Hx.
    intros y [->|Hy]%elem_of_cons Hy'; [lia|by apply Hx].
  - destruct (head (filter P l)) as [z|].
    + destruct IH as (Hz & HPz & Hleast). split; [by right|]. split; [done|].
      intros y [->|Hy]%elem_of_cons Hy'; [done|by apply Hleast].
    + intros y [->|Hy]%elem_of_cons; [done|by apply IH].
Qed.

Lemma seqZ_sorted m n : StronglySorted Z.le (seqZ m n).
Proof.
  unfold seqZ. apply (StronglySorted_fmap (λ i : nat, Z.add (Z.of_nat i) m) Nat.le); [intros ? ?; lia|].
  generalize 0%nat. induction (Z.to_nat n) as [|k IH]; intros i; simpl; constructor; [apply IH|].
  apply Forall_forall. intros j Hj%elem_of_seq. lia.
Qed.

Lemma free_slot_spec capacity t :
  match free_slot capacity t with
  | Some k => 0 ≤ k < capacity ∧ t !! k = None ∧ ∀ j, 0 ≤ j < k → is_Some (t !! j)
  | None => ∀ j, 0 ≤ j < capacity → is_Some (t !! j)
  end.
Proof.
  pose proof (head_filter_least (λ k, t !! k = None) _ (seqZ_sorted 0 capacity)) as Hl.
  unfold free_slot. destruct (head _) as [k|].
  - destruct Hl as (Hk%elem_of_seqZ & Hnone & Hleast). split; [lia|]. split; [done|]. intros j Hj.
    apply not_eq_None_Some. intros Hj'.
    assert (k ≤ j) by (apply Hleast; [apply elem_of_seqZ; lia|done]). lia.
  - intros j Hj. apply not_eq_None_Some. intros Hj'. apply (Hl j); [apply elem_of_seqZ; lia|done].
Qed.

Lemma free_slot_unique capacity t k :
  0 ≤ k < capacity → t !! k = None → (∀ j, 0 ≤ j < k → is_Some (t !! j)) → free_slot capacity t = Some k.
Proof.
  intros Hk Hnone Hleast. pose proof (free_slot_spec capacity t) as Hs.
  destruct (free_slot capacity t) as [k'|].
  - destruct Hs as (Hk' & Hnone' & Hleast'). f_equal.
    destruct (Z.lt_trichotomy k k') as [Hlt|[->|Hlt]]; [|done|].
    + destruct (Hleast' k) as [? ?]; [lia|congruence].
    + destruct (Hleast k') as [? ?]; [lia|congruence].
  - destruct (Hs k Hk) as [? ?]. congruence.
Qed.

(** ** The allocator finds that slot *)

Lemma reusable_least a : wf a →
  match reusable a with
  | Some o => o ∈ a.(free) ∧ o mod 4 = 1 ∧ o + 1 ∈ a.(free) ∧
      ∀ x, x ∈ a.(free) → x mod 4 = 1 → x + 1 ∈ a.(free) → o ≤ x
  | None => ∀ x, x ∈ a.(free) → x mod 4 = 1 → x + 1 ∉ a.(free)
  end.
Proof.
  intros Hwf. pose proof (reusable_spec a Hwf) as Hre.
  pose proof (head_filter_least (λ o, o mod 4 = 1 ∧ u32_add o 1 ∈ a.(free)) _
    (StronglySorted_merge_sort Z.le (elements a.(free)))) as Hl.
  fold (reusable a) in Hl. destruct (reusable a) as [o|]; [|done].
  destruct Hre as (? & ? & ?), Hl as (_ & _ & Hleast). repeat (split; [done|]).
  intros x Hx Hx4 Hx1. pose proof (wf_free a Hwf x Hx) as [? _]. apply Hleast.
  - by rewrite merge_sort_Permutation, elem_of_elements.
  - split; [done|]. by rewrite (u32_add_offset a x 1) by (done || lia).
Qed.

Section represents.
Context (ids : gset string) (n : Z) (a : NodeIpAllocator) (t : table) (Hr : represents ids n a t).

Lemma free_gw k : 4 * k + 1 ∈ a.(free) ↔ 0 ≤ k < n ∧ t !! k = None.
Proof. rewrite (r_free _ _ _ _ Hr). destruct (slot_gw k) as [-> ->]. tauto. Qed.
Lemma free_guest k : 4 * k + 2 ∈ a.(free) ↔ 0 ≤ k < n ∧ t !! k = None.
Proof. rewrite (r_free _ _ _ _ Hr). destruct (slot_guest k) as [-> ->]. tauto. Qed.

Lemma unused_slot k : n ≤ k → t !! k = None.
Proof.
  intros Hk. apply eq_None_not_Some. intros [p [? _]%(r_slots _ _ _ _ Hr)]. lia.
Qed.

Lemma fresh_slot : fresh_pair a = 4 * n + 1.
Proof.
  destruct (r_next _ _ _ _ Hr) as (Hn & Hn0 & Hn1). pose proof (wf_count a (r_wf _ _ _ _ Hr)).
  unfold fresh_pair. rewrite Hn. cbn [align_pair]. rewrite decide_False; [done|].
  destruct (slot_gw n) as [_ ->]. lia.
Qed.

(** A freed slot is reused; otherwise the slots handed out so far are all
    leased, and the next one is [n]. *)
Lemma reusable_slot :
  match reusable a with
  | Some o => ∃ k, o = 4 * k + 1 ∧ 0 ≤ k < n ∧ free_slot (a.(host_count) / 4) t = Some k
  | None => ∀ k, 0 ≤ k < n → is_Some (t !! k)
  end.
Proof.
  destruct (r_next _ _ _ _ Hr) as (_ & Hn0 & Hn1).
  pose proof (reusable_least a (r_wf _ _ _ _ Hr)) as Hl. destruct (reusable a) as [o|].
  - destruct Hl as (Ho & Ho4 & Ho1 & Hleast). exists (o / 4). destruct (slot_of o) as [Hslot _].
    specialize (Hslot Ho4). split; [done|]. rewrite Hslot in Ho. apply free_gw in Ho as [Hk Hnone].
    split; [done|]. apply free_slot_unique; [|done|].
    + split; [lia|]. apply Z.lt_le_trans with n; [lia|]. apply Z.div_le_lower_bound; lia.
    + intros j Hj. apply not_eq_None_Some. intros Hj'.
      assert (o ≤ 4 * j + 1); [|lia]. apply Hleast; [apply free_gw; split; [lia|done]|apply slot_gw|].
      replace (4 * j + 1 + 1) with (4 * j + 2) by lia. apply free_guest. split; [lia|done].
  - intros k Hk. apply not_eq_None_Some. intros Hk'.
    apply (Hl (4 * k + 1)); [by apply free_gw|apply slot_gw|].
    replace (4 * k + 1 + 1) with (4 * k + 2) by lia. by apply free_guest.
Qed.

(** Leasing slot [k], reused or the next fresh one. *)
Lemma represents_lease k pod n' :
  pod ∈ ids → 0 ≤ k < n' → t !! k = None → n ≤ n' → (n' = n ∨ n' = n + 1 ∧ k = n) → 4 * n' ≤ a.(host_count) →
  wf (with_pair a (4 * k + 1) pod (4 * n' + 1)) →
  represents ids n' (with_pair a (4 * k + 1) pod (4 * n' + 1)) (<[k := pod]> t).
Proof.
  intros Hpod Hk Hnone Hle Hn' Hcap Hwf. destruct (r_next _ _ _ _ Hr) as (_ & Hn0 & _).
  replace (4 * k + 1 + 1) with (4 * k + 2) in * by lia.
  split; [done|simpl; lia| | |]; unfold with_pair; simpl; replace (4 * k + 1 + 1) with (4 * k + 2) by lia.
  - intros j p. rewrite lookup_insert_Some. intros [[<- <-]|[_ Hj%(r_slots _ _ _ _ Hr)]]; [done|].
    destruct Hj. split; [lia|done].
  - intros o. rewrite entry_lease, !lookup_insert, (r_allocated _ _ _ _ Hr).
    destruct (decide (o = 4 * k + 2)) as [->|]; [by rewrite decide_True|].
    rewrite decide_False by done. destruct (decide (o = 4 * k + 1)) as [->|]; [by rewrite decide_True|].
    by rewrite decide_False by done.
  - intros o. rewrite !elem_of_difference, !elem_of_singleton, (r_free _ _ _ _ Hr).
    destruct (slot_of o) as [Hg Hs]. rewrite lookup_insert_None. split.
    + intros [[(Ho4 & Ho & Hf) Hne] Hne2]. split; [done|]. split; [lia|]. split; [done|].
      intros ->. destruct Ho4 as [?%Hg|?%Hs]; lia.
    + intros (Ho4 & Ho & Hf & Hne). assert (0 ≤ o / 4 < n) by (destruct Hn' as [->|[-> ->]]; lia).
      split; [split; [done|]|]; intros ->; apply Hne; [by destruct (slot_gw k)|by destruct (slot_guest k)].
Qed.

Lemma represents_release pod :
  ids_ok ids → pod ∈ ids →
  represents ids n (release_p2p_pair pod a) (filter (λ '(_, p), p ≠ pod) t).
Proof.
  intros Hids Hpod. pose proof (r_wf _ _ _ _ Hr) as Hwf.
  assert (∀ k p, t !! k = Some p → p ∈ ids) as Ht by (by intros k p [_ ?]%(r_slots _ _ _ _ Hr)).
  unfold release_p2p_pair, release_microvm_pair. fold (pair_owner pod).
  assert (∀ o, (release_where (pair_owner pod) a).(allocated) !! o = entry (filter (λ '(_, p), p ≠ pod) t) o) as Ha.
  { intros o. rewrite release_lookup, (r_allocated _ _ _ _ Hr), (entry_release ids) by done. done. }
  split; [by apply release_wf|apply Hr| |done|].
  - intros k p [Hk _]%map_lookup_filter_Some. by apply (r_slots _ _ _ _ Hr).
  - intros o. rewrite release_free, (r_free _ _ _ _ Hr). setoid_rewrite (r_allocated _ _ _ _ Hr).
    rewrite (entry_owned ids), map_lookup_filter_None by done. split.
    + intros [(? & ? & ?)|[? Ho]]; [naive_solver|]. pose proof (r_slots _ _ _ _ Hr _ _ Ho). naive_solver.
    + intros (Ho4 & Ho & [Hnone|Hall]); [by left|].
      destruct (t !! (o / 4)) as [p|] eqn:Hp; [|by left]. right. split; [done|]. f_equal.
      apply dec_stable. by apply Hall.
Qed.
End represents.

(** ** Every history *)

(** The steps of the two machines correspond. *)
Definition refines (ids : gset string) (block capacity : Z) (a : NodeIpAllocator) (t : table) : Prop :=
  a.(base) = block ∧ a.(host_count) = 4 * capacity ∧ ∃ n, represents ids n a t.

Lemma allocator_simulates ids block capacity :
  ids_ok ids →
  simulates allocator_step (table_step block capacity) (λ o, pod_of o ∈ ids) (refines ids block capacity).
Proof.
  intros Hids a t o Ho (<- & Hcap & n & Hr). destruct o as [pod|pod]; simpl in Ho.
  2: { split; [done|]. split; [done|]. split; [done|]. exists n. by apply represents_release. }
  cbn [allocator_step table_step]. unfold allocate_p2p_pair. pose proof (r_wf _ _ _ _ Hr) as Hwf.
  destruct (r_next _ _ _ _ Hr) as (Hnext & Hn0 & Hn1). pose proof (reusable_slot _ _ _ _ Hr) as Hre.
  assert (a.(host_count) / 4 = capacity) as Hdiv by (rewrite Hcap, Z.mul_comm; by apply Z.div_mul).
  rewrite Hdiv in Hre. destruct (reusable a) as [o|] eqn:Ha.
  - destruct Hre as (k & -> & Hk & Hfree). rewrite (allocate_reuse _ _ _ Hwf Ha), Hfree.
    split; [simpl; f_equal; lia|]. split; [done|]. split; [done|]. exists n. simpl. rewrite Hnext.
    pose proof (free_slot_spec capacity t) as Hs. rewrite Hfree in Hs.
    apply (represents_lease ids n); try done; try lia; [apply Hs|]. apply with_pair_wf; [done|lia..].
  - pose proof (fresh_slot _ _ _ _ Hr) as Hf.
    destruct (decide (n < capacity)) as [Hlt|Hge].
    + rewrite (allocate_fresh _ _ Hwf Ha), Hf by lia.
      rewrite (free_slot_unique capacity t n); [|lia|by eapply unused_slot|intros j Hj; apply Hre; lia].
      split; [simpl; f_equal; lia|]. split; [done|]. split; [done|]. exists (n + 1). simpl.
      replace (4 * n + 1 + 4) with (4 * (n + 1) + 1) by lia.
      apply (represents_lease ids n); try done; try lia; [by eapply unused_slot|]. apply with_pair_wf; [done|lia..].
    + rewrite (allocate_full _ _ Hwf Ha) by lia.
      pose proof (free_slot_spec capacity t) as Hs. destruct (free_slot capacity t) as [k|].
      { destruct Hs as (Hk & Hnone & _). destruct (Hre k) as [? ?]; [lia|congruence]. }
      split; [done|]. split; [done|]. split; [done|]. by exists n.
Qed.

Lemma represents_new ids cidr a : NodeIpAllocator_new cidr = Ok a → represents ids 0 a ∅.
Proof.
  intros (Hwf & Hal & Hfr & Hn)%new_wf. pose proof (wf_count a Hwf). split; [done|lia| | |].
  - intros k p. by rewrite lookup_empty.
  - intros o. rewrite Hal, lookup_empty. unfold entry. by repeat case_decide; rewrite ?lookup_empty.
  - intros o. rewrite Hfr. split; [set_solver|lia].
Qed.

(** C14: The allocator implements the lease table.  From a fresh allocator of a
    configured block, and over pods none of which has the name another pod's
    gateway is recorded under ([ids_ok]), every history of allocations and
    releases gets exactly the answers of the table with a quarter as many slots
    as the block has addresses: each allocation the lowest free slot, refused
    only when all slots are leased, and a release frees the pod's slots and
    nothing else.  In the state it leaves, the address table is the table's, two
    offsets a slot, and the freed set holds exactly the offsets of the slots
    below the bump pointer that the table has free; the 32-bit arithmetic does
    not show. *)
Theorem allocator_refines ids cidr a ops :
  NodeIpAllocator_new cidr = Ok a → ids_ok ids → Forall (λ o, pod_of o ∈ ids) ops →
  let '(answers, a') := run allocator_step a ops in
  let '(expected, t) := run (table_step a.(base) (a.(host_count) / 4)) ∅ ops in
  answers = expected ∧
  (∀ o, a'.(allocated) !! o = entry t o) ∧
  (∀ o, o ∈ a'.(free) ↔ (o mod 4 = 1 ∨ o mod 4 = 2) ∧ 0 ≤ o < a'.(next_offset) ∧ t !! (o / 4) = None).
Proof.
  intros Hnew Hids Hops.
  destruct (simulation _ _ _ (refines ids a.(base) (a.(host_count) / 4)) a ∅ ops (allocator_simulates ids _ _ Hids) Hops)
    as (Heq & _ & _ & n & Hr).
  { split; [done|]. split; [|exists 0; by eapply represents_new].
    pose proof Hnew as [Hwf _]%new_wf. destruct (wf_align a Hwf) as [_ H16].
    Z.to_euclidean_division_equations; lia. }
  destruct (run allocator_step a ops) as [answers a']. destruct (run _ ∅ ops) as [expected t]. simpl in Heq, Hr.
  split; [done|]. split; [apply Hr|]. intros o. rewrite (r_free _ _ _ _ Hr). destruct (r_next _ _ _ _ Hr) as (-> & Hn & _).
  destruct (slot_of o) as [Hg Hs]. split; intros (Ho4 & Ho & Hf); (split; [done|]; split; [|done]);
    destruct Ho4 as [Ho4|Ho4]; [apply Hg in Ho4|apply Hs in Ho4|..]; Z.to_euclidean_division_equations; lia.
Qed.

(** The fifth pod of a /28 is refused; [d] gets the slot [b] left. *)
Definition history1 : list op := history ++ [AllocatePair "b"].
Lemma allocator_refines_witness :
  (run allocator_step block0 history1).1 = (run (table_step block0.(base) 4) ∅ history1).1 ∧
  last (run allocator_step block0 history1).1 = Some (Refused exhausted) ∧
  ∀ o, (run allocator_step block0 history1).2.(allocated) !! o =
    entry (run (table_step block0.(base) 4) ∅ history1).2 o.
Proof.
  pose proof (allocator_refines pods node_block block0 history1 block0_new pods_ok) as Hrun.
  change (block0.(host_count) / 4) with 4 in Hrun.
  rewrite (surjective_pairing (run allocator_step block0 history1)) in Hrun.
  rewrite (surjective_pairing (run (table_step block0.(base) 4) ∅ history1)) in Hrun.
  destruct Hrun as (Hans & Htab & _).
  { apply Forall_app. split; [exact history_ok|]. repeat constructor; simpl; set_solver. }
  split; [exact Hans|]. split; [by vm_compute|exact Htab].
Defined.
