(* ===== verification/Degraded.v ===== *)
(** Delegated signing keys for degraded-mode renewal
    (src/identity/degraded.rs). *)
From S2P Require Import Prelude Errors Core.

Section keys.
Context `{FleetCore} {OS : HashOrder SpiffeId}.

(** [fleetos_core::spiffe::DelegatedSigningKey]. *)
Record DelegatedSigningKey := mkKey {
  node_id : SpiffeId;
  target_svid_id : SpiffeId;
  target_ordinal : option Z;
  issued_at_unix : Z;
  expires_at_unix : Z;
  signing_key : bytes;
  intermediate_cert_der : bytes;
  target_role : option WorkloadRole;
}.
Record DelegatedKeyEntry := mkEntry { key : DelegatedSigningKey; delegation_id : bytes }.

(** [DelegatedKeyManager] is its one field, a map from targets to entries. *)
#[local] Abbreviation KeyManager := (gmap SpiffeId DelegatedKeyEntry).
Definition KeyManager_new : KeyManager := ∅.

Definition install_key (k : DelegatedSigningKey) (id : bytes) (m : KeyManager) : KeyManager :=
  <[k.(target_svid_id) := mkEntry k id]> m.

Definition delegation_ids (m : KeyManager) : list bytes := delegation_id <$> iter_values m.

Definition has_valid_key (m : KeyManager) (target : SpiffeId) (now_unix : Z) : bool :=
  match m !! target with
  | Some e => bool_decide (now_unix < e.(key).(expires_at_unix))
  | None => false
  end.

(** The integer nearest to [n] with a 53-bit significand, ties to even:
    rounding to [f64].  The value is below 2^1024, so no overflow, and an
    integer or a quarter, so no underflow. *)
Definition round53 (n : Z) : Z :=
  if decide (n < 2 ^ 53) then n else
  let k := Z.log2 n - 52 in
  let q := n / 2 ^ k in
  let r := n mod 2 ^ k in
  let half := 2 ^ (k - 1) in
  if decide (half < r ∨ (r = half ∧ q mod 2 = 1)) then (q + 1) * 2 ^ k else q * 2 ^ k.
(** [(ttl as f64 * 0.75) as u64]: 0.75 is exact, and scaling by a quarter
    commutes with rounding. *)
Definition three_quarters (ttl : Z) : Z := Z.min (round53 (3 * round53 ttl) / 4) u64_max.

Definition should_refresh (m : KeyManager) (target : SpiffeId) (now_unix : Z) : bool :=
  match m !! target with
  | Some e =>
      let ttl := u64_saturating_sub e.(key).(expires_at_unix) e.(key).(issued_at_unix) in
      let refresh_at := u64_add e.(key).(issued_at_unix) (three_quarters ttl) in
      bool_decide (refresh_at ≤ now_unix)
  | None => false
  end.

Definition remaining_ttl_secs (m : KeyManager) (target : SpiffeId) (now_unix : Z) : Z :=
  match m !! target with
  | Some e => u64_saturating_sub e.(key).(expires_at_unix) now_unix
  | None => 0
  end.

Definition get_key (m : KeyManager) (target : SpiffeId) (now_unix : Z) : option DelegatedSigningKey :=
  e ← m !! target;
  if decide (now_unix < e.(key).(expires_at_unix)) then Some e.(key) else None.

Definition targets (m : KeyManager) : list SpiffeId := iter_set (dom m).
Definition keys_needing_refresh (m : KeyManager) (now_unix : Z) : list SpiffeId :=
  filter (λ id, should_refresh m id now_unix = true) (targets m).

Definition remove (target : SpiffeId) (m : KeyManager) : KeyManager := delete target m.
Definition prune_expired (now_unix : Z) (m : KeyManager) : KeyManager :=
  filter (λ '(_, e), now_unix < e.(key).(expires_at_unix)) m.
Definition clear_keys (m : KeyManager) : KeyManager := ∅.

(** [sign_svid_delegated] of fleetos-core: key, CSR, validity, time. *)
Context (sign_svid_delegated : DelegatedSigningKey → bytes → Z → Z → result string bytes).

Definition renew_svid_locally (m : KeyManager) (target : SpiffeId) (csr_der : bytes)
    (validity now_unix : Z) : Result bytes :=
  k ← ok_or (Identity ("no valid delegated key for target " +:+ spiffe_to_string target))
        (get_key m target now_unix);
  map_err (λ e, Identity ("local SVID renewal failed: " +:+ e)) (sign_svid_delegated k csr_der validity now_unix).

(** ** Requests and the refresh loop *)

Record DelegatedKeyRequest := mkKeyRequest {
  node_svid : string;
  req_target_spiffe_id : string;
  req_target_ordinal : option Z;
  requested_ttl_secs : Z;
}.
Record DelegatedKeyResponse := mkKeyResponse { key_material : bytes; resp_delegation_id : bytes }.

(** postcard, at [DelegatedSigningKeyWire]: field by field the key itself. *)
Context (wire_from_bytes : bytes → result string DelegatedSigningKey).

Definition parse_key_material (material : bytes) : Result DelegatedSigningKey :=
  map_err (λ e, Identity ("failed to parse key_material: " +:+ e)) (wire_from_bytes material).

(** [S] is the control-plane client; [request_delegated_key] the wrapper of
    unary.rs. *)
Context {S : Type} (request_delegated_key : DelegatedKeyRequest → M AgentError S DelegatedKeyResponse).

Definition request_and_install (node_svid_id target : SpiffeId) (ordinal : option Z) (ttl_secs : Z) :
    M AgentError (S * KeyManager) unit :=
  response ← on_fst (request_delegated_key
    (mkKeyRequest (spiffe_to_string node_svid_id) (spiffe_to_string target) ordinal ttl_secs));
  k ← lift (parse_key_material response.(key_material));
  on_snd (modify (install_key k response.(resp_delegation_id))).

(** What one tick finds to refresh, after pruning. *)
Definition needs_refresh (m : KeyManager) (now_unix : Z) : list (SpiffeId * option Z) :=
  omap (λ id, if should_refresh m id now_unix
              then Some (id, k ← get_key m id now_unix; k.(target_ordinal)) else None) (targets m).

(** One tick of [run_delegation_refresh_loop]: a failed request is logged. *)
Definition refresh_tick (node_svid_id : SpiffeId) (ttl_secs now_unix : Z) (s : S * KeyManager) :
    S * KeyManager :=
  let '(client, m) := s in
  let m := prune_expired now_unix m in
  foldl (λ s '(target, ordinal), (request_and_install node_svid_id target ordinal ttl_secs s).2)
    (client, m) (needs_refresh m now_unix).
End keys.

(** ** Rounding *)

Lemma round53_exact n : 0 ≤ n < 2 ^ 53 → round53 n = n.
Proof. intros. unfold round53. by rewrite decide_True by lia. Qed.

Lemma three_quarters_exact ttl : 0 ≤ ttl < 2 ^ 51 → three_quarters ttl = 3 * ttl / 4.
Proof.
  intros Ht. unfold three_quarters, u64_max. rewrite (round53_exact ttl), round53_exact by lia.
  apply Z.min_l. apply Z.div_le_upper_bound; lia.
Qed.

Section facts.
Context `{FleetCore} {OS : HashOrder SpiffeId}.
#[local] Abbreviation KeyManager := (gmap SpiffeId DelegatedKeyEntry).
Context (sign : DelegatedSigningKey → bytes → Z → Z → result string bytes).
Implicit Types (m : KeyManager) (t : SpiffeId) (k : DelegatedSigningKey) (now : Z).

(** Every key is filed under the workload it may renew. *)
Definition keyed m : Prop := ∀ t e, m !! t = Some e → e.(key).(target_svid_id) = t.

Lemma keyed_new : keyed KeyManager_new.
Proof. intros t e He. unfold KeyManager_new in He. by apply lookup_empty_Some in He. Qed.
Lemma keyed_install k id m : keyed m → keyed (install_key k id m).
Proof.
  intros Hm t e. unfold install_key. rewrite lookup_insert.
  case_decide as Ht; [|apply Hm]. intros [= <-]. done.
Qed.
Lemma keyed_remove t m : keyed m → keyed (remove t m).
Proof. intros Hm t' e He. unfold remove in He. apply lookup_delete_Some in He as [_ ?]. by apply Hm. Qed.
Lemma keyed_prune now m : keyed m → keyed (prune_expired now m).
Proof. intros Hm t e He. unfold prune_expired in He. apply map_lookup_filter_Some in He as [? _]. by apply Hm. Qed.

Lemma get_key_Some m t now k :
  get_key m t now = Some k ↔ ∃ e, m !! t = Some e ∧ e.(key) = k ∧ now < k.(expires_at_unix).
Proof.
  unfold get_key. destruct (m !! t) as [e|]; simpl; [|naive_solver].
  destruct (decide (now < _)); naive_solver.
Qed.

(** A local renewal is signed by a key that is installed for exactly that
    workload and has not expired; without one it is refused and nothing is
    signed. *)
Theorem renew_scoped m t csr validity now :
  keyed m →
  match renew_svid_locally sign m t csr validity now with
  | Ok cert => ∃ k, get_key m t now = Some k ∧ k.(target_svid_id) = t ∧ now < k.(expires_at_unix) ∧
      sign k csr validity now = Ok cert
  | Err e => (has_valid_key m t now = false ∧
              e = Identity ("no valid delegated key for target " +:+ spiffe_to_string t)) ∨
             ∃ k msg, get_key m t now = Some k ∧ sign k csr validity now = Err msg
  end.
Proof.
  intros Hm. unfold renew_svid_locally.
  destruct (get_key m t now) as [k|] eqn:Hk; simpl.
  - destruct (sign k csr validity now) as [cert|msg] eqn:Hs; simpl; [|eauto].
    exists k. apply get_key_Some in Hk as (e & He & <- & Hlt). split; [done|].
    split; [by apply Hm|]. done.
  - left. split; [|done]. unfold get_key, has_valid_key in *.
    destruct (m !! t); [|done]. simpl in Hk. case_decide; [done|]. by apply bool_decide_false.
Qed.

(** A key is due for refresh exactly from three quarters of its lifetime
    on (lifetimes below 2^51 seconds, where the float product is exact), and
    that point comes before its expiry: refresh starts while the key is still
    valid. *)
Theorem refresh_window m t e now :
  m !! t = Some e → 0 ≤ e.(key).(issued_at_unix) →
  0 < e.(key).(expires_at_unix) - e.(key).(issued_at_unix) < 2 ^ 51 → is_u64 e.(key).(expires_at_unix) →
  let refresh_at := e.(key).(issued_at_unix) + 3 * (e.(key).(expires_at_unix) - e.(key).(issued_at_unix)) / 4 in
  (should_refresh m t now = true ↔ refresh_at ≤ now) ∧
  refresh_at < e.(key).(expires_at_unix) ∧
  (has_valid_key m t refresh_at = true).
Proof.
  intros He Hi Httl Hexp refresh_at.
  set (ttl := e.(key).(expires_at_unix) - e.(key).(issued_at_unix)) in *.
  assert (3 * ttl / 4 < ttl) as Hlt by (apply Z.div_lt_upper_bound; lia).
  assert (0 ≤ 3 * ttl / 4) by (apply Z.div_pos; lia).
  assert (refresh_at < e.(key).(expires_at_unix)) as Hbefore by (subst refresh_at ttl; lia).
  split; [|split; [done|]].
  - unfold should_refresh, u64_saturating_sub. rewrite He.
    fold ttl. rewrite Z.max_r, three_quarters_exact by lia.
    rewrite u64_add_small by (unfold is_u64 in *; subst refresh_at ttl; lia).
    by rewrite bool_decide_eq_true.
  - unfold has_valid_key. rewrite He. by apply bool_decide_true.
Qed.
End facts.

(** ** The refresh loop *)

Section refresh.
Context `{FleetCore} {OS : HashOrder SpiffeId}.
#[local] Abbreviation KeyManager := (gmap SpiffeId DelegatedKeyEntry).
Context (wire_from_bytes : bytes → result string DelegatedSigningKey).
Context {S : Type} (request : DelegatedKeyRequest → M AgentError S DelegatedKeyResponse).
Context (node : SpiffeId) (ttl_secs : Z).
Implicit Types (m : KeyManager) (t : SpiffeId) (now : Z) (e : DelegatedKeyEntry) (s : S).

Definition unexpired now e : Prop := now < e.(key).(expires_at_unix).

Lemma lookup_prune now m t e :
  prune_expired now m !! t = Some e ↔ m !! t = Some e ∧ unexpired now e.
Proof. unfold prune_expired. by rewrite map_lookup_filter_Some. Qed.

Lemma elem_of_needs_refresh now m t o :
  (t, o) ∈ needs_refresh m now → is_Some (m !! t).
Proof.
  unfold needs_refresh, targets. intros (t' & Hin & Ht)%list_elem_of_omap.
  apply elem_of_iter_set, elem_of_dom in Hin. destruct (should_refresh m t' now); [|done].
  by injection Ht as -> _.
Qed.

(** An entry that control handed out. *)
Definition granted e : Prop :=
  ∃ q s resp s', request q s = (Ok resp, s') ∧
    parse_key_material wire_from_bytes resp.(key_material) = Ok e.(key) ∧
    e.(delegation_id) = resp.(resp_delegation_id).

Lemma request_and_install_spec t o s m r s' m' :
  request_and_install wire_from_bytes request node t o ttl_secs (s, m) = (r, (s', m')) →
  m' = m ∨ ∃ e, granted e ∧ m' = <[e.(key).(target_svid_id) := e]> m.
Proof.
  unfold request_and_install, mbind, M_bind, on_fst, on_snd, lift, modify.
  destruct (request _ s) as [[resp|err] s1] eqn:Hr; [|intros [= _ _ <-]; by left].
  destruct (parse_key_material _ _) as [k|] eqn:Hk; intros [= _ _ <-]; [|by left].
  right. exists (mkEntry k resp.(resp_delegation_id)). split; [|done].
  by exists (mkKeyRequest (spiffe_to_string node) (spiffe_to_string t) o ttl_secs), s, resp, s1.
Qed.

(** A tick drops exactly the expired keys it does not replace: every
    unexpired key's workload still has one, every key it leaves is either an
    unexpired one from before or one the control plane just granted, and each
    stays filed under the workload it may renew. *)
Theorem refresh_tick_entries now s m s' m' :
  keyed m → refresh_tick wire_from_bytes request node ttl_secs now (s, m) = (s', m') →
  keyed m' ∧
  (∀ t e, m !! t = Some e → unexpired now e → is_Some (m' !! t)) ∧
  (∀ t e, m' !! t = Some e → (m !! t = Some e ∧ unexpired now e) ∨ granted e).
Proof.
  intros Hm. unfold refresh_tick. pose proof (keyed_prune now m Hm) as Hp.
  generalize (needs_refresh (prune_expired now m) now) as l. intros l Hrun.
  assert (∀ t e, prune_expired now m !! t = Some e → (m !! t = Some e ∧ unexpired now e) ∨ granted e) as Hg.
  { intros t e He. apply lookup_prune in He. by left. }
  assert (∀ t e, m !! t = Some e → unexpired now e → is_Some (prune_expired now m !! t)) as Hk.
  { intros t e He Hu. exists e. by apply lookup_prune. }
  revert s Hrun Hp Hg Hk. generalize (prune_expired now m) as p.
  induction l as [|[t o] l IH]; intros p s Hrun Hp Hg Hk; simpl in Hrun; [by simplify_eq|].
  destruct (request_and_install _ _ _ _ _ _ (s, p)) as [r [s1 p1]] eqn:Hri. simpl in Hrun.
  apply request_and_install_spec in Hri as [->|(e0 & He0 & ->)]; [by eapply IH|].
  eapply IH; [exact Hrun| | |].
  - intros t' e'. rewrite lookup_insert. case_decide as Heq; [intros [= <-]; done|apply Hp].
  - intros t' e'. rewrite lookup_insert. case_decide; [intros [= <-]; by right|apply Hg].
  - intros t' e' He' Hu. rewrite lookup_insert. case_decide; [eauto|by eapply Hk].
Qed.

(** A control plane that cannot be reached. *)
Definition unreachable : Prop := ∀ q s, ∃ (err : AgentError) s', request q s = (Err err, s').
Definition ticks (nows : list Z) (st : S * KeyManager) : S * KeyManager :=
  foldl (λ st now, refresh_tick wire_from_bytes request node ttl_secs now st) st nows.

Lemma tick_unreachable now s m :
  unreachable → ∃ s', refresh_tick wire_from_bytes request node ttl_secs now (s, m) = (s', prune_expired now m).
Proof.
  intros Hun. unfold refresh_tick.
  generalize (needs_refresh (prune_expired now m) now) as l. generalize (prune_expired now m) as p. intros p l.
  revert s. induction l as [|[t o] l IH]; intros s; simpl; [eauto|].
  assert (∃ err s', request_and_install wire_from_bytes request node t o ttl_secs (s, p)
                    = (Err err, (s', p))) as (err & s' & ->); [|apply IH].
  unfold request_and_install, mbind, M_bind, on_fst.
  destruct (Hun (mkKeyRequest (spiffe_to_string node) (spiffe_to_string t) o ttl_secs) s) as (e & s' & ->).
  eauto.
Qed.

(** While the control plane is unreachable every key stays installed
    until its expiry and no longer; a key that expired during the outage is
    not asked for again afterwards, however long the loop runs. *)
Theorem outage_drops_keys nows s m :
  unreachable →
  ∃ s' m', ticks nows (s, m) = (s', m') ∧
    (∀ t e, m' !! t = Some e ↔ m !! t = Some e ∧ Forall (λ now, unexpired now e) nows) ∧
    (∀ now t o, (t, o) ∈ needs_refresh (prune_expired now m') now →
       ∃ e, m !! t = Some e ∧ Forall (λ now, unexpired now e) (nows ++ [now])).
Proof.
  intros Hun.
  assert (∀ nows s m, ∃ s' m', ticks nows (s, m) = (s', m') ∧
    ∀ t e, m' !! t = Some e ↔ m !! t = Some e ∧ Forall (λ now, unexpired now e) nows) as Hticks.
  { clear nows s m. intros nows. induction nows as [|now nows IH]; intros s m.
    { exists s, m. split; [done|]. intros t e. split; [intros; by split|by intros [? _]]. }
    destruct (tick_unreachable now s m Hun) as [s1 Hs1].
    destruct (IH s1 (prune_expired now m)) as (s' & m' & Ht & Hm').
    exists s', m'. split; [unfold ticks; cbn [foldl]; by rewrite Hs1|].
    intros t e. rewrite Hm', lookup_prune, Forall_cons. tauto. }
  destruct (Hticks nows s m) as (s' & m' & Ht & Hm'). exists s', m'. split; [done|]. split; [done|].
  intros now t o Hin. apply elem_of_needs_refresh in Hin as [e He].
  apply lookup_prune in He as [[He Hf]%Hm' Hu]. exists e. split; [done|].
  apply Forall_app. by repeat constructor.
Qed.
End refresh.

(** ** Witnesses *)

Definition web : SpiffeId (FleetCore := sample_core) := ("acme", "web").
Definition web_key : DelegatedSigningKey (H := sample_core) :=
  mkKey ("sys", "node") web None 1000 15400 (as_bytes "k") (as_bytes "ca") None.
Definition node_keys := install_key web_key (as_bytes "d1") KeyManager_new.
Definition sample_sign (k : DelegatedSigningKey (H := sample_core)) (csr : bytes) (validity now : Z) :
    result string bytes := Ok (signing_key k ++ csr).

Lemma web_keyed : keyed node_keys.
Proof. apply keyed_install, keyed_new. Qed.

Lemma renew_scoped_witness :
  renew_svid_locally sample_sign node_keys web (as_bytes "csr") 60 15399 = Ok (as_bytes "kcsr") ∧
  ∃ k, get_key node_keys web 15399 = Some k ∧ k.(target_svid_id) = web.
Proof.
  assert (renew_svid_locally sample_sign node_keys web (as_bytes "csr") 60 15399 = Ok (as_bytes "kcsr"))
    as Hr by reflexivity.
  split; [exact Hr|].
  pose proof (renew_scoped sample_sign node_keys web (as_bytes "csr") 60 15399 web_keyed) as Hs.
  rewrite Hr in Hs. destruct Hs as (k & Hk & Ht & _). exists k. split; [exact Hk|exact Ht].
Defined.

Lemma refresh_window_witness :
  should_refresh node_keys web 11800 = true ∧ should_refresh node_keys web 11799 = false ∧
  has_valid_key node_keys web 11800 = true.
Proof.
  destruct (refresh_window node_keys web (mkEntry web_key (as_bytes "d1")) 11800) as (H1 & _ & H3);
    [reflexivity|simpl; lia|simpl; lia|by vm_compute|].
  split; [apply H1; by vm_compute|]. split; [reflexivity|exact H3].
Defined.

Definition no_control (q : DelegatedKeyRequest) : M AgentError Z DelegatedKeyResponse :=
  λ s, (Err (Rpc "unavailable"), s + 1).
Definition no_wire (b : bytes) : result string (DelegatedSigningKey (H := sample_core)) := Err "no key".
Definition ticked := refresh_tick no_wire no_control ("sys", "node") 14400 12000 (0, node_keys).

Lemma refresh_tick_entries_witness : is_Some (ticked.2 !! web) ∧ keyed ticked.2.
Proof.
  destruct (refresh_tick_entries no_wire no_control ("sys", "node") 14400 12000 0 node_keys
    ticked.1 ticked.2 web_keyed (surjective_pairing ticked)) as (Hk & Hkeep & _).
  split; [|exact Hk]. apply (Hkeep web (mkEntry web_key (as_bytes "d1"))); [reflexivity|by vm_compute].
Defined.

Lemma outage_drops_keys_witness :
  ∃ s' m', ticks no_wire no_control ("sys", "node") 14400 [12000; 15400] (0, node_keys) = (s', m') ∧
  m' !! web = None.
Proof.
  destruct (outage_drops_keys no_wire no_control ("sys", "node") 14400 [12000; 15400] 0 node_keys)
    as (s' & m' & Ht & Hm & _); [intros q s; unfold no_control; eauto|].
  exists s', m'. split; [exact Ht|]. apply eq_None_not_Some. intros [e He]. apply Hm in He as [He Hf].
  assert (e = mkEntry web_key (as_bytes "d1")) as -> by (injection He; done).
  inversion_clear Hf as [|? ? _ Hf']. inversion_clear Hf' as [|? ? Hexp _]. by vm_compute in Hexp.
Defined.
