(* ===== verification/NetGuard.v ===== *)
(** The boot-race guard of MicroVM interfaces (src/ebpf/programs.rs,
    src/ebpf/net_guard_adapter.rs) and the LOCAL_WORKLOADS helpers of
    src/ebpf/maps.rs.  aya is outside the repository: its program and array
    operations are the class [Aya]. *)
From S2P Require Import Prelude Errors Core.

Inductive program_kind := CgroupSockAddr | SockOps | SchedClassifier.

(** [TcAttachType]: the third variant is refused. *)
Inductive TcAttachType := Egress | Ingress | Custom (debug : string).
(** What a program is attached to. *)
Inductive attach_point := Cgroup (path : string) | Tc (interface : string) (direction : TcAttachType).

(** [E] is the loaded object with its programs, [G] the BOOT_GATE array. *)
Class Aya (E G : Type) := {
  LinkId : Type;
  (** whether the object has the program, [try_into] its type, [load], [attach] *)
  has_program : E → string → bool;
  program_cast : E → program_kind → string → result string unit;
  program_load : string → M string E unit;
  program_attach : string → attach_point → M string E LinkId;
  gate_set : Z → Z → M string G unit;
  gate_get : G → Z → option Z;
}.

Class AyaLaws (E G : Type) `{Aya E G} := {
  (** a program that was loaded stays loaded, and refuses a second load *)
  is_loaded : E → string → Prop;
  load_loads p e e' : program_load p e = (Ok tt, e') → is_loaded e' p;
  load_stays p q e r e' : is_loaded e p → program_load q e = (r, e') → is_loaded e' p;
  attach_stays p q i e r e' : is_loaded e p → program_attach q i e = (r, e') → is_loaded e' p;
  (** a successful attach makes the link of its program and place, and links stay *)
  attached : E → LinkId → string → attach_point → Prop;
  attach_attaches p i e l e' : program_attach p i e = (Ok l, e') → attached e' l p i;
  load_attached l p i q e r e' : attached e l p i → program_load q e = (r, e') → attached e' l p i;
  attach_attached l p i q j e r e' : attached e l p i → program_attach q j e = (r, e') → attached e' l p i;
  load_twice p e : is_loaded e p → ∃ msg e', program_load p e = (Err msg, e');
  gate_set_ok i v g g' : gate_set i v g = (Ok tt, g') → gate_get g' i = Some v;
  gate_set_err i v g g' msg : gate_set i v g = (Err msg, g') → g' = g;
}.

Section guard.
Context {E G : Type} `{Aya E G}.

Definition ebpf_err {S A} (pre : string) (c : M string S A) : M AgentError S A :=
  λ s, let '(r, s') := c s in (map_err (λ e, Ebpf (pre +:+ ": " +:+ e)) r, s').

Definition arm_boot_gate : M AgentError G unit := ebpf_err "BOOT_GATE arm" (gate_set 0 1).
Definition disarm_boot_gate : M AgentError G unit := ebpf_err "BOOT_GATE disarm" (gate_set 0 0).

(** A program of the object, by name and type, verified and loaded. *)
Definition load_program (kind : program_kind) (program_name : string) : M AgentError E unit :=
  e ← get;
  if has_program e program_name then
    _ ← lift (map_err (λ msg, Ebpf (program_name +:+ " cast: " +:+ msg)) (program_cast e kind program_name));
    ebpf_err (program_name +:+ " load") (program_load program_name)
  else fail (Ebpf (program_name +:+ " program missing")).

Definition attach_tc (interface : string) (direction : TcAttachType) : M AgentError E LinkId :=
  match direction with
  | Custom d => fail (Ebpf ("unsupported TC attach direction: " +:+ d))
  | _ =>
      let program_name := match direction with Egress => "fleetos_tc_egress" | _ => "fleetos_tc_ingress" end in
      _ ← load_program SchedClassifier program_name;
      ebpf_err (program_name +:+ " attach to " +:+ interface) (program_attach program_name (Tc interface direction))
  end.

Record VmNetGuard := mkGuard {
  interface : string;
  egress_link : LinkId;
  ingress_link : LinkId;
}.

Definition VmNetGuard_arm (iface : string) : M AgentError (E * G) VmNetGuard :=
  egress ← on_fst (attach_tc iface Egress);
  ingress ← on_fst (attach_tc iface Ingress);
  _ ← on_snd arm_boot_gate;
  mret (mkGuard iface egress ingress).

(** [VmNetGuardAdapter]: the object, the gate it took at construction, and the
    live guards. *)
Record VmNetGuardAdapter := mkAdapter {
  ebpf : E;
  boot_gate : option G;
  guards : gmap string VmNetGuard;
}.

Definition arm (iface : string) : M AgentError VmNetGuardAdapter unit := λ a,
  match a.(boot_gate) with
  | None => (Err (Ebpf "BOOT_GATE not available"), a)
  | Some gate =>
      match VmNetGuard_arm iface (a.(ebpf), gate) with
      | (Ok guard, (e, g)) => (Ok tt, mkAdapter e (Some g) (<[iface := guard]> a.(guards)))
      | (Err err, (e, g)) => (Err err, mkAdapter e (Some g) a.(guards))
      end
  end.

(** Dropping a guard detaches nothing: aya's link ids do not detach on drop. *)
Definition disarm (iface : string) : M AgentError VmNetGuardAdapter unit := λ a,
  let guards := delete iface a.(guards) in
  match a.(boot_gate) with
  | None => (Ok tt, mkAdapter a.(ebpf) None guards)
  | Some gate =>
      let '(r, g) := disarm_boot_gate gate in (r, mkAdapter a.(ebpf) (Some g) guards)
  end.

Definition gate_open (a : VmNetGuardAdapter) : Prop :=
  ∃ g, a.(boot_gate) = Some g ∧ gate_get g 0 = Some 1.
End guard.

Section facts.
Context {E G : Type} `{AyaLaws E G}.
Implicit Types (a : VmNetGuardAdapter (E := E) (G := G)) (iface : string).

Lemma ebpf_err_ok {S A} pre (c : M string S A) s x s' :
  ebpf_err pre c s = (Ok x, s') ↔ c s = (Ok x, s').
Proof. unfold ebpf_err. destruct (c s) as [[]?]; simpl; naive_solver. Qed.

Lemma load_program_ok kind p e u e' : load_program kind p e = (Ok u, e') → is_loaded e' p.
Proof.
  unfold load_program. intros (e0 & e1 & [= -> ->] & Hrun)%M_bind_ok. destruct (has_program _ _); [|done].
  apply M_bind_ok in Hrun as ([] & e2 & [_ ->]%lift_ok & Hl%ebpf_err_ok). destruct u. by eapply load_loads.
Qed.
Lemma load_program_stays kind p q e r e' : is_loaded e p → load_program kind q e = (r, e') → is_loaded e' p.
Proof.
  intros Hp. unfold load_program, mbind, M_bind, get, lift, ebpf_err.
  destruct (has_program e q); [|by intros [= _ <-]]. destruct (program_cast e kind q); simpl; [|by intros [= _ <-]].
  destruct (program_load q e) as [r1 e1] eqn:Hl. intros [= _ <-]. by eapply load_stays.
Qed.
Lemma load_program_twice kind p e : is_loaded e p → ∃ err e', load_program kind p e = (Err err, e').
Proof.
  intros Hp. unfold load_program, mbind, M_bind, get, lift, ebpf_err.
  destruct (has_program e p); [|by eexists _, _]. destruct (program_cast e kind p); simpl; [|by eexists _, _].
  destruct (load_twice _ _ Hp) as (msg & e' & ->). by eexists _, _.
Qed.
Lemma program_attach_stays pre p q i e r e' :
  is_loaded e p → ebpf_err pre (program_attach q i) e = (r, e') → is_loaded e' p.
Proof.
  intros Hp. unfold ebpf_err. destruct (program_attach q i e) as [r1 e1] eqn:Ha. intros [= _ <-].
  by eapply attach_stays.
Qed.

Lemma attach_tc_loaded iface d e x e' :
  attach_tc iface d e = (Ok x, e') →
  is_loaded e' (match d with Egress => "fleetos_tc_egress" | _ => "fleetos_tc_ingress" end).
Proof.
  unfold attach_tc. destruct d as [| |d]; [..|done];
    intros ([] & e1 & Hl%load_program_ok & Ha)%M_bind_ok; by eapply program_attach_stays.
Qed.

Lemma attach_tc_stays p iface d e r e' : is_loaded e p → attach_tc iface d e = (r, e') → is_loaded e' p.
Proof.
  intros Hp. unfold attach_tc, mbind, M_bind. destruct d as [| |d]; [| |by intros [= _ <-]];
    (destruct (load_program _ _ e) as [[[]|err] e1] eqn:Hl; simpl;
       [by apply program_attach_stays, (load_program_stays _ _ _ _ _ _ Hp Hl)
       |intros [= _ <-]; by apply (load_program_stays _ _ _ _ _ _ Hp Hl)]).
Qed.

(** A classifier is attached where it was asked to be, and an attached one stays. *)
Lemma load_program_attached l p i kind q e r e' :
  attached e l p i → load_program kind q e = (r, e') → attached e' l p i.
Proof.
  intros Hp. unfold load_program, mbind, M_bind, get, lift, ebpf_err.
  destruct (has_program e q); [|by intros [= _ <-]]. destruct (program_cast e kind q); simpl; [|by intros [= _ <-]].
  destruct (program_load q e) as [r1 e1] eqn:Hl. intros [= _ <-]. by eapply load_attached.
Qed.
Definition classifier (d : TcAttachType) : string :=
  match d with Egress => "fleetos_tc_egress" | _ => "fleetos_tc_ingress" end.
Lemma attach_tc_attached iface d e l e' :
  attach_tc iface d e = (Ok l, e') → attached e' l (classifier d) (Tc iface d).
Proof.
  unfold attach_tc. destruct d as [| |d]; [..|done];
    intros ([] & e1 & _ & Ha%ebpf_err_ok)%M_bind_ok; by eapply attach_attaches.
Qed.
Lemma attach_tc_keeps l p i iface d e r e' :
  attached e l p i → attach_tc iface d e = (r, e') → attached e' l p i.
Proof.
  intros Hp. unfold attach_tc, mbind, M_bind. destruct d as [| |d]; [| |by intros [= _ <-]];
    (destruct (load_program _ _ e) as [[[]|err] e1] eqn:Hl; simpl;
       [|intros [= _ <-]; by eapply load_program_attached];
     unfold ebpf_err; destruct (program_attach _ _ e1) as [r1 e2] eqn:Ha; intros [= _ <-];
     eapply attach_attached; [by eapply load_program_attached|exact Ha]).
Qed.

Lemma attach_tc_twice iface e d :
  d = Egress → is_loaded e "fleetos_tc_egress" → ∃ err e', attach_tc iface d e = (Err err, e').
Proof.
  intros -> Hl. unfold attach_tc, mbind, M_bind.
  destruct (load_program_twice SchedClassifier _ _ Hl) as (msg & e' & ->). by eexists _, _.
Qed.

Lemma arm_loads iface a x a' :
  arm iface a = (Ok x, a') → is_loaded a'.(ebpf) "fleetos_tc_egress" ∧ is_loaded a'.(ebpf) "fleetos_tc_ingress".
Proof.
  unfold arm. destruct (boot_gate a) as [gate|]; [|done].
  unfold VmNetGuard_arm, mbind, M_bind, on_fst, on_snd.
  destruct (attach_tc iface Egress (ebpf a)) as [[l1|] e1] eqn:H1; [|done].
  destruct (attach_tc iface Ingress e1) as [[l2|] e2] eqn:H2; [|done].
  destruct (arm_boot_gate gate) as [[[]|err] g]; simpl; [|done]. intros [= _ <-]. simpl.
  split; [|by apply (attach_tc_loaded _ _ _ _ _ H2)].
  eapply attach_tc_stays; [|exact H2]. by apply (attach_tc_loaded _ _ _ _ _ H1).
Qed.

(** C33: Arming fails closed.  When it succeeds, the gate is set and the guard it
    keeps holds the links of both classifiers, each loaded and attached to the
    very interface in its direction; on any error, of a load, an attach or the
    gate itself, the gate is exactly as it was and no guard is kept. *)
Theorem arm_spec iface a r a' :
  arm iface a = (r, a') →
  match r with
  | Ok _ => gate_open a' ∧
      (∃ g, a'.(guards) = <[iface := g]> a.(guards) ∧ g.(interface) = iface ∧
         attached a'.(ebpf) g.(egress_link) "fleetos_tc_egress" (Tc iface Egress) ∧
         attached a'.(ebpf) g.(ingress_link) "fleetos_tc_ingress" (Tc iface Ingress)) ∧
      is_loaded a'.(ebpf) "fleetos_tc_egress" ∧ is_loaded a'.(ebpf) "fleetos_tc_ingress"
  | Err _ => a'.(guards) = a.(guards) ∧ a'.(boot_gate) = a.(boot_gate)
  end.
Proof.
  intros Hrun. pose proof Hrun as Hloads. revert Hrun.
  unfold arm. destruct (boot_gate a) as [gate|] eqn:Hg; [|by intros [= <- <-]].
  unfold VmNetGuard_arm, mbind, M_bind, on_fst, on_snd.
  destruct (attach_tc iface Egress (ebpf a)) as [[l1|] e1] eqn:H1; [|by intros [= <- <-]].
  destruct (attach_tc iface Ingress e1) as [[l2|] e2] eqn:H2; [|by intros [= <- <-]].
  unfold arm_boot_gate. destruct (ebpf_err _ _ gate) as [[[]|err] g] eqn:H3; simpl.
  - intros [= <- <-]. apply ebpf_err_ok, gate_set_ok in H3. split; [by exists g|].
    split; [|exact (arm_loads _ _ _ _ Hloads)]. exists (mkGuard iface l1 l2). split; [done|]. split; [done|]. split.
    + eapply attach_tc_keeps; [by apply (attach_tc_attached _ _ _ _ _ H1)|exact H2].
    + by apply (attach_tc_attached _ _ _ _ _ H2).
  - intros [= <- <-]. split; [done|]. simpl. f_equal. unfold ebpf_err in H3.
    destruct (gate_set 0 1 gate) as [[[]|msg] g'] eqn:Hs; simpl in H3; [done|].
    injection H3 as _ <-. by eapply gate_set_err.
Qed.

(** Disarming one interface closes the node-wide gate: whichever other
    interfaces still have a guard, the gate they rely on is shut. *)
Theorem disarm_closes_gate iface a a' g :
  disarm iface a = (Ok tt, a') → a'.(boot_gate) = Some g →
  gate_get g 0 = Some 0 ∧ ¬ gate_open a' ∧ a'.(guards) = delete iface a.(guards).
Proof.
  unfold disarm. destruct (boot_gate a) as [gate|]; [|by intros [= <-]].
  unfold disarm_boot_gate. destruct (ebpf_err _ _ gate) as [r g1] eqn:Hs.
  intros [= -> <-]. simpl. intros [= <-]. apply ebpf_err_ok, gate_set_ok in Hs.
  split; [done|]. split; [|done]. intros (g & [= <-] & Hopen). congruence.
Qed.

Inductive guard_op := Arm (iface : string) | Disarm (iface : string).
Definition run_guard_op a (o : guard_op) : VmNetGuardAdapter :=
  match o with Arm i => (arm i a).2 | Disarm i => (disarm i a).2 end.

Lemma guard_op_stays p a o : is_loaded a.(ebpf) p → is_loaded (run_guard_op a o).(ebpf) p.
Proof.
  intros Hp. destruct o as [i|i]; simpl; unfold arm, disarm; destruct (boot_gate a) as [gate|]; try done.
  - unfold VmNetGuard_arm, mbind, M_bind, on_fst, on_snd.
    destruct (attach_tc i Egress (ebpf a)) as [[l1|] e1] eqn:H1; [|by eapply attach_tc_stays].
    destruct (attach_tc i Ingress e1) as [[l2|] e2] eqn:H2;
      (assert (is_loaded e2 p) by (eapply attach_tc_stays; [by eapply attach_tc_stays|exact H2])); [|done].
    by destruct (arm_boot_gate gate) as [[[]|] g].
  - by destruct (disarm_boot_gate gate).
Qed.

(** The classifiers are loaded anew for every interface, and a loaded
    program refuses a second load: once one interface was armed, arming any
    other fails, whatever was armed and disarmed in between. *)
Theorem second_arm_fails i a a1 ops j :
  arm i a = (Ok tt, a1) → ∃ err a', arm j (foldl run_guard_op a1 ops) = (Err err, a').
Proof.
  intros [Hl _]%arm_loads.
  assert (is_loaded (foldl run_guard_op a1 ops).(ebpf) "fleetos_tc_egress") as Hl'.
  { revert a1 Hl. induction ops as [|o ops IH]; intros a1 Hl; [done|].
    simpl. apply IH. by apply guard_op_stays. }
  unfold arm. destruct (boot_gate _) as [gate|]; [|by eexists _, _].
  unfold VmNetGuard_arm, mbind, M_bind, on_fst.
  destruct (attach_tc_twice j _ Egress eq_refl Hl') as (err & e' & ->). by eexists _, _.
Qed.
End facts.

(** ** LOCAL_WORKLOADS and its mirror *)

Section local.
Context {T : Type} `{!KernelMap T bytes Z} `{!KernelMapLaws T bytes Z}.
Implicit Types (m : T) (mirror : gmap bytes Z) (fp : bytes).

Definition register_local_workload fp : M AgentError (T * gmap bytes Z) unit :=
  _ ← on_fst (ebpf_err "LOCAL_WORKLOADS insert" (λ m, km_insert m fp 1));
  on_snd (modify (insert fp 1)).
Definition unregister_local_workload fp : M AgentError (T * gmap bytes Z) unit :=
  _ ← on_fst (ebpf_err "LOCAL_WORKLOADS remove" (λ m, km_remove m fp));
  on_snd (modify (delete fp)).

Inductive local_op := Register (fp : bytes) | Unregister (fp : bytes).
Definition run_local_op (s : T * gmap bytes Z) (o : local_op) : T * gmap bytes Z :=
  match o with Register fp => (register_local_workload fp s).2 | Unregister fp => (unregister_local_workload fp s).2 end.

(** The userspace mirror equals the kernel map after any sequence of
    registrations and removals, the failing ones included. *)
Theorem mirror_in_sync m mirror ops m' mirror' :
  (∀ fp, km_lookup m fp = mirror !! fp) →
  foldl run_local_op (m, mirror) ops = (m', mirror') →
  ∀ fp, km_lookup m' fp = mirror' !! fp.
Proof.
  revert m mirror. induction ops as [|o ops IH]; intros m mirror Hs Hrun; [by simplify_eq/=|].
  cbn [foldl] in Hrun. destruct (run_local_op (m, mirror) o) as [m1 mirror1] eqn:Ho.
  eapply IH; [|exact Hrun]. intros fp.
  destruct o as [k|k]; simpl in Ho;
    unfold register_local_workload, unregister_local_workload, mbind, M_bind, on_fst, on_snd, ebpf_err, modify in Ho.
  - destruct (km_insert m k 1) as [[[]|e] mk] eqn:Hk; injection Ho as <- <-.
    + by rewrite (km_insert_ok _ _ _ _ Hk), lookup_insert, Hs.
    + by rewrite (km_insert_err _ _ _ _ _ Hk).
  - destruct (km_remove m k) as [[[]|e] mk] eqn:Hk; injection Ho as <- <-.
    + by rewrite (km_remove_ok _ _ _ Hk), lookup_delete, Hs.
    + by rewrite (km_remove_err _ _ _ _ Hk).
Qed.
End local.

(** ** Witnesses *)

(** An object as the set of loaded programs and the list of its links; the gate
    as its value. *)
#[local] Instance sample_aya : Aya (gset string * list (string * attach_point)) Z := {
  LinkId := nat;
  has_program _ _ := true;
  program_cast _ _ _ := Ok tt;
  program_load p e := if decide (p ∈ e.1) then (Err "AlreadyLoaded", e) else (Ok tt, ({[p]} ∪ e.1, e.2));
  program_attach p i e := (Ok (length e.2), (e.1, e.2 ++ [(p, i)]));
  gate_set _ v _ := (Ok tt, v);
  gate_get g _ := Some g;
}.
#[local] Program Instance sample_aya_laws : AyaLaws (gset string * list (string * attach_point)) Z := {
  is_loaded e p := p ∈ e.1;
  attached e l p i := e.2 !! l = Some (p, i);
}.
Next Obligation. simpl. intros p e e' Hl. case_decide; simplify_eq/=. set_solver. Qed.
Next Obligation. simpl. intros p q e r e' Hp Hl. case_decide; simplify_eq/=; set_solver. Qed.
Next Obligation. simpl. intros p q i e r e' Hp Hl. by simplify_eq/=. Qed.
Next Obligation. simpl. intros p i e l e' [= <- <-]. simpl. by apply list_lookup_middle. Qed.
Next Obligation. simpl. intros l p i q e r e' Hp Hl. by case_decide; simplify_eq/=. Qed.
Next Obligation. simpl. intros l p i q j e r e' Hp [= _ <-]. simpl. by apply lookup_app_l_Some. Qed.
Next Obligation. simpl. intros p e Hp. rewrite decide_True by done. eauto. Qed.
Next Obligation. simpl. intros i v g g' Hs. by simplify_eq. Qed.
Next Obligation. simpl. intros i v g g' msg Hs. done. Qed.

Definition adapter0 : VmNetGuardAdapter (E := gset string * list (string * attach_point)) (G := Z) := mkAdapter (∅, []) (Some 0) ∅.
Definition armed1 := arm "tap1" adapter0.
Lemma armed1_run : arm "tap1" adapter0 = (Ok tt, armed1.2).
Proof. apply run_result. by vm_compute. Qed.

Lemma arm_spec_witness : gate_open armed1.2 ∧
  ∃ g, armed1.2.(guards) !! "tap1" = Some g ∧
    armed1.2.(ebpf).2 !! g.(egress_link) = Some ("fleetos_tc_egress", Tc "tap1" Egress).
Proof.
  destruct (arm_spec "tap1" adapter0 (Ok tt) armed1.2 armed1_run) as (Hg & (g & Hgs & _ & Ha & _) & _).
  split; [exact Hg|]. exists g. rewrite Hgs, lookup_insert_eq. split; [reflexivity|exact Ha].
Defined.

Lemma disarm_closes_gate_witness :
  ¬ gate_open (disarm "tap2" armed1.2).2 ∧ is_Some ((disarm "tap2" armed1.2).2.(guards) !! "tap1").
Proof.
  destruct (disarm_closes_gate "tap2" armed1.2 (disarm "tap2" armed1.2).2 0) as (_ & Hg & _);
    [apply run_result; by vm_compute|by vm_compute|].
  split; [exact Hg|]. vm_compute. eauto.
Defined.

Lemma second_arm_fails_witness :
  ∃ err a', arm "tap2" (disarm "tap1" armed1.2).2 = (Err err, a').
Proof. apply (second_arm_fails "tap1" adapter0 armed1.2 [Disarm "tap1"] "tap2" armed1_run). Defined.

Lemma mirror_in_sync_witness :
  let s := foldl run_local_op (mkCapmap 1 ∅ : capmap bytes Z, ∅ : gmap bytes Z)
    [Register [Byte.x01]; Register [Byte.x02]; Unregister [Byte.x03]] in
  ∀ fp, km_lookup s.1 fp = s.2 !! fp.
Proof.
  intros s. apply (mirror_in_sync (mkCapmap 1 ∅ : capmap bytes Z) ∅
    [Register [Byte.x01]; Register [Byte.x02]; Unregister [Byte.x03]]); [done|].
  apply surjective_pairing.
Defined.
