(* ===== verification/Counters.v ===== *)
(** Per-pod network counters (src/ebpf/counters.rs), their pre-population
    (src/ebpf/maps.rs). *)
From Stdlib Require Import Ascii.
From S2P Require Import Prelude Errors Core Ipv4.

Record PodNetCounters := mkCounters { tx_bytes : Z; tx_packets : Z; rx_bytes : Z; rx_packets : Z }.
#[export] Instance PodNetCounters_eq_dec : EqDecision PodNetCounters.
Proof. solve_decision. Defined.
(** [AggregatedCounters] and [CounterRates] have the same four fields. *)
Definition zero_counters : PodNetCounters := mkCounters 0 0 0 0.

Definition aggregate (per_cpu : list PodNetCounters) : PodNetCounters :=
  foldl (λ a c, mkCounters
    (u64_saturating_add a.(tx_bytes) c.(tx_bytes))
    (u64_saturating_add a.(tx_packets) c.(tx_packets))
    (u64_saturating_add a.(rx_bytes) c.(rx_bytes))
    (u64_saturating_add a.(rx_packets) c.(rx_packets))) zero_counters per_cpu.

Definition rate (prev curr : PodNetCounters) (interval_secs : Z) : option PodNetCounters :=
  if decide (interval_secs = 0) then None else
  Some (mkCounters
    (u64_wrapping_sub curr.(tx_bytes) prev.(tx_bytes) / interval_secs)
    (u64_wrapping_sub curr.(tx_packets) prev.(tx_packets) / interval_secs)
    (u64_wrapping_sub curr.(rx_bytes) prev.(rx_bytes) / interval_secs)
    (u64_wrapping_sub curr.(rx_packets) prev.(rx_packets) / interval_secs)).

(** [PodNetCountersReader] is its [previous] map.  The kernel map is read as the
    list of entries its iterator gives, each an IP with one sample per CPU. *)
Section reader.
Implicit Types (previous : gmap Z PodNetCounters).

Definition read_entry previous (interval_secs : Z) (s : gmap Z PodNetCounters * gmap Z PodNetCounters)
    (entry : Z * list PodNetCounters) : gmap Z PodNetCounters * gmap Z PodNetCounters :=
  let '(rates, current) := s in
  let '(ip, per_cpu) := entry in
  let agg := aggregate per_cpu in
  (match prev ← previous !! ip; rate prev agg interval_secs with
   | Some r => <[ip := r]> rates
   | None => rates
   end, <[ip := agg]> current).

Fixpoint read_entries previous (interval_secs : Z) (s : gmap Z PodNetCounters * gmap Z PodNetCounters)
    (entries : list (result string (Z * list PodNetCounters))) :
    Result (gmap Z PodNetCounters * gmap Z PodNetCounters) :=
  match entries with
  | [] => Ok s
  | Err e :: _ => Err (Ebpf ("POD_NET_COUNTERS iter: " +:+ e))
  | Ok entry :: entries => read_entries previous interval_secs (read_entry previous interval_secs s entry) entries
  end.

Definition read_and_compute_rates (entries : list (result string (Z * list PodNetCounters)))
    (interval_secs : Z) : M AgentError (gmap Z PodNetCounters) (gmap Z PodNetCounters) := λ previous,
  match read_entries previous interval_secs (∅, ∅) entries with
  | Ok (rates, current) => (Ok rates, current)
  | Err e => (Err e, previous)
  end.
End reader.

(** ** The reporter *)

Record PodMetrics := mkMetrics {
  pod_id : string;
  cpu_millicores : Z;
  memory_bytes : Z;
  net_tx_bytes : Z;
  net_rx_bytes : Z;
  window_unix : Z;
}.
#[export] Instance PodMetrics_eq_dec : EqDecision PodMetrics.
Proof. solve_decision. Defined.

Record CountersReporter := mkReporter {
  reader : gmap Z PodNetCounters;
  containerd_accounting : gmap string (Z * Z);
}.

Definition record_containerd_traffic (pod : string) (tx rx : Z) (r : CountersReporter) : CountersReporter :=
  let '(tx0, rx0) := default (0, 0) (r.(containerd_accounting) !! pod) in
  mkReporter r.(reader) (<[pod := (u64_add tx0 tx, u64_add rx0 rx)]> r.(containerd_accounting)).

Section report.
Context {OZ : HashOrder Z}.

Definition metrics_of (accounting : gmap string (Z * Z)) (window : Z) (kv : Z * PodNetCounters) : PodMetrics :=
  let '(ip_key, r) := kv in
  let pod := pretty ip_key in
  let '(containerd_tx, containerd_rx) := default (0, 0) (accounting !! pod) in
  mkMetrics pod 0 0 (u64_add r.(tx_bytes) containerd_tx) (u64_add r.(rx_bytes) containerd_rx) window.

(** The metrics one tick sends (a failed send is logged), or the error that
    ends the reporting loop. *)
Definition report_counters (entries : list (result string (Z * list PodNetCounters)))
    (interval_secs window : Z) : M AgentError CountersReporter (list PodMetrics) := λ r,
  match read_and_compute_rates entries interval_secs r.(reader) with
  | (Ok rates, previous) =>
      (Ok (metrics_of r.(containerd_accounting) window <$> iter_map rates),
       mkReporter previous r.(containerd_accounting))
  | (Err e, previous) => (Err e, mkReporter previous r.(containerd_accounting))
  end.
End report.

(** ** Aggregation and rates *)

Definition total (f : PodNetCounters → Z) (per_cpu : list PodNetCounters) : Z :=
  foldr (λ c s, f c + s) 0 per_cpu.

Lemma saturating_fold (g : PodNetCounters → Z) (l : list PodNetCounters) a :
  0 ≤ a → Forall (λ c, 0 ≤ g c) l →
  foldl (λ s c, u64_saturating_add s (g c)) (Z.min a u64_max) l = Z.min (a + total g l) u64_max.
Proof.
  revert a. induction l as [|c l IH]; intros a Ha Hl; simpl; [f_equal; lia|].
  inversion_clear Hl as [|? ? Hc Hl'].
  assert (u64_saturating_add (Z.min a u64_max) (g c) = Z.min (a + g c) u64_max) as ->
    by (unfold u64_saturating_add, u64_max; lia).
  rewrite IH by (done || lia). f_equal. lia.
Qed.

Lemma aggregate_fields (per_cpu : list PodNetCounters) a :
  foldl (λ a c, mkCounters
    (u64_saturating_add a.(tx_bytes) c.(tx_bytes)) (u64_saturating_add a.(tx_packets) c.(tx_packets))
    (u64_saturating_add a.(rx_bytes) c.(rx_bytes)) (u64_saturating_add a.(rx_packets) c.(rx_packets))) a per_cpu
  = mkCounters (foldl (λ s c, u64_saturating_add s c.(tx_bytes)) a.(tx_bytes) per_cpu)
      (foldl (λ s c, u64_saturating_add s c.(tx_packets)) a.(tx_packets) per_cpu)
      (foldl (λ s c, u64_saturating_add s c.(rx_bytes)) a.(rx_bytes) per_cpu)
      (foldl (λ s c, u64_saturating_add s c.(rx_packets)) a.(rx_packets) per_cpu).
Proof. revert a. induction per_cpu as [|c l IH]; intros a; simpl; [by destruct a|]. by rewrite IH. Qed.

Definition counters_ok (c : PodNetCounters) : Prop :=
  0 ≤ c.(tx_bytes) ∧ 0 ≤ c.(tx_packets) ∧ 0 ≤ c.(rx_bytes) ∧ 0 ≤ c.(rx_packets).

(** The aggregate is the sum over the CPUs in every field, capped at the
    largest 64-bit value: no CPU is missed and nothing wraps. *)
Theorem aggregate_sum per_cpu :
  Forall counters_ok per_cpu →
  aggregate per_cpu = mkCounters (Z.min (total tx_bytes per_cpu) u64_max) (Z.min (total tx_packets per_cpu) u64_max)
    (Z.min (total rx_bytes per_cpu) u64_max) (Z.min (total rx_packets per_cpu) u64_max).
Proof.
  intros Hok. unfold aggregate. rewrite aggregate_fields.
  assert (∀ g : PodNetCounters → Z, (∀ c, counters_ok c → 0 ≤ g c) →
    foldl (λ s c, u64_saturating_add s (g c)) 0 per_cpu = Z.min (total g per_cpu) u64_max) as Hsum.
  { intros g Hg. pose proof (saturating_fold g per_cpu 0 ltac:(lia)) as Hs. apply Hs.
    eapply Forall_impl; [exact Hok|]. auto. }
  cbn [tx_bytes tx_packets rx_bytes rx_packets zero_counters].
  unfold counters_ok in Hsum. by rewrite !Hsum by tauto.
Qed.

Lemma wrapping_diff x d : 0 ≤ d < 2 ^ 64 → u64_wrapping_sub ((x + d) mod 2 ^ 64) (x mod 2 ^ 64) = d.
Proof.
  intros Hd. unfold u64_wrapping_sub. rewrite <-Zminus_mod. replace (x + d - x) with d by lia.
  by apply Z.mod_small.
Qed.

(** The rate is the true traffic between the samples over the interval,
    also when a 64-bit counter wrapped in between; an interval of zero gives no
    rate instead of a division by zero. *)
Theorem rate_exact x d interval prev curr :
  (∀ f, f ∈ [tx_bytes; tx_packets; rx_bytes; rx_packets] →
     0 ≤ f d < 2 ^ 64 ∧ f prev = f x mod 2 ^ 64 ∧ f curr = (f x + f d) mod 2 ^ 64) →
  rate prev curr interval =
    if decide (interval = 0) then None
    else Some (mkCounters (d.(tx_bytes) / interval) (d.(tx_packets) / interval)
                 (d.(rx_bytes) / interval) (d.(rx_packets) / interval)).
Proof.
  intros Hf. unfold rate. case_decide; [done|].
  assert (∀ f, f ∈ [tx_bytes; tx_packets; rx_bytes; rx_packets] →
    u64_wrapping_sub (f curr) (f prev) = f d) as Hsub.
  { intros f Hin. destruct (Hf f Hin) as (Hd & -> & ->). by apply wrapping_diff. }
  rewrite (Hsub tx_bytes), (Hsub tx_packets), (Hsub rx_bytes), (Hsub rx_packets); [done|set_solver..].
Qed.

Section reads.
Implicit Types (previous rates current : gmap Z PodNetCounters) (entries : list (Z * list PodNetCounters)).

Lemma read_entries_ok previous interval s entries :
  read_entries previous interval s (Ok <$> entries) = Ok (foldl (read_entry previous interval) s entries).
Proof. revert s. induction entries as [|e entries IH]; intros s; [done|]. simpl. apply IH. Qed.

Lemma read_entries_fold previous interval entries rates current ip :
  NoDup entries.*1 → (∀ k, k ∈ entries.*1 → rates !! k = None) →
  let s := foldl (read_entry previous interval) (rates, current) entries in
  let sampled := aggregate <$> (list_to_map entries : gmap Z (list PodNetCounters)) !! ip in
  s.2 !! ip = match sampled with Some a => Some a | None => current !! ip end ∧
  s.1 !! ip = match sampled with
              | Some a => prev ← previous !! ip; rate prev a interval
              | None => rates !! ip
              end.
Proof.
  revert rates current. induction entries as [|[k per_cpu] entries IH]; intros rates current Hnd Hfresh.
  { simpl. rewrite lookup_empty. done. }
  apply NoDup_cons in Hnd as [Hk Hnd]. cbn [foldl read_entry].
  set (rates1 := match _ with Some r => _ | None => rates end).
  assert (∀ k', k' ≠ k → rates1 !! k' = rates !! k') as Hother.
  { intros k' Hne. subst rates1. destruct (_ ≫= _); [by rewrite lookup_insert_ne|done]. }
  destruct (IH rates1 (<[k := aggregate per_cpu]> current) Hnd) as [H1 H2].
  { intros k' Hk'. rewrite Hother by (by intros ->). apply Hfresh. simpl. set_solver. }
  rewrite H1, H2. simpl. destruct (decide (k = ip)) as [->|Hne].
  - rewrite !lookup_insert_eq. simpl.
    assert ((list_to_map entries : gmap Z (list PodNetCounters)) !! ip = None) as ->
      by (by apply not_elem_of_list_to_map).
    simpl. split; [done|]. subst rates1.
    destruct (previous !! ip) as [prev|]; simpl; [|by apply Hfresh; left].
    destruct (rate prev _ _); [by rewrite lookup_insert_eq|by apply Hfresh; left].
  - rewrite !lookup_insert_ne by done. by rewrite Hother.
Qed.

(** One read replaces the baseline by exactly the current aggregates and
    reports a rate for exactly the IPs that had a baseline; if iterating the
    map fails, nothing is reported and the baseline stays. *)
Theorem read_rates_spec previous entries interval :
  NoDup entries.*1 →
  (∃ rates current,
     read_and_compute_rates (Ok <$> entries) interval previous = (Ok rates, current) ∧
     ∀ ip, current !! ip = aggregate <$> (list_to_map entries : gmap Z (list PodNetCounters)) !! ip ∧
           rates !! ip = (a ← current !! ip; prev ← previous !! ip; rate prev a interval)) ∧
  ∀ e rest, read_and_compute_rates ((Ok <$> entries) ++ Err e :: rest) interval previous
            = (Err (Ebpf ("POD_NET_COUNTERS iter: " +:+ e)), previous).
Proof.
  intros Hnd. split.
  - unfold read_and_compute_rates. rewrite read_entries_ok.
    pose proof (λ ip, read_entries_fold previous interval entries ∅ ∅ ip Hnd (λ k _, lookup_empty k)) as Hs.
    destruct (foldl (read_entry previous interval) (∅, ∅) entries) as [rates current].
    exists rates, current. split; [done|]. intros ip. destruct (Hs ip) as [H1 H2]. simpl in *.
    rewrite H1, H2, lookup_empty. by destruct (aggregate <$> _).
  - intros e rest. unfold read_and_compute_rates.
    assert (∀ s, read_entries previous interval s ((Ok <$> entries) ++ Err e :: rest)
                 = Err (Ebpf ("POD_NET_COUNTERS iter: " +:+ e))) as ->; [|done].
    clear Hnd. induction entries as [|x entries IH]; intros s; [done|]. simpl. apply IH.
Qed.
End reads.

(** ** Pre-population and possible CPUs *)

(** [usize::from_str] on the digits of a range. *)
Fixpoint parse_usize_digits (acc : Z) (s : string) : option Z :=
  match s with
  | EmptyString => Some acc
  | String c s =>
      d ← digit c; if decide (acc * 10 + d < 2 ^ 64) then parse_usize_digits (acc * 10 + d) s else None
  end.
Definition parse_usize (s : string) : option Z :=
  match s with
  | EmptyString => None
  | String "+" EmptyString => None
  | String "+" s => parse_usize_digits 0 s
  | s => parse_usize_digits 0 s
  end.

(** One comma-separated part of the CPU list; [None] is a panic. *)
Definition cpu_part (part : string) : option Z :=
  match split_once "-"%char part with
  | Some (lo_str, hi_str) =>
      lo ← parse_usize lo_str; hi ← parse_usize hi_str;
      if decide (lo ≤ hi) then Some hi else None
  | None => parse_usize part
  end.
Fixpoint split_commas (fuel : nat) (s : string) : list string :=
  match fuel with
  | O => []
  | S fuel => match split_once ","%char s with
              | Some (a, b) => a :: split_commas fuel b
              | None => [s]
              end
  end.
(** [raw]: the trimmed file, "0" when it cannot be read. *)
Definition num_possible_cpus (raw : string) : option Z :=
  his ← mapM cpu_part (split_commas (S (String.length raw)) raw);
  Some (foldl Z.max 0 his + 1).

Example possible_cpus :
  num_possible_cpus "0-7" = Some 8 ∧ num_possible_cpus "0" = Some 1 ∧
  num_possible_cpus "0-3,8-11" = Some 12 ∧ num_possible_cpus "3-1" = None.
Proof. by vm_compute. Qed.

Section prepopulate.
Context {T : Type} `{!KernelMap T Z (list PodNetCounters)} `{!KernelMapLaws T Z (list PodNetCounters)}.

Definition prepopulate_pod_counters (ncpu : nat) (workload_ip : Z) : M AgentError T unit := λ m,
  let '(r, m') := km_insert m workload_ip (replicate ncpu zero_counters) in
  (map_err (λ e, Ebpf ("POD_NET_COUNTERS insert: " +:+ e)) r, m').

Lemma prepopulate_zero ncpu ip m u m' :
  prepopulate_pod_counters ncpu ip m = (Ok u, m') →
  aggregate <$> km_lookup m' ip = Some zero_counters.
Proof.
  unfold prepopulate_pod_counters.
  destruct (km_insert _ _ _) as [[[]|] m1] eqn:Hi; simpl; intros Heq; simplify_eq.
  rewrite (km_insert_ok _ _ _ _ Hi), decide_True by done. simpl. f_equal.
  clear Hi. induction ncpu as [|n IH]; [done|]. exact IH.
Qed.
End prepopulate.

(** ** Witnesses *)

Definition cpu0 : PodNetCounters := mkCounters 10 1 20 2.
Definition cpu1 : PodNetCounters := mkCounters (2 ^ 64 - 5) 1 0 0.

Lemma aggregate_sum_witness :
  aggregate [cpu0; cpu1] = mkCounters u64_max 2 20 2 ∧ Forall counters_ok [cpu0; cpu1].
Proof.
  assert (Forall counters_ok [cpu0; cpu1]) as Hok by (repeat constructor; simpl; lia).
  split; [|exact Hok]. rewrite (aggregate_sum [cpu0; cpu1] Hok). reflexivity.
Defined.

(** The transmit counter wraps between the samples. *)
Lemma rate_exact_witness :
  rate (mkCounters (2 ^ 64 - 10) 0 5 0) (mkCounters 90 3 25 4) 10 = Some (mkCounters 10 0 2 0) ∧
  rate cpu0 cpu0 0 = None.
Proof.
  split; [|reflexivity].
  rewrite (rate_exact (mkCounters (2 ^ 64 - 10) 0 5 0) (mkCounters 100 3 20 4) 10); [reflexivity|].
  intros f Hf. rewrite !elem_of_cons in Hf.
  destruct Hf as [->|[->|[->|[->|Hf]]]]; [split; [simpl; lia|split; reflexivity]..|].
  by apply not_elem_of_nil in Hf.
Defined.

Lemma read_rates_spec_witness :
  ∃ rates current, read_and_compute_rates (Ok <$> [(7, [cpu0; cpu0]); (9, [cpu0])]) 10 {[ 7 := zero_counters ]}
    = (Ok rates, current) ∧ rates !! 7 = Some (mkCounters 2 0 4 0) ∧ rates !! 9 = None.
Proof.
  destruct (read_rates_spec {[ 7 := zero_counters ]} [(7, [cpu0; cpu0]); (9, [cpu0])] 10) as
    [(rates & current & Hrun & Hs) _]; [apply (bool_decide_unpack _); by vm_compute|].
  exists rates, current. split; [exact Hrun|].
  split; [rewrite (proj2 (Hs 7)), (proj1 (Hs 7))|rewrite (proj2 (Hs 9)), (proj1 (Hs 9))]; reflexivity.
Defined.
