(* ===== verification/Tasks.v ===== *)
(** The select loops the agent's background tasks share: each waits for the
    shutdown signal or its timer.  A run is the sequence of what the loop wakes
    up to, interleaved with what other tasks do to the state they share with
    it. *)
From S2P Require Import Prelude.

(** [Changed v]: the shutdown channel changed to [v]; [Ticked i]: the timer
    fired, with what the tick reads from outside; [Meanwhile o]: a step of
    another task. *)
Inductive wake (I O : Type) := Changed (shutdown : bool) | Ticked (input : I) | Meanwhile (op : O).
Arguments Changed {I O} shutdown.
Arguments Ticked {I O} input.
Arguments Meanwhile {I O} op.

(** [Ended e]: the task returned the error of a tick. *)
Inductive task_state (E : Type) := Running | Stopped | Ended (e : E).
Arguments Running {E}.
Arguments Stopped {E}.
Arguments Ended {E} e.

Section task.
Context {S I O E : Type}.
(** One tick; what is done before returning at shutdown; the other tasks. *)
Context (tick : I → M E S unit) (at_shutdown : S → S) (other : O → S → S).

Definition task_step (t : task_state E * S) (w : wake I O) : task_state E * S :=
  let '(st, s) := t in
  match w with
  | Meanwhile o => (st, other o s)
  | Changed shutdown =>
      match st with
      | Running => if shutdown then (Stopped, at_shutdown s) else (Running, s)
      | _ => (st, s)
      end
  | Ticked i =>
      match st with
      | Running => match tick i s with (Ok _, s') => (Running, s') | (Err e, s') => (Ended e, s') end
      | _ => (st, s)
      end
  end.

Definition run_task (s : S) (ws : list (wake I O)) : task_state E * S := foldl task_step (Running, s) ws.

(** *** Facts about every task *)

(** A task that ended stays as it is; only the others go on. *)
Lemma task_over st s ws : st ≠ Running →
  foldl task_step (st, s) ws = (st, foldl (λ s w, match w with Meanwhile o => other o s | _ => s end) s ws).
Proof.
  intros Hst. revert s. induction ws as [|w ws IH]; intros s; [done|].
  cbn [foldl]. rewrite <-IH. f_equal. by destruct w, st.
Qed.

(** The shutdown signal ends every task. *)
Lemma task_shuts_down s ws ws' : (run_task s (ws ++ Changed true :: ws')).1 ≠ Running.
Proof.
  unfold run_task. rewrite foldl_app. cbn [foldl]. destruct (foldl task_step (Running, s) ws) as [st s1].
  assert ((task_step (st, s1) (Changed true)).1 ≠ Running) as Hst by by destruct st.
  destruct (task_step (st, s1) (Changed true)) as [st2 s2]. by rewrite task_over.
Qed.

(** Nothing but the signal or a failing tick does. *)
Lemma task_goes_on s ws :
  (∀ i s e s', tick i s ≠ (Err e, s')) → Changed true ∉ ws → (run_task s ws).1 = Running.
Proof.
  intros Htick. unfold run_task. induction ws as [|w ws IH] using rev_ind; intros Hws; [done|].
  rewrite foldl_app. cbn [foldl]. rewrite not_elem_of_app in Hws. destruct Hws as [Hws Hw].
  specialize (IH Hws). destruct (foldl task_step (Running, s) ws) as [st s1]. simpl in IH. subst st.
  destruct w as [[]|i|o]; try done.
  - destruct Hw. by left.
  - simpl. destruct (tick i s1) as [[[]|e] s2] eqn:Ht; [done|]. by apply Htick in Ht.
Qed.

(** An invariant of the task: kept by ticks, by the shutdown action and by the
    others. *)
Lemma task_invariant (P : task_state E * S → Prop) s ws :
  (∀ t w, w ∈ ws → P t → P (task_step t w)) → P (Running, s) → P (run_task s ws).
Proof.
  intros Hstep Hs. unfold run_task. revert Hstep Hs. generalize (Running (E := E), s) as t.
  induction ws as [|w ws IH]; intros t Hstep Ht; [done|]. cbn [foldl].
  apply IH; [intros; apply Hstep; [by right|done]|]. apply Hstep; [by left|done].
Qed.
End task.
