(* ===== verification/FlowEvents.v ===== *)
(** Flow events: draining the FLOW_EVENTS ring buffer (src/ebpf/events.rs) and
    exporting the records over OTLP (src/observability/flow_events.rs). *)
From S2P Require Import Prelude Errors Tasks.

(** [fleetos_ebpf_common::FlowEvent] *)
Record FlowEvent := mkFlowEvent {
  src_hash : bytes;
  dst_hash : bytes;
  ev_port : Z;
  ev_action : Z;
  ev_direction : Z;
}.
Record ParsedFlowEvent := mkParsed {
  src_fingerprint : bytes;
  dst_fingerprint : bytes;
  port : Z;
  action : Z;
  direction : Z;
  timestamp_unix : Z;
}.
(** [OtlpFlowRecord] has the same fields; the conversion copies them. *)
Abbreviation OtlpFlowRecord := ParsedFlowEvent.
Definition to_otlp_records (events : list ParsedFlowEvent) : list OtlpFlowRecord :=
  (λ e, mkParsed e.(src_fingerprint) e.(dst_fingerprint) e.(port) e.(action) e.(direction) e.(timestamp_unix)) <$> events.

Definition parse_event (event : FlowEvent) (now : Z) : ParsedFlowEvent :=
  mkParsed event.(src_hash) event.(dst_hash) event.(ev_port) event.(ev_action) event.(ev_direction) now.

(** An OTLP attribute value and log record. *)
Inductive AnyValue := VString (s : string) | VInt (z : Z).
Record LogRecord := mkLog {
  body : string;
  timestamp : Z;
  attributes : list (string * AnyValue);
}.

(** [u64 as i64]. *)
Definition as_i64 (z : Z) : Z := (z + 2 ^ 63) mod 2 ^ 64 - 2 ^ 63.

(** [N] is the exporter's provider: emitting is infallible, flushing is not. *)
Class OtlpProvider (N : Type) := {
  hex_encode : bytes → string;
  emit : LogRecord → N → N;
  force_flush : M string N unit;
}.

Section flow.
Context {N : Type} `{OtlpProvider N}.
(** [size_of::<FlowEvent>()] and the cast of that many bytes. *)
Context (event_size : nat) (from_bytes : bytes → FlowEvent).

(** [drain_events]: the items pending in the ring buffer, each with the clock
    when it is read. *)
Definition drain_item (item : bytes * Z) : option ParsedFlowEvent :=
  if decide (length item.1 < event_size)%nat then None
  else Some (parse_event (from_bytes (take event_size item.1)) item.2).
Definition drain_events (pending : list (bytes * Z)) : list ParsedFlowEvent := omap drain_item pending.

Definition action_name (action : Z) : string := if decide (action = 1) then "allow" else "deny".
Definition direction_name (direction : Z) : string := if decide (direction = 0) then "ingress" else "egress".

Definition log_record (r : OtlpFlowRecord) : LogRecord :=
  mkLog
    ("flow: " +:+ hex_encode r.(src_fingerprint) +:+ " -> " +:+ hex_encode r.(dst_fingerprint) +:+ ":" +:+
     pretty r.(port) +:+ " action=" +:+ action_name r.(action) +:+ " direction=" +:+ direction_name r.(direction))
    r.(timestamp_unix)
    [("flow.src_fingerprint", VString (hex_encode r.(src_fingerprint)));
     ("flow.dst_fingerprint", VString (hex_encode r.(dst_fingerprint)));
     ("flow.port", VInt r.(port));
     ("flow.action", VString (action_name r.(action)));
     ("flow.direction", VString (direction_name r.(direction)));
     ("flow.timestamp_unix", VInt (as_i64 r.(timestamp_unix)))].

(** [FlowOtlpExporter::export]: an empty batch touches nothing. *)
Definition export (records : list OtlpFlowRecord) : M AgentError N unit := λ n,
  match records with
  | [] => (Ok tt, n)
  | _ =>
      let '(r, n') := force_flush (foldl (λ n rec, emit (log_record rec) n) n records) in
      (map_err (λ e, Errors.Config ("OTLP flush failed: " +:+ e)) r, n')
  end.

(** [FlowOtlpExporter::new], over the builder of the exporter and its provider. *)
Definition FlowOtlpExporter_new (build : string → result string N) (endpoint : string) : Result N :=
  map_err (λ e, Errors.Config ("OTLP exporter init failed: " +:+ e)) (build endpoint).

(** [FlowEventsDrainLoop]: what is pending in the ring buffer, and the exporter
    if one was configured. *)
Record FlowEventsDrainLoop := mkDrain { ring_buf : list (bytes * Z); exporter : option N }.

(** One tick: a failed export is logged, and the events are gone. *)
Definition drain_tick (_ : unit) : M AgentError FlowEventsDrainLoop unit := λ s,
  let events := drain_events s.(ring_buf) in
  (Ok tt,
   match events, s.(exporter) with
   | _ :: _, Some n => mkDrain [] (Some (export (to_otlp_records events) n).2)
   | _, e => mkDrain [] e
   end).

(** The kernel appends items; [run_drain_loop] takes them out. *)
Definition push_item (item : bytes * Z) (s : FlowEventsDrainLoop) : FlowEventsDrainLoop :=
  mkDrain (s.(ring_buf) ++ [item]) s.(exporter).
Definition run_drain_loop (s : FlowEventsDrainLoop) (ws : list (wake unit (bytes * Z))) :
    task_state AgentError * FlowEventsDrainLoop :=
  run_task drain_tick id push_item s ws.
End flow.
Arguments FlowEventsDrainLoop : clear implicits.

(** ** Each event is emitted once *)

Section facts.
Context (event_size : nat) (from_bytes : bytes → FlowEvent) (hex : bytes → string).
Context {N : Type} (flush : M string N unit).

(** A provider with the log of what was emitted; its flush may fail. *)
#[local] Instance logged_provider : OtlpProvider (list LogRecord * N) := {
  hex_encode := hex;
  emit r n := (n.1 ++ [r], n.2);
  force_flush n := let '(r, n') := flush n.2 in (r, (n.1, n'));
}.
Abbreviation drain_loop := (FlowEventsDrainLoop (list LogRecord * N)).

Definition emitted (s : drain_loop) : list LogRecord := default [] (fst <$> s.(exporter)).

(** The items a run pushed. *)
Definition pushed (ws : list (wake unit (bytes * Z))) : list (bytes * Z) :=
  omap (λ w, match w with Meanwhile item => Some item | _ => None end) ws.

Lemma export_emits records n : ((export records n).2).1 = n.1 ++ (log_record <$> records).
Proof.
  assert (∀ n, (foldl (λ n rec, emit (log_record rec) n) n records).1 = n.1 ++ (log_record <$> records)) as Hfold.
  { induction records as [|r rs IH]; intros m; [by rewrite app_nil_r|]. cbn [foldl fmap list_fmap]. rewrite IH.
    unfold emit at 1, logged_provider at 1. cbn [fst]. by rewrite <-app_assoc. }
  unfold export. destruct records as [|r rs]; [by rewrite app_nil_r|].
  unfold force_flush, logged_provider at 1. rewrite <-Hfold.
  by destruct (flush _).
Qed.

Lemma to_otlp_id events : to_otlp_records events = events.
Proof. unfold to_otlp_records. rewrite <-(list_fmap_id events) at 2. apply list_fmap_ext. by intros ? []. Qed.

(** What a run emitted, and what is still pending, is what was pushed. *)
Definition accounted (s0 : drain_loop) (items : list (bytes * Z)) (s : drain_loop) : Prop :=
  ∃ consumed, s0.(ring_buf) ++ items = consumed ++ s.(ring_buf) ∧
    is_Some s.(exporter) ∧
    emitted s = emitted s0 ++ (log_record <$> drain_events event_size from_bytes consumed).

Lemma drain_tick_accounted s0 items s :
  accounted s0 items s → accounted s0 items (drain_tick event_size from_bytes tt s).2.
Proof.
  intros (consumed & Hitems & [n Hn] & Hem). exists (consumed ++ s.(ring_buf)).
  assert (drain_events event_size from_bytes (consumed ++ s.(ring_buf)) =
    drain_events event_size from_bytes consumed ++ drain_events event_size from_bytes s.(ring_buf)) as Happ
    by apply omap_app.
  unfold drain_tick. cbn [snd]. rewrite Hn, Happ, fmap_app, app_assoc, <-Hem. unfold emitted. rewrite Hn.
  destruct (drain_events _ _ s.(ring_buf)) as [|e evs] eqn:Hd; cbn [ring_buf exporter fmap option_fmap option_map default].
  - split; [by rewrite Hitems, app_nil_r|]. split; [by eexists|]. by rewrite app_nil_r.
  - split; [by rewrite Hitems, app_nil_r|]. split; [by eexists|].
    rewrite to_otlp_id. apply export_emits.
Qed.

Lemma pending_bound t ws :
  (length (foldl (task_step (drain_tick event_size from_bytes) id push_item) t ws).2.(ring_buf)
   ≤ length t.2.(ring_buf) + length (pushed ws))%nat.
Proof.
  revert t. induction ws as [|w ws IH]; intros [st s]; [simpl; lia|]. cbn [foldl]. etrans; [apply IH|].
  destruct w as [v|[]|item]; cbn [task_step].
  - change (pushed (Changed v :: ws)) with (pushed ws). by destruct st, v.
  - change (pushed (Ticked tt :: ws)) with (pushed ws). destruct st; cbn [snd]; [|done..].
    unfold drain_tick. cbn [snd]. destruct (drain_events _ _ _), (exporter s); simpl; lia.
  - change (pushed (Meanwhile item :: ws)) with (item :: pushed ws). cbn [snd push_item ring_buf].
    rewrite length_app. simpl. lia.
Qed.

(** C36: With an exporter, the loop emits the flow events of the ring buffer
    exactly once and in order, whatever becomes of the flushes: at any moment
    the records emitted are those of the whole items taken so far, and the items
    taken followed by those still pending are the ones the kernel produced.  A
    tick before the shutdown signal takes everything produced before it; only
    the signal ends the loop. *)
Theorem flow_events_once n ws :
  let '(st, s) := run_drain_loop event_size from_bytes (mkDrain [] (Some ([], n))) ws in
  (∃ consumed, pushed ws = consumed ++ s.(ring_buf) ∧
    emitted s = log_record <$> drain_events event_size from_bytes consumed ∧
    ∀ ws1 ws2, ws = ws1 ++ Ticked tt :: ws2 → Changed true ∉ ws1 → pushed ws1 `prefix_of` consumed) ∧
  (st = Running ↔ Changed true ∉ ws) ∧ (∀ e, st ≠ Ended e).
Proof.
  set (s0 := mkDrain [] (Some ([], n))).
  assert (∀ ws, let '(st, s) := run_drain_loop event_size from_bytes s0 ws in
    accounted s0 (pushed ws) s ∧ (∀ e, st ≠ Ended e) ∧ (Changed true ∉ ws → st = Running)) as Hrun.
  { clear ws. intros ws. unfold run_drain_loop, run_task. induction ws as [|w ws IH] using rev_ind.
    { split; [|done]. exists []. split; [done|]. split; [by eexists|done]. }
    rewrite foldl_app. unfold pushed. rewrite omap_app. fold (pushed ws). cbn [foldl].
    destruct (foldl _ _ ws) as [st s]. destruct IH as (Hacc & Hst & Hgo).
    assert (Changed true ∉ ws ++ [w] → st = Running ∧ w ≠ Changed true) as Hin.
    { intros [Hws Hw]%not_elem_of_app. split; [auto|]. intros ->. apply Hw. by left. }
    destruct w as [v|[]|item]; cbn [task_step omap list_omap].
    - rewrite app_nil_r. destruct st, v; naive_solver.
    - rewrite app_nil_r. destruct st; [|naive_solver..]. split; [by apply drain_tick_accounted|done].
    - split; [|naive_solver]. destruct Hacc as (consumed & Hitems & Hex & Hem). exists consumed.
      split; [|done]. cbn [push_item ring_buf]. by rewrite !app_assoc, Hitems. }
  pose proof (Hrun ws) as Hws. destruct (run_drain_loop _ _ s0 ws) as [st s] eqn:Hs.
  destruct Hws as ((consumed & Hitems & _ & Hem) & Hend & Hgo). split; [|split; [split; [|done]|done]].
  - exists consumed. split; [done|]. split; [done|]. intros ws1 ws2 -> Hin.
    pose proof (Hrun ws1) as Hr1.
    unfold run_drain_loop, run_task in Hs, Hr1. rewrite foldl_app in Hs. cbn [foldl] in Hs.
    destruct (foldl _ (Running, s0) ws1) as [st1 s1]. destruct Hr1 as (_ & _ & Hr1). rewrite (Hr1 Hin) in Hs.
    pose proof (pending_bound (task_step (drain_tick event_size from_bytes) id push_item (Running, s1) (Ticked tt)) ws2) as Hb.
    rewrite Hs in Hb. simpl in Hitems. unfold pushed in Hitems. rewrite omap_app in Hitems. fold (pushed ws1) in Hitems.
    change (pushed ws1 ++ pushed ws2 = consumed ++ s.(ring_buf)) in Hitems.
    assert (ring_buf (drain_tick event_size from_bytes tt s1).2 = []) as Hempty
      by (unfold drain_tick; cbn [snd]; by destruct (drain_events _ _ s1.(ring_buf)), (exporter s1)).
    cbn [task_step] in Hb. destruct (drain_tick _ _ tt s1) as [r s2] eqn:Ht. simpl in Hempty.
    assert (length s.(ring_buf) ≤ length (pushed ws2))%nat.
    { destruct r; simpl in Hb; rewrite Hempty in Hb; simpl in Hb; lia. }
    apply (f_equal (take (length (pushed ws1)))) in Hitems as Htake. rewrite take_app_length in Htake.
    apply (f_equal length) in Hitems. rewrite !length_app in Hitems.
    rewrite take_app_le in Htake by lia. exists (drop (length (pushed ws1)) consumed).
    by rewrite Htake at 1; rewrite take_drop.
  - intros Hr Hin. apply list_elem_of_split in Hin as (ws1 & ws2 & ->).
    apply (task_shuts_down (drain_tick event_size from_bytes) id push_item s0 ws1 ws2).
    unfold run_drain_loop in Hs. by rewrite Hs.
Qed.
End facts.

(** ** Examples *)

(** Two items, the first too short for an event; a collector that refuses every
    flush still got the record. *)
Definition sample_cast (b : bytes) : FlowEvent := mkFlowEvent (take 1 b) (drop 1 b) 443 1 0.
Definition down_collector : M string nat unit := λ n, (Err "unavailable", S n).
Definition drained : task_state AgentError * FlowEventsDrainLoop (list LogRecord * nat) :=
  let _ := logged_provider (λ _, "00") down_collector in
  run_drain_loop 2 sample_cast (mkDrain [] (Some ([], 0%nat)))
    [Meanwhile ([Byte.x01], 10); Meanwhile ([Byte.x02; Byte.x03], 11); Ticked tt; Changed true;
     Meanwhile ([Byte.x04; Byte.x05], 12); Ticked tt].
Example one_record_emitted :
  body <$> emitted drained.2 = ["flow: 00 -> 00:443 action=allow direction=ingress"] ∧
  length drained.2.(ring_buf) = 1%nat.
Proof. by vm_compute. Qed.
