(* ===== verification/Pods.v ===== *)
(** Pods: the state machine (src/workloads/pod_manager.rs, lifecycle.rs), the
    full-state reconciler (reconciler.rs) and the status report (status.rs). *)
From S2P Require Import Prelude Errors.

Inductive RuntimeKind := Containerd | CloudHypervisor.
#[export] Instance RuntimeKind_eq_dec : EqDecision RuntimeKind.
Proof. solve_decision. Defined.

Definition runtime_of_i32 (value : Z) : Result RuntimeKind :=
  if decide (value = 0) then Ok Containerd
  else if decide (value = 1) then Ok CloudHypervisor
  else Err (Workload ("unknown runtime: " +:+ pretty value)).
Definition runtime_of_str (value : string) : Result RuntimeKind :=
  if decide (value = "containerd") then Ok Containerd
  else if decide (value = "cloud-hypervisor" ∨ value = "cloud_hypervisor") then Ok CloudHypervisor
  else Err (Workload ("unknown runtime: " +:+ value)).

Inductive PodState := Pending | Booting | Running | Terminating | Stopped.
#[export] Instance PodState_eq_dec : EqDecision PodState.
Proof. solve_decision. Defined.

Record Pod := mkPod {
  pod_id : string;
  workload_id : string;
  tenant_id : string;
  role : string;
  runtime : RuntimeKind;
  state : PodState;
  started : bool;
  policy_enforced : bool;
  router_connected : bool;
  restart_count : Z;
  created_at_unix : Z;
  last_status_at_unix : Z;
  pid : option Z;
  vsock_cid : option Z;
  fingerprint : bytes;
  probe_ready : bool;
  probe_live : bool;
  probe_failure_reported : bool;
  probe_ever_passed : bool;
}.
#[export] Instance Pod_eq_dec : EqDecision Pod.
Proof. solve_decision. Defined.

Definition Pod_new (id workload tenant role : string) (rt : RuntimeKind) (fp : bytes) (now : Z) : Pod :=
  mkPod id workload tenant role rt Pending false false false 0 now 0 None None fp false false false false.

(** Field updates. *)
Definition set_state (s : PodState) (p : Pod) : Pod :=
  mkPod p.(pod_id) p.(workload_id) p.(tenant_id) p.(role) p.(runtime) s p.(started) p.(policy_enforced)
    p.(router_connected) p.(restart_count) p.(created_at_unix) p.(last_status_at_unix) p.(pid) p.(vsock_cid)
    p.(fingerprint) p.(probe_ready) p.(probe_live) p.(probe_failure_reported) p.(probe_ever_passed).
Definition set_gates (st pe rc : bool) (p : Pod) : Pod :=
  mkPod p.(pod_id) p.(workload_id) p.(tenant_id) p.(role) p.(runtime) p.(state) st pe rc
    p.(restart_count) p.(created_at_unix) p.(last_status_at_unix) p.(pid) p.(vsock_cid)
    p.(fingerprint) p.(probe_ready) p.(probe_live) p.(probe_failure_reported) p.(probe_ever_passed).
Definition set_restarts (n : Z) (p : Pod) : Pod :=
  mkPod p.(pod_id) p.(workload_id) p.(tenant_id) p.(role) p.(runtime) p.(state) p.(started) p.(policy_enforced)
    p.(router_connected) n p.(created_at_unix) p.(last_status_at_unix) p.(pid) p.(vsock_cid)
    p.(fingerprint) p.(probe_ready) p.(probe_live) p.(probe_failure_reported) p.(probe_ever_passed).
Definition set_probes (ready live reported ever : bool) (p : Pod) : Pod :=
  mkPod p.(pod_id) p.(workload_id) p.(tenant_id) p.(role) p.(runtime) p.(state) p.(started) p.(policy_enforced)
    p.(router_connected) p.(restart_count) p.(created_at_unix) p.(last_status_at_unix) p.(pid) p.(vsock_cid)
    p.(fingerprint) ready live reported ever.
Definition set_pid (h : option Z) (p : Pod) : Pod :=
  mkPod p.(pod_id) p.(workload_id) p.(tenant_id) p.(role) p.(runtime) p.(state) p.(started) p.(policy_enforced)
    p.(router_connected) p.(restart_count) p.(created_at_unix) p.(last_status_at_unix) h p.(vsock_cid)
    p.(fingerprint) p.(probe_ready) p.(probe_live) p.(probe_failure_reported) p.(probe_ever_passed).

Definition is_ready (p : Pod) : bool :=
  bool_decide (p.(state) = Running) && p.(started) && p.(policy_enforced) && p.(router_connected).
Definition is_live (p : Pod) : bool := bool_decide (p.(state) = Running ∨ p.(state) = Booting).
Definition transition_to (s : PodState) (p : Pod) : Pod := set_state s p.
Definition mark_started (p : Pod) : Pod := set_gates true p.(policy_enforced) p.(router_connected) p.
Definition mark_policy_enforced (p : Pod) : Pod := set_gates p.(started) true p.(router_connected) p.
Definition mark_router_connected (p : Pod) : Pod := set_gates p.(started) p.(policy_enforced) true p.
Definition increment_restart (p : Pod) : Pod := set_restarts (u32_add p.(restart_count) 1) p.
Definition can_transition_to_running (p : Pod) : bool :=
  p.(started) && p.(policy_enforced) && p.(router_connected).
Definition try_transition_to_running (p : Pod) : bool * Pod :=
  if decide (p.(state) = Booting ∧ can_transition_to_running p = true)
  then (true, transition_to Running p) else (false, p).
Definition start_terminating (p : Pod) : Pod :=
  if decide (p.(state) = Running) then transition_to Terminating p else p.
Definition finish_terminating (p : Pod) : Pod :=
  if decide (p.(state) = Terminating) then transition_to Stopped p else p.
Definition begin_eviction (p : Pod) : Pod :=
  match p.(state) with
  | Pending | Booting | Running => set_state Terminating p
  | _ => p
  end.

Inductive RestartPolicy := Always | OnFailure | Never.
(** [Pod::restart_policy] does not read the pod spec. *)
Definition restart_policy (p : Pod) : RestartPolicy := Always.

(** ** src/workloads/lifecycle.rs *)

Record PodLifecycle := mkLifecycle {
  lc_restart_policy : RestartPolicy;
  lc_restart_count : Z;
  max_restarts : Z;
  grace_period_secs : Z;
}.
Definition PodLifecycle_new (policy : RestartPolicy) (grace : Z) : PodLifecycle := mkLifecycle policy 0 3 grace.
Definition can_restart (l : PodLifecycle) : bool :=
  match l.(lc_restart_policy) with Always | OnFailure => true | Never => false end.
Definition record_restart (l : PodLifecycle) : bool * PodLifecycle :=
  let n := u32_add l.(lc_restart_count) 1 in
  let l := mkLifecycle l.(lc_restart_policy) n l.(max_restarts) l.(grace_period_secs) in
  (bool_decide (n ≤ l.(max_restarts)) && can_restart l, l).
Definition next_state (current : PodState) (failed : bool) (l : PodLifecycle) : PodState * PodLifecycle :=
  match current with
  | Running =>
      if failed then
        let '(ok, l) := record_restart l in (if ok then Booting else Stopped, l)
      else (Running, l)
  | Terminating => (Stopped, l)
  | other => (other, l)
  end.

(** ** [PodManager]: its one field, the pods by id *)

Definition add_pod (p : Pod) (m : gmap string Pod) : gmap string Pod := <[p.(pod_id) := p]> m.
Definition get_pod (id : string) (m : gmap string Pod) : option Pod := m !! id.
Definition remove_pod (id : string) (m : gmap string Pod) : gmap string Pod := delete id m.
(** A mutation through [get_pod_mut]. *)
Definition update_pod (f : Pod → Pod) (id : string) (m : gmap string Pod) : gmap string Pod := alter f id m.

Section manager.
Context {OS : HashOrder string}.
Definition all_pods (m : gmap string Pod) : list Pod := iter_values m.
Definition pods_for_workload (w : string) (m : gmap string Pod) : list Pod :=
  filter (λ p, p.(workload_id) = w) (all_pods m).
Definition running_pods (m : gmap string Pod) : list Pod :=
  filter (λ p, p.(state) = Running) (all_pods m).
Definition pod_ids (m : gmap string Pod) : list string := (iter_map m).*1.

(** ** src/workloads/reconciler.rs *)

(** The pod spec is what boot needs; the reconciler reads the workload id. *)
Context {PodSpec : Type}.
Record WorkloadSpec := mkSpec {
  spec_workload_id : string;
  spec_runtime : RuntimeKind;
  spec_image : string;
  spec_role : string;
  spec_pod_spec : option PodSpec;
  spec_hostname : string;
}.
Record WorkloadAssignment := mkAssignment {
  as_workload_id : string;
  as_runtime : string;
  as_image : string;
  as_role : string;
  as_pod_spec : option PodSpec;
  as_hostname : string;
}.
Definition from_assignment (a : WorkloadAssignment) : Result WorkloadSpec :=
  runtime ← runtime_of_str a.(as_runtime);
  mret (mkSpec a.(as_workload_id) runtime a.(as_image) a.(as_role) a.(as_pod_spec) a.(as_hostname)).

Record ReconcileResult := mkReconcile { to_boot : list WorkloadSpec; to_evict : list string }.

Definition active (p : Pod) : Prop := p.(state) ≠ Terminating ∧ p.(state) ≠ Stopped.

Definition reconcile (desired : list WorkloadSpec) (running : gmap string Pod) : ReconcileResult :=
  let desired_ids : gset string := list_to_set (spec_workload_id <$> desired) in
  let running_ids : gset string := list_to_set (workload_id <$> filter active (all_pods running)) in
  mkReconcile
    (filter (λ spec, spec.(spec_workload_id) ∉ running_ids) desired)
    (pod_id <$> filter (λ p, active p ∧ p.(workload_id) ∉ desired_ids) (all_pods running)).
End manager.
Arguments WorkloadSpec : clear implicits.
Arguments WorkloadAssignment : clear implicits.
Arguments ReconcileResult : clear implicits.

(** ** src/workloads/status.rs *)

Record WorkloadStatusReport := mkReport {
  rep_pod_id : string;
  rep_workload_id : string;
  rep_tenant_id : string;
  rep_ready : bool;
  rep_live : bool;
  rep_observed_at_unix : Z;
  rep_restart_count : Z;
  rep_started : bool;
  rep_policy_enforced : bool;
  rep_router_connected : bool;
}.
Definition build_status_report (now : Z) (p : Pod) : WorkloadStatusReport :=
  mkReport p.(pod_id) p.(workload_id) p.(tenant_id) p.(probe_ready) p.(probe_live) now
    p.(restart_count) p.(started) p.(policy_enforced) p.(router_connected).
Definition report_all_pods {OS : HashOrder string} (now : Z) (m : gmap string Pod) : list WorkloadStatusReport :=
  build_status_report now <$> all_pods m.

(** ** Reconciliation *)

Lemma begin_eviction_inactive p : ¬ active (begin_eviction p).
Proof. unfold active, begin_eviction. destruct p as [? ? ? ? ? []]; cbn; naive_solver. Qed.

Section facts.
Context {OS : HashOrder string} {PodSpec : Type}.
Implicit Types (m : gmap string Pod) (desired : list (WorkloadSpec PodSpec)) (p : Pod).

(** Pods are filed under their id. *)
Definition keyed m : Prop := ∀ id p, m !! id = Some p → p.(pod_id) = id.

Lemma elem_of_all_pods m p : p ∈ all_pods m ↔ ∃ id, m !! id = Some p.
Proof. apply elem_of_iter_values. Qed.

Lemma elem_of_to_boot desired m s :
  s ∈ (reconcile desired m).(to_boot) ↔
  s ∈ desired ∧ ∀ id p, m !! id = Some p → active p → p.(workload_id) ≠ s.(spec_workload_id).
Proof.
  simpl. rewrite list_elem_of_filter, elem_of_list_to_set, list_elem_of_fmap.
  setoid_rewrite list_elem_of_filter. setoid_rewrite elem_of_all_pods. naive_solver.
Qed.
Lemma elem_of_to_evict desired m id :
  id ∈ (reconcile desired m).(to_evict) ↔
  ∃ k p, m !! k = Some p ∧ p.(pod_id) = id ∧ active p ∧
         ∀ s, s ∈ desired → s.(spec_workload_id) ≠ p.(workload_id).
Proof.
  simpl. rewrite list_elem_of_fmap. setoid_rewrite list_elem_of_filter. setoid_rewrite elem_of_all_pods.
  setoid_rewrite elem_of_list_to_set. setoid_rewrite list_elem_of_fmap. naive_solver.
Qed.

Lemma elem_of_to_evict_keyed desired m id :
  keyed m →
  id ∈ (reconcile desired m).(to_evict) ↔
  ∃ p, m !! id = Some p ∧ active p ∧ ∀ s, s ∈ desired → s.(spec_workload_id) ≠ p.(workload_id).
Proof.
  intros Hm. rewrite elem_of_to_evict. split.
  - intros (k & p & Hk & <- & Ha & Hs). exists p. by rewrite (Hm _ _ Hk).
  - intros (p & Hp & Ha & Hs). exists id, p. by rewrite (Hm _ _ Hp).
Qed.

(** The reconciler boots exactly the desired specs whose workload has no
    active pod, and evicts exactly the active pods whose workload is not
    desired; a terminating or stopped pod counts as absent and is not evicted
    again. *)
Theorem reconcile_spec desired m :
  keyed m →
  (∀ s, s ∈ (reconcile desired m).(to_boot) ↔
     s ∈ desired ∧ ∀ id p, m !! id = Some p → active p → p.(workload_id) ≠ s.(spec_workload_id)) ∧
  (∀ id, id ∈ (reconcile desired m).(to_evict) ↔
     ∃ p, m !! id = Some p ∧ active p ∧ ∀ s, s ∈ desired → s.(spec_workload_id) ≠ p.(workload_id)).
Proof.
  intros Hm. split; [apply elem_of_to_boot|]. intros id. by apply elem_of_to_evict_keyed.
Qed.

(** Apply a result the way the manager does when every eviction and boot
    succeeds: evicted pods are removed, then one pod per booted spec is added. *)
Definition apply_result (r : ReconcileResult PodSpec) (booted : list Pod) m : gmap string Pod :=
  foldl (λ m p, add_pod p m) (foldl (λ m id, remove_pod id m) m r.(to_evict)) booted.

Lemma lookup_remove_all ids m id :
  foldl (λ m id, remove_pod id m) m ids !! id = if decide (id ∈ ids) then None else m !! id.
Proof.
  revert m. induction ids as [|i ids IH]; intros m; [done|]. cbn [foldl]. rewrite IH. unfold remove_pod.
  destruct (decide (id ∈ ids)); [by rewrite decide_True by (by right)|].
  destruct (decide (i = id)) as [->|].
  - rewrite lookup_delete_eq. by rewrite decide_True by left.
  - rewrite lookup_delete_ne by done. by rewrite decide_False by (rewrite not_elem_of_cons; naive_solver).
Qed.

Lemma lookup_add_all ps m id :
  NoDup (pod_id <$> ps) →
  foldl (λ m p, add_pod p m) m ps !! id =
    match list_find (λ p, p.(pod_id) = id) ps with Some (_, p) => Some p | None => m !! id end.
Proof.
  revert m. induction ps as [|p ps IH]; intros m Hnd; [done|].
  apply NoDup_cons in Hnd as [Hp Hnd]. cbn [foldl list_find]. rewrite IH by done. unfold add_pod.
  destruct (decide (pod_id p = id)) as [<-|Hne].
  - destruct (list_find _ ps) as [[i q]|] eqn:Hf.
    + exfalso. apply list_find_Some in Hf as (Hi & Hq & _). apply Hp, list_elem_of_fmap.
      exists q. split; [done|]. by eapply list_elem_of_lookup_2.
    + by rewrite lookup_insert_eq.
  - rewrite lookup_insert_ne by done. by destruct (list_find _ ps) as [[]|].
Qed.

(** What is left: the kept pods and the booted ones. *)
Lemma apply_result_lookup r booted m :
  NoDup (pod_id <$> booted) → (∀ p, p ∈ booted → m !! p.(pod_id) = None) →
  let m' := apply_result r booted m in
  (∀ id p, m' !! id = Some p → p ∈ booted ∨ (m !! id = Some p ∧ id ∉ r.(to_evict))) ∧
  (∀ p, p ∈ booted → m' !! p.(pod_id) = Some p) ∧
  (∀ id p, m !! id = Some p → id ∉ r.(to_evict) → m' !! id = Some p).
Proof.
  intros Hnd Hfresh m'.
  assert (∀ id, m' !! id = match list_find (λ p, p.(pod_id) = id) booted with
    | Some (_, p) => Some p
    | None => if decide (id ∈ r.(to_evict)) then None else m !! id end) as Hm'.
  { intros id. subst m'. unfold apply_result. rewrite lookup_add_all by done. by rewrite lookup_remove_all. }
  split; [|split].
  - intros id p. rewrite Hm'. destruct (list_find _ booted) as [[i q]|] eqn:Hf.
    + intros [= ->]. left. apply list_find_Some in Hf as (Hi & _). by eapply list_elem_of_lookup_2.
    + case_decide; [done|]. auto.
  - intros p Hp. rewrite Hm'. destruct (list_find _ booted) as [[i q]|] eqn:Hf.
    + f_equal. apply list_find_Some in Hf as (Hi & Hq & _). apply list_elem_of_lookup_1 in Hp as [j Hj].
      assert ((pod_id <$> booted) !! i = Some (pod_id p)) as Hi' by (by rewrite list_lookup_fmap, Hi, <-Hq).
      assert ((pod_id <$> booted) !! j = Some (pod_id p)) as Hj' by (by rewrite list_lookup_fmap, Hj).
      pose proof (NoDup_lookup _ _ _ _ Hnd Hi' Hj'). congruence.
    + apply list_find_None in Hf. rewrite Forall_forall in Hf. by destruct (Hf p Hp).
  - intros id p Hp Hne. rewrite Hm'. rewrite decide_False by done.
    destruct (list_find _ booted) as [[i q]|] eqn:Hf; [|done].
    apply list_find_Some in Hf as (Hi & <- & _). rewrite Hfresh in Hp; [done|].
    by eapply list_elem_of_lookup_2.
Qed.

(** Reconciliation converges: when the evictions and boots it asks for
    have happened, the same frame asks for nothing more. *)
Theorem reconcile_converges desired m booted :
  keyed m → NoDup (pod_id <$> booted) →
  Forall2 (λ s p, p.(workload_id) = s.(spec_workload_id) ∧ active p) (reconcile desired m).(to_boot) booted →
  (∀ p, p ∈ booted → m !! p.(pod_id) = None) →
  reconcile desired (apply_result (reconcile desired m) booted m) = mkReconcile [] [].
Proof.
  intros Hm Hnd Hboot Hfresh. pose proof (elem_of_to_boot desired m) as Hb.
  pose proof (λ id, elem_of_to_evict_keyed desired m id Hm) as He.
  set (r := reconcile desired m) in *.
  destruct (apply_result_lookup r booted m Hnd Hfresh) as (Hinv & Hin & Hkeep).
  set (m' := apply_result r booted m) in *.
  destruct (reconcile desired m') as [boot evict] eqn:Hr. f_equal.
  - apply elem_of_nil_inv. intros s Hs.
    assert (s ∈ (reconcile desired m').(to_boot)) as Hs' by (by rewrite Hr).
    apply elem_of_to_boot in Hs' as [Hdes Hno].
    assert (s ∈ r.(to_boot)) as Hsb.
    { apply Hb. split; [done|]. intros id p Hp Ha Hw. apply (Hno id p); [|done..].
      apply Hkeep; [done|]. intros (p' & Hp' & _ & Hnd')%He.
      rewrite Hp in Hp'. injection Hp' as <-. by apply (Hnd' s). }
    apply list_elem_of_lookup_1 in Hsb as [i Hi].
    destruct (Forall2_lookup_l _ _ _ _ _ Hboot Hi) as (p & Hp & Hw & Ha).
    apply (Hno (pod_id p) p); [|done..]. apply Hin. by eapply list_elem_of_lookup_2.
  - apply elem_of_nil_inv. intros id Hid.
    assert (id ∈ (reconcile desired m').(to_evict)) as Hid' by (by rewrite Hr).
    apply elem_of_to_evict in Hid' as (k & p & Hk & _ & Ha & Hnone).
    destruct (Hinv _ _ Hk) as [Hpb|[Hpm Hne]].
    + apply list_elem_of_lookup_1 in Hpb as [i Hi].
      destruct (Forall2_lookup_r _ _ _ _ _ Hboot Hi) as (s & Hs & Hw & _).
      apply list_elem_of_lookup_2, Hb in Hs as [Hs _]. by apply (Hnone s).
    + apply Hne, He. eauto.
Qed.

(** The diff is by workload, not by pod: as long as one pod of a workload
    is active, none of the frame's specs for that workload is booted and no
    pod of it is evicted, whatever pod ids the frame names.  A second replica,
    a replacement pod and a scale-down to fewer replicas all go unnoticed. *)
Theorem replicas_unnoticed desired m id p s :
  keyed m → m !! id = Some p → active p → s ∈ desired → s.(spec_workload_id) = p.(workload_id) →
  (∀ s', s' ∈ (reconcile desired m).(to_boot) → s'.(spec_workload_id) ≠ p.(workload_id)) ∧
  (∀ id' p', m !! id' = Some p' → p'.(workload_id) = p.(workload_id) →
     id' ∉ (reconcile desired m).(to_evict)).
Proof.
  intros Hm Hp Ha Hs Hw. split.
  - intros s' [_ Hno]%elem_of_to_boot Heq. by apply (Hno id p).
  - intros id' p' Hp' Hw' (q & Hq & _ & Hno)%(elem_of_to_evict_keyed _ _ _ Hm). rewrite Hp' in Hq. injection Hq as <-.
    apply (Hno s Hs). congruence.
Qed.
End facts.

(** ** What the schedule task relies on *)

(** Processing a list of specs, which workloads have an active pod, and an invariant of the manager under which a
    processed frame leaves active pods of the frame's workloads only. *)
Class FrameReconciler (S : Type) (PodSpec : Type) := {
  reconcile_frame : list (WorkloadSpec PodSpec) → S → S;
  hosted : S → string → Prop;
  manager_ok : S → Prop;
  reconcile_keeps_ok specs s : manager_ok s → manager_ok (reconcile_frame specs s);
  reconcile_enforces specs s w : manager_ok s → hosted (reconcile_frame specs s) w →
    ∃ spec, spec ∈ specs ∧ spec.(spec_workload_id) = w;
}.

(** ** Samples *)

Definition sample_running : Pod := transition_to Running (Pod_new "p1" "w1" "t" "primary" Containerd [] 0).
Definition sample_pods : gmap string Pod := add_pod sample_running ∅.
Definition sample_desired (w : string) : WorkloadSpec unit := mkSpec w Containerd "img" "primary" None "host".

Lemma sample_pods_inv id p : sample_pods !! id = Some p → id = "p1" ∧ p = sample_running.
Proof.
  unfold sample_pods, add_pod. rewrite lookup_insert_Some, lookup_empty.
  intros [[<- <-]|[_ ?]]; done.
Qed.
Lemma sample_pods_keyed : keyed sample_pods.
Proof. by intros id p [-> ->]%sample_pods_inv. Qed.

Lemma reconcile_spec_witness :
  sample_desired "w2" ∈ (reconcile [sample_desired "w2"] sample_pods).(to_boot).
Proof.
  apply (reconcile_spec [sample_desired "w2"] sample_pods sample_pods_keyed). split; [by left|].
  by intros id p [-> ->]%sample_pods_inv _.
Defined.

Lemma reconcile_converges_witness :
  let r := reconcile (PodSpec := unit) [] sample_pods in
  reconcile (PodSpec := unit) [] (apply_result r [] sample_pods) = mkReconcile [] [].
Proof.
  apply (reconcile_converges [] sample_pods []); [apply sample_pods_keyed|constructor| |by intros ? ?%elem_of_nil].
  constructor.
Defined.

Lemma replicas_unnoticed_witness :
  ∀ s, s ∈ (reconcile [sample_desired "w1"; sample_desired "w1"] sample_pods).(to_boot) →
    s.(spec_workload_id) ≠ "w1".
Proof.
  apply (replicas_unnoticed [sample_desired "w1"; sample_desired "w1"] sample_pods "p1" sample_running
    (sample_desired "w1")); [apply sample_pods_keyed|apply lookup_insert_eq|done|by left|done].
Defined.
