(* ===== verification/Probes.v ===== *)
(** Probes: the threshold machines (src/workloads/probes/mod.rs), the per-pod
    runners (probe_manager.rs) and the loop that moves pods between states on
    their results (probe_loop.rs).  Running a check is an outcome handed in
    (Executors.v has the checks); times are milliseconds. *)
From S2P Require Import Prelude Errors Pods.

Inductive Check :=
| ExecCheck (command : list string)
| HttpGetCheck (path : string) (port : Z)
| TcpSocketCheck (port : Z).

(** [fleetos_core::proto::workload::Probe] and [ProbeSet]. *)
Record Probe := mkProbe {
  check : option Check;
  initial_delay_seconds : Z;
  period_seconds : Z;
  timeout_seconds : Z;
  p_success_threshold : Z;
  p_failure_threshold : Z;
}.
Record ProbeSet := mkProbeSet {
  ps_startup : option Probe;
  ps_liveness : option Probe;
  ps_readiness : option Probe;
}.

Inductive ProbeKind :=
| Exec (command : list string)
| HttpGet (path : string) (port : Z)
| TcpSocket (port : Z).
Definition kind_of (p : Probe) : ProbeKind :=
  match p.(check) with
  | Some (ExecCheck c) => Exec c
  | Some (HttpGetCheck path port) => HttpGet path port
  | Some (TcpSocketCheck port) => TcpSocket port
  | None => TcpSocket 0
  end.

Inductive ProbePhase := InitialDelay | Probing | Succeeded | Failed.
#[export] Instance ProbePhase_eq_dec : EqDecision ProbePhase.
Proof. solve_decision. Defined.

Record ProbeRunner := mkRunner {
  kind : ProbeKind;
  phase : ProbePhase;
  initial_delay_secs : Z;
  period_secs : Z;
  timeout_secs : Z;
  success_threshold : Z;
  failure_threshold : Z;
  consecutive_successes : Z;
  consecutive_failures : Z;
  started_at : Z;
  last_probe_at : option Z;
}.
Definition ProbeRunner_new (p : Probe) (now : Z) : ProbeRunner :=
  mkRunner (kind_of p) InitialDelay p.(initial_delay_seconds) p.(period_seconds) p.(timeout_seconds)
    (Z.max p.(p_success_threshold) 1) (Z.max p.(p_failure_threshold) 1) 0 0 now None.

Definition is_due (now : Z) (r : ProbeRunner) : bool :=
  if decide (now - r.(started_at) < r.(initial_delay_secs) * 1000) then false
  else match r.(last_probe_at) with
       | None => true
       | Some last => bool_decide (r.(period_secs) * 1000 ≤ now - last)
       end.

(** [run_probe kind timeout now]: whether the check succeeded. *)
Section run.
Context (run_probe : ProbeKind → Z → Z → bool).

(** The counting of [probe], for a given outcome. *)
Definition record_outcome (ok : bool) (now : Z) (r : ProbeRunner) : ProbeRunner :=
  if ok then
    let s := u32_add r.(consecutive_successes) 1 in
    mkRunner r.(kind) (if decide (r.(success_threshold) ≤ s) then Succeeded else Probing)
      r.(initial_delay_secs) r.(period_secs) r.(timeout_secs) r.(success_threshold) r.(failure_threshold)
      s 0 r.(started_at) (Some now)
  else
    let f := u32_add r.(consecutive_failures) 1 in
    mkRunner r.(kind) (if decide (r.(failure_threshold) ≤ f) then Failed else Probing)
      r.(initial_delay_secs) r.(period_secs) r.(timeout_secs) r.(success_threshold) r.(failure_threshold)
      0 f r.(started_at) (Some now).
Definition probe (now : Z) (r : ProbeRunner) : ProbeRunner :=
  record_outcome (run_probe r.(kind) (r.(timeout_secs) * 1000) now) now r.

Definition is_passing (r : ProbeRunner) : bool := bool_decide (r.(phase) = Succeeded).
Definition is_failing (r : ProbeRunner) : bool := bool_decide (r.(phase) = Failed).
Definition is_live_passing (r : ProbeRunner) : bool :=
  bool_decide (r.(consecutive_failures) < r.(failure_threshold)).
Definition is_ready_passing (r : ProbeRunner) : bool :=
  bool_decide (r.(success_threshold) ≤ r.(consecutive_successes)).

Record ProbeSetRunner := mkSetRunner {
  startup : option ProbeRunner;
  liveness : option ProbeRunner;
  readiness : option ProbeRunner;
}.
Definition ProbeSetRunner_new (probes : option ProbeSet) (now : Z) : ProbeSetRunner :=
  match probes with
  | Some p => mkSetRunner ((λ q, ProbeRunner_new q now) <$> p.(ps_startup))
                ((λ q, ProbeRunner_new q now) <$> p.(ps_liveness))
                ((λ q, ProbeRunner_new q now) <$> p.(ps_readiness))
  | None => mkSetRunner None None None
  end.

Definition startup_done (s : ProbeSetRunner) : bool :=
  match s.(startup) with None => true | Some r => is_passing r end.
Definition run_if_due (now : Z) (r : ProbeRunner) : ProbeRunner :=
  if is_due now r then probe now r else r.

Definition run_probes (now : Z) (s : ProbeSetRunner) : (bool * bool) * ProbeSetRunner :=
  let s := mkSetRunner (run_if_due now <$> s.(startup)) s.(liveness) s.(readiness) in
  if negb (startup_done s) then ((true, true), s) else
  let s := mkSetRunner s.(startup) (run_if_due now <$> s.(liveness)) (run_if_due now <$> s.(readiness)) in
  ((default true (is_live_passing <$> s.(liveness)), default true (is_ready_passing <$> s.(readiness))), s).

Definition all_passing (s : ProbeSetRunner) : bool :=
  startup_done s && default true (is_live_passing <$> s.(liveness))
    && default true (is_ready_passing <$> s.(readiness)).

(** ** src/workloads/probe_manager.rs *)

Record ProbeTickResult := mkTick {
  t_pod_id : string;
  t_live : bool;
  t_ready : bool;
  all_probes_passing : bool;
  probe_failed : bool;
}.

Definition register_pod (id : string) (r : ProbeSetRunner) (m : gmap string ProbeSetRunner) :
    gmap string ProbeSetRunner := <[id := r]> m.
Definition unregister_pod (id : string) (m : gmap string ProbeSetRunner) :
    gmap string ProbeSetRunner := delete id m.

Definition tick_pod (now : Z) (id : string) (s : ProbeSetRunner) : ProbeTickResult * ProbeSetRunner :=
  let '((live, ready), s) := run_probes now s in
  (mkTick id live ready (all_passing s) (negb live || negb ready), s).

Definition tick {OS : HashOrder string} (now : Z) (m : gmap string ProbeSetRunner) :
    list ProbeTickResult * gmap string ProbeSetRunner :=
  foldl (λ '(results, m) id,
    match m !! id with
    | Some s => let '(t, s) := tick_pod now id s in (results ++ [t], <[id := s]> m)
    | None => (results, m)
    end) ([], m) (iter_set (dom m)).

Definition is_pod_ready (id : string) (m : gmap string ProbeSetRunner) : bool :=
  default true (all_passing <$> m !! id).
End run.

(** ** src/workloads/probe_loop.rs *)

Record ProbeLoopConfig := mkLoopConfig { probe_interval_secs : Z; max_restart_attempts : Z }.
Definition ProbeLoopConfig_default : ProbeLoopConfig := mkLoopConfig 10 3.

Inductive PodEventKind := Started | ProbeFailed | BackOff.
#[export] Instance PodEventKind_eq_dec : EqDecision PodEventKind.
Proof. solve_decision. Defined.

(** The pod's part of [process_probe_result], and the events to emit, in the
    order they are sent. *)
Definition process_pod (cfg : ProbeLoopConfig) (t : ProbeTickResult) (p : Pod) : list PodEventKind * Pod :=
  let was_running := bool_decide (p.(state) = Running) in
  let ever := t.(all_probes_passing) || p.(probe_ever_passed) in
  let emit_failed := t.(probe_failed) && ever && negb p.(probe_failure_reported) in
  let reported := if emit_failed then true
                  else if negb t.(probe_failed) then false else p.(probe_failure_reported) in
  let p1 := set_probes t.(t_ready) t.(t_live) reported ever p in
  let emit_started := bool_decide (p1.(state) = Booting) && t.(all_probes_passing) in
  let p2 := if emit_started then transition_to Running p1 else p1 in
  let '(emit_back_off, p3) :=
    if was_running && negb t.(t_live) then
      match restart_policy p2 with
      | Always | OnFailure =>
          if decide (cfg.(max_restart_attempts) ≤ p2.(restart_count)) then
            (true, set_probes p2.(probe_ready) false p2.(probe_failure_reported) p2.(probe_ever_passed) p2)
          else
            let p := transition_to Booting (increment_restart p2) in
            (false, set_probes p.(probe_ready) p.(probe_live) false p.(probe_ever_passed) p)
      | Never => (false, set_probes p2.(probe_ready) false p2.(probe_failure_reported) p2.(probe_ever_passed) p2)
      end
    else (false, p2) in
  ((if emit_failed then [ProbeFailed] else []) ++ (if emit_started then [Started] else []) ++
   (if emit_back_off then [BackOff] else []), p3).

Definition process_probe_result (cfg : ProbeLoopConfig) (t : ProbeTickResult) (m : gmap string Pod) :
    list PodEventKind * gmap string Pod :=
  match m !! t.(t_pod_id) with
  | Some p => let '(evs, p) := process_pod cfg t p in (evs, <[t.(t_pod_id) := p]> m)
  | None => ([], m)
  end.

(** ** Thresholds *)

(** The length of the run of [b]s at the head of a history, latest first. *)
Fixpoint streak (b : bool) (l : list bool) : nat :=
  match l with
  | x :: l => if bool_decide (x = b) then S (streak b l) else O
  | [] => O
  end.

(** Outcomes are in the order they happened, each with its time. *)
Definition run_outcomes (os : list (bool * Z)) (r : ProbeRunner) : ProbeRunner :=
  foldl (λ r '(ok, now), record_outcome ok now r) r os.

Lemma streak_length b l : (streak b l ≤ length l)%nat.
Proof. induction l as [|x l IH]; simpl; [lia|]. case_bool_decide; lia. Qed.

Lemma run_outcomes_counts p now os :
  Z.of_nat (length os) < 2 ^ 32 →
  let r := run_outcomes os (ProbeRunner_new p now) in
  let h := reverse os.*1 in
  r.(consecutive_successes) = Z.of_nat (streak true h) ∧
  r.(consecutive_failures) = Z.of_nat (streak false h) ∧
  r.(success_threshold) = Z.max p.(p_success_threshold) 1 ∧
  r.(failure_threshold) = Z.max p.(p_failure_threshold) 1 ∧
  r.(phase) = match h with
              | [] => InitialDelay
              | true :: _ => if decide (r.(success_threshold) ≤ Z.of_nat (streak true h)) then Succeeded else Probing
              | false :: _ => if decide (r.(failure_threshold) ≤ Z.of_nat (streak false h)) then Failed else Probing
              end.
Proof.
  induction os as [|[ok t] os IH] using rev_ind; intros Hlen; [done|].
  rewrite length_app in Hlen. simpl in Hlen.
  destruct IH as (Hs & Hf & Hst & Hft & Hph); [lia|]. clear Hph.
  unfold run_outcomes in *. rewrite foldl_app, fmap_app, reverse_app. cbn [foldl fmap list_fmap fst].
  set (r := foldl _ _ os) in *. set (h := reverse os.*1) in *.
  assert (length h = length os) as Hh by (subst h; by rewrite length_reverse, length_fmap).
  pose proof (streak_length true h). pose proof (streak_length false h).
  change (reverse [ok] ++ h) with (ok :: h).
  assert (∀ n, 0 ≤ n ≤ Z.of_nat (length os) → u32_add n 1 = n + 1) as Hadd
    by (intros; apply u32_add_small; unfold is_u32; lia).
  destruct ok; unfold record_outcome; cbn [streak consecutive_successes consecutive_failures
    success_threshold failure_threshold phase]; rewrite ?Hs, ?Hf, Hadd, ?Hst, ?Hft by lia.
  - assert (Z.of_nat (streak true h) + 1 = Z.of_nat (S (streak true h))) as -> by lia. split_and!; done.
  - assert (Z.of_nat (streak false h) + 1 = Z.of_nat (S (streak false h))) as -> by lia. split_and!; done.
Qed.

Lemma streak_ge b l k : (k ≤ streak b l)%nat ↔ take k l = replicate k b.
Proof.
  revert k. induction l as [|x l IH]; intros [|k]; cbn [streak take replicate];
    try (split; [intros; done|intros; lia]).
  { split; [lia|done]. }
  case_bool_decide as Hx.
  - subst. transitivity (k ≤ streak b l)%nat; [lia|]. rewrite IH. split; [by intros ->|by intros [=]].
  - split; [lia|]. by intros [=].
Qed.

(** The configured thresholds, at least one. *)
Definition failures_needed (p : Probe) : nat := Z.to_nat (Z.max p.(p_failure_threshold) 1).
Definition successes_needed (p : Probe) : nat := Z.to_nat (Z.max p.(p_success_threshold) 1).

(** C37: A probe counts as dead exactly when its last [failure_threshold] checks
    all failed, as ready exactly when its last [success_threshold] checks all
    succeeded (a threshold of zero meaning one), so a single good check revives
    it and a single bad one withdraws readiness; [is_failing] and [is_passing]
    read the same counters: [is_failing] needs the whole threshold too. *)
Theorem probe_thresholds p now os :
  Z.of_nat (length os) < 2 ^ 32 →
  let r := run_outcomes os (ProbeRunner_new p now) in
  let h := reverse os.*1 in
  (is_live_passing r = false ↔ take (failures_needed p) h = replicate (failures_needed p) false) ∧
  (is_ready_passing r = true ↔ take (successes_needed p) h = replicate (successes_needed p) true) ∧
  is_failing r = negb (is_live_passing r) ∧ is_passing r = is_ready_passing r.
Proof.
  intros Hlen r h. destruct (run_outcomes_counts p now os Hlen) as (Hs & Hf & Hst & Hft & Hph).
  fold r h in Hs, Hf, Hst, Hft, Hph.
  rewrite <-!streak_ge. unfold is_live_passing, is_ready_passing, is_failing, is_passing.
  rewrite Hph, Hs, Hf, Hst, Hft. unfold failures_needed, successes_needed.
  split; [rewrite bool_decide_eq_false; lia|]. split; [rewrite bool_decide_eq_true; lia|].
  clear Hlen Hs Hf Hst Hft Hph. set (st := Z.max (p_success_threshold p) 1).
  set (ft := Z.max (p_failure_threshold p) 1). assert (1 ≤ st ∧ 1 ≤ ft) as [] by lia. clearbody st ft.
  clearbody h. clear os r. destruct h as [|[] h]; cbn [streak]; cbn.
  - rewrite (bool_decide_eq_true_2 (0 < ft)), (bool_decide_eq_false_2 (st ≤ 0)) by lia. done.
  - rewrite (bool_decide_eq_true_2 (0 < ft)) by lia.
    destruct (decide (st ≤ _)); [rewrite (bool_decide_eq_true_2 (st ≤ _)) by done
    |rewrite (bool_decide_eq_false_2 (st ≤ _)) by done]; done.
  - rewrite (bool_decide_eq_false_2 (st ≤ 0)) by lia.
    destruct (decide (ft ≤ _)); [rewrite (bool_decide_eq_false_2 (_ < ft)) by lia
    |rewrite (bool_decide_eq_true_2 (_ < ft)) by lia]; done.
Qed.
Lemma probe_thresholds_witness :
  is_live_passing (run_outcomes [(true, 0); (false, 1); (false, 2); (false, 3)]
    (ProbeRunner_new (mkProbe None 0 1 1 1 3) 0)) = false.
Proof.
  destruct (probe_thresholds (mkProbe None 0 1 1 1 3) 0 [(true, 0); (false, 1); (false, 2); (false, 3)])
    as (H & _); [done|]. by apply H.
Defined.

(** ** The startup gate *)
Section gate.
Context (run_probe : ProbeKind → Z → Z → bool).

(** Until the startup probe has succeeded, liveness and readiness are not
    run: their runners are left as they are and both report passing, the pod
    neither counts as all-passing (so it cannot leave [Booting]) nor as
    failed.  A pod that is still starting is reported live and ready. *)
Theorem startup_gates now id cfg r s p :
  s.(startup) = Some r → is_passing (run_if_due run_probe now r) = false →
  let '(t, s') := tick_pod run_probe now id s in
  s'.(liveness) = s.(liveness) ∧ s'.(readiness) = s.(readiness) ∧
  t = mkTick id true true false false ∧
  let '(evs, p') := process_pod cfg t p in
  evs = [] ∧ p'.(state) = p.(state) ∧ p'.(restart_count) = p.(restart_count) ∧
  rep_ready (build_status_report now p') = true ∧ rep_live (build_status_report now p') = true.
Proof.
  intros Hs Hp. unfold tick_pod, run_probes. rewrite Hs. cbn [fmap option_fmap option_map startup_done startup].
  rewrite Hp. simpl. unfold all_passing. cbn [startup_done startup]. rewrite Hp. simpl.
  split_and!; try done. unfold process_pod. simpl. rewrite !andb_false_r. simpl. by destruct (state p).
Qed.
End gate.

Definition sample_tcp_probe : Probe := mkProbe (Some (TcpSocketCheck 80)) 0 1 1 1 3.
Definition sample_pod : Pod := Pod_new "p" "w" "t" "primary" Containerd [] 0.

Lemma startup_gates_witness :
  let refused := λ (_ : ProbeKind) (_ _ : Z), false in
  let r := ProbeRunner_new sample_tcp_probe 0 in
  (tick_pod refused 0 "p" (mkSetRunner (Some r) (Some r) None)).1 = mkTick "p" true true false false.
Proof.
  intros refused r.
  pose proof (startup_gates refused 0 "p" ProbeLoopConfig_default r (mkSetRunner (Some r) (Some r) None)
    sample_pod eq_refl eq_refl) as H.
  destruct (tick_pod _ _ _ _) as [t s']. by destruct H as (_ & _ & H & _).
Defined.

(** ** The loop *)

Definition count_event (e : PodEventKind) (evs : list PodEventKind) : nat := length (filter (.= e) evs).

(** What one tick result does to a pod.  A booting pod runs when all its
    probes pass; a running pod whose liveness failed is moved back to booting
    and its restart counted while restarts are left, and reported as backing off
    when none are; a pending, terminating or stopped pod never changes state.
    The boot gates (started, policy, router) are neither read nor written. *)
Theorem process_pod_spec cfg t p :
  let '(evs, p') := process_pod cfg t p in
  let restarts := bool_decide (p.(state) = Running) && negb t.(t_live) in
  let exhausted := bool_decide (cfg.(max_restart_attempts) ≤ p.(restart_count)) in
  p'.(state) = match p.(state) with
               | Booting => if t.(all_probes_passing) then Running else Booting
               | Running => if restarts && negb exhausted then Booting else Running
               | s => s
               end ∧
  p'.(restart_count) = (if restarts && negb exhausted then u32_add p.(restart_count) 1 else p.(restart_count)) ∧
  (p'.(started), p'.(policy_enforced), p'.(router_connected)) =
    (p.(started), p.(policy_enforced), p.(router_connected)) ∧
  p'.(probe_live) = t.(t_live) ∧ p'.(probe_ready) = t.(t_ready) ∧
  count_event Started evs = (if bool_decide (p.(state) = Booting) && t.(all_probes_passing) then 1 else 0)%nat ∧
  count_event BackOff evs = (if restarts && exhausted then 1 else 0)%nat.
Proof.
  destruct p as [? ? ? ? ? st ? ? ? rc ? ? ? ? ? ? ? rep ever], t as [? live ready passing failed].
  unfold process_pod. cbn [state t_live restart_count restart_policy].
  destruct st, live, passing, failed, rep, ever; simpl; try destruct (decide (_ ≤ rc)) as [Hle|Hle];
    simpl; try rewrite (bool_decide_eq_true_2 (_ ≤ rc)) by done; try rewrite (bool_decide_eq_false_2 (_ ≤ rc)) by done;
    split_and!; done.
Qed.

(** Ticks of one pod, in order, with the events they emit. *)
Fixpoint run_ticks (cfg : ProbeLoopConfig) (ts : list ProbeTickResult) (p : Pod) : list PodEventKind * Pod :=
  match ts with
  | t :: ts =>
      let '(evs, p) := process_pod cfg t p in
      let '(evs', p) := run_ticks cfg ts p in (evs ++ evs', p)
  | [] => ([], p)
  end.

Definition recoveries (ts : list ProbeTickResult) : nat := length (filter (λ t, t.(probe_failed) = false) ts).

Ltac eval_counts :=
  match goal with
  | |- context [count_event ?e ?l] =>
      let n := eval vm_compute in (count_event e l) in change (count_event e l) with n
  end.

Lemma process_pod_step cfg t p :
  is_u32 p.(restart_count) → cfg.(max_restart_attempts) < 2 ^ 32 →
  let '(evs, p') := process_pod cfg t p in
  p.(restart_count) ≤ p'.(restart_count) ∧
  p'.(restart_count) ≤ Z.max p.(restart_count) cfg.(max_restart_attempts) ∧
  Z.of_nat (count_event ProbeFailed evs) + (if p'.(probe_failure_reported) then 0 else 1) ≤
    (if p.(probe_failure_reported) then 0 else 1) + (if t.(probe_failed) then 0 else 1) +
    (p'.(restart_count) - p.(restart_count)).
Proof.
  intros Hu Hmax.
  assert (p.(restart_count) < cfg.(max_restart_attempts) → u32_add p.(restart_count) 1 = p.(restart_count) + 1)
    as Hadd by (intros; apply u32_add_small; unfold is_u32 in *; lia).
  clear Hu Hmax.
  destruct p as [? ? ? ? ? st ? ? ? rc ? ? ? ? ? ? ? rep ever], t as [? live ready passing failed], cfg as [? mx].
  cbn [restart_count max_restart_attempts] in *. unfold process_pod. cbn [state t_live restart_count restart_policy].
  destruct st, live, passing, failed, rep, ever; simpl; try destruct (decide (_ ≤ rc)) as [Hle|Hle];
    simpl; try rewrite Hadd by lia; eval_counts; lia.
Qed.

(** C38: However many times a pod's probes are processed, it is restarted at
    most [max_restart_attempts] times in all, and [ProbeFailed] is emitted at
    most once per failure episode: once, plus once per recovered tick and once
    per restart.  This is what the code does with [max_restart_attempts]; its
    comment (probe_loop.rs:27) says "maximum consecutive liveness failures
    before restart", which is neither its unit, restarts, nor its scope, the
    whole life of the pod: the count is never reset. *)
Theorem probe_loop_bounded cfg ts p :
  is_u32 p.(restart_count) → cfg.(max_restart_attempts) < 2 ^ 32 →
  let '(evs, p') := run_ticks cfg ts p in
  p.(restart_count) ≤ p'.(restart_count) ≤ Z.max p.(restart_count) cfg.(max_restart_attempts) ∧
  Z.of_nat (count_event ProbeFailed evs) ≤
    1 + Z.of_nat (recoveries ts) + (p'.(restart_count) - p.(restart_count)).
Proof.
  intros Hu Hmax.
  cut (let '(evs, p') := run_ticks cfg ts p in
    p.(restart_count) ≤ p'.(restart_count) ≤ Z.max p.(restart_count) cfg.(max_restart_attempts) ∧
    Z.of_nat (count_event ProbeFailed evs) ≤ (if p.(probe_failure_reported) then 0 else 1) +
      Z.of_nat (recoveries ts) + (p'.(restart_count) - p.(restart_count))).
  { destruct (run_ticks cfg ts p). destruct (probe_failure_reported p); lia. }
  revert p Hu. induction ts as [|t ts IH]; intros p Hu; cbn [run_ticks].
  { unfold count_event, recoveries. simpl. destruct (probe_failure_reported p); lia. }
  pose proof (process_pod_step cfg t p Hu Hmax) as Hstep. destruct (process_pod cfg t p) as [evs q].
  destruct Hstep as (Hlo & Hhi & Hev).
  specialize (IH q). destruct (run_ticks cfg ts q) as [evs' q'].
  destruct IH as [Hrc Hev']; [unfold is_u32 in *; lia|].
  unfold count_event, recoveries in *. rewrite filter_app, length_app, filter_cons.
  destruct (probe_failed t); [rewrite decide_False by done|rewrite decide_True by done];
    cbn [length]; destruct (probe_failure_reported p), (probe_failure_reported q); lia.
Qed.
Lemma probe_loop_bounded_witness :
  let dead := mkTick "p" false false false true in
  (run_ticks ProbeLoopConfig_default [mkTick "p" true true true false; dead; dead; dead]
    (transition_to Booting sample_pod)).2.(restart_count) ≤ 3.
Proof.
  intros dead.
  pose proof (probe_loop_bounded ProbeLoopConfig_default [mkTick "p" true true true false; dead; dead; dead]
    (transition_to Booting sample_pod)) as H.
  destruct (run_ticks _ _ _) as [evs q]. destruct H as [H _]; [done|done|]. apply H.
Defined.
