(* ===== verification/Executors.v ===== *)
(** Running one check: exec.rs, http.rs and tcp.rs of src/workloads/probes, and
    the dispatch of [ProbeRunner::probe].  Connecting, reading, writing and
    starting a process are the class [ProbeHost]; decoding, line and word splitting
    of the HTTP answer are std's, written out. *)
From Stdlib Require Import Ascii.
From S2P Require Import Prelude Errors Ipv4 Pods Probes.

(** ** The host *)

(** [ph_connect port ms] connects to 127.0.0.1; [ph_read n] is one read of up to
    [n] bytes; [ph_output] runs a command to its end and gives its exit code,
    which a signal leaves unset. *)
Class ProbeHost (X : Type) := {
  ph_connect : Z → Z → M string X unit;
  ph_read_timeout : Z → M string X unit;
  ph_write_all : bytes → M string X unit;
  ph_read : nat → M string X bytes;
  ph_output : string → list string → M string X (option Z);
}.

(** ** Text *)

Definition byte_in (lo hi : Z) (b : byte) : bool := bool_decide (lo ≤ byte_to_Z b ≤ hi).
Definition replacement : Z := 0xFFFD.

(** One step of [String::from_utf8_lossy]: the code point, or U+FFFD for the
    longest prefix of a sequence that is not one; and what it takes. *)
Definition continuation := byte_in 0x80 0xBF.
Definition second_of_three (b0 b1 : byte) : bool :=
  let z := byte_to_Z b0 in
  if decide (z = 0xE0) then byte_in 0xA0 0xBF b1
  else if decide (z = 0xED) then byte_in 0x80 0x9F b1 else continuation b1.
Definition second_of_four (b0 b1 : byte) : bool :=
  let z := byte_to_Z b0 in
  if decide (z = 0xF0) then byte_in 0x90 0xBF b1
  else if decide (z = 0xF4) then byte_in 0x80 0x8F b1 else continuation b1.
Definition low6 (b : byte) : Z := Z.land (byte_to_Z b) 0x3F.
Definition utf8_step (b0 : byte) (l : bytes) : Z * nat :=
  let z := byte_to_Z b0 in
  if decide (z < 0x80) then (z, 0%nat)
  else if byte_in 0xC2 0xDF b0 then
    match l with
    | b1 :: _ => if continuation b1 then (Z.lor (Z.shiftl (Z.land z 0x1F) 6) (low6 b1), 1%nat) else (replacement, 0%nat)
    | [] => (replacement, 0%nat)
    end
  else if byte_in 0xE0 0xEF b0 then
    match l with
    | b1 :: l =>
        if second_of_three b0 b1 then
          match l with
          | b2 :: _ => if continuation b2 then
              (Z.lor (Z.shiftl (Z.land z 0x0F) 12) (Z.lor (Z.shiftl (low6 b1) 6) (low6 b2)), 2%nat) else (replacement, 1%nat)
          | [] => (replacement, 1%nat)
          end
        else (replacement, 0%nat)
    | [] => (replacement, 0%nat)
    end
  else if byte_in 0xF0 0xF4 b0 then
    match l with
    | b1 :: l =>
        if second_of_four b0 b1 then
          match l with
          | b2 :: l =>
              if continuation b2 then
                match l with
                | b3 :: _ => if continuation b3 then
                    (Z.lor (Z.shiftl (Z.land z 0x07) 18)
                       (Z.lor (Z.shiftl (low6 b1) 12) (Z.lor (Z.shiftl (low6 b2) 6) (low6 b3))), 3%nat)
                    else (replacement, 2%nat)
                | [] => (replacement, 2%nat)
                end
              else (replacement, 1%nat)
          | [] => (replacement, 1%nat)
          end
        else (replacement, 0%nat)
    | [] => (replacement, 0%nat)
    end
  else (replacement, 0%nat).
(** [skip] bytes belong to the code point before. *)
Fixpoint from_utf8_lossy_skip (skip : nat) (l : bytes) : list Z :=
  match l with
  | [] => []
  | b :: l =>
      match skip with
      | S skip => from_utf8_lossy_skip skip l
      | O => let '(c, n) := utf8_step b l in c :: from_utf8_lossy_skip n l
      end
  end.
Definition from_utf8_lossy : bytes → list Z := from_utf8_lossy_skip 0.

(** [char::is_whitespace]. *)
Definition is_whitespace (c : Z) : bool :=
  bool_decide (9 ≤ c ≤ 13 ∨ c = 32 ∨ c = 0x85 ∨ c = 0xA0 ∨ c = 0x1680 ∨ 0x2000 ≤ c ≤ 0x200A ∨
               c = 0x2028 ∨ c = 0x2029 ∨ c = 0x202F ∨ c = 0x205F ∨ c = 0x3000).

(** [lines().next()]: up to the line feed, without a carriage return before it. *)
Fixpoint first_line (s : list Z) : list Z :=
  match s with
  | [] => []
  | 10 :: _ => []
  | 13 :: 10 :: _ => []
  | c :: s => c :: first_line s
  end.
(** [split_whitespace], the word being read in reverse. *)
Fixpoint split_words (word : list Z) (s : list Z) : list (list Z) :=
  match s with
  | [] => match word with [] => [] | _ => [reverse word] end
  | c :: s =>
      if is_whitespace c then match word with [] => split_words [] s | _ => reverse word :: split_words [] s end
      else split_words (c :: word) s
  end.
Definition split_whitespace : list Z → list (list Z) := split_words [].

(** A code point of a number is ASCII; any other is no digit. *)
Definition ascii_of_point (c : Z) : ascii := if decide (0 ≤ c < 128) then ascii_of_nat (Z.to_nat c) else "?"%char.
Fixpoint string_of_points (s : list Z) : string :=
  match s with [] => "" | c :: s => String (ascii_of_point c) (string_of_points s) end.

(** ** The three executors *)

Section executors.
Context {X : Type} `{ProbeHost X}.

Definition workload_err {A} (pre : string) (c : M string X A) : M AgentError X A := λ x,
  let '(r, x') := c x in (map_err (λ e, Workload (pre +:+ e)) r, x').

(** [format!("127.0.0.1:{}", port).parse()]: a port has 16 bits. *)
Definition parse_addr (port : Z) : Result Z :=
  if decide (port < 2 ^ 16) then Ok port else Err (Workload "bad addr: invalid socket address syntax").
(** [connect_timeout] refuses a zero timeout. *)
Definition connect_timeout (port ms : Z) : M string X unit :=
  if decide (ms = 0) then fail "cannot set a 0 duration timeout" else ph_connect port ms.

Definition exec_probe (command : list string) (_timeout : Z) : M AgentError X unit :=
  match command with
  | [] => fail (Workload "empty exec command")
  | program :: args =>
      code ← workload_err "exec probe failed: " (ph_output program args);
      if decide (code = Some 0) then mret tt
      else fail (Workload ("exec probe failed with exit code: " +:+
                           match code with Some c => "Some(" +:+ pretty c +:+ ")" | None => "None" end))
  end.

Definition tcp_probe (port ms : Z) : M AgentError X unit :=
  port ← lift (parse_addr port);
  workload_err "tcp probe failed: " (connect_timeout port ms).

Definition crlf : string := String "013" (String "010" "").
Definition http_request (path : string) : bytes :=
  as_bytes ("GET " +:+ path +:+ " HTTP/1.1" +:+ crlf +:+ "Host: localhost" +:+ crlf +:+ "Connection: close" +:+ crlf +:+ crlf).
Definition status_code (answer : bytes) : Z :=
  let status_line := first_line (from_utf8_lossy answer) in
  default 0 (word ← split_whitespace status_line !! 1%nat; result_ok (parse_u32 (string_of_points word))).

Definition http_probe (path : string) (port ms : Z) : M AgentError X unit :=
  port ← lift (parse_addr port);
  _ ← workload_err "http probe connect failed: " (connect_timeout port ms);
  _ ← workload_err "set_read_timeout: "
        (if decide (ms = 0) then fail "cannot set a 0 duration timeout" else ph_read_timeout ms);
  _ ← workload_err "http probe write failed: " (ph_write_all (http_request path));
  answer ← workload_err "http probe read failed: " (ph_read 1024);
  if decide (answer = []) then fail (Workload "http probe: empty response")
  else
    let code := status_code answer in
    if decide (200 ≤ code < 400) then mret tt
    else fail (Workload ("http probe failed with status: " +:+ pretty code)).

(** The dispatch of [ProbeRunner::probe]; [ms] is the timeout. *)
Definition run_check (k : ProbeKind) (ms : Z) : M AgentError X unit :=
  match k with
  | Exec command => exec_probe command ms
  | HttpGet path port => http_probe path port ms
  | TcpSocket port => tcp_probe port ms
  end.
End executors.

Example status_codes :
  status_code (as_bytes "HTTP/1.1 204 No Content") = 204 ∧ status_code (as_bytes "HTTP/1.1") = 0 ∧
  status_code (as_bytes ("HTTP/1.0 301" +:+ crlf +:+ "Location: /")) = 301 ∧
  status_code (as_bytes ("HTTP/1.1" +:+ crlf +:+ "200 OK")) = 0 ∧ status_code (as_bytes "HTTP/1.1 2OO OK") = 0 ∧
  from_utf8_lossy (byte_of_Z <$> [0x41; 0xC3; 0xA9; 0xE2; 0x82; 0x20; 0xFF; 0xF0; 0x9F; 0x98; 0x80])
    = [0x41; 0xE9; 0xFFFD; 0x20; 0xFFFD; 0x1F600].
Proof. by vm_compute. Qed.

(** ** The status of a well-formed answer *)

Lemma lossy_ascii b l : byte_to_Z b < 128 → from_utf8_lossy (b :: l) = byte_to_Z b :: from_utf8_lossy l.
Proof. intros Hb. unfold from_utf8_lossy. cbn. unfold utf8_step. by rewrite decide_True by done. Qed.
Lemma lossy_ascii_app v l : Forall (λ b, byte_to_Z b < 128) v →
  from_utf8_lossy (v ++ l) = (byte_to_Z <$> v) ++ from_utf8_lossy l.
Proof. induction 1 as [|b v Hb _ IH]; [done|]. cbn [app fmap list_fmap]. by rewrite lossy_ascii, <-IH. Qed.

Lemma first_line_cons c s : c ≠ 10 → c ≠ 13 → first_line (c :: s) = c :: first_line s.
Proof.
  intros H10 H13. cbn. destruct c as [|p|p]; try done.
  repeat (destruct p as [p|p|]; try done).
Qed.
Lemma first_line_head c s : first_line (c :: s) = [] ∨ first_line (c :: s) = c :: first_line s.
Proof. cbn. repeat case_match; subst; by auto. Qed.
Lemma first_line_app v s : Forall (λ c, c ≠ 10 ∧ c ≠ 13) v → first_line (v ++ s) = v ++ first_line s.
Proof. induction 1 as [|c v [? ?] _ IH]; [done|]. cbn [app]. by rewrite first_line_cons, IH. Qed.

Lemma split_words_app word v s : Forall (λ c, is_whitespace c = false) v →
  split_words word (v ++ s) = split_words (reverse v ++ word) s.
Proof.
  intros Hv. revert word. induction Hv as [|c v Hc _ IH]; intros word; [done|]. cbn [app split_words].
  by rewrite Hc, IH, reverse_cons, <-app_assoc.
Qed.
Lemma split_words_space word c s : word ≠ [] → is_whitespace c = true →
  split_words word (c :: s) = reverse word :: split_words [] s.
Proof. intros Hw Hc. cbn. rewrite Hc. by destruct word. Qed.
(** A word up to white space, or to the end. *)
Lemma split_words_word word s : word ≠ [] → head (is_whitespace <$> s) ≠ Some false →
  ∃ ws, split_words word s = reverse word :: ws.
Proof.
  intros Hw Hs. destruct word as [|w word]; [done|]. destruct s as [|c s]; [by exists []|]. cbn in Hs |- *.
  destruct (is_whitespace c); [by eexists|done].
Qed.

Definition graphic (b : byte) : Prop := 33 ≤ byte_to_Z b ≤ 126.
Lemma graphic_facts v : Forall graphic v →
  Forall (λ b, byte_to_Z b < 128) v ∧ Forall (λ c, c ≠ 10 ∧ c ≠ 13) (byte_to_Z <$> v) ∧
  Forall (λ c, is_whitespace c = false) (byte_to_Z <$> v).
Proof.
  intros Hv. unfold graphic in Hv. split; [|split]; [|rewrite Forall_fmap..]; (eapply Forall_impl; [exact Hv|]); cbn;
    intros b Hb; [lia|lia|]. unfold is_whitespace. apply bool_decide_eq_false. lia.
Qed.

Definition digit_byte (d : Z) : byte := byte_of_Z (48 + d).
Lemma digit_byte_Z d : 0 ≤ d ≤ 9 → byte_to_Z (digit_byte d) = 48 + d.
Proof. intros. unfold digit_byte. rewrite byte_to_Z_of_Z. apply Z.mod_small. lia. Qed.
Lemma digit_point d : 0 ≤ d ≤ 9 → digit (ascii_of_point (48 + d)) = Some d ∧ ascii_of_point (48 + d) ≠ "+"%char.
Proof.
  intros Hd. assert (d = 0 ∨ d = 1 ∨ d = 2 ∨ d = 3 ∨ d = 4 ∨ d = 5 ∨ d = 6 ∨ d = 7 ∨ d = 8 ∨ d = 9) as Hcases by lia.
  repeat destruct Hcases as [->|Hcases]; [..|subst]; by vm_compute.
Qed.
Lemma parse_three a b c : 0 ≤ a ≤ 9 → 0 ≤ b ≤ 9 → 0 ≤ c ≤ 9 →
  parse_u32 (string_of_points [48 + a; 48 + b; 48 + c]) = Ok (100 * a + 10 * b + c).
Proof.
  intros Ha Hb Hc. cbn [string_of_points]. destruct (digit_point a Ha) as [Da Hplus].
  pose proof (digit_point b Hb) as [Db _]. pose proof (digit_point c Hc) as [Dc _].
  assert (∀ s, parse_u32 (String (ascii_of_point (48 + a)) s) = parse_digits 0 (String (ascii_of_point (48 + a)) s)) as ->.
  { intros s. by destruct (ascii_of_point (48 + a)) as [[] [] [] [] [] [] [] []]. }
  cbn [parse_digits]. rewrite Da, Db, Dc. rewrite !decide_True by lia. f_equal. lia.
Qed.

(** The status of an answer whose first line is a version, three digits and
    whatever follows after white space. *)
Lemma status_code_of version a b c sep rest :
  version ≠ [] → Forall graphic version → 0 ≤ a ≤ 9 → 0 ≤ b ≤ 9 → 0 ≤ c ≤ 9 →
  byte_to_Z sep ∈ [10; 13; 32] →
  status_code (version ++ byte_of_Z 32 :: digit_byte a :: digit_byte b :: digit_byte c :: sep :: rest)
    = 100 * a + 10 * b + c.
Proof.
  intros Hne Hv Ha Hb Hc Hsep. destruct (graphic_facts version Hv) as (V1 & V2 & V3).
  assert (byte_to_Z sep = 10 ∨ byte_to_Z sep = 13 ∨ byte_to_Z sep = 32) as Hs by set_solver.
  unfold status_code. rewrite lossy_ascii_app by done.
  assert (byte_to_Z (byte_of_Z 32) = 32) as H32 by reflexivity.
  rewrite !lossy_ascii; rewrite ?digit_byte_Z, ?H32 by done; [|lia..].
  rewrite first_line_app by done. rewrite 4!first_line_cons by lia.
  unfold split_whitespace. rewrite split_words_app by done. rewrite app_nil_r.
  rewrite split_words_space; [|by intros Hr%(f_equal length); rewrite length_reverse, length_fmap in Hr; destruct version|done].
  cbn [lookup list_lookup].
  set (tail := first_line (byte_to_Z sep :: from_utf8_lossy rest)).
  assert (∀ d, 0 ≤ d ≤ 9 → is_whitespace (48 + d) = false) as Hdig.
  { intros d Hd. unfold is_whitespace. apply bool_decide_eq_false. lia. }
  change (48 + a :: 48 + b :: 48 + c :: tail) with ([48 + a; 48 + b; 48 + c] ++ tail).
  rewrite split_words_app by (repeat constructor; by apply Hdig).
  destruct (split_words_word (reverse [48 + a; 48 + b; 48 + c] ++ []) tail) as [more Hmore]; [done| |].
  { subst tail. destruct (first_line_head (byte_to_Z sep) (from_utf8_lossy rest)) as [->| ->]; [done|].
    by destruct Hs as [->|[->| ->]]. }
  rewrite Hmore, app_nil_r, reverse_involutive. cbn [lookup list_lookup mbind option_bind]. by rewrite parse_three.
Qed.

(** ** Checks *)

Section checks.
Context {X : Type} `{ProbeHost X}.

Lemma workload_err_ok {A} pre (c : M string X A) x a x' : workload_err pre c x = (Ok a, x') ↔ c x = (Ok a, x').
Proof. unfold workload_err. destruct (c x) as [[a'|e] x1]; cbn; naive_solver. Qed.

(** An HTTP check succeeds exactly when its port has 16 bits, its timeout is
    not zero, the connection, the write of this request and one read succeed, and
    the second word of the answer's first line is a number from 200 to 399. *)
Theorem http_probe_spec path port ms x x' :
  http_probe path port ms x = (Ok tt, x') ↔
  port < 2 ^ 16 ∧ ms ≠ 0 ∧ ∃ x1 x2 x3 answer,
    ph_connect port ms x = (Ok tt, x1) ∧ ph_read_timeout ms x1 = (Ok tt, x2) ∧
    ph_write_all (http_request path) x2 = (Ok tt, x3) ∧ ph_read 1024 x3 = (Ok answer, x') ∧
    200 ≤ status_code answer < 400.
Proof.
  unfold http_probe. split.
  - intros (p & x0 & [Hp ->]%lift_ok & Hrun)%M_bind_ok. unfold parse_addr in Hp. destruct (decide (port < 2 ^ 16)); [|done].
    injection Hp as <-. apply M_bind_ok in Hrun as ([] & x1 & Hc%workload_err_ok & Hrun).
    unfold connect_timeout in Hc. destruct (decide (ms = 0)) as [|Hms]; [done|].
    apply M_bind_ok in Hrun as ([] & x2 & Ht%workload_err_ok & Hrun).
    apply M_bind_ok in Hrun as ([] & x3 & Hw%workload_err_ok & Hrun).
    apply M_bind_ok in Hrun as (answer & x4 & Hr%workload_err_ok & Hrun).
    destruct (decide (answer = [])); [done|]. cbn zeta in Hrun.
    destruct (decide (200 ≤ status_code answer < 400)); [|done]. injection Hrun as <-.
    split; [done|]. split; [done|]. by exists x1, x2, x3, answer.
  - intros (Hp & Hms & x1 & x2 & x3 & answer & Hc & Ht & Hw & Hr & Hs).
    unfold mbind, M_bind, lift, parse_addr, connect_timeout, workload_err.
    rewrite !(decide_True (P := port < 2 ^ 16)), !(decide_False (P := ms = 0)), Hc by done. cbn. rewrite Ht. cbn.
    rewrite Hw. cbn. rewrite Hr. cbn. destruct (decide (answer = [])) as [->|]; [change (status_code []) with 0 in Hs; lia|].
    by rewrite decide_True.
Qed.

(** A TCP or HTTP check whose timeout is zero, which is what a spec that
    leaves [timeout_seconds] out says, fails without touching the host; an exec
    check does not look at its timeout at all. *)
Theorem zero_timeout_fails k :
  match k with
  | Exec command => ∀ ms ms', run_check k ms = run_check k ms'
  | _ => ∀ x, ∃ e, run_check k 0 x = (Err e, x)
  end.
Proof.
  destruct k as [command|path port|port]; [done|..]; intros x; cbn [run_check];
    unfold http_probe, tcp_probe, mbind, M_bind, lift, parse_addr; destruct (decide (port < 2 ^ 16)); eauto.
Qed.
End checks.

(** ** Witnesses *)

(** A server that answers every request with 204. *)
Definition answer204 : bytes := as_bytes ("HTTP/1.1 204 No Content" +:+ crlf +:+ crlf).
#[export] Instance answering_host : ProbeHost unit := {
  ph_connect _ _ x := (Ok tt, x);
  ph_read_timeout _ x := (Ok tt, x);
  ph_write_all _ x := (Ok tt, x);
  ph_read _ x := (Ok answer204, x);
  ph_output _ _ x := (Ok None, x);
}.

Lemma http_probe_spec_witness : http_probe "/healthz" 8080 1000 tt = (Ok tt, tt).
Proof.
  apply http_probe_spec. split; [lia|]. split; [done|]. exists tt, tt, tt, answer204. do 4 (split; [done|]).
  by vm_compute.
Defined.
Lemma status_code_of_witness : status_code answer204 = 204.
Proof.
  apply (status_code_of (as_bytes "HTTP/1.1") 2 0 4 (byte_of_Z 32) (as_bytes ("No Content" +:+ crlf +:+ crlf)));
    [done|..]; [|lia..|by vm_compute; repeat constructor].
  apply (bool_decide_unpack _). by vm_compute.
Defined.
