(* ===== verification/Volumes.v ===== *)
(** Pod specs and what boot prepares from them: volume mounts
    (src/workloads/volumes/mod.rs), the rootfs path (image.rs) and the
    environment (env.rs). *)
From Stdlib Require Import Ascii.
From S2P Require Import Prelude Errors Core Routes Probes.

(** ** [fleetos_core::proto::workload] *)

Record EnvVar := mkEnvVar { env_name : string; env_value : string }.
Record VolumeMount := mkVolumeMount { vm_name : string; vm_mount_path : string; vm_read_only : bool }.
Inductive Source :=
| EmptyDirSource (size_limit_bytes : option Z)
| HostPathSource (path : string) (type : Z).
Record Volume := mkVolume { vol_name : string; vol_source : option Source }.
Record Resources := mkResources { vcpus : Z; memory_mb : Z }.
Record PodSpec := mkPodSpec {
  ps_pod_id : option string;
  ps_tenant_id : string;
  ps_workload_id : string;
  ps_role : string;
  ps_env : list EnvVar;
  ps_volumes : list Volume;
  ps_volume_mounts : list VolumeMount;
  ps_resources : option Resources;
  ps_ordinal : option Z;
  ps_probes : option ProbeSet;
}.

(** ** Paths *)

Definition is_absolute (p : string) : bool :=
  match p with String c _ => bool_decide (c = "/"%char) | EmptyString => false end.
Fixpoint ends_with_slash (p : string) : bool :=
  match p with
  | EmptyString => false
  | String c EmptyString => bool_decide (c = "/"%char)
  | String _ p => ends_with_slash p
  end.
(** [Path::join] on Unix: an absolute operand replaces the base. *)
Definition path_join (base p : string) : string :=
  if is_absolute p then p
  else if decide (base = "" ∨ ends_with_slash base = true) then base +:+ p
  else base +:+ "/" +:+ p.

(** [Path::exists] and [fs::remove_dir_all]. *)
Class Directories (F : Type) := {
  dir_exists : F → string → bool;
  dir_remove_all : string → M string F unit;
}.

(** ** src/workloads/volumes/mod.rs *)

Inductive VolumeSource :=
| EmptyDir (size_limit_bytes : option Z)
| HostPath (host_path_type : Z).
Record PreparedMount := mkPrepared {
  pm_name : string;
  mount_path : string;
  read_only : bool;
  host_path : string;
  source : VolumeSource;
}.
Record VolumeConfig := mkVolumeConfig { scratch_root : string; allow_host_path : bool }.
Definition VolumeConfig_default : VolumeConfig := mkVolumeConfig "/var/lib/fleetos/scratch" false.

Section volumes.
Context {F : Type} `{FileSystem F} `{Directories F}.

Definition io {A} (c : M string F A) : M AgentError F A :=
  λ f, let '(r, f') := c f in (map_err Io r, f').

Definition find_volume (name : string) (volumes : list Volume) : option Volume :=
  snd <$> list_find (λ v, v.(vol_name) = name) volumes.

(** One turn of the loop. *)
Definition prepare_mount (config : VolumeConfig) (pod_id : string) (volumes : list Volume)
    (mount : VolumeMount) : M AgentError F PreparedMount :=
  volume ← lift (ok_or (Workload ("volume mount '" +:+ mount.(vm_name) +:+ "' references undefined volume"))
                   (find_volume mount.(vm_name) volumes));
  match volume.(vol_source) with
  | Some (EmptyDirSource size_limit) =>
      let hp := path_join (path_join config.(scratch_root) pod_id) volume.(vol_name) in
      _ ← io (fs_create_dir_all hp);
      mret (mkPrepared volume.(vol_name) mount.(vm_mount_path) mount.(vm_read_only) hp (EmptyDir size_limit))
  | Some (HostPathSource path type) =>
      if negb config.(allow_host_path) then
        fail (Workload ("hostPath volume '" +:+ volume.(vol_name) +:+ "' rejected: HostPath is disabled by default " +:+
                "(zero-trust security surface, CR-CORE-2)"))
      else
        f ← get;
        if negb (dir_exists f path) then
          fail (Workload ("hostPath volume '" +:+ volume.(vol_name) +:+ "' rejected: path does not exist: " +:+ path))
        else mret (mkPrepared volume.(vol_name) mount.(vm_mount_path) mount.(vm_read_only) path (HostPath type))
  | None => fail (Workload ("volume '" +:+ volume.(vol_name) +:+ "' has no source (fail-closed)"))
  end.

Fixpoint prepare_mounts (config : VolumeConfig) (pod_id : string) (volumes : list Volume)
    (mounts : list VolumeMount) : M AgentError F (list PreparedMount) :=
  match mounts with
  | [] => mret []
  | mount :: mounts =>
      pm ← prepare_mount config pod_id volumes mount;
      rest ← prepare_mounts config pod_id volumes mounts;
      mret (pm :: rest)
  end.

Definition teardown_pod_scratch (config : VolumeConfig) (pod_id : string) : M AgentError F unit :=
  let pod_dir := path_join config.(scratch_root) pod_id in
  f ← get;
  if dir_exists f pod_dir then io (dir_remove_all pod_dir) else mret tt.
End volumes.

(** ** src/workloads/image.rs and env.rs *)

Fixpoint sanitize_image (s : string) : string :=
  match s with
  | EmptyString => EmptyString
  | String c s =>
      String (if decide (c = "/"%char ∨ c = ":"%char ∨ c = "@"%char) then "_"%char else c) (sanitize_image s)
  end.
Definition oci_to_erofs (image cache_dir : string) : Result string :=
  Ok (path_join cache_dir (sanitize_image image +:+ ".erofs")).

Definition build_env (env_vars : list EnvVar) : list (string * string) :=
  (λ e, (e.(env_name), e.(env_value))) <$> env_vars.

Section env.
Context `{FleetCore}.
(** The canonical name, or the raw SVID when there is none. *)
Definition generate_hosts_entries (routes : list RouteEntry) (trust_domain : string) : list (string * string) :=
  (λ r, (ipv4_to_string r.(dummy_ip),
    match dummy_ip_hostname r.(destination_svid) r.(destination_role) trust_domain trust_domain with
    | Ok h => h
    | Err _ => r.(destination_svid)
    end)) <$> routes.
Definition format_hosts (entries : list (string * string)) : string :=
  "# Generated by fleetos-agent" +:+ nl +:+ "127.0.0.1" +:+ tab +:+ "localhost" +:+ nl +:+
  String.concat "" ((λ '(ip, hostname), ip +:+ tab +:+ hostname +:+ nl) <$> entries).
End env.

(** ** What is mounted *)

Section facts.
Context {F : Type} `{FileSystem F} `{Directories F}.
Implicit Types (config : VolumeConfig) (volumes : list Volume) (mount : VolumeMount) (f : F).

Lemma io_ok {A} (c : M string F A) f a f' : io c f = (Ok a, f') → c f = (Ok a, f').
Proof. unfold io. destruct (c f) as [[] ?]; simpl; congruence. Qed.

(** The mount a declared volume stands for. *)
Definition mount_of config (pod_id : string) (v : Volume) mount (pm : PreparedMount) : Prop :=
  pm.(pm_name) = v.(vol_name) ∧ pm.(mount_path) = mount.(vm_mount_path) ∧
  pm.(read_only) = mount.(vm_read_only) ∧
  match v.(vol_source) with
  | Some (EmptyDirSource size) =>
      pm.(source) = EmptyDir size ∧
      pm.(host_path) = path_join (path_join config.(scratch_root) pod_id) v.(vol_name)
  | Some (HostPathSource path type) =>
      config.(allow_host_path) = true ∧ pm.(source) = HostPath type ∧ pm.(host_path) = path
  | None => False
  end.

Lemma prepare_mount_ok config pod_id volumes mount f pm f' :
  prepare_mount config pod_id volumes mount f = (Ok pm, f') →
  ∃ v, find_volume mount.(vm_name) volumes = Some v ∧ mount_of config pod_id v mount pm.
Proof.
  unfold prepare_mount. rewrite M_bind_ok. intros (v & f1 & Hv & Hm).
  apply lift_ok in Hv as [Hv ->]. apply ok_or_ok in Hv. exists v. split; [done|]. unfold mount_of.
  destruct (vol_source v) as [[size|path type]|]; [| |done].
  - apply M_bind_ok in Hm as (u & f2 & _ & [= <- <-]). done.
  - destruct (allow_host_path config); [|done]. apply M_bind_ok in Hm as (g & f2 & [= <- <-] & Hm).
    destruct (dir_exists _ _); simpl in Hm; [|done]. by injection Hm as <- <-.
Qed.

Lemma prepare_mounts_ok config pod_id volumes mounts f pms f' :
  prepare_mounts config pod_id volumes mounts f = (Ok pms, f') →
  Forall2 (λ mount pm, ∃ v, find_volume mount.(vm_name) volumes = Some v ∧
    mount_of config pod_id v mount pm) mounts pms.
Proof.
  revert f pms. induction mounts as [|mount mounts IH]; intros f pms; cbn [prepare_mounts].
  { intros [= <- <-]. constructor. }
  rewrite M_bind_ok. intros (pm & f1 & Hpm & Hrest). apply M_bind_ok in Hrest as (rest & f2 & Hrest & [= <- <-]).
  constructor; [by eapply prepare_mount_ok|by eapply IH].
Qed.

(** With host paths disabled, [prepare_mounts] succeeds exactly when every
    mount names a declared volume that is an [EmptyDir] (no undefined name, no
    missing source, no host path); each result then carries the mount's
    destination and read-only flag and points into the pod's scratch
    directory by [Path::join]. *)
Theorem prepare_mounts_deny config pod_id volumes mounts f :
  config.(allow_host_path) = false →
  (∀ p g, ∃ g', fs_create_dir_all p g = (Ok tt, g')) →
  let empty_dir mount v size :=
    find_volume mount.(vm_name) volumes = Some v ∧ v.(vol_source) = Some (EmptyDirSource size) in
  (is_ok (prepare_mounts config pod_id volumes mounts f).1 = true ↔
   Forall (λ mount, ∃ v size, empty_dir mount v size) mounts) ∧
  ∀ pms f', prepare_mounts config pod_id volumes mounts f = (Ok pms, f') →
    Forall2 (λ mount pm, ∃ v size, empty_dir mount v size ∧
      pm = mkPrepared v.(vol_name) mount.(vm_mount_path) mount.(vm_read_only)
             (path_join (path_join config.(scratch_root) pod_id) v.(vol_name)) (EmptyDir size)) mounts pms.
Proof.
  intros Hdeny Hfs empty_dir.
  assert (∀ pms f', prepare_mounts config pod_id volumes mounts f = (Ok pms, f') →
    Forall2 (λ mount pm, ∃ v size, empty_dir mount v size ∧
      pm = mkPrepared v.(vol_name) mount.(vm_mount_path) mount.(vm_read_only)
             (path_join (path_join config.(scratch_root) pod_id) v.(vol_name)) (EmptyDir size)) mounts pms)
    as Hres.
  { intros pms f' Hp%prepare_mounts_ok. eapply Forall2_impl; [exact Hp|].
    intros mount [] (v & Hv & Hn & Hp' & Hr & Hs). cbn in *.
    destruct (vol_source v) as [[size|]|] eqn:Hsrc; [|destruct Hs; congruence|done].
    destruct Hs as [-> ->]. exists v, size. subst. done. }
  split; [|done]. clear Hres. split.
  - destruct (prepare_mounts _ _ _ _ _) as [[pms|] f'] eqn:Hp; [|done]. intros _.
    apply prepare_mounts_ok in Hp. clear Hfs.
    induction Hp as [|mount pm mounts pms (v & Hv & _ & _ & _ & Hs) _ IH]; [done|].
    constructor; [|done]. destruct (vol_source v) as [[size|]|] eqn:Hsrc; [|destruct Hs; congruence|done].
    by exists v, size.
  - revert f. induction mounts as [|mount mounts IH]; intros f; [done|].
    intros [(v & size & Hv & Hs) Hms]%Forall_cons. cbn [prepare_mounts].
    destruct (Hfs (path_join (path_join (scratch_root config) pod_id) (vol_name v)) f) as [g Hg].
    assert (∃ pm, prepare_mount config pod_id volumes mount f = (Ok pm, g)) as [pm Hpm].
    { eexists. unfold prepare_mount. rewrite M_bind_ok. exists v, f. split; [by unfold lift; rewrite Hv|].
      rewrite Hs, M_bind_ok. exists tt, g. split; [|done]. unfold io. by rewrite Hg. }
    specialize (IH g Hms). unfold mbind, M_bind. rewrite Hpm.
    by destruct (prepare_mounts config pod_id volumes mounts g) as [[] ?].
Qed.

(** The scratch directory does not confine the volume: a volume named by
    an absolute path is mounted from that path of the host, writable, although
    the default configuration refuses the same path as a host path. *)
Theorem absolute_name_escapes pod_id path dst size type f f' :
  is_absolute path = true → fs_create_dir_all path f = (Ok tt, f') →
  let mount := mkVolumeMount path dst false in
  (prepare_mounts VolumeConfig_default pod_id [mkVolume path (Some (EmptyDirSource size))] [mount] f).1 =
    Ok [mkPrepared path dst false path (EmptyDir size)] ∧
  is_ok (prepare_mounts VolumeConfig_default pod_id [mkVolume path (Some (HostPathSource path type))] [mount] f).1
    = false.
Proof.
  intros Habs Hf mount.
  assert (∀ src, find_volume path [mkVolume path src] = Some (mkVolume path src)) as Hfind.
  { intros src. unfold find_volume. cbn [list_find vol_name]. by rewrite decide_True. }
  split; cbn [prepare_mounts]; unfold prepare_mount, mbind, M_bind, lift; cbn [vm_name]; subst mount;
    cbn [vm_name]; rewrite Hfind; cbn [ok_or vol_source vol_name]; [|done].
  unfold io. unfold path_join at 1. rewrite Habs. rewrite Hf. cbn. f_equal. f_equal. f_equal.
  unfold path_join at 1. by rewrite Habs.
Qed.
End facts.

#[export] Instance gmap_dirs : Directories (gmap string bytes) := {
  dir_exists f p := bool_decide (Exists (λ q, q = p ∨ String.prefix (p +:+ "/") q = true) (elements (dom f)));
  dir_remove_all p f :=
    (Ok tt, filter (λ '(q, _), q ≠ p ∧ String.prefix (p +:+ "/") q = false) f);
}.

Lemma prepare_mounts_deny_witness :
  is_ok (prepare_mounts VolumeConfig_default "p" [mkVolume "tmp" (Some (EmptyDirSource None))]
    [mkVolumeMount "tmp" "/scratch" false] (∅ : gmap string bytes)).1 = true.
Proof.
  apply (prepare_mounts_deny VolumeConfig_default "p" [mkVolume "tmp" (Some (EmptyDirSource None))]
    [mkVolumeMount "tmp" "/scratch" false] (∅ : gmap string bytes)); [done|by intros; eexists|].
  constructor; [|constructor]. by eexists _, _.
Defined.

Lemma absolute_name_escapes_witness :
  (prepare_mounts VolumeConfig_default "p" [mkVolume "/etc" (Some (EmptyDirSource None))]
    [mkVolumeMount "/etc" "/x" false] (∅ : gmap string bytes)).1 =
  Ok [mkPrepared "/etc" "/x" false "/etc" (EmptyDir None)].
Proof.
  by apply (absolute_name_escapes (F := gmap string bytes) "p" "/etc" "/x" None 0 ∅ ∅).
Defined.
