(* ===== verification/Netns.v ===== *)
(** Container network namespaces (src/workloads/netns.rs): the veth naming and
    the [ip] command sequences.  Running a command is the class [Shell]; what
    iproute2 does with its arguments is [IpLaws], as far as a theorem needs it. *)
From S2P Require Import Prelude Errors Routes.
From S2P Require Volumes.

Definition NETNS_DIR : string := "/run/netns".
Definition CONTAINER_IFACE : string := "eth0".
Definition HOST_VETH_PREFIX : string := "fveth".

(** [Path::join]: an absolute pod id replaces the directory. *)
Definition netns_path (pod_id : string) : string := Volumes.path_join NETNS_DIR pod_id.

(** [format!("{:x}")] of a 64-bit number. *)
Definition hex_digit (z : Z) : string :=
  default "" (String.substring (Z.to_nat z) 1 <$> Some "0123456789abcdef").
Fixpoint hex_digits (fuel : nat) (z : Z) (acc : string) : string :=
  match fuel with
  | O => acc
  | S fuel =>
      let acc := hex_digit (z mod 16) +:+ acc in
      if decide (z < 16) then acc else hex_digits fuel (z / 16) acc
  end.
Definition format_hex (z : Z) : string := hex_digits 16 z "".

Definition fnv1a (s : string) : Z :=
  foldl (λ h b, u64_mul (Z.lxor h (byte_to_Z b)) 0x100000001b3) 0xcbf29ce484222325 (as_bytes s).

Definition host_veth_name (pod_id : string) : string :=
  let max := (15 - String.length HOST_VETH_PREFIX)%nat in
  let suffix := if decide (max < String.length pod_id)%nat then format_hex (fnv1a pod_id) else pod_id in
  HOST_VETH_PREFIX +:+ String.substring 0 (Nat.min (String.length suffix) max) suffix.

(** ** Commands *)

Inductive CommandResult :=
| SpawnFailed (e : string)
| WaitFailed (e : string)
| Exited (success : bool) (status stderr : string).

Class Shell (W : Type) := {
  run_command : string → list string → W → CommandResult * W;
  path_exists : W → string → bool;
}.

Section netns.
Context {W : Type} `{Shell W}.

Definition run_cmd (program : string) (args : list string) : M AgentError W unit := λ w,
  let '(r, w') := run_command program args w in
  let cmd := program +:+ " " +:+ String.concat " " args in
  (match r with
   | SpawnFailed e => Err (Workload ("spawn " +:+ cmd +:+ ": " +:+ e))
   | WaitFailed e => Err (Workload ("wait " +:+ cmd +:+ ": " +:+ e))
   | Exited true _ _ => Ok tt
   | Exited false status stderr =>
       Err (Workload (cmd +:+ " failed (status=" +:+ status +:+ "): " +:+ str_trim stderr))
   end, w').
Definition run_ip (args : list string) : M AgentError W unit := run_cmd "ip" args.
Definition run_ip_in (ns : string) (args : list string) : M AgentError W unit :=
  run_cmd "ip" (["netns"; "exec"; ns; "ip"] ++ args).

Definition create_netns (pod_id : string) : M AgentError W string :=
  _ ← run_ip ["netns"; "add"; pod_id];
  mret (netns_path pod_id).

Definition destroy_netns (pod_id : string) : M AgentError W unit := λ w,
  if negb (path_exists w (netns_path pod_id)) then (Ok tt, w)
  else (Ok tt, (run_ip ["netns"; "del"; pod_id] w).2).

Definition configure_netns (pod_id : string) (container_ip gateway_ip : Z) : M AgentError W unit :=
  let hveth := host_veth_name pod_id in
  let ctr := ipv4_to_string container_ip in
  let gw := ipv4_to_string gateway_ip in
  _ ← run_ip ["link"; "add"; hveth; "type"; "veth"; "peer"; "name"; CONTAINER_IFACE];
  _ ← run_ip ["addr"; "add"; gw +:+ "/30"; "dev"; hveth];
  _ ← run_ip ["link"; "set"; hveth; "up"];
  _ ← run_ip ["link"; "set"; CONTAINER_IFACE; "netns"; pod_id];
  _ ← run_ip_in pod_id ["addr"; "add"; ctr +:+ "/30"; "dev"; CONTAINER_IFACE];
  _ ← run_ip_in pod_id ["link"; "set"; CONTAINER_IFACE; "up"];
  run_ip_in pod_id ["route"; "add"; "default"; "via"; gw].

(** The namespace part of [boot_containerd]: a failed configuration deletes
    the namespace again. *)
Definition prepare_netns (pod_id : string) (container_ip gateway_ip : Z) : M AgentError W string :=
  ns ← create_netns pod_id;
  _ ← on_error (configure_netns pod_id container_ip gateway_ip) (destroy_netns pod_id);
  mret ns.
End netns.

(** ** Interface names *)

Lemma length_append (a b : string) : String.length (a +:+ b) = (String.length a + String.length b)%nat.
Proof.
  induction a as [|c a IH]; [done|].
  change (String c a +:+ b) with (String c (a +:+ b)). cbn [String.length]. by rewrite IH.
Qed.
Lemma substring_length n s : (n ≤ String.length s)%nat → String.length (String.substring 0 n s) = n.
Proof.
  revert n. induction s as [|c s IH]; intros [|n] Hn; simpl in *; try done; try lia.
  rewrite IH; lia.
Qed.
Lemma substring_whole s : String.substring 0 (String.length s) s = s.
Proof. induction s; simpl; congruence. Qed.

(** An interface name always fits IFNAMSIZ (at most 15 characters), and
    pod ids of at most ten characters never share one; a longer id is reduced
    to ten hexadecimal digits of its hash. *)
Theorem host_veth_name_spec a b :
  (String.length (host_veth_name a) ≤ 15)%nat ∧
  ((String.length a ≤ 10)%nat → (String.length b ≤ 10)%nat → host_veth_name a = host_veth_name b → a = b).
Proof.
  split.
  - unfold host_veth_name. rewrite length_append.
    set (suffix := if decide _ then _ else _). rewrite substring_length; cbn; lia.
  - assert (∀ s, (String.length s ≤ 10)%nat → host_veth_name s = HOST_VETH_PREFIX +:+ s) as Hshort.
    { intros s Hs. unfold host_veth_name. rewrite decide_False by (cbn; lia).
      rewrite Nat.min_l by (cbn; lia). by rewrite substring_whole. }
    intros Ha Hb. rewrite !Hshort by done. by intros ?%(inj (String.append _)).
Qed.
Lemma host_veth_name_spec_witness : "web-1" = "web-1" ∧ (String.length (host_veth_name "a-rather-long-pod-id") ≤ 15)%nat.
Proof.
  split; [|exact (proj1 (host_veth_name_spec "a-rather-long-pod-id" ""))].
  apply (host_veth_name_spec "web-1" "web-1"); [simpl; lia|simpl; lia|done].
Defined.

Example host_veth_hash :
  fnv1a "a" = 0xaf63dc4c8601ec8c ∧ host_veth_name "a-rather-long-pod-id" = "fvethfbf87356c3" ∧
  host_veth_name "web-1" = "fvethweb-1".
Proof. split_and!; vm_compute; reflexivity. Qed.

(** ** A half-configured namespace *)

(** [ip link] commands that can take a link out of the host's namespace. *)
Definition takes_away (args : list string) : bool :=
  match args with
  | "link" :: "set" :: _ :: "netns" :: _ => true
  | "link" :: "del" :: _ => true
  | _ => false
  end.

Class IpLaws (W : Type) `{Shell W} := {
  (** a veth pair with both ends in the host's namespace *)
  host_pair : W → string → string → Prop;
  veth_add_ok h c w s e w' :
    run_command "ip" ["link"; "add"; h; "type"; "veth"; "peer"; "name"; c] w = (Exited true s e, w') →
    host_pair w' h c;
  (** a second link of the same name is refused *)
  veth_add_exists h h' c w : host_pair w h c →
    ∃ s e, (run_command "ip" ["link"; "add"; h'; "type"; "veth"; "peer"; "name"; c] w).1 = Exited false s e;
  pair_stays h c args w : host_pair w h c → takes_away args = false →
    host_pair (run_command "ip" args w).2 h c;
}.

Section leak.
Context {W : Type} `{IpLaws W}.

Lemma run_ip_state args w : (run_ip args w).2 = (run_command "ip" args w).2.
Proof. unfold run_ip, run_cmd. by destruct (run_command _ _ _). Qed.
Lemma run_ip_refused args w s e :
  (run_command "ip" args w).1 = Exited false s e → is_ok (run_ip args w).1 = false.
Proof. unfold run_ip, run_cmd. destruct (run_command _ _ _). simpl. by intros ->. Qed.
Lemma run_ip_stays h c args w :
  host_pair w h c → takes_away args = false → host_pair (run_ip args w).2 h c.
Proof. rewrite run_ip_state. apply pair_stays. Qed.
Lemma destroy_netns_stays h c pod w : host_pair w h c → host_pair (destroy_netns pod w).2 h c.
Proof. intros Hp. unfold destroy_netns. destruct (path_exists _ _); [|done]. by apply run_ip_stays. Qed.

Lemma configure_refused h pod ctr gw w :
  host_pair w h CONTAINER_IFACE →
  is_ok (configure_netns pod ctr gw w).1 = false ∧ host_pair (configure_netns pod ctr gw w).2 h CONTAINER_IFACE.
Proof.
  intros Hp. unfold configure_netns, mbind, M_bind.
  pose proof (run_ip_stays h CONTAINER_IFACE
    ["link"; "add"; host_veth_name pod; "type"; "veth"; "peer"; "name"; CONTAINER_IFACE] w Hp eq_refl) as Hst.
  destruct (veth_add_exists h (host_veth_name pod) CONTAINER_IFACE w Hp) as (s & e & Hex).
  apply run_ip_refused in Hex. by destruct (run_ip _ _) as [[] w1].
Qed.

Lemma prepare_refused h pod ctr gw w :
  host_pair w h CONTAINER_IFACE →
  is_ok (prepare_netns pod ctr gw w).1 = false ∧ host_pair (prepare_netns pod ctr gw w).2 h CONTAINER_IFACE.
Proof.
  intros Hp. unfold prepare_netns, create_netns, on_error, mbind, M_bind.
  pose proof (run_ip_stays h CONTAINER_IFACE ["netns"; "add"; pod] w Hp eq_refl) as Hst.
  destruct (run_ip ["netns"; "add"; pod] w) as [[]  w1]; [|done]. simpl in *.
  destruct (configure_refused h pod ctr gw w1 Hst) as [Hno Hst2].
  destruct (configure_netns pod ctr gw w1) as [[] w2]; [done|]. split; [done|].
  by apply destroy_netns_stays.
Qed.

(** The namespaces of later containers, one after the other. *)
Fixpoint later_pods (pods : list (string * Z * Z)) (w : W) : list bool :=
  match pods with
  | [] => []
  | (pod, ctr, gw) :: pods =>
      let '(r, w) := prepare_netns pod ctr gw w in is_ok r :: later_pods pods w
  end.

(** Cleaning up deletes the namespace but not the veth pair: when the
    address cannot be assigned after the pair was created, the pair stays in
    the host's namespace with its peer end named [eth0], and from then on no
    containerd pod's namespace can be configured. *)
Theorem veth_leak_wedges pod ctr gw w ns w0 w1 e w2 pods :
  create_netns pod w = (Ok ns, w0) →
  run_ip ["link"; "add"; host_veth_name pod; "type"; "veth"; "peer"; "name"; CONTAINER_IFACE] w0 = (Ok tt, w1) →
  run_ip ["addr"; "add"; ipv4_to_string gw +:+ "/30"; "dev"; host_veth_name pod] w1 = (Err e, w2) →
  let '(r, w') := prepare_netns pod ctr gw w in
  r = Err e ∧ Forall (λ ok, ok = false) (later_pods pods w').
Proof.
  intros Hns Hadd Haddr.
  assert (host_pair w1 (host_veth_name pod) CONTAINER_IFACE) as Hp.
  { unfold run_ip, run_cmd in Hadd. destruct (run_command _ _ _) as [[| |[] s se] w1'] eqn:Hrun; simplify_eq.
    by eapply veth_add_ok. }
  pose proof (run_ip_stays _ _ ["addr"; "add"; ipv4_to_string gw +:+ "/30"; "dev"; host_veth_name pod] _ Hp eq_refl)
    as Hp2. rewrite Haddr in Hp2. cbn [snd] in Hp2.
  assert (prepare_netns pod ctr gw w = (Err e, (destroy_netns pod w2).2)) as ->.
  { unfold prepare_netns, mbind, M_bind. rewrite Hns. unfold on_error.
    unfold configure_netns, mbind, M_bind. by rewrite Hadd, Haddr. }
  split; [done|]. apply (destroy_netns_stays _ _ pod) in Hp2. revert Hp2.
  generalize ((destroy_netns pod w2).2). clear. induction pods as [|[[pod' ctr] gw] pods IH]; intros w Hp; [constructor|].
  cbn [later_pods]. destruct (prepare_refused _ pod' ctr gw w Hp) as [Hno Hst].
  destruct (prepare_netns pod' ctr gw w) as [r w']. constructor; [done|]. by apply IH.
Qed.
End leak.

(** A host with no address left to assign: links can be added, nothing else
    that needs an address works. *)
Definition sample_host : Type := list (string * string).
#[local] Instance sample_shell : Shell sample_host := {
  run_command _ args w :=
    match args with
    | ["link"; "add"; h; _; _; _; _; c] =>
        if decide (Exists (λ p, p.2 = c) w) then (Exited false "2" "File exists", w)
        else (Exited true "0" "", (h, c) :: w)
    | "addr" :: _ => (Exited false "2" "no buffer space", w)
    | "link" :: "set" :: _ :: "netns" :: _ => (Exited true "0" "", [])
    | "link" :: "del" :: _ => (Exited true "0" "", [])
    | _ => (Exited true "0" "", w)
    end;
  path_exists _ _ := false;
}.

#[local] Instance sample_ip_laws : IpLaws sample_host.
Proof.
  refine {| host_pair w h c := (h, c) ∈ w |}.
  - intros h c w s e w'. cbn. destruct (decide _); [done|]. intros [= <- <- <-]. by left.
  - intros h h' c w Hp. cbn. rewrite decide_True; [by eexists _, _|].
    apply Exists_exists. by exists (h, c).
  - intros h c args w Hp Hta.
    enough (w ⊆ (run_command "ip" args w).2) by auto. clear Hp. cbn.
    repeat (case_match; try done); subst; cbn in *; try set_solver; try discriminate.
Defined.

Lemma veth_leak_wedges_witness :
  Forall (λ ok, ok = false) (later_pods [("b", 5, 4); ("c", 9, 8)] (prepare_netns "a" 2 1 ([] : sample_host)).2).
Proof.
  pose proof (veth_leak_wedges "a" 2 1 ([] : sample_host) (netns_path "a") [] [("fvetha", CONTAINER_IFACE)]
    (Workload ("ip addr add 0.0.0.1/30 dev fvetha failed (status=2): no buffer space"))
    [("fvetha", CONTAINER_IFACE)] [("b", 5, 4); ("c", 9, 8)]) as H.
  destruct (prepare_netns _ _ _ _) as [r w']. apply H; vm_compute; reflexivity.
Defined.
