(* ===== verification/Containerd.v ===== *)
(** The containerd adapter (src/workloads/containerd.rs): the OCI spec it
    builds, boot and stop.  The containerd services are the class [ContainerdServices];
    serde_json's serializer is an argument. *)
From S2P Require Import Prelude Errors Core Pods Volumes.

(** [serde_json::Value], as far as the spec uses it. *)
Inductive Json :=
| JString (s : string)
| JNumber (n : Z)
| JBool (b : bool)
| JArray (l : list Json)
| JObject (fields : list (string * Json)).

(** A field of an object; [Null] counts as absent. *)
Definition jget (k : string) (j : Json) : option Json :=
  match j with
  | JObject fields => (λ r, r.2.2) <$> list_find (λ kv, kv.1 = k) fields
  | _ => None
  end.

Definition hosts_path (workload_id : string) : string := "/run/fleetos/pods/" +:+ workload_id +:+ "/hosts".

Definition volume_json (m : PreparedMount) : Json :=
  JObject [("destination", JString m.(mount_path)); ("type", JString "bind");
           ("source", JString m.(host_path));
           ("options", JArray (if m.(read_only) then [JString "rbind"; JString "ro"]
                               else [JString "rbind"; JString "rw"]))].
Definition oci_mounts (workload_id : string) (mounts : list PreparedMount) : list Json :=
  [JObject [("destination", JString "/etc/hosts"); ("type", JString "bind");
            ("source", JString (hosts_path workload_id)); ("options", JArray [JString "rbind"; JString "ro"])];
   JObject [("destination", JString "/proc"); ("type", JString "proc"); ("source", JString "proc")]]
  ++ (volume_json <$> mounts).

(** The CPU shares and the memory limit: [u32] fields widened to [u64]. *)
Definition oci_limits (r : option Resources) : Z * Z :=
  match r with
  | Some r => (r.(vcpus), u64_mul r.(memory_mb) (1024 * 1024))
  | None => (1, 512 * 1024 * 1024)
  end.

Definition oci_json (spec : WorkloadSpec PodSpec) (pod_spec : PodSpec) (mounts : list PreparedMount)
    (netns_path : string) : Json :=
  let '(cpu_limit, mem_limit) := oci_limits pod_spec.(ps_resources) in
  JObject
    [("ociVersion", JString "1.0.2");
     ("process", JObject
        [("user", JObject [("uid", JNumber 0); ("gid", JNumber 0)]);
         ("args", JArray [JString "/init"]);
         ("env", JArray ((λ e, JString (e.(env_name) +:+ "=" +:+ e.(env_value))) <$> pod_spec.(ps_env)));
         ("cwd", JString "/")]);
     ("root", JObject [("path", JString "rootfs"); ("readonly", JBool true)]);
     ("hostname", JString spec.(spec_hostname));
     ("mounts", JArray (oci_mounts spec.(spec_workload_id) mounts));
     ("linux", JObject
        [("namespaces", JArray
            [JObject [("type", JString "pid")]; JObject [("type", JString "ipc")];
             JObject [("type", JString "uts")]; JObject [("type", JString "mount")];
             JObject [("type", JString "network"); ("path", JString netns_path)]]);
         ("resources", JObject
            [("cpu", JObject [("quota", JNumber (u64_mul cpu_limit 100000)); ("period", JNumber 100000)]);
             ("memory", JObject [("limit", JNumber mem_limit)])])])].

(** ** The services *)

Record Any := mkAny { type_url : string; any_value : bytes }.
Record Container := mkContainer {
  c_id : string;
  c_image : string;
  c_spec : option Any;
  c_snapshotter : string;
}.

Class ContainerdServices (D : Type) := {
  CdChannel : Type;
  (** [Endpoint::try_from(..)] and [connect], under the adapter's error text *)
  cd_connect : M string D CdChannel;
  containers_create : CdChannel → Container → M string D unit;
  containers_delete : CdChannel → string → M string D unit;
  (** the pid of the created task *)
  tasks_create : CdChannel → string → M string D Z;
  tasks_start : CdChannel → string → M string D unit;
  tasks_kill : CdChannel → string → Z → M string D unit;
  tasks_delete : CdChannel → string → M string D unit;
  (** [tokio::time::sleep], in seconds *)
  cd_sleep : Z → D → D;
}.

Section adapter.
Context {D F : Type} `{ContainerdServices D} `{FileSystem F}.
(** [serde_json::to_vec] *)
Context (to_vec : Json → result string bytes).

Record ContainerdAdapter := mkContainerd {
  hosts_content : string;
  cd_channel : option CdChannel;
  daemon : D;
  cd_files : F;
}.

Definition new_lazy (hosts : string) (d : D) (f : F) : ContainerdAdapter := mkContainerd hosts None d f.
Definition set_hosts_content (content : string) (a : ContainerdAdapter) : ContainerdAdapter :=
  mkContainerd content a.(cd_channel) a.(daemon) a.(cd_files).

Definition on_daemon {A} (pre : string) (c : M string D A) : M AgentError ContainerdAdapter A := λ a,
  let '(r, d) := c a.(daemon) in
  (map_err (λ e, Workload (pre +:+ e)) r, mkContainerd a.(hosts_content) a.(cd_channel) d a.(cd_files)).
Definition on_cd_files {A} (c : M string F A) : M AgentError ContainerdAdapter A := λ a,
  let '(r, f) := c a.(cd_files) in
  (map_err Io r, mkContainerd a.(hosts_content) a.(cd_channel) a.(daemon) f).
Definition keep_channel (ch : CdChannel) (a : ContainerdAdapter) : ContainerdAdapter :=
  mkContainerd a.(hosts_content) (Some ch) a.(daemon) a.(cd_files).

Definition channel : M AgentError ContainerdAdapter CdChannel :=
  a ← get;
  match a.(cd_channel) with
  | Some ch => mret ch
  | None =>
      ch ← on_daemon "containerd connect: " cd_connect;
      _ ← modify (keep_channel ch);
      mret ch
  end.

Definition build_oci_spec (spec : WorkloadSpec PodSpec) (pod_spec : PodSpec) (mounts : list PreparedMount)
    (netns_path : string) : Result Any :=
  spec_bytes ← map_err (λ e, Workload ("OCI spec JSON serialization failed: " +:+ e))
                 (to_vec (oci_json spec pod_spec mounts netns_path));
  mret (mkAny "types.containerd.io/opencontainers/runtime-spec/1/Spec" spec_bytes).

(** The pod id of a spec: its own, or the workload's. *)
Definition pod_id_of (spec : WorkloadSpec PodSpec) (pod_spec : PodSpec) : string :=
  default spec.(spec_workload_id) pod_spec.(ps_pod_id).

(** [ensure_image] does nothing.  The directory created is [hosts_path]'s
    parent. *)
Definition boot (spec : WorkloadSpec PodSpec) (mounts : list PreparedMount) (netns_path : string) :
    M AgentError ContainerdAdapter Z :=
  pod_spec ← lift (ok_or (Workload "containerd boot requires full PodSpec") spec.(spec_pod_spec));
  let pod_id := pod_id_of spec pod_spec in
  let path := hosts_path spec.(spec_workload_id) in
  _ ← on_cd_files (fs_create_dir_all ("/run/fleetos/pods/" +:+ spec.(spec_workload_id)));
  a ← get;
  _ ← on_cd_files (fs_write path (as_bytes a.(hosts_content)));
  ch ← channel;
  oci_spec ← lift (build_oci_spec spec pod_spec mounts netns_path);
  _ ← on_daemon "containerd create container: "
        (containers_create ch (mkContainer pod_id spec.(spec_image) (Some oci_spec) "erofs"));
  pid ← on_daemon "containerd create task: " (tasks_create ch pod_id);
  _ ← on_daemon "containerd start task: " (tasks_start ch pod_id);
  mret pid.

Definition stop (pod_id : string) (grace_period_secs : Z) : M AgentError ContainerdAdapter unit :=
  ch ← channel;
  _ ← ignore (on_daemon "" (tasks_kill ch pod_id 15));
  _ ← ignore (on_daemon "" (λ d, (Ok tt, cd_sleep grace_period_secs d)));
  _ ← ignore (on_daemon "" (tasks_kill ch pod_id 9));
  _ ← ignore (on_daemon "" (tasks_delete ch pod_id));
  ignore (on_daemon "" (containers_delete ch pod_id)).
End adapter.

(** ** The OCI spec *)

Fixpoint jpath (ks : list string) (j : Json) : option Json :=
  match ks with
  | [] => Some j
  | k :: ks => match jget k j with Some j => jpath ks j | None => None end
  end.

(** The spec a container is created with: a read-only rootfs, the agent's
    hosts file mounted read-only before any declared volume, each volume bound
    from its prepared host path, read-only exactly when declared so, the pod's
    network namespace, and limits that are the declared ones without overflow. *)
Theorem oci_json_spec spec pod_spec mounts ns r :
  pod_spec.(ps_resources) = Some r → is_u32 r.(vcpus) → is_u32 r.(memory_mb) →
  let j := oci_json spec pod_spec mounts ns in
  jpath ["root"; "readonly"] j = Some (JBool true) ∧
  (∃ hosts proc,
    jpath ["mounts"] j = Some (JArray (hosts :: proc :: (volume_json <$> mounts))) ∧
    jget "destination" hosts = Some (JString "/etc/hosts") ∧
    jget "options" hosts = Some (JArray [JString "rbind"; JString "ro"])) ∧
  (∀ m, m ∈ mounts →
    jget "source" (volume_json m) = Some (JString m.(host_path)) ∧
    (jget "options" (volume_json m) = Some (JArray [JString "rbind"; JString "ro"]) ↔ m.(read_only) = true)) ∧
  (∃ nss, jpath ["linux"; "namespaces"] j = Some (JArray nss) ∧
    ∀ n p, n ∈ nss → jget "path" n = Some p → p = JString ns) ∧
  jpath ["linux"; "resources"; "cpu"; "quota"] j = Some (JNumber (100000 * r.(vcpus))) ∧
  jpath ["linux"; "resources"; "memory"; "limit"] j = Some (JNumber (2 ^ 20 * r.(memory_mb))).
Proof.
  intros Hr Hc Hm. unfold oci_json, oci_limits. rewrite Hr. cbn [fst snd].
  assert (u64_mul r.(vcpus) 100000 = 100000 * r.(vcpus)) as ->
    by (unfold u64_mul, is_u32 in *; rewrite Z.mod_small; lia).
  assert (u64_mul r.(memory_mb) (1024 * 1024) = 2 ^ 20 * r.(memory_mb)) as ->
    by (unfold u64_mul, is_u32 in *; rewrite Z.mod_small; lia).
  clear Hr Hc Hm. split_and!; [reflexivity| | | |reflexivity|reflexivity].
  - eexists _, _. split; [reflexivity|]. by split.
  - intros m _. split; [reflexivity|]. unfold volume_json. cbn. by destruct (read_only m).
  - eexists. split; [reflexivity|]. intros n p Hn Hp.
    repeat (apply elem_of_cons in Hn as [->|Hn]; [first [discriminate Hp|by injection Hp as <-]|]).
    by apply elem_of_nil in Hn.
Qed.

(** ** A failed boot *)

Class ContainerdLaws (D : Type) `{ContainerdServices D} := {
  (** the container ids that exist; ids are unique *)
  has_container : D → string → Prop;
  create_ok ch c d d' : containers_create ch c d = (Ok tt, d') → has_container d' c.(c_id);
  create_exists ch c d : has_container d c.(c_id) →
    is_ok (containers_create ch c d).1 = false ∧ has_container (containers_create ch c d).2 c.(c_id);
  connect_stays id d : has_container d id → has_container (cd_connect d).2 id;
  tasks_create_stays ch t id d : has_container d id → has_container (tasks_create ch t d).2 id;
  tasks_start_stays ch t id d : has_container d id → has_container (tasks_start ch t d).2 id;
}.

Section retry.
Context {D F : Type} `{ContainerdLaws D} `{FileSystem F} (to_vec : Json → result string bytes).
Implicit Types (a : ContainerdAdapter (D := D) (F := F)) (spec : WorkloadSpec PodSpec).

Definition container_exists a (id : string) : Prop := has_container a.(daemon) id.

Lemma on_cd_files_daemon {A} (c : M string F A) a : (on_cd_files c a).2.(daemon) = a.(daemon).
Proof. unfold on_cd_files. by destruct (c _). Qed.
Lemma channel_stays id a : container_exists a id → container_exists (channel a).2 id.
Proof.
  unfold container_exists, channel, mbind, M_bind, get, on_daemon. intros Ha.
  destruct (cd_channel a); [done|]. pose proof (connect_stays id _ Ha) as Hc.
  by destruct (cd_connect (daemon a)) as [[] d].
Qed.
Lemma on_daemon_run {A} pre (c : M string D A) a :
  is_ok (on_daemon pre c a).1 = is_ok (c a.(daemon)).1 ∧ (on_daemon pre c a).2.(daemon) = (c a.(daemon)).2.
Proof. unfold on_daemon. by destruct (c _) as [[] ?]. Qed.

(** While a container of that id exists, boot fails and leaves it there. *)
Lemma boot_refused spec pod_spec mounts ns a :
  spec.(spec_pod_spec) = Some pod_spec → container_exists a (pod_id_of spec pod_spec) →
  is_ok (boot to_vec spec mounts ns a).1 = false ∧
  container_exists (boot to_vec spec mounts ns a).2 (pod_id_of spec pod_spec).
Proof.
  intros Hs Ha. unfold boot, mbind, M_bind, lift, get. rewrite Hs. cbn [ok_or].
  unfold container_exists in Ha. rewrite <-(on_cd_files_daemon (fs_create_dir_all
    ("/run/fleetos/pods/" +:+ spec_workload_id spec)) a) in Ha.
  destruct (on_cd_files _ a) as [[[]|] a1]; [|done]. cbn [snd] in Ha.
  rewrite <-(on_cd_files_daemon (fs_write (hosts_path (spec_workload_id spec)) (as_bytes (hosts_content a1))) a1) in Ha.
  destruct (on_cd_files _ a1) as [[[]|] a2]; [|done]. cbn [snd] in Ha.
  apply channel_stays in Ha. destruct (channel a2) as [[ch|] a3]; [|done]. cbn [snd] in Ha.
  destruct (build_oci_spec _ _ _ _ _) as [oci|]; [|done].
  destruct (create_exists ch (mkContainer (pod_id_of spec pod_spec) (spec_image spec) (Some oci) "erofs") _ Ha)
    as [Hno Hst].
  destruct (on_daemon_run "containerd create container: "
    (containers_create ch (mkContainer (pod_id_of spec pod_spec) (spec_image spec) (Some oci) "erofs")) a3)
    as [He Hd].
  destruct (on_daemon _ (containers_create _ _) a3) as [[[]|] a4]; cbn [fst snd is_ok] in *; [congruence|].
  split; [done|]. unfold container_exists. cbn [snd]. by rewrite Hd.
Qed.

(** The errors of the two task calls, and the steps that cannot give them. *)
Definition task_error (e : AgentError) : Prop :=
  ∃ what m, what ∈ ["create task: "; "start task: "] ∧ e = Workload ("containerd " +:+ what +:+ m).

Lemma past {A B} (m : M AgentError (ContainerdAdapter (D := D) (F := F)) A)
    (k : A → M AgentError ContainerdAdapter B) a e a' :
  (∀ b, m a ≠ (Err e, b)) → (m ≫= k) a = (Err e, a') → ∃ x a1, m a = (Ok x, a1) ∧ k x a1 = (Err e, a').
Proof. intros Hm. unfold mbind, M_bind. destruct (m a) as [[x|] a1]; [eauto|]. intros [= -> ->]. by destruct (Hm a'). Qed.
Lemma not_task_error pre m e :
  pre ∈ ["containerd connect: "; "containerd create container: "; "OCI spec JSON serialization failed: "] →
  task_error e → Workload (pre +:+ m) ≠ e.
Proof.
  intros Hpre (what & m' & Hwhat & ->) [= Heq]. revert Heq.
  repeat (apply elem_of_cons in Hpre as [->|Hpre]); try (by apply elem_of_nil in Hpre);
    repeat (apply elem_of_cons in Hwhat as [->|Hwhat]; [done|]); by apply elem_of_nil in Hwhat.
Qed.
Lemma files_past {A} (c : M string F A) a e b : task_error e → on_cd_files c a ≠ (Err e, b).
Proof. intros (? & ? & _ & ->). unfold on_cd_files. by destruct (c _) as [[] ?]. Qed.
Lemma daemon_past {A} pre (c : M string D A) a e b :
  pre ∈ ["containerd connect: "; "containerd create container: "] →
  task_error e → on_daemon pre c a ≠ (Err e, b).
Proof.
  intros Hpre He. unfold on_daemon. destruct (c _) as [[|m] ?]; [done|]. intros [= Heq _].
  eapply not_task_error; [|exact He|exact Heq]. set_solver.
Qed.
Lemma channel_past a e b : task_error e → channel a ≠ (Err e, b).
Proof.
  intros He. unfold channel, mbind at 1, M_bind at 1, get. destruct (cd_channel a); [done|].
  intros (ch & a1 & _ & ?)%past; [done|]. intros b'. apply daemon_past; [by left|done].
Qed.
Lemma create_leaves ch c a u a1 :
  on_daemon (F := F) "containerd create container: " (containers_create ch c) a = (Ok u, a1) →
  container_exists a1 c.(c_id).
Proof.
  unfold on_daemon, container_exists. destruct (containers_create _ _ _) as [[[]|] d] eqn:Hc; [|done].
  intros [= _ <-]. by apply create_ok in Hc.
Qed.

(** Once the container was created, a failure leaves it. *)
Lemma boot_leaves spec pod_spec mounts ns a e a' :
  spec.(spec_pod_spec) = Some pod_spec → task_error e →
  boot to_vec spec mounts ns a = (Err e, a') → container_exists a' (pod_id_of spec pod_spec).
Proof.
  intros Hs He. unfold boot, mbind at 1, M_bind at 1, lift at 1. rewrite Hs. cbn [ok_or].
  intros (u & a1 & _ & H2)%past; [|intros; by apply files_past].
  apply past in H2 as (a1' & a2 & [= <- <-] & H2); [|done].
  apply past in H2 as (u2 & a3 & _ & H3); [|intros; by apply files_past].
  apply past in H3 as (ch & a4 & _ & H4); [|intros; by apply channel_past].
  apply past in H4 as (oci & a5 & H5 & H6).
  2:{ intros b [= Heq _]. revert Heq. unfold build_oci_spec, mbind, result_bind. destruct (to_vec _); [done|].
      simpl. intros [= Heq]. eapply not_task_error; [|exact He|exact Heq]. set_solver. }
  apply past in H6 as (u6 & a6 & H6 & H7); [|intros; apply daemon_past; [set_solver|done]].
  apply create_leaves in H6. revert H7. unfold mbind, M_bind.
  destruct (on_daemon_run "containerd create task: " (tasks_create ch (pod_id_of spec pod_spec)) a6) as [_ Hd].
  destruct (on_daemon _ _ a6) as [[pid|] a7];
    (assert (container_exists a7 (pod_id_of spec pod_spec)) as H8
       by (unfold container_exists; cbn in Hd; rewrite Hd; by apply tasks_create_stays)); [|by intros [= _ <-]].
  destruct (on_daemon_run "containerd start task: " (tasks_start ch (pod_id_of spec pod_spec)) a7) as [_ Hd'].
  destruct (on_daemon _ _ a7) as [[u7|] a8]; [done|]. intros [= _ <-].
  unfold container_exists. cbn in Hd'. rewrite Hd'. by apply tasks_start_stays.
Qed.

(** A boot that fails after the container was created (its task could not
    be created or started) leaves the container behind, and every later boot
    of the pod fails on the existing id. *)
Theorem failed_boot_wedges spec pod_spec mounts ns a what e a' n :
  spec.(spec_pod_spec) = Some pod_spec → what ∈ ["create task: "; "start task: "] →
  boot to_vec spec mounts ns a = (Err (Workload ("containerd " +:+ what +:+ e)), a') →
  is_ok (boot to_vec spec mounts ns (Nat.iter n (λ b, (boot to_vec spec mounts ns b).2) a')).1 = false.
Proof.
  intros Hs Hwhat Hboot. apply (boot_leaves _ pod_spec) in Hboot as Hex; [|done|by exists what, e].
  apply (boot_refused _ pod_spec); [done|]. clear Hboot.
  induction n as [|n IH]; [done|]. by apply boot_refused.
Qed.
End retry.

(** A daemon that creates containers but whose shim does not start. *)
#[local] Instance sample_containerd : ContainerdServices (gset string) := {
  CdChannel := unit;
  cd_connect d := (Ok tt, d);
  containers_create _ c d := if decide (c.(c_id) ∈ d) then (Err "already exists", d) else (Ok tt, {[c.(c_id)]} ∪ d);
  containers_delete _ id d := (Ok tt, d ∖ {[id]});
  tasks_create _ _ d := (Err "no shim", d);
  tasks_start _ _ d := (Ok tt, d);
  tasks_kill _ _ _ d := (Ok tt, d);
  tasks_delete _ _ d := (Ok tt, d);
  cd_sleep _ d := d;
}.
#[local] Instance sample_containerd_laws : ContainerdLaws (gset string).
Proof.
  refine {| has_container d id := id ∈ d |}; try done.
  - intros [] c d d'. cbn. destruct (decide _); [done|]. intros [= <-]. set_solver.
  - intros [] c d Hd. cbn. by rewrite decide_True.
Defined.

Definition sample_spec : WorkloadSpec PodSpec :=
  mkSpec "web" Containerd "img" "primary" (Some (mkPodSpec None "t" "web" "primary" [] [] [] None None None)) "web".
Definition no_daemon : ContainerdAdapter (D := gset string) (F := gmap string bytes) := new_lazy "" ∅ ∅.

Lemma failed_boot_wedges_witness :
  let boot := boot (D := gset string) (F := gmap string bytes) (λ _, Ok []) sample_spec [] "/run/netns/web" in
  is_ok (boot (Nat.iter 2 (λ b, (boot b).2) (boot no_daemon).2)).1 = false.
Proof.
  intros b. eapply (failed_boot_wedges (λ _, Ok []) sample_spec _ [] "/run/netns/web" no_daemon "create task: "
    "no shim" (b no_daemon).2 2); [done|by left|]. apply run_result. by vm_compute.
Defined.
Lemma oci_json_spec_witness :
  jpath ["linux"; "resources"; "cpu"; "quota"]
    (oci_json sample_spec (mkPodSpec None "t" "web" "primary" [] [] [] (Some (mkResources 2 64)) None None) [] "ns")
  = Some (JNumber 200000).
Proof.
  by apply (oci_json_spec sample_spec (mkPodSpec None "t" "web" "primary" [] [] [] (Some (mkResources 2 64)) None None)
    [] "ns" (mkResources 2 64)).
Defined.
