(* ===== verification/MicroVm.v ===== *)
(** The Cloud Hypervisor adapter (src/workloads/microvm.rs): vsock CIDs, the
    mount gate, the VM configuration, boot, stop and resize.  The
    cloud-hypervisor client is the class [VmmClient]. *)
From S2P Require Import Prelude Errors Routes Pods Volumes Containerd.

(** [VsockCidAllocator]: its state is the next CID. *)
Definition VsockCidAllocator_new (start_cid : Z) : Z := Z.max start_cid 3.
Definition cid_allocate (next_cid : Z) : Z * Z := (next_cid, u32_add next_cid 1).

Fixpoint validate_microvm_mounts (mounts : list PreparedMount) : Result unit :=
  match mounts with
  | [] => Ok tt
  | m :: mounts =>
      match m.(source) with
      | EmptyDir _ => validate_microvm_mounts mounts
      | HostPath _ =>
          Err (Workload ("microvm boot rejected: hostPath volume '" +:+ m.(pm_name) +:+
                 "' cannot be exposed to a MicroVM (CR-CORE-2, fail-closed)"))
      end
  end.

(** The fields of [VmConfig] the agent sets. *)
Record VmConfig := mkVmConfig {
  boot_vcpus : Z;
  max_vcpus : Z;
  memory_size : Z;
  kernel : string;
  disk_path : string;
  disk_readonly : bool;
  vsock_cid : Z;
  vsock_socket : string;
  net_tap : string;
  net_ip : string;
  net_mask : string;
  net_id : string;
}.

Class VmmClient (V : Type) := {
  create_vm : VmConfig → M string V unit;
  boot_vm : M string V unit;
  shutdown_vm : M string V unit;
  delete_vm : M string V unit;
  (** desired vcpus and RAM *)
  vm_resize_put : Z → Z → M string V unit;
  vm_sleep : Z → V → V;
}.

(** [n as u8], and [n as u64 * 1024 * 1024] as [i64]. *)
Definition vm_limits (r : option Resources) : Z * Z :=
  match r with
  | Some r => (r.(vcpus) mod 256, r.(memory_mb))
  | None => (1, 512)
  end.
Definition mem_bytes (mb : Z) : Z := u64_mul (u64_mul mb 1024) 1024.

Definition vm_config (spec : WorkloadSpec PodSpec) (pod_spec : PodSpec) (cid : Z)
    (rootfs_path tap_name : string) (gateway_ip : Z) : VmConfig :=
  let '(vcpus, mem_mb) := vm_limits pod_spec.(ps_resources) in
  mkVmConfig vcpus vcpus (mem_bytes mem_mb) "/var/lib/fleetos/vmlinux" rootfs_path true cid
    ("/run/fleetos/vms/" +:+ spec.(spec_workload_id) +:+ ".vsock")
    tap_name (ipv4_to_string gateway_ip) "255.255.255.252" ("net-" +:+ spec.(spec_workload_id)).

Section adapter.
Context {V : Type} `{VmmClient V}.

Definition ch_err {A} (pre : string) (c : M string V A) : M AgentError V A :=
  λ v, let '(r, v') := c v in (map_err (λ e, Workload ("CH " +:+ pre +:+ ": " +:+ e)) r, v').

Definition vm_boot (spec : WorkloadSpec PodSpec) (cid : Z) (mounts : list PreparedMount)
    (rootfs_path tap_name : string) (gateway_ip : Z) : M AgentError V Z :=
  _ ← lift (validate_microvm_mounts mounts);
  pod_spec ← lift (ok_or (Workload "microvm boot requires full PodSpec") spec.(spec_pod_spec));
  _ ← ch_err "vm.create" (create_vm (vm_config spec pod_spec cid rootfs_path tap_name gateway_ip));
  _ ← ch_err "vm.boot" boot_vm;
  mret cid.

Definition vm_stop (cid grace_period_secs : Z) : M AgentError V unit :=
  _ ← ch_err "vm.shutdown" shutdown_vm;
  _ ← modify (vm_sleep grace_period_secs);
  ignore (ch_err "" delete_vm).

Definition vm_resize (vcpus memory_mb : Z) : M AgentError V unit :=
  ch_err "vm.resize" (vm_resize_put vcpus (mem_bytes memory_mb)).
End adapter.

(** ** CIDs *)

Fixpoint allocate_cids (n : nat) (next : Z) : list Z :=
  match n with
  | O => []
  | S n => let '(cid, next) := cid_allocate next in cid :: allocate_cids n next
  end.

Lemma allocate_cids_seq n next :
  0 ≤ next → next + Z.of_nat n ≤ 2 ^ 32 → allocate_cids n next = seqZ next (Z.of_nat n).
Proof.
  revert next. induction n as [|n IH]; intros next Hlo Hhi; [done|].
  cbn [allocate_cids cid_allocate]. rewrite seqZ_cons by lia. cbn.
  destruct n as [|n]; [done|].
  rewrite u32_add_small by (unfold is_u32; lia). rewrite IH by lia. do 2 f_equal; lia.
Qed.

(** The CIDs handed out from a fresh allocator are pairwise different and
    never a reserved one (0, 1, 2), until all 32-bit CIDs have been used. *)
Theorem cids_unique start n :
  0 ≤ start → VsockCidAllocator_new start + Z.of_nat n ≤ 2 ^ 32 →
  let cids := allocate_cids n (VsockCidAllocator_new start) in
  length cids = n ∧ NoDup cids ∧ Forall (λ cid, 3 ≤ cid < 2 ^ 32) cids.
Proof.
  intros Hs Hn. cbn zeta. rewrite allocate_cids_seq by (unfold VsockCidAllocator_new in *; lia).
  split_and!; [by rewrite length_seqZ, Nat2Z.id|apply NoDup_seqZ|].
  apply Forall_forall. intros cid ?%elem_of_seqZ. unfold VsockCidAllocator_new in *. lia.
Qed.

(** The counter is not checked: after the last CID it starts over at the
    reserved ones. *)
Example cid_wraps : cid_allocate (2 ^ 32 - 1) = (2 ^ 32 - 1, 0).
Proof. reflexivity. Qed.

(** ** Boot *)

Lemma validate_microvm_mounts_ok mounts :
  is_ok (validate_microvm_mounts mounts) = true ↔ Forall (λ m, ∃ size, m.(source) = EmptyDir size) mounts.
Proof.
  induction mounts as [|m mounts IH]; [done|]. cbn [validate_microvm_mounts]. rewrite Forall_cons.
  destruct (source m) as [size|type]; cbn; [rewrite IH|]; naive_solver.
Qed.

Section facts.
Context {V : Type} `{VmmClient V}.

(** A VM is created and booted only when every mount is an [EmptyDir]:
    otherwise the client is not called at all.  The VM gets its rootfs
    read-only, the TAP and CID it was given, the declared memory, and the
    declared vCPU count modulo 256, so the count a containerd pod gets only
    below 256, and none at 256. *)
Theorem vm_boot_spec spec pod_spec cid mounts rootfs tap gw r v :
  spec.(spec_pod_spec) = Some pod_spec → pod_spec.(ps_resources) = Some r →
  is_u32 r.(vcpus) → is_u32 r.(memory_mb) →
  (¬ Forall (λ m, ∃ size, m.(source) = EmptyDir size) mounts →
     is_ok (vm_boot spec cid mounts rootfs tap gw v).1 = false ∧ (vm_boot spec cid mounts rootfs tap gw v).2 = v) ∧
  (Forall (λ m, ∃ size, m.(source) = EmptyDir size) mounts →
     ∃ cfg, vm_boot spec cid mounts rootfs tap gw v =
              (_ ← ch_err "vm.create" (create_vm cfg); _ ← ch_err "vm.boot" boot_vm; mret cid) v ∧
       cfg.(disk_path) = rootfs ∧ cfg.(disk_readonly) = true ∧ cfg.(net_tap) = tap ∧ cfg.(vsock_cid) = cid ∧
       cfg.(memory_size) = (oci_limits (Some r)).2 ∧ cfg.(memory_size) < 2 ^ 63 ∧
       (cfg.(boot_vcpus) = (oci_limits (Some r)).1 ↔ r.(vcpus) < 256) ∧
       (r.(vcpus) = 256 → cfg.(boot_vcpus) = 0)).
Proof.
  intros Hs Hr Hc Hm. split.
  - intros Hno. unfold vm_boot, mbind at 1, M_bind at 1, lift at 1.
    destruct (validate_microvm_mounts mounts) as [u|] eqn:Hv; [|done].
    destruct Hno. apply validate_microvm_mounts_ok. by rewrite Hv.
  - intros Hok. exists (vm_config spec pod_spec cid rootfs tap gw). split.
    + unfold vm_boot, mbind at 1, M_bind at 1, lift at 1. apply validate_microvm_mounts_ok in Hok.
      destruct (validate_microvm_mounts mounts); [|done]. unfold mbind at 1, M_bind at 1, lift. by rewrite Hs.
    + unfold vm_config. rewrite Hr. cbn [vm_limits oci_limits fst snd disk_path disk_readonly net_tap vsock_cid
        memory_size boot_vcpus].
      assert (mem_bytes (memory_mb r) = memory_mb r * 1024 * 1024) as ->.
      { unfold mem_bytes, u64_mul, is_u32 in *. rewrite (Z.mod_small (memory_mb r * 1024)) by lia.
        rewrite Z.mod_small; lia. }
      assert (u64_mul (memory_mb r) (1024 * 1024) = memory_mb r * (1024 * 1024)) as ->
        by (unfold u64_mul, is_u32 in *; rewrite Z.mod_small; lia).
      unfold is_u32 in *. split_and!; try done; try lia.
      * split; [|intros; apply Z.mod_small; lia].
        intros Heq. pose proof (Z.mod_pos_bound (vcpus r) 256). lia.
      * by intros ->.
Qed.
End facts.

(** A client that records the configurations it is given. *)
#[local] Instance sample_vmm : VmmClient (list VmConfig) := {
  create_vm cfg v := (Ok tt, v ++ [cfg]);
  boot_vm v := (Ok tt, v);
  shutdown_vm v := (Ok tt, v);
  delete_vm v := (Ok tt, v);
  vm_resize_put _ _ v := (Ok tt, v);
  vm_sleep _ v := v;
}.
Definition big_pod : PodSpec := mkPodSpec None "t" "db" "primary" [] [] [] (Some (mkResources 256 512)) None None.
Definition big_spec : WorkloadSpec PodSpec := mkSpec "db" CloudHypervisor "img" "primary" (Some big_pod) "db".

Lemma vm_boot_spec_witness :
  ∃ cfg, vm_boot big_spec 3 [] "/img.erofs" "vmtap3" 0 ([] : list VmConfig) =
           (_ ← ch_err "vm.create" (create_vm cfg); _ ← ch_err "vm.boot" boot_vm; mret 3) [] ∧
         cfg.(boot_vcpus) = 0.
Proof.
  destruct (vm_boot_spec big_spec big_pod 3 [] "/img.erofs" "vmtap3" 0 (mkResources 256 512) ([] : list VmConfig))
    as [_ H]; [done..|]. destruct H as (cfg & Hrun & _ & _ & _ & _ & _ & _ & _ & H0); [constructor|].
  exists cfg. split; [exact Hrun|by apply H0].
Defined.
Lemma cids_unique_witness : NoDup (allocate_cids 5 (VsockCidAllocator_new 0)).
Proof. apply (cids_unique 0 5); by vm_compute. Defined.
