(* ===== verification/Attest.v ===== *)
(** The vsock attestation server (src/vsock_attest): boot measurements
    (measure.rs), quote verification (verify.rs), the workload configuration
    (config_push.rs) and the handshake (mod.rs).  fleetos-core's framing,
    BLAKE3, rcgen and the connection are arguments or classes. *)
From S2P Require Import Prelude Errors Core Volumes Degraded.

(** ** src/vsock_attest/measure.rs *)

Record BootMeasurement := mkMeasurement {
  kernel_hash : bytes;
  rootfs_hash : bytes;
  guest_init_hash : bytes;
  combined_hash : bytes;
}.

Section measure.
(** [std::fs::read] and [blake3::hash]; feeding a hasher piece by piece hashes
    the concatenation. *)
Context (file_read : string → result string bytes) (blake3 : bytes → bytes).

Definition hash_file (path : string) : Result bytes :=
  data ← map_err (λ e, Internal ("failed to read boot artifact " +:+ path +:+ ": " +:+ e)) (file_read path);
  mret (blake3 data).

Definition compute_boot_measurement (kernel_path rootfs_path guest_init_path : string) :
    Result BootMeasurement :=
  kernel_hash ← hash_file kernel_path;
  rootfs_hash ← hash_file rootfs_path;
  guest_init_hash ← hash_file guest_init_path;
  mret (mkMeasurement kernel_hash rootfs_hash guest_init_hash
          (blake3 (kernel_hash ++ rootfs_hash ++ guest_init_hash))).
End measure.

(** ** src/vsock_attest/verify.rs *)

(** The quote types of [fleetos_core::vsock_proto], as verify.rs lists them. *)
Definition QUOTE_TYPE_TPM2 : Z := 0.
Definition QUOTE_TYPE_SEV_SNP : Z := 1.
Definition QUOTE_TYPE_TDX : Z := 2.
Definition QUOTE_TYPE_HOST_MEASURED : Z := 3.
Definition QUOTE_TYPE_DEV_SOFTWARE : Z := 255.

Record VsockAttestationProof := mkProof {
  quote_type : Z;
  raw_quote : bytes;
  proof_guest_x25519_pubkey : bytes;
}.
Record VerifiedGuest := mkVerified { guest_x25519_pubkey : bytes }.

(** [slice::windows]. *)
Fixpoint windows {A} (n : nat) (l : list A) : list (list A) :=
  match l with
  | [] => []
  | _ :: l' => if decide (n ≤ length l)%nat then take n l :: windows n l' else []
  end.

(** [{:?}] of a byte array. *)
Definition debug_bytes (b : bytes) : string :=
  "[" +:+ String.concat ", " ((λ x, pretty (byte_to_Z x)) <$> b) +:+ "]".

Definition verify_nonce_binding (proof : VsockAttestationProof) (nonce : bytes) : Result unit :=
  if decide (proof.(quote_type) = QUOTE_TYPE_HOST_MEASURED ∨ proof.(quote_type) = QUOTE_TYPE_DEV_SOFTWARE) then
    if existsb (λ w, bool_decide (w = nonce)) (windows 32 proof.(raw_quote)) then Ok tt
    else Err (Attestation "nonce not found in quote (fail-closed)")
  else Err (Attestation ("nonce binding verification not implemented for this quote type (fail-closed)")).

Definition verify_dev_software (production : bool) (proof : VsockAttestationProof) (nonce : bytes) :
    Result VerifiedGuest :=
  if production then
    Err (Attestation "QUOTE_TYPE_DEV_SOFTWARE rejected in production build (fail-closed)")
  else
    _ ← verify_nonce_binding proof nonce;
    mret (mkVerified proof.(proof_guest_x25519_pubkey)).

Definition verify_host_measured (proof : VsockAttestationProof) (nonce : bytes) (peer_cid : Z)
    (measurement : option BootMeasurement) : Result VerifiedGuest :=
  _ ← verify_nonce_binding proof nonce;
  measurement ← ok_or (Attestation ("no boot measurement registered for CID " +:+ pretty peer_cid +:+
                                    " (fail-closed)")) measurement;
  if decide (length proof.(raw_quote) < 32)%nat then
    Err (Attestation "host-measured quote too short (fail-closed)")
  else
    let quote_hash := take 32 proof.(raw_quote) in
    if decide (quote_hash ≠ measurement.(combined_hash)) then
      Err (Attestation ("boot measurement mismatch for CID " +:+ pretty peer_cid +:+ ": expected " +:+
             debug_bytes measurement.(combined_hash) +:+ ", got " +:+ debug_bytes quote_hash +:+ " (fail-closed)"))
    else mret (mkVerified proof.(proof_guest_x25519_pubkey)).

(** [production] is the build's feature. *)
Definition verify (production : bool) (proof : VsockAttestationProof) (nonce : bytes) (peer_cid : Z)
    (measurement : option BootMeasurement) : Result VerifiedGuest :=
  let t := proof.(quote_type) in
  if decide (t = QUOTE_TYPE_DEV_SOFTWARE) then verify_dev_software production proof nonce
  else if decide (t = QUOTE_TYPE_HOST_MEASURED) then verify_host_measured proof nonce peer_cid measurement
  else if decide (t = QUOTE_TYPE_TPM2) then
    Err (Attestation "TPM2 guest attestation not yet implemented (fail-closed)")
  else if decide (t = QUOTE_TYPE_SEV_SNP) then
    Err (Attestation "SEV-SNP guest attestation not yet implemented (fail-closed)")
  else if decide (t = QUOTE_TYPE_TDX) then
    Err (Attestation "TDX guest attestation not yet implemented (fail-closed)")
  else Err (Attestation ("unknown quote_type " +:+ pretty t +:+ " (fail-closed)")).

(** ** What a quote must contain *)

Lemma elem_of_windows {A} n (l w : list A) :
  (0 < n)%nat → w ∈ windows n l ↔ length w = n ∧ ∃ pre post, l = pre ++ w ++ post.
Proof.
  intros Hn. induction l as [|x l IH]; cbn [windows].
  - rewrite elem_of_nil. split; [done|]. intros (Hw & pre & post & Hl).
    symmetry in Hl. apply app_nil in Hl as [_ Hl]. apply app_nil in Hl as [-> _]. simpl in Hw. lia.
  - split.
    + destruct (decide _) as [Hle|]; [|by intros ?%elem_of_nil].
      intros [->|Hw]%elem_of_cons.
      * split; [rewrite length_take; lia|]. exists [], (drop n (x :: l)). by rewrite app_nil_l, take_drop.
      * apply IH in Hw as [Hw (pre & post & ->)]. split; [done|]. by exists (x :: pre), post.
    + intros [Hw (pre & post & Hl)].
      assert (n ≤ length (x :: l))%nat as Hle by (rewrite Hl, !length_app; lia).
      rewrite decide_True by done. destruct pre as [|y pre].
      * apply elem_of_cons. left. rewrite app_nil_l in Hl. by rewrite Hl, take_app_length'.
      * apply elem_of_cons. right. apply IH. split; [done|]. exists pre, post. by injection Hl as _ ->.
Qed.

Lemma verify_nonce_binding_ok proof nonce :
  length nonce = 32%nat →
  proof.(quote_type) = QUOTE_TYPE_HOST_MEASURED ∨ proof.(quote_type) = QUOTE_TYPE_DEV_SOFTWARE →
  is_ok (verify_nonce_binding proof nonce) = true ↔ ∃ pre post, proof.(raw_quote) = pre ++ nonce ++ post.
Proof.
  intros Hn Ht. unfold verify_nonce_binding. rewrite decide_True by done.
  transitivity (nonce ∈ windows 32 proof.(raw_quote)).
  - destruct (existsb _ _) eqn:He; cbn.
    + split; [|done]. intros _. apply existsb_exists in He as (w & Hw & ->%bool_decide_eq_true).
      by apply list_elem_of_In.
    + split; [done|]. intros Hw%list_elem_of_In. rewrite <-He. apply existsb_exists.
      exists nonce. split; [done|]. by apply bool_decide_eq_true.
  - rewrite elem_of_windows by lia. naive_solver.
Qed.

(** C15: In a production build a guest is verified exactly when its quote is
    host-measured, a boot measurement is registered for its CID, the quote
    starts with that measurement's combined hash and contains the challenge
    nonce; everything else (development, TPM, SEV-SNP, TDX and unknown quotes)
    is refused.  Outside production the development quote needs the nonce only. *)
Theorem verify_spec production proof nonce cid measurement g :
  length nonce = 32%nat →
  verify production proof nonce cid measurement = Ok g ↔
  g = mkVerified proof.(proof_guest_x25519_pubkey) ∧
  (∃ pre post, proof.(raw_quote) = pre ++ nonce ++ post) ∧
  ((proof.(quote_type) = QUOTE_TYPE_HOST_MEASURED ∧
    ∃ m, measurement = Some m ∧ (32 ≤ length proof.(raw_quote))%nat ∧
         take 32 proof.(raw_quote) = m.(combined_hash)) ∨
   (production = false ∧ proof.(quote_type) = QUOTE_TYPE_DEV_SOFTWARE)).
Proof.
  intros Hn. unfold verify.
  destruct (decide (quote_type proof = QUOTE_TYPE_DEV_SOFTWARE)) as [Hd|Hd].
  { pose proof (verify_nonce_binding_ok proof nonce Hn (or_intror Hd)) as Hb. unfold verify_dev_software.
    destruct production.
    { split; [done|]. intros (_ & _ & [[Hh _]|[? _]]); [|done]. by rewrite Hd in Hh. }
    destruct (verify_nonce_binding proof nonce); cbn in *.
    - split; [|by intros [-> _]]. intros [= <-]. split; [done|]. split; [by apply Hb|]. by right.
    - split; [done|]. by intros (_ & Hex%Hb & _). }
  destruct (decide (quote_type proof = QUOTE_TYPE_HOST_MEASURED)) as [Hh|Hh].
  - pose proof (verify_nonce_binding_ok proof nonce Hn (or_introl Hh)) as Hb. unfold verify_host_measured.
    destruct (verify_nonce_binding proof nonce) as [u|]; cbn in *.
    2:{ split; [done|]. by intros (_ & Hex%Hb & _). }
    destruct measurement as [m|]; cbn.
    2:{ split; [done|]. by intros (_ & _ & [(_ & m' & ? & _)|[_ ?]]). }
    destruct (decide (_ < 32)%nat); [split; [done|]; intros (_ & _ & [(_ & m' & [= <-] & ? & _)|[_ ?]]); [lia|done]|].
    destruct (decide (_ ≠ _)) as [Hne|He%dec_stable].
    + split; [done|]. intros (_ & _ & [(_ & m' & [= <-] & _ & ?)|[_ ?]]); done.
    + split; [|by intros [-> _]]. intros [= <-]. split; [done|]. split; [by apply Hb|]. left. split; [done|].
      exists m. split; [done|]. split; [lia|done].
  - split; [by repeat destruct (decide _)|]. by intros (_ & _ & [[? _]|[_ ?]]).
Qed.

(** ** src/vsock_attest/config_push.rs *)

Record WorkloadContext := mkContext {
  pod_spec : PodSpec;
  ctx_guest_ip : bytes;
  ctx_netmask : bytes;
  ctx_gateway : bytes;
}.
Record DummyIpRouteConfig := mkDummyRoute {
  route_dummy_ip : bytes;
  route_service : string;
  route_role : string;
  route_tenant : string;
}.
Record VolumeMountConfig := mkVolumeMountConfig { vmc_name : string; vmc_mount_path : string; vmc_read_only : bool }.
Record WorkloadConfig := mkWorkloadConfig {
  svid_cert_chain_der : list bytes;
  svid_private_key_der : bytes;
  env_vars : list (string * string);
  volume_mounts : list VolumeMountConfig;
  dummy_ip_routes : list DummyIpRouteConfig;
  workload_binary_path : string;
  workload_args : list string;
  trust_domain : string;
  tenant_id : string;
  service_name : string;
  wc_role : string;
  guest_ip : bytes;
  netmask : bytes;
  gateway : bytes;
}.

(** [rcgen] and fleetos-core's CSR builder. *)
Class KeyGen `{FleetCore} (W : Type) := {
  KeyPair : Type;
  keypair_generate : M string W KeyPair;
  serialize_der : KeyPair → bytes;
  build_csr : SpiffeId → KeyPair → result string bytes;
}.

Section config.
Context `{FleetCore} {OS : HashOrder SpiffeId} {W : Type} `{!KeyGen W}.
#[local] Abbreviation KeyManager := (gmap SpiffeId DelegatedKeyEntry).
(** [sign_svid_delegated] *)
Context (sign_svid_delegated : DelegatedSigningKey → bytes → Z → Z → result string bytes).

Record WorkloadConfigBuilder := mkBuilder {
  wcb_trust_domain : string;
  wcb_dummy_ip_routes : list DummyIpRouteConfig;
  delegated_keys : KeyManager;
  svid_ttl_secs : Z;
}.
Definition set_dummy_ip_routes (routes : list DummyIpRouteConfig) (b : WorkloadConfigBuilder) :
    WorkloadConfigBuilder :=
  mkBuilder b.(wcb_trust_domain) routes b.(delegated_keys) b.(svid_ttl_secs).

Definition workload_spiffe_id (b : WorkloadConfigBuilder) (ctx : WorkloadContext) : SpiffeId :=
  spiffe_new b.(wcb_trust_domain) ctx.(pod_spec).(ps_tenant_id) kind_sa ctx.(pod_spec).(ps_workload_id).

(** The certificate chain and the private key. *)
Definition build_svid (b : WorkloadConfigBuilder) (ctx : WorkloadContext) (now : Z) :
    M AgentError W (list bytes * bytes) :=
  let id := workload_spiffe_id b ctx in
  if has_valid_key b.(delegated_keys) id now then
    kp ← (λ w, let '(r, w') := keypair_generate w in
            (map_err (λ e, Identity ("workload keygen failed: " +:+ e)) r, w'));
    csr ← lift (map_err (λ e, Identity ("workload CSR build failed: " +:+ e)) (build_csr id kp));
    match renew_svid_locally sign_svid_delegated b.(delegated_keys) id csr b.(svid_ttl_secs) now with
    | Ok cert_der => mret ([cert_der], serialize_der kp)
    | Err _ => mret ([], [])
    end
  else mret ([], []).

Definition build (b : WorkloadConfigBuilder) (ctx : WorkloadContext) (now : Z) : M AgentError W WorkloadConfig :=
  svid ← build_svid b ctx now;
  let ps := ctx.(pod_spec) in
  mret (mkWorkloadConfig svid.1 svid.2 (build_env ps.(ps_env))
    ((λ vm, mkVolumeMountConfig vm.(vm_name) vm.(vm_mount_path) vm.(vm_read_only)) <$> ps.(ps_volume_mounts))
    b.(wcb_dummy_ip_routes) ("/usr/bin/" +:+ ps.(ps_workload_id)) []
    b.(wcb_trust_domain) ps.(ps_tenant_id) ps.(ps_workload_id) ps.(ps_role)
    ctx.(ctx_guest_ip) ctx.(ctx_netmask) ctx.(ctx_gateway)).

Definition build_fallback (b : WorkloadConfigBuilder) : Result WorkloadConfig :=
  let zero := replicate 4 Byte.x00 in
  Ok (mkWorkloadConfig [] [] [] [] b.(wcb_dummy_ip_routes) "" [] b.(wcb_trust_domain) "" "" "" zero zero zero).
End config.

(** ** src/vsock_attest/mod.rs *)

Record VsockAttestServer := mkServer {
  boot_measurements : gmap Z BootMeasurement;
  workload_contexts : gmap Z WorkloadContext;
}.
Definition VsockAttestServer_new : VsockAttestServer := mkServer ∅ ∅.

(** The trait [AttestationRegistrar], and what its clients rely on. *)
Class AttestationRegistrar (R : Type) := {
  register_boot_measurement : Z → BootMeasurement → R → R;
  unregister_boot_measurement : Z → R → R;
  register_workload_context : Z → WorkloadContext → R → R;
  unregister_workload_context : Z → R → R;
}.
Class AttestationRegistrarLaws (R : Type) `{AttestationRegistrar R} := {
  measured : R → Z → option BootMeasurement;
  context_of : R → Z → option WorkloadContext;
  measured_register cid m r c : measured (register_boot_measurement cid m r) c = if decide (cid = c) then Some m else measured r c;
  measured_unregister cid r c : measured (unregister_boot_measurement cid r) c = if decide (cid = c) then None else measured r c;
  measured_context cid x r c : measured (register_workload_context cid x r) c = measured r c;
  measured_uncontext cid r c : measured (unregister_workload_context cid r) c = measured r c;
  context_register cid x r c : context_of (register_workload_context cid x r) c = if decide (cid = c) then Some x else context_of r c;
  context_unregister cid r c : context_of (unregister_workload_context cid r) c = if decide (cid = c) then None else context_of r c;
  context_measure cid m r c : context_of (register_boot_measurement cid m r) c = context_of r c;
  context_unmeasure cid r c : context_of (unregister_boot_measurement cid r) c = context_of r c;
}.

#[export] Instance vsock_registrar : AttestationRegistrar VsockAttestServer := {
  register_boot_measurement cid m s := mkServer (<[cid := m]> s.(boot_measurements)) s.(workload_contexts);
  unregister_boot_measurement cid s := mkServer (delete cid s.(boot_measurements)) s.(workload_contexts);
  register_workload_context cid x s := mkServer s.(boot_measurements) (<[cid := x]> s.(workload_contexts));
  unregister_workload_context cid s := mkServer s.(boot_measurements) (delete cid s.(workload_contexts));
}.
#[export] Instance vsock_registrar_laws : AttestationRegistrarLaws VsockAttestServer.
Proof.
  refine {| measured s c := s.(boot_measurements) !! c; context_of s c := s.(workload_contexts) !! c |};
    intros; simpl; rewrite ?lookup_insert, ?lookup_delete; done.
Defined.

Record VsockAttestationChallenge := mkChallenge { protocol_version : Z; ch_nonce : bytes }.
Record AgentAttestResult := mkResult { accepted : bool; reason : string }.

(** [vsock_proto::frame_msg] and [decode_msg] at a message type. *)
Class VsockMsg (T : Type) := {
  frame_msg : T → result string bytes;
  decode_msg : bytes → result string T;
}.
(** [write_all] and [read_exact] on the connection. *)
Class ByteStream (X : Type) := {
  write_all : bytes → M string X unit;
  read_exact : nat → M string X bytes;
}.

Section handshake.
Context {X : Type} `{ByteStream X}.
Context `{FleetCore} {OS : HashOrder SpiffeId} {W : Type} `{!KeyGen W}.
Context `{!VsockMsg VsockAttestationChallenge} `{!VsockMsg VsockAttestationProof}
        `{!VsockMsg AgentAttestResult} `{!VsockMsg WorkloadConfig}.
Context (sign_svid_delegated : DelegatedSigningKey → bytes → Z → Z → result string bytes).
(** constants of [vsock_proto], and the build's feature *)
Context (PROTOCOL_VERSION MAX_MESSAGE_BYTES : Z) (production : bool).

Definition internal {A} (pre : string) (c : M string X A) : M AgentError X A :=
  λ x, let '(r, x') := c x in (map_err (λ e, Internal (pre +:+ ": " +:+ e)) r, x').

Definition write_msg {T} `{VsockMsg T} (msg : T) : M AgentError X unit :=
  framed ← lift (map_err (λ e, Internal ("frame_msg failed: " +:+ e)) (frame_msg msg));
  internal "write failed" (write_all framed).

Definition read_msg {T} `{VsockMsg T} : M AgentError X T :=
  len_buf ← internal "read length failed" (read_exact 4);
  let len := from_le_bytes len_buf in
  if decide (MAX_MESSAGE_BYTES < len) then
    fail (Internal ("message too large: " +:+ pretty len +:+ " bytes (max " +:+ pretty MAX_MESSAGE_BYTES +:+ ")"))
  else
    buf ← internal "read payload failed" (read_exact (Z.to_nat len));
    lift (map_err (λ e, Internal ("decode_msg failed: " +:+ e)) (decode_msg buf)).

Definition attest_result (verification : Result VerifiedGuest) : AgentAttestResult :=
  match verification with
  | Ok _ => mkResult true ""
  | Err e => mkResult false (error_to_string e)
  end.

(** The configuration for an accepted guest. *)
Definition config_for (s : VsockAttestServer) (b : WorkloadConfigBuilder) (peer_cid now : Z) :
    M AgentError W WorkloadConfig :=
  match s.(workload_contexts) !! peer_cid with
  | Some ctx => build sign_svid_delegated b ctx now
  | None => lift (build_fallback b)
  end.

(** [nonce] is the one [Nonce::generate] draws.  The locks are taken for one
    read each; nothing of the server changes. *)
Definition handle_connection (s : VsockAttestServer) (b : WorkloadConfigBuilder) (nonce : bytes)
    (peer_cid now : Z) : M AgentError (X * W) unit :=
  _ ← on_fst (write_msg (mkChallenge PROTOCOL_VERSION nonce));
  proof ← on_fst (read_msg (T := VsockAttestationProof));
  let measurement := s.(boot_measurements) !! peer_cid in
  let verification := verify production proof nonce peer_cid measurement in
  let result := attest_result verification in
  _ ← on_fst (write_msg result);
  if result.(accepted) then
    config ← on_snd (config_for s b peer_cid now);
    on_fst (write_msg config)
  else mret tt.
End handshake.

(** ** Handshakes *)

Section logged.
Context {X : Type} `{ByteStream X}.
(** The connection with the frames written to it. *)
#[export] Instance logged_stream : ByteStream (X * list bytes) := {
  write_all b := λ '(x, l), let '(r, x') := write_all b x in
    (r, (x', match r with Ok _ => l ++ [b] | Err _ => l end));
  read_exact n := on_fst (read_exact n);
}.
End logged.

Section facts.
Context {X : Type} `{ByteStream X}.
Context `{FleetCore} {OS : HashOrder SpiffeId} {W : Type} `{!KeyGen W}.
Context `{!VsockMsg VsockAttestationChallenge} `{!VsockMsg VsockAttestationProof}
        `{!VsockMsg AgentAttestResult} `{!VsockMsg WorkloadConfig}.
Context (sign_svid_delegated : DelegatedSigningKey → bytes → Z → Z → result string bytes).
Context (PROTOCOL_VERSION MAX_MESSAGE_BYTES : Z) (production : bool).
Implicit Types (s : VsockAttestServer) (b : WorkloadConfigBuilder) (x : X) (l : list bytes).

Lemma write_msg_log {T} `{VsockMsg T} (msg : T) x l r x' l' :
  write_msg msg (x, l) = (r, (x', l')) →
  match r with
  | Ok _ => ∃ f, frame_msg msg = Ok f ∧ l' = l ++ [f]
  | Err _ => l' = l
  end.
Proof.
  unfold write_msg, mbind, M_bind, lift. destruct (frame_msg msg) as [f|]; cbn; [|by intros [= <- <- <-]].
  unfold internal. cbn. destruct (write_all f x) as [[[]|] x1]; intros [= <- <- <-]; [by exists f|done].
Qed.
Lemma read_msg_log {T} `{VsockMsg T} x l r x' l' :
  read_msg (T := T) MAX_MESSAGE_BYTES (x, l) = (r, (x', l')) → l' = l.
Proof.
  unfold read_msg, mbind, M_bind, internal. cbn [read_exact logged_stream]. unfold on_fst.
  destruct (read_exact 4 x) as [[lb|] x1]; cbn; [|by intros [= <- <- <-]].
  destruct (decide _); [by intros [= <- <- <-]|].
  destruct (read_exact _ x1) as [[buf|] x2]; cbn; [|by intros [= <- <- <-]]. by intros [= <- <- <-].
Qed.

End facts.

Section svid.
Context `{FleetCore} {OS : HashOrder SpiffeId} {W : Type} `{!KeyGen W}.
Context (sign_svid_delegated : DelegatedSigningKey → bytes → Z → Z → result string bytes).
Implicit Types (b : WorkloadConfigBuilder) (ctx : WorkloadContext) (w : W).

(** The certificate and the private key of a pushed configuration come
    together or not at all.  They are there only when an unexpired delegated
    key is held for exactly the pod's own workload identity, and then the
    certificate is that key's signature on a request for that identity with
    the fresh key pair; without such a key no key pair is even generated. *)
Theorem svid_fail_closed b ctx now w cfg w' :
  build sign_svid_delegated b ctx now w = (Ok cfg, w') →
  let id := workload_spiffe_id b ctx in
  (cfg.(svid_cert_chain_der) = [] ∧ cfg.(svid_private_key_der) = [] ∧
   (has_valid_key b.(delegated_keys) id now = false → w' = w)) ∨
  (∃ e kp csr cert, b.(delegated_keys) !! id = Some e ∧ now < e.(key).(expires_at_unix) ∧
     keypair_generate w = (Ok kp, w') ∧ build_csr id kp = Ok csr ∧
     sign_svid_delegated e.(key) csr b.(svid_ttl_secs) now = Ok cert ∧
     cfg.(svid_cert_chain_der) = [cert] ∧ cfg.(svid_private_key_der) = serialize_der kp).
Proof.
  unfold build. rewrite M_bind_ok. intros (svid & w1 & Hsvid & [= <- <-]).
  cbn [svid_cert_chain_der svid_private_key_der]. revert Hsvid. unfold build_svid.
  destruct (has_valid_key _ _ _) eqn:Hv; [|intros [= <- <-]; by left].
  rewrite M_bind_ok. intros (kp & w2 & Hkp & Hsvid). apply M_bind_ok in Hsvid as (csr & w3 & Hcsr & Hsvid).
  apply lift_ok in Hcsr as [Hcsr ->]. apply map_err_ok in Hcsr.
  destruct (keypair_generate w) as [[kp'|] w4] eqn:Hgen; cbn in Hkp; [|done]. injection Hkp as <- <-.
  destruct (renew_svid_locally _ _ _ _ _ _) as [cert|] eqn:Hr; injection Hsvid as <- <-; [right|by left].
  unfold renew_svid_locally in Hr. apply result_bind_ok in Hr as (k & Hk & Hs).
  apply ok_or_ok in Hk. apply map_err_ok in Hs. unfold get_key in Hk.
  destruct (delegated_keys b !! workload_spiffe_id b ctx) as [e|] eqn:He; cbn in Hk; [|done].
  destruct (decide (now < _)); [|done]. injection Hk as <-.
  exists e, kp', csr, cert. split_and!; done.
Qed.
End svid.

Section binding.
Context (blake3 : bytes → bytes).

(** Two sets of boot artifacts with the same combined hash have the same
    contents, file by file, or they exhibit a BLAKE3 collision. *)
Theorem measurement_binds read1 read2 k r g k' r' g' m m' :
  (∀ b, length (blake3 b) = 32%nat) →
  compute_boot_measurement read1 blake3 k r g = Ok m →
  compute_boot_measurement read2 blake3 k' r' g' = Ok m' →
  m.(combined_hash) = m'.(combined_hash) →
  (read1 k = read2 k' ∧ read1 r = read2 r' ∧ read1 g = read2 g') ∨
  ∃ a b, a ≠ b ∧ blake3 a = blake3 b.
Proof.
  intros Hlen.
  assert (∀ read k r g m, compute_boot_measurement read blake3 k r g = Ok m →
    ∃ a b c, read k = Ok a ∧ read r = Ok b ∧ read g = Ok c ∧
      m.(combined_hash) = blake3 (blake3 a ++ blake3 b ++ blake3 c)) as Hm.
  { clear. intros read k r g m. unfold compute_boot_measurement, hash_file.
    destruct (read k) as [a|], (read r) as [b|], (read g) as [c|]; cbn; try done.
    intros [= <-]. by exists a, b, c. }
  intros (a & b & c & -> & -> & -> & ->)%Hm (a' & b' & c' & -> & -> & -> & ->)%Hm Heq.
  destruct (decide (blake3 a ++ blake3 b ++ blake3 c = blake3 a' ++ blake3 b' ++ blake3 c')) as [Hs|];
    [|right; by eexists _, _].
  apply app_inj_1 in Hs as [Ha Hs]; [|by rewrite !Hlen]. apply app_inj_1 in Hs as [Hb Hc]; [|by rewrite !Hlen].
  destruct (decide (a = a')) as [->|]; [|right; by eexists _, _].
  destruct (decide (b = b')) as [->|]; [|right; by eexists _, _].
  destruct (decide (c = c')) as [->|]; [|right; by eexists _, _]. by left.
Qed.
End binding.

(** ** Samples *)

Definition sample_nonce : bytes := replicate 32 Byte.x07.
Definition sample_measurement : BootMeasurement := mkMeasurement [] [] [] (replicate 32 Byte.x09).
Definition sample_proof : VsockAttestationProof :=
  mkProof QUOTE_TYPE_HOST_MEASURED (replicate 32 Byte.x09 ++ sample_nonce) [].

Lemma verify_spec_witness :
  verify true sample_proof sample_nonce 3 (Some sample_measurement) = Ok (mkVerified []).
Proof.
  apply (verify_spec true sample_proof sample_nonce 3 (Some sample_measurement)); [done|]. split; [done|]. split.
  - exists (replicate 32 Byte.x09), []. by rewrite app_nil_r.
  - left. split; [done|]. exists sample_measurement. split; [done|]. split; [apply (bool_decide_unpack _); by vm_compute|].
    by vm_compute.
Defined.

#[export] Instance sample_keygen : KeyGen (H := sample_core) nat := {
  KeyPair := nat;
  keypair_generate n := (Ok n, S (S n));
  serialize_der n := le_bytes 4 (Z.of_nat n);
  build_csr id n := Ok (as_bytes id.2 ++ le_bytes 4 (Z.of_nat n));
}.
#[export] Instance challenge_msg : VsockMsg VsockAttestationChallenge :=
  {| frame_msg c := Ok (c.(ch_nonce)); decode_msg b := Ok (mkChallenge 1 b) |}.
#[export] Instance proof_msg : VsockMsg VsockAttestationProof :=
  {| frame_msg p := Ok p.(raw_quote); decode_msg b := Ok (mkProof QUOTE_TYPE_HOST_MEASURED b []) |}.
#[export] Instance result_msg : VsockMsg AgentAttestResult :=
  {| frame_msg r := Ok [if r.(accepted) then Byte.x01 else Byte.x00]; decode_msg b := Ok (mkResult false "") |}.
#[export] Instance config_msg : VsockMsg WorkloadConfig :=
  {| frame_msg c := Ok (as_bytes c.(service_name)); decode_msg b := Err "guest side" |}.
#[export] Instance input_stream : ByteStream bytes := {
  write_all _ i := (Ok tt, i);
  read_exact n i := if decide (length i < n)%nat then (Err "eof", []) else (Ok (take n i), drop n i);
}.

Definition node_builder : WorkloadConfigBuilder (H := sample_core) :=
  mkBuilder (H := sample_core) "td" [] node_keys 3600.
Definition web_context : WorkloadContext :=
  mkContext (mkPodSpec None "acme" "web" "primary" [] [] [] None None None) [] [] [].
Definition one_guest : VsockAttestServer :=
  register_workload_context 3 web_context (register_boot_measurement 3 sample_measurement VsockAttestServer_new).


Lemma svid_fail_closed_witness :
  ∃ cfg, (build sample_sign node_builder web_context 0 O).1 = Ok cfg ∧
    (cfg.(svid_cert_chain_der) = [] → cfg.(svid_private_key_der) = []).
Proof.
  destruct (build sample_sign node_builder web_context 0 O) as [[cfg|e] w] eqn:Hrun.
  - exists cfg. split; [done|].
    apply svid_fail_closed in Hrun as [(_ & Hk & _)|(e & kp & csr & cert & _ & _ & _ & _ & _ & Hc & _)]; [done|].
    by rewrite Hc.
  - exfalso. assert (is_ok (build sample_sign node_builder web_context 0 O).1 = true) as Hok by (by vm_compute).
    by rewrite Hrun in Hok.
Defined.

Lemma measurement_binds_witness :
  ∃ m, compute_boot_measurement (λ p, Ok (as_bytes p)) (λ b, take 32 (b ++ replicate 32 Byte.x00)) "k" "r" "g" = Ok m ∧
    ((Ok (as_bytes "k") : result string bytes) = Ok (as_bytes "k") ∨
     ∃ a b, a ≠ b ∧ take 32 (a ++ replicate 32 Byte.x00) = take 32 (b ++ replicate 32 Byte.x00)).
Proof.
  assert (∀ b : bytes, length (take 32 (b ++ replicate 32 Byte.x00)) = 32%nat) as Hlen.
  { intros b. rewrite length_take, length_app, length_replicate. lia. }
  eexists. split; [reflexivity|].
  destruct (measurement_binds (λ b, take 32 (b ++ replicate 32 Byte.x00)) (λ p, Ok (as_bytes p)) (λ p, Ok (as_bytes p))
    "k" "r" "g" "k" "r" "g" _ _ Hlen eq_refl eq_refl eq_refl) as [(H & _)|H]; [by left|by right].
Defined.
