(* ===== verification/PodEvents.v ===== *)
(** The pod event reporter (src/observability/pod_events.rs): a batch of events,
    sent when it is full, at every tick of the flush loop and at shutdown.  The
    lock is released between recording and flushing and again before the request
    is sent: [reporters] is the machine of the tasks that share a reporter, and
    [record_event] and [flush] are its runs by one task nobody interrupts. *)
From S2P Require Import Prelude Errors Retry.

(** [event_types]. *)
Definition STARTED : string := "Started".
Definition PROBE_FAILED : string := "ProbeFailed".
Definition BACK_OFF : string := "BackOff".
Definition EVICTING : string := "Evicting".

Record PodEvent := mkEvent {
  ev_pod_id : string;
  ev_node_id : string;
  event_type : string;
  ev_reason : string;
  ev_message : string;
  timestamp_unix : Z;
  ev_count : Z;
}.

Section reporter.
(** The service client's state and its one call, [report_pod_events]; the
    text is the status's. *)
Context {S : Type} (report_pod_events : list PodEvent → M string S unit).

Record PodEventReporter := mkReporter {
  node_id : string;
  client : S;
  batch : list PodEvent;
  batch_size : nat;
}.
Definition PodEventReporter_new (node : string) (c : S) (size : nat) : PodEventReporter :=
  mkReporter node c [] size.

(** The lock section of [record_event]: the event is pushed, and the length
    decides whether this call flushes. *)
Definition push_event (now : Z) (pod_id event_type reason message : string) (r : PodEventReporter) :
    bool * PodEventReporter :=
  let e := mkEvent pod_id r.(node_id) event_type reason message now 1 in
  let events := r.(batch) ++ [e] in
  (bool_decide (r.(batch_size) ≤ length events)%nat, mkReporter r.(node_id) r.(client) events r.(batch_size)).

(** The lock section of [flush]: the batch is taken out before it is sent. *)
Definition take_batch (r : PodEventReporter) : list PodEvent * PodEventReporter :=
  (r.(batch), mkReporter r.(node_id) r.(client) [] r.(batch_size)).
(** The rest of [flush], without the lock. *)
Definition send_batch (events : list PodEvent) : M AgentError PodEventReporter unit := λ r,
  let '(res, c) := report_pod_events events r.(client) in
  (map_err (λ e, Internal ("failed to flush pod events: " +:+ e)) res,
   mkReporter r.(node_id) c r.(batch) r.(batch_size)).

Definition flush : M AgentError PodEventReporter unit := λ r,
  let '(events, r) := take_batch r in
  match events with
  | [] => (Ok tt, r)
  | _ => send_batch events r
  end.

Definition record_event (now : Z) (pod_id event_type reason message : string) :
    M AgentError PodEventReporter unit := λ r,
  let '(should_flush, r) := push_event now pod_id event_type reason message r in
  if should_flush : bool then flush r else (Ok tt, r).

(** The tasks that share a reporter.  A task between two lock sections:
    [Due]: it found the batch full and is about to flush; [Sending]: it took a
    batch and awaits the control plane.  [pushed] is a history variable: every
    event pushed so far, in order. *)
Inductive in_call := Due | Sending (events : list PodEvent).
Record reporters := mkReporters {
  shared : PodEventReporter;
  calls : gmap nat in_call;
  pushed : list PodEvent;
}.

(** A task records an event; a task flushes, at its timer or at shutdown; a
    task goes on with the call it is in.  A task in a call starts no other. *)
Inductive reporter_op :=
| Record (task : nat) (now : Z) (pod_id event_type reason message : string)
| Flush (task : nat)
| Next (task : nat).

Definition start_flush (t : nat) (m : reporters) : reporters :=
  let '(events, r) := take_batch m.(shared) in
  match events with
  | [] => mkReporters r (delete t m.(calls)) m.(pushed)
  | _ => mkReporters r (<[t := Sending events]> m.(calls)) m.(pushed)
  end.

Definition run_reporter_op (m : reporters) (o : reporter_op) : reporters :=
  match o with
  | Record t now pod_id event_type reason message =>
      match m.(calls) !! t with
      | Some _ => m
      | None =>
          let '(should_flush, r) := push_event now pod_id event_type reason message m.(shared) in
          mkReporters r (if should_flush : bool then <[t := Due]> m.(calls) else m.(calls))
            (m.(pushed) ++ [mkEvent pod_id m.(shared).(node_id) event_type reason message now 1])
      end
  | Flush t => match m.(calls) !! t with Some _ => m | None => start_flush t m end
  | Next t =>
      match m.(calls) !! t with
      | None => m
      | Some Due => start_flush t m
      | Some (Sending events) => mkReporters (send_batch events m.(shared)).2 (delete t m.(calls)) m.(pushed)
      end
  end.
Definition run_reporters (m : reporters) (ops : list reporter_op) : reporters := foldl run_reporter_op m ops.
End reporter.
Arguments PodEventReporter : clear implicits.
Arguments reporters : clear implicits.
Definition reporters_new {S} (node : string) (c : S) (size : nat) : reporters S :=
  mkReporters (PodEventReporter_new node c size) ∅ [].

(** ** No event is sent twice *)

Section facts.
Context {S : Type} (report_pod_events : list PodEvent → M string S unit).

(** The client with the requests it was given, in order, and whether each was
    accepted. *)
Definition logged_report (events : list PodEvent) : M string (S * list (list PodEvent * bool)) unit :=
  λ '(s, l), let '(r, s') := report_pod_events events s in (r, (s', l ++ [(events, is_ok r)])).

Abbreviation logged_reporters := (reporters (S * list (list PodEvent * bool))).
Implicit Types (m : logged_reporters).

Definition requests (r : PodEventReporter (S * list (list PodEvent * bool))) : list (list PodEvent * bool) :=
  r.(client).2.

(** The batches taken out and not sent yet. *)
Definition taken_by (c : in_call) : option (list PodEvent) := match c with Sending events => Some events | Due => None end.
Definition in_flight {S'} (m : reporters S') : list (list PodEvent) := omap (taken_by ∘ snd) (map_to_list m.(calls)).
(** The tasks about to flush, and all those that record in a history. *)
Definition is_due (c : in_call) : bool := match c with Due => true | Sending _ => false end.
Definition due_tasks {S'} (m : reporters S') : gset nat := dom (filter (λ c, is_due c.2 = true) m.(calls)).
Definition recorders (ops : list reporter_op) : gset nat :=
  list_to_set (omap (λ o, match o with Record t _ _ _ _ _ => Some t | _ => None end) ops).

Lemma elem_of_due {S'} (m : reporters S') t : t ∈ due_tasks m ↔ m.(calls) !! t = Some Due.
Proof.
  unfold due_tasks. rewrite elem_of_dom. split.
  - intros [c Hc]. apply map_lookup_filter_Some in Hc. destruct Hc as [Hc Hd]. by destruct c.
  - intros Hc. exists Due. by apply map_lookup_filter_Some.
Qed.

(** What holds of the machine in every state: [evs] are the tasks that record. *)
Definition reporters_ok (size : nat) (rs : gset nat) m : Prop :=
  m.(shared).(batch_size) = size ∧
  due_tasks m ⊆ rs ∧
  (length m.(shared).(batch) < size + base.size (due_tasks m))%nat ∧
  (∃ taken, m.(pushed) = concat taken ++ m.(shared).(batch) ∧
     taken ≡ₚ (requests m.(shared)).*1 ++ in_flight m) ∧
  Forall (λ q, q ≠ [] ∧ (length q < size + base.size rs)%nat) ((requests m.(shared)).*1 ++ in_flight m).

Lemma in_flight_insert {S'} (m : reporters S') t c r p :
  in_flight (mkReporters (S := S') r (<[t := c]> m.(calls)) p) ≡ₚ
  option_list (taken_by c) ++ in_flight (mkReporters (S := S') r (delete t m.(calls)) p).
Proof.
  unfold in_flight. cbn [calls]. rewrite <-insert_delete_eq, map_to_list_insert by apply lookup_delete_eq.
  cbn. by destruct (taken_by c).
Qed.
Lemma in_flight_delete {S'} (m : reporters S') t r p :
  in_flight m ≡ₚ option_list (m.(calls) !! t ≫= taken_by) ++ in_flight (mkReporters (S := S') r (delete t m.(calls)) p).
Proof.
  unfold in_flight. cbn [calls]. destruct (m.(calls) !! t) as [c|] eqn:Hc; [|by rewrite delete_id].
  rewrite <-(map_to_list_delete m.(calls) t c) by done. cbn. by destruct (taken_by c).
Qed.

(** A flush that starts takes the whole batch. *)
Lemma start_flush_spec m t :
  m.(calls) !! t = None ∨ m.(calls) !! t = Some Due →
  let m' := start_flush t m in
  m'.(shared) = mkReporter m.(shared).(node_id) m.(shared).(client) [] m.(shared).(batch_size) ∧
  m'.(pushed) = m.(pushed) ∧
  due_tasks m' = due_tasks m ∖ {[t]} ∧
  in_flight m' ≡ₚ (if decide (m.(shared).(batch) = []) then [] else [m.(shared).(batch)]) ++ in_flight m.
Proof.
  intros Ht. assert (m.(calls) !! t ≫= taken_by = None) as Hnone by (by destruct Ht as [->| ->]).
  pose proof (in_flight_delete m t (mkReporter m.(shared).(node_id) m.(shared).(client) [] m.(shared).(batch_size)) m.(pushed)) as Hdel.
  rewrite Hnone in Hdel. unfold start_flush, take_batch.
  destruct (m.(shared).(batch)) as [|e es]; [rewrite decide_True by done|rewrite decide_False by done]; cbn;
    (split_and!; [done|done| |]).
  - apply set_eq. intros i. rewrite elem_of_difference, !elem_of_due, elem_of_singleton. cbn. rewrite lookup_delete_Some. naive_solver.
  - by rewrite Hdel.
  - apply set_eq. intros i. rewrite elem_of_difference, !elem_of_due, elem_of_singleton. cbn. rewrite lookup_insert_Some. naive_solver.
  - by rewrite in_flight_insert, Hdel.
Qed.

(** The state machine: one operation at a time. *)
Lemma start_flush_ok size rs m t :
  (0 < size)%nat → m.(calls) !! t = None ∨ m.(calls) !! t = Some Due →
  reporters_ok size rs m → reporters_ok size rs (start_flush t m).
Proof.
  intros Hpos Ht (Hsize & Hrs & Hlen & (taken & Hp & Htaken) & Hall).
  destruct (start_flush_spec m t Ht) as (Hs & Hpu & Hd & Hf). unfold reporters_ok. rewrite Hs, Hpu, Hd. cbn.
  pose proof (subseteq_size _ _ Hrs) as Hn.
  split_and!; [done|set_solver|lia| |].
  - case_decide as Hb; cbn.
    + exists taken. rewrite Hb in Hp. by rewrite Hf.
    + exists (taken ++ [m.(shared).(batch)]). rewrite concat_app. cbn. rewrite !app_nil_r. split; [done|].
      rewrite Htaken, Hf, (Permutation_app_comm _ [m.(shared).(batch)]). cbn. by rewrite Permutation_middle.
  - rewrite Hf. change (requests _) with (requests m.(shared)). case_decide as Hb; cbn; [done|].
    rewrite Permutation_app_comm. cbn. constructor; [split; [done|lia]|]. by rewrite Permutation_app_comm.
Qed.

Lemma push_event_ok size rs m t now pod kind reason message :
  m.(calls) !! t = None → t ∈ rs → reporters_ok size rs m →
  reporters_ok size rs (run_reporter_op logged_report m (Record t now pod kind reason message)).
Proof.
  intros Ht Hrs (Hsize & Hdue & Hlen & (taken & Hp & Htaken) & Hall). cbn [run_reporter_op]. rewrite Ht.
  unfold push_event. set (e := mkEvent pod _ kind reason message now 1).
  set (r' := mkReporter _ _ (_ ++ [e]) _).
  assert (∀ m', m'.(shared) = r' → m'.(pushed) = m.(pushed) ++ [e] → due_tasks m' ⊆ rs →
     in_flight m' ≡ₚ in_flight m → (length r'.(batch) < size + base.size (due_tasks m'))%nat → reporters_ok size rs m') as Hgo.
  { intros m' Hs Hpu Hd Hf Hl. unfold reporters_ok. rewrite Hs, Hpu. split_and!; [done|done|done| |by rewrite Hf].
    exists taken. rewrite Hf. split; [|done]. cbn. by rewrite Hp, app_assoc. }
  case_bool_decide as Hfull; cbn in Hfull |- *.
  - assert (due_tasks (mkReporters r' (<[t:=Due]> m.(calls)) (m.(pushed) ++ [e])) = {[t]} ∪ due_tasks m) as Hd.
    { apply set_eq. intros i. rewrite elem_of_union, elem_of_singleton, !elem_of_due. cbn. rewrite lookup_insert_Some.
      destruct (decide (t = i)); naive_solver. }
    apply Hgo; [done|done|rewrite Hd; set_solver| |].
    + rewrite in_flight_insert. cbn. rewrite (in_flight_delete m t r' (m.(pushed) ++ [e])). by rewrite Ht.
    + rewrite Hd, size_union, size_singleton by (rewrite disjoint_singleton_l, elem_of_due; congruence).
      cbn. rewrite length_app. cbn. lia.
  - apply Hgo; [done|done|done|done|]. change (due_tasks _) with (due_tasks m). cbn.
    rewrite length_app in Hfull |- *. cbn in Hfull |- *. lia.
Qed.

Lemma send_batch_spec events r :
  ∃ ok, let r' := (send_batch logged_report events r).2 in
    requests r' = requests r ++ [(events, ok)] ∧ r'.(batch) = r.(batch) ∧ r'.(batch_size) = r.(batch_size) ∧
    r'.(node_id) = r.(node_id).
Proof.
  unfold send_batch, logged_report, requests. destruct (client r) as [s l].
  destruct (report_pod_events events s) as [res s']. eexists. by cbn.
Qed.

Lemma next_sending m t events :
  m.(calls) !! t = Some (Sending events) →
  let m' := run_reporter_op logged_report m (Next t) in
  m'.(pushed) = m.(pushed) ∧ m'.(shared).(batch) = m.(shared).(batch) ∧
  m'.(shared).(batch_size) = m.(shared).(batch_size) ∧ due_tasks m' = due_tasks m ∧
  (requests m.(shared)) `prefix_of` requests m'.(shared) ∧
  (requests m'.(shared)).*1 ++ in_flight m' ≡ₚ (requests m.(shared)).*1 ++ in_flight m.
Proof.
  intros Ht. cbn [run_reporter_op]. rewrite Ht. cbn [shared pushed].
  destruct (send_batch_spec events m.(shared)) as (ok & Hr & Hb & Hsz & _). cbn zeta.
  split_and!; [done|done|done| |rewrite Hr; by apply prefix_app_r|].
  - apply set_eq. intros i. rewrite !elem_of_due. cbn. rewrite lookup_delete_Some.
    split; [tauto|]. intros Hi. split; [|done]. intros ->. congruence.
  - rewrite Hr, (in_flight_delete m t (send_batch logged_report events m.(shared)).2 m.(pushed)), Ht, fmap_app. cbn.
    by rewrite <-app_assoc.
Qed.

Definition op_recorder (o : reporter_op) : gset nat := recorders [o].
Lemma run_reporter_op_ok size rs m o :
  (0 < size)%nat → op_recorder o ⊆ rs → reporters_ok size rs m → reporters_ok size rs (run_reporter_op logged_report m o).
Proof.
  intros Hpos Ho Hm. destruct o as [t now pod kind reason message|t|t].
  - destruct (m.(calls) !! t) eqn:Ht; [by cbn; rewrite Ht|]. apply push_event_ok; [done| |done]. set_solver.
  - cbn. destruct (m.(calls) !! t) eqn:Ht; [done|]. apply start_flush_ok; auto.
  - destruct (m.(calls) !! t) as [[|events]|] eqn:Ht; [|..|by cbn; rewrite Ht].
    { cbn. rewrite Ht. apply start_flush_ok; auto. }
    destruct (next_sending m t events Ht) as (Hpu & Hb & Hsz & Hd & _ & Hf).
    destruct Hm as (Hsize & Hdue & Hlen & (taken & Hp & Htaken) & Hall).
    unfold reporters_ok. rewrite Hpu, Hb, Hsz, Hd. split_and!; [done..| |by rewrite Hf]. exists taken. by rewrite Hf.
Qed.

Lemma recorders_app ops ops' : recorders (ops ++ ops') = recorders ops ∪ recorders ops'.
Proof. unfold recorders. by rewrite omap_app, list_to_set_app_L. Qed.
Lemma reporters_ok_mono size rs rs' m : rs ⊆ rs' → reporters_ok size rs m → reporters_ok size rs' m.
Proof.
  intros Hrs (? & ? & ? & ? & Hall). pose proof (subseteq_size _ _ Hrs).
  split_and!; [done|set_solver|done|done|]. eapply Forall_impl; [exact Hall|]. intros q [? ?]. split; [done|lia].
Qed.
Lemma reporters_new_ok node s size : (0 < size)%nat → reporters_ok size ∅ (reporters_new node (s, []) size).
Proof.
  intros Hpos. assert (due_tasks (reporters_new (S := S * list (list PodEvent * bool)) node (s, []) size) = ∅) as Hd.
  { apply set_eq. intros i. rewrite elem_of_due. cbn. rewrite lookup_empty. split; [done|set_solver]. }
  unfold reporters_ok. rewrite Hd. split_and!; [done|done|cbn; lia| |constructor]. by exists [].
Qed.
Lemma run_reporters_ok node s size ops :
  (0 < size)%nat → reporters_ok size (recorders ops) (run_reporters logged_report (reporters_new node (s, []) size) ops).
Proof.
  intros Hpos. unfold run_reporters. induction ops as [|o ops IH] using rev_ind; [by apply reporters_new_ok|].
  rewrite foldl_app, recorders_app. apply run_reporter_op_ok; [done|set_solver|].
  eapply reporters_ok_mono; [|exact IH]. set_solver.
Qed.

(** A task nobody interrupts: its calls are [record_event] and [flush]. *)
Lemma start_flush_alone {S'} (report : list PodEvent → M string S' unit) (m : reporters S') t :
  m.(calls) !! t = None ∨ m.(calls) !! t = Some Due →
  run_reporter_op report (start_flush t m) (Next t) =
    mkReporters (flush report m.(shared)).2 (delete t m.(calls)) m.(pushed).
Proof.
  intros _. unfold start_flush, flush, take_batch. destruct (m.(shared).(batch)); cbn [run_reporter_op calls].
  - by rewrite lookup_delete_eq.
  - by rewrite lookup_insert_eq, delete_insert_eq.
Qed.
Lemma record_event_alone {S'} (report : list PodEvent → M string S' unit) (m : reporters S') t now pod kind reason message :
  m.(calls) !! t = None →
  run_reporters report m [Record t now pod kind reason message; Next t; Next t] =
    mkReporters (record_event report now pod kind reason message m.(shared)).2 m.(calls)
      (m.(pushed) ++ [mkEvent pod m.(shared).(node_id) kind reason message now 1]).
Proof.
  intros Ht. unfold run_reporters, record_event. cbn [foldl].
  assert (∀ r p, run_reporter_op report (mkReporters (S := S') r m.(calls) p) (Next t) = mkReporters r m.(calls) p) as Hidle
    by (intros r p; cbn; by rewrite Ht).
  set (p := m.(pushed) ++ _).
  assert (run_reporter_op report m (Record t now pod kind reason message) =
    let '(should_flush, r) := push_event now pod kind reason message m.(shared) in
    mkReporters r (if should_flush : bool then <[t := Due]> m.(calls) else m.(calls)) p) as -> by (cbn; by rewrite Ht).
  destruct (push_event now pod kind reason message m.(shared)) as [[] r]; [|by rewrite !Hidle].
  assert (run_reporter_op report (mkReporters (S := S') r (<[t := Due]> m.(calls)) p) (Next t) =
    start_flush t (mkReporters r (<[t := Due]> m.(calls)) p)) as -> by (cbn; by rewrite lookup_insert_eq).
  rewrite start_flush_alone by (right; apply lookup_insert_eq). cbn [calls shared pushed]. by rewrite delete_insert_id.
Qed.
Lemma flush_alone {S'} (report : list PodEvent → M string S' unit) (m : reporters S') t :
  m.(calls) !! t = None →
  run_reporters report m [Flush t; Next t] = mkReporters (flush report m.(shared)).2 m.(calls) m.(pushed).
Proof.
  intros Ht. unfold run_reporters. cbn [foldl].
  assert (run_reporter_op report m (Flush t) = start_flush t m) as -> by (cbn; by rewrite Ht).
  rewrite start_flush_alone by auto. by rewrite delete_id.
Qed.

(** C34: Whatever the tasks that share a reporter record, however their calls
    interleave and however the sends go: the events pushed are, in the order
    pushed, the batches taken so far followed by the batch; each batch taken is
    exactly one request or is still on its way, so no event is sent twice or
    lost before it was sent, and a refused request is not repeated.  The batch
    stays below its size plus the number of tasks about to flush; a request is
    not empty, and exceeds a full batch by less than the number of tasks that
    record: the lock is not held between the decision and the flush. *)
Theorem events_sent_once node s size ops :
  (0 < size)%nat →
  let m := run_reporters logged_report (reporters_new node (s, []) size) ops in
  (∃ taken, m.(pushed) = concat taken ++ m.(shared).(batch) ∧
     taken ≡ₚ (requests m.(shared)).*1 ++ in_flight m) ∧
  (length m.(shared).(batch) < size + base.size (due_tasks m))%nat ∧
  Forall (λ q, q ≠ [] ∧ (length q < size + base.size (recorders ops))%nat) (requests m.(shared)).*1.
Proof.
  intros Hpos m. destruct (run_reporters_ok node s size ops Hpos) as (_ & _ & Hlen & Htaken & Hall).
  apply Forall_app in Hall. tauto.
Qed.
End facts.

(** Two tasks record into a reporter whose batch holds two: both find it full,
    and the request of the first to flush has three events. *)
Definition two_recorders : list reporter_op :=
  [Record 0 0 "a" STARTED "" ""; Record 0 1 "b" STARTED "" ""; Record 1 1 "c" EVICTING "" ""; Next 0; Next 1; Record 1 2 "d" EVICTING "" "";
   Next 0].
Definition refusing : list PodEvent → M string unit unit := λ _, fail "unavailable".
Lemma events_sent_once_witness :
  let m := run_reporters (logged_report refusing) (reporters_new "n" (tt, []) 2) two_recorders in
  map (λ q, (map ev_pod_id q.1, q.2)) (requests m.(shared)) = [(["a"; "b"; "c"], false)] ∧
  map ev_pod_id m.(shared).(batch) = ["d"] ∧
  Forall (λ q, q ≠ [] ∧ (length q < 2 + base.size (recorders two_recorders))%nat) (requests m.(shared)).*1.
Proof.
  split; [by vm_compute|]. split; [by vm_compute|]. apply (events_sent_once refusing "n" tt 2 two_recorders). lia.
Defined.
