(* ===== verification/AgentTasks.v ===== *)
(** The background tasks of the agent as select loops (Tasks.v): the status
    reporter (src/workloads/status.rs), the counters reporter
    (src/ebpf/counters.rs), the pod event flush loop
    (src/observability/pod_events.rs), the delegated-key refresh loop
    (src/identity/degraded.rs) and the probe loop
    (src/workloads/probe_loop.rs). *)
From S2P Require Import Prelude Errors Core Pods Probes PodEvents Counters Degraded Tasks.

(** ** Status reports *)

Section status.
Context {OS : HashOrder string} {C : Type} (report_workload_status : WorkloadStatusReport → M string C unit).

(** A report that cannot be sent is logged.  The pods are shared: each tick
    reads them as they are, with the clock. *)
Definition status_tick (i : Z * gmap string Pod) : M AgentError C unit := λ c,
  (Ok tt, foldl (λ c r, (report_workload_status r c).2) c (report_all_pods i.1 i.2)).
Definition run_status_loop (c : C) (ws : list (wake (Z * gmap string Pod) unit)) :=
  run_task status_tick id (λ _, id) c ws.
End status.

(** ** Counters *)

Section counters.
Context {OZ : HashOrder Z} {C : Type} (report_pod_metrics : PodMetrics → M string C unit).
Context (interval_secs : Z).

(** The entries the kernel map's iterator gives, and the clock. *)
Definition counters_tick (i : list (result string (Z * list PodNetCounters)) * Z) :
    M AgentError (C * CountersReporter) unit := λ '(c, r),
  match report_counters i.1 interval_secs i.2 r with
  | (Ok metrics, r') => (Ok tt, (foldl (λ c m, (report_pod_metrics m c).2) c metrics, r'))
  | (Err e, r') => (Err e, (c, r'))
  end.
Definition run_counters_loop (s : C * CountersReporter) (ws : list (wake _ unit)) :=
  run_task counters_tick id (λ _, id) s ws.
End counters.

(** ** Delegated keys *)

Section delegation.
Context `{FleetCore} {OS : HashOrder SpiffeId}.
Context (wire_from_bytes : bytes → result string DelegatedSigningKey).
Context {C : Type} (request_delegated_key : DelegatedKeyRequest → M AgentError C DelegatedKeyResponse).
Context (node_svid_id : SpiffeId) (ttl_secs : Z).
Abbreviation KeyManager := (gmap SpiffeId DelegatedKeyEntry).

Definition delegation_tick (now : Z) : M AgentError (C * KeyManager) unit := λ s,
  (Ok tt, refresh_tick wire_from_bytes request_delegated_key node_svid_id ttl_secs now s).
(** The workload manager installs keys while the loop runs. *)
Definition run_delegation_loop (s : C * KeyManager) (ws : list (wake Z (DelegatedSigningKey * bytes))) :=
  run_task delegation_tick id (λ '(k, id) '(c, m), (c, install_key k id m)) s ws.
End delegation.

(** ** Pod events *)

Section flush.
Context {S : Type} (report_pod_events : list PodEvent → M string S unit).

(** The flush loop is one task of the machine (PodEvents.v); the probe loop and
    the workload manager are the others.  Meanwhile another task records an
    event, or a task goes on with the call it is in: with [flush_loop_task],
    the loop's own send is answered. *)
Definition flush_loop_task : nat := 0.
Record recording := mkRecording { rc_now : Z; rc_pod : string; rc_type : string; rc_reason : string; rc_message : string }.
Inductive meanwhile := Records (other : nat) (e : recording) | Goes_on (task : nat).
Definition meanwhile_op (o : meanwhile) : reporter_op :=
  match o with
  | Records t e => Record (t + 1)%nat e.(rc_now) e.(rc_pod) e.(rc_type) e.(rc_reason) e.(rc_message)
  | Goes_on t => Next t
  end.
Definition record_meanwhile (o : meanwhile) (m : reporters S) : reporters S :=
  run_reporter_op report_pod_events m (meanwhile_op o).

(** The loop wakes up only when its last flush is over. *)
Definition loop_flush (m : reporters S) : reporters S :=
  run_reporters report_pod_events m [Next flush_loop_task; Flush flush_loop_task].
(** A failed flush is logged; what is left is flushed once more at shutdown. *)
Definition flush_tick (_ : unit) : M AgentError (reporters S) unit := λ m, (Ok tt, loop_flush m).
Definition run_flush_loop (m : reporters S) (ws : list (wake unit meanwhile)) :=
  run_task flush_tick loop_flush record_meanwhile m ws.
End flush.

(** ** Probes *)

Section probes.
Context {OS : HashOrder string} (run_probe : ProbeKind → Z → Z → bool) (cfg : ProbeLoopConfig).
Context {S : Type} (report_pod_events : list PodEvent → M string S unit).

Definition event_name (k : PodEventKind) : string :=
  match k with Started => STARTED | ProbeFailed => PROBE_FAILED | BackOff => BACK_OFF end.

(** [ProbeLoop]: the probe runners, the pods and the reporter it shares. *)
Record ProbeLoop := mkLoop {
  probe_manager : gmap string ProbeSetRunner;
  pod_manager : gmap string Pod;
  event_reporter : option (PodEventReporter S);
}.

Definition emit (now : Z) (pod_id : string) (r : option (PodEventReporter S)) (k : PodEventKind) :
    option (PodEventReporter S) :=
  (λ r, (record_event report_pod_events now pod_id (event_name k) "" "" r).2) <$> r.

Definition process_result (now : Z) (l : ProbeLoop) (t : ProbeTickResult) : ProbeLoop :=
  let '(evs, pods) := process_probe_result cfg t l.(pod_manager) in
  mkLoop l.(probe_manager) pods (foldl (emit now t.(t_pod_id)) l.(event_reporter) evs).

Definition probe_loop_tick (now : Z) : M AgentError ProbeLoop unit := λ l,
  let '(results, runners) := tick run_probe now l.(probe_manager) in
  (Ok tt, foldl (process_result now) (mkLoop runners l.(pod_manager) l.(event_reporter)) results).

(** Meanwhile the other tasks change the pods and runners. *)
Definition run_probe_loop (l : ProbeLoop) (ws : list (wake Z (ProbeLoop → ProbeLoop))) :=
  run_task probe_loop_tick id id l ws.
End probes.
Arguments ProbeLoop : clear implicits.

(** ** What the flush loop leaves behind at shutdown *)

Section flush_facts.
Context {S : Type} (report_pod_events : list PodEvent → M string S unit).
Abbreviation logged := (logged_report report_pod_events).

Abbreviation reporters := (reporters (S * list (list PodEvent * bool))).
Implicit Types (m : reporters).
Abbreviation flush_loop := (run_flush_loop logged).
Abbreviation flush_step := (task_step (flush_tick logged) (loop_flush logged) (record_meanwhile logged)).

(** The loop is a history of the machine in which it records nothing itself. *)
Lemma flush_history m ws :
  ∃ ops, (flush_loop m ws).2 = run_reporters logged m ops ∧ flush_loop_task ∉ recorders ops.
Proof.
  unfold run_flush_loop, run_task. induction ws as [|w ws (ops & Hrun & Hrec)] using rev_ind; [by exists []|].
  rewrite foldl_app. cbn [foldl]. destruct (foldl _ _ ws) as [st m1]. simpl in Hrun. subst m1.
  assert (∀ o, flush_loop_task ∉ recorders o → ∃ ops',
      run_reporters logged (run_reporters logged m ops) o = run_reporters logged m ops' ∧ flush_loop_task ∉ recorders ops') as Happ.
  { intros o Ho. exists (ops ++ o). split; [|rewrite recorders_app; set_solver].
    unfold run_reporters. by rewrite foldl_app. }
  destruct w as [[]|[]|o].
  - destruct st; cbn [task_step snd]; [apply Happ; set_solver|by eauto..].
  - exists ops. by destruct st.
  - destruct st; cbn [task_step snd flush_tick]; [apply Happ; set_solver|by eauto..].
  - cbn [task_step snd]. destruct (Happ [meanwhile_op o]) as (ops' & Ho & Hn); [|by exists ops'].
    destruct o as [t e|t]; [|set_solver]. unfold recorders, flush_loop_task. simpl. intros Hin.
    apply elem_of_union in Hin. rewrite elem_of_singleton in Hin. set_solver by lia.
Qed.

(** The loop's flush empties the batch. *)
Lemma loop_flush_spec m : flush_loop_task ∉ due_tasks m →
  (loop_flush logged m).(shared).(batch) = [] ∧ (loop_flush logged m).(pushed) = m.(pushed) ∧
  due_tasks (loop_flush logged m) = due_tasks m ∧
  (loop_flush logged m).(shared).(batch_size) = m.(shared).(batch_size).
Proof.
  intros Hdue. unfold loop_flush, run_reporters. cbn [foldl].
  set (m1 := run_reporter_op logged m (Next flush_loop_task)).
  assert (m1.(calls) !! flush_loop_task = None ∧ m1.(pushed) = m.(pushed) ∧ due_tasks m1 = due_tasks m ∧
    m1.(shared).(batch_size) = m.(shared).(batch_size)) as (Hc & Hp & Hd & Hs).
  { subst m1. rewrite elem_of_due in Hdue. destruct (m.(calls) !! flush_loop_task) as [[|events]|] eqn:Ht; [done| |].
    - destruct (next_sending report_pod_events m _ events Ht) as (? & _ & ? & ? & _). split_and!; [|done..].
      cbn. rewrite Ht. apply lookup_delete_eq.
    - cbn. by rewrite Ht. }
  cbn [run_reporter_op]. rewrite Hc. destruct (start_flush_spec report_pod_events m1 flush_loop_task) as (Hsh & Hpu & Hdu & _); [by left|].
  rewrite Hsh, Hpu, Hdu, Hd. split_and!; [done|done|set_solver|done].
Qed.

(** After it, the batch holds only what was pushed since. *)
Definition pushed_since (before : list PodEvent) m : Prop :=
  ∃ later, m.(pushed) = before ++ later ∧ m.(shared).(batch) `suffix_of` later.
(** As long as no task is about to flush, the batch is all of that. *)
Definition piles_up (n : nat) m : Prop := due_tasks m = ∅ ∧ m.(shared).(batch) = drop n m.(pushed).

Lemma since_step before m o :
  pushed_since before m → pushed_since before (record_meanwhile logged o m).
Proof.
  intros (later & Hp & Hb). unfold record_meanwhile. destruct o as [t e|t]; cbn [meanwhile_op].
  - cbn [run_reporter_op]. destruct (m.(calls) !! _); [by exists later|].
    unfold push_event. set (ev := mkEvent _ _ _ _ _ _ _). exists (later ++ [ev]).
    split; [cbn; by rewrite Hp, app_assoc|]. destruct Hb as [k ->]. exists k. cbn. by rewrite app_assoc.
  - exists later. destruct (m.(calls) !! t) as [[|events]|] eqn:Ht.
    + cbn [run_reporter_op]. rewrite Ht. destruct (start_flush_spec report_pod_events m t) as (-> & -> & _); [by right|].
      split; [done|]. apply suffix_nil.
    + by destruct (next_sending report_pod_events m t events Ht) as (-> & -> & _).
    + cbn. by rewrite Ht.
Qed.

Lemma piles_up_step n m o :
  (n ≤ length m.(pushed))%nat → (length (record_meanwhile logged o m).(pushed) < n + m.(shared).(batch_size))%nat →
  piles_up n m → piles_up n (record_meanwhile logged o m) ∧
    (record_meanwhile logged o m).(shared).(batch_size) = m.(shared).(batch_size).
Proof.
  intros Hn Hlen [Hd Hb]. revert Hlen. unfold record_meanwhile, piles_up. destruct o as [t e|t]; cbn [meanwhile_op].
  - cbn [run_reporter_op]. destruct (m.(calls) !! _); [done|]. unfold push_event. set (ev := mkEvent _ _ _ _ _ _ _).
    cbn. rewrite length_app. cbn. intros Hlen. rewrite bool_decide_false.
    { split; [|done]. split; [done|]. by rewrite Hb, drop_app_le. }
    rewrite Hb, length_app, length_drop. cbn. lia.
  - intros _. destruct (m.(calls) !! t) as [[|events]|] eqn:Ht.
    + rewrite <-elem_of_due, Hd in Ht. set_solver.
    + destruct (next_sending report_pod_events m t events Ht) as (-> & -> & -> & -> & _). done.
    + cbn. by rewrite Ht.
Qed.

(** Nothing pushed is forgotten. *)
Lemma meanwhile_pushed o m : m.(pushed) `prefix_of` (record_meanwhile logged o m).(pushed).
Proof.
  unfold record_meanwhile. destruct o as [t e|t]; cbn [meanwhile_op].
  - cbn [run_reporter_op]. destruct (m.(calls) !! _); [done|]. by apply prefix_app_r.
  - destruct (m.(calls) !! t) as [[|events]|] eqn:Ht.
    + cbn [run_reporter_op]. rewrite Ht. destruct (start_flush_spec report_pod_events m t) as (_ & -> & _); [by right|]. done.
    + by destruct (next_sending report_pod_events m t events Ht) as (-> & _).
    + cbn. by rewrite Ht.
Qed.

(** The loop after it stopped. *)
Lemma stopped_run m ws :
  m.(shared).(batch) = [] →
  let m' := (foldl flush_step (Stopped, m) ws).2 in
  pushed_since m.(pushed) m' ∧
  (due_tasks m = ∅ → (length m'.(pushed) < length m.(pushed) + m.(shared).(batch_size))%nat →
     piles_up (length m.(pushed)) m').
Proof.
  intros Hb. cbn zeta. rewrite task_over by done. cbn [snd].
  set (go := foldl _ m). enough (pushed_since m.(pushed) (go ws) ∧ m.(pushed) `prefix_of` (go ws).(pushed) ∧
    (due_tasks m = ∅ → (length (go ws).(pushed) < length m.(pushed) + m.(shared).(batch_size))%nat →
     piles_up (length m.(pushed)) (go ws) ∧ (go ws).(shared).(batch_size) = m.(shared).(batch_size))) as (? & _ & Hq)
    by (split; [done|]; intros Hd Hlen; by apply Hq).
  induction ws as [|w ws (Hs & Hp & Hq)] using rev_ind.
  - cbn. split_and!; [|done|].
    + exists []. by rewrite app_nil_r, Hb.
    + intros Hd _. split; [|done]. split; [done|]. by rewrite Hb, drop_all.
  - subst go. cbv beta in *. rewrite foldl_app. cbn [foldl]. set (m1 := foldl _ m ws) in *.
    destruct w as [v|i|o]; [done|done|]. pose proof (meanwhile_pushed o m1) as Hgrow.
    split_and!; [by apply since_step|by etrans|]. intros Hd Hlen.
    apply prefix_length in Hgrow. apply prefix_length in Hp. destruct Hq as [Hq Hsz]; [done|lia|].
    destruct (piles_up_step (length m.(pushed)) m1 o) as [Hq' Hsz']; [done|lia|done|]. by rewrite Hsz'.
Qed.

(** C35: When the shutdown signal reaches the flush loop it stops, and every
    event pushed before the signal has been taken out of the batch: each batch
    taken is one request or on its way to one.  What the other tasks push
    after it is never sent by the loop: while fewer events than a full batch
    are pushed, and no task was about to flush when the signal came, they all
    stay in the batch. *)
Theorem flush_task_shutdown node s size ws1 ws2 :
  (0 < size)%nat → Changed true ∉ ws1 →
  let m1 := (flush_loop (reporters_new node (s, []) size) ws1).2 in
  let '(st, m) := flush_loop (reporters_new node (s, []) size) (ws1 ++ Changed true :: ws2) in
  st = Stopped ∧
  (∃ taken, m.(pushed) = concat taken ++ m.(shared).(batch) ∧
     taken ≡ₚ (requests m.(shared)).*1 ++ in_flight m ∧ m1.(pushed) `prefix_of` concat taken) ∧
  (due_tasks m1 = ∅ → (length m.(pushed) < length m1.(pushed) + size)%nat →
     m.(pushed) = m1.(pushed) ++ m.(shared).(batch)).
Proof.
  intros Hpos Hin m1. set (m0 := reporters_new node (s, []) size) in *.
  destruct (flush_history m0 ws1) as (ops & Hops & Hrec). fold m1 in Hops.
  destruct (run_reporters_ok report_pod_events node s size ops Hpos) as (Hsz & Hdue & _).
  fold m0 in Hsz, Hdue. rewrite <-Hops in Hsz, Hdue.
  destruct (loop_flush_spec m1) as (Hb & Hp & Hd & Hsz1); [set_solver|].
  destruct (flush_history m0 (ws1 ++ Changed true :: ws2)) as (ops' & Hops' & _).
  destruct (run_reporters_ok report_pod_events node s size ops' Hpos) as (_ & _ & _ & (taken & Hpt & Htaken) & _).
  fold m0 in Hpt, Htaken. rewrite <-Hops' in Hpt, Htaken.
  assert (flush_loop m0 (ws1 ++ Changed true :: ws2) = foldl flush_step (Stopped, loop_flush logged m1) ws2) as Hrun.
  { assert ((flush_loop m0 ws1).1 = Running) as Hr by (apply task_goes_on; [by intros [] ???|done]).
    subst m1. unfold run_flush_loop, run_task in *. rewrite foldl_app. cbn [foldl].
    destruct (foldl _ _ ws1) as [st m1]. simpl in Hr. by subst st. }
  destruct (stopped_run (loop_flush logged m1) ws2 Hb) as [(later & Hl & Hsuf) Hq].
  rewrite Hrun in Hpt, Htaken |- *. rewrite task_over in Hpt, Htaken, Hl, Hsuf, Hq |- * by done. cbn [snd] in *.
  set (m := foldl _ (loop_flush logged m1) ws2) in *. rewrite Hp in Hl, Hq. split; [done|]. split.
  - exists taken. split_and!; [done|done|]. destruct Hsuf as [k ->]. rewrite app_assoc in Hl.
    rewrite Hl in Hpt. apply app_inv_tail in Hpt. rewrite <-Hpt. by apply prefix_app_r.
  - rewrite <-Hd, <-Hsz, <-Hsz1. intros Hd1 Hlen. destruct (Hq Hd1 Hlen) as [_ ->]. rewrite Hl.
    by rewrite drop_app_length.
Qed.
End flush_facts.

(** ** Which tasks can die *)

Section survival.
Context {OZ : HashOrder Z} {OS : HashOrder string}.

Lemma counters_tick_ok {C} (send : PodMetrics → M string C unit) interval i s :
  (∃ s', counters_tick send interval i s = (Ok tt, s')) ↔ Forall (λ e, is_ok e = true) i.1.
Proof.
  destruct s as [c r], i as [entries window]. unfold counters_tick, report_counters, read_and_compute_rates. simpl.
  generalize (∅ : gmap Z PodNetCounters, ∅ : gmap Z PodNetCounters) as acc.
  induction entries as [|[e|msg] entries IH]; intros acc; simpl.
  - destruct acc. split; [constructor|eauto].
  - rewrite Forall_cons, IH. naive_solver.
  - rewrite Forall_cons. split; [by intros [? ?]|]. by intros [? _].
Qed.

(** Short of the shutdown signal the counters reporter runs exactly as long
    as the kernel map's iterator never fails: one failing entry ends its metrics
    for good, however the sends go. *)
Theorem counters_task_runs {C} (send : PodMetrics → M string C unit) interval s ws :
  Changed true ∉ ws →
  (run_counters_loop send interval s ws).1 = Running ↔
    Forall (λ w, match w with Ticked i => Forall (λ e, is_ok e = true) i.1 | _ => True end) ws.
Proof.
  unfold run_counters_loop, run_task. induction ws as [|w ws IH] using rev_ind; intros Hin; [done|].
  rewrite not_elem_of_app in Hin. destruct Hin as [Hin Hw]. specialize (IH Hin).
  rewrite foldl_app, Forall_app, Forall_singleton. cbn [foldl].
  destruct (foldl _ _ ws) as [st s1]. simpl in IH. destruct w as [[]|i|[]].
  - destruct Hw. by left.
  - rewrite <-IH. by destruct st; simpl; naive_solver.
  - rewrite <-IH. destruct st; simpl; [|naive_solver..].
    rewrite <-(counters_tick_ok send interval i s1).
    destruct (counters_tick send interval i s1) as [[[]|e] s2]; simpl; naive_solver.
  - rewrite <-IH. by destruct st; simpl; naive_solver.
Qed.
End survival.

(** ** One tick of the probe loop *)

Section probe_facts.
Context {OS : HashOrder string} (run_probe : ProbeKind → Z → Z → bool) (cfg : ProbeLoopConfig).
Context {S : Type} (report_pod_events : list PodEvent → M string S unit).
Implicit Types (m : gmap string ProbeSetRunner) (pods : gmap string Pod) (l : ProbeLoop S).
Abbreviation tick_pod := (tick_pod run_probe).
Abbreviation tick_probe_loop := (probe_loop_tick run_probe cfg report_pod_events).

(** The manager ticks every runner once. *)
Definition tick_step (now : Z) (acc : list ProbeTickResult * gmap string ProbeSetRunner) (id : string) :=
  match acc.2 !! id with
  | Some s => (acc.1 ++ [(tick_pod now id s).1], <[id := (tick_pod now id s).2]> acc.2)
  | None => acc
  end.
Lemma tick_fold now ids results m :
  NoDup ids → (∀ id, id ∈ ids → is_Some (m !! id)) →
  let s := foldl (tick_step now) (results, m) ids in
  s.1 = results ++ omap (λ id, (λ s, (tick_pod now id s).1) <$> m !! id) ids ∧
  ∀ id, s.2 !! id = if decide (id ∈ ids) then (λ s, (tick_pod now id s).2) <$> m !! id else m !! id.
Proof.
  intros Hnd. revert results m. induction Hnd as [|i ids Hi _ IH]; intros results m Hm.
  { split; [by rewrite app_nil_r|]. intros id. by rewrite decide_False by apply not_elem_of_nil. }
  destruct (Hm i) as [s Hs]; [by left|]. cbn [foldl]. unfold tick_step at 2 4. cbn [fst snd]. rewrite Hs.
  destruct (IH (results ++ [(tick_pod now i s).1]) (<[i := (tick_pod now i s).2]> m)) as [H1 H2].
  { intros id Hid. rewrite lookup_insert. case_decide; [by eexists|]. apply Hm. by right. }
  split.
  - rewrite H1, <-app_assoc. f_equal. cbn [omap list_omap]. rewrite Hs. cbn [fmap option_fmap option_map]. f_equal.
    apply list_omap_ext, Forall2_same_length_lookup_2; [done|]. intros j x y Hx Hy.
    rewrite Hx in Hy. injection Hy as <-. rewrite lookup_insert_ne; [done|]. intros ->.
    by apply Hi, (list_elem_of_lookup_2 _ j).
  - intros id. rewrite H2, lookup_insert. destruct (decide (i = id)) as [<-|Hne].
    + rewrite decide_False by done. rewrite (decide_True (P := i ∈ i :: ids)) by by left. by rewrite Hs.
    + destruct (decide (id ∈ ids)); [by rewrite decide_True by by right|].
      by rewrite decide_False by (rewrite not_elem_of_cons; done).
Qed.

Lemma tick_spec now m :
  let s := tick run_probe now m in
  s.1 = omap (λ id, (λ s, (tick_pod now id s).1) <$> m !! id) (iter_set (dom m)) ∧
  ∀ id, s.2 !! id = (λ s, (tick_pod now id s).2) <$> m !! id.
Proof.
  assert (tick run_probe now m = foldl (tick_step now) ([], m) (iter_set (dom m))) as ->.
  { unfold tick. generalize ([] : list ProbeTickResult, m) as acc.
    induction (iter_set (dom m)) as [|id ids IH]; intros [results m']; [done|]. cbn [foldl]. rewrite IH. f_equal.
    unfold tick_step. simpl. destruct (m' !! id) as [s|]; [|done]. by destruct (Probes.tick_pod _ _ _ _). }
  destruct (tick_fold now (iter_set (dom m)) [] m) as [H1 H2].
  { apply NoDup_iter_set. }
  { intros id. by rewrite elem_of_iter_set, elem_of_dom. }
  split; [done|]. intros id. rewrite H2. destruct (decide (id ∈ iter_set (dom m))) as [|Hid]; [done|].
  rewrite elem_of_iter_set, not_elem_of_dom in Hid. by rewrite Hid.
Qed.

(** What the tick of pod [id]'s runner does to the pod, and which events it
    emits. *)
Definition probed (now : Z) m (id : string) (p : Pod) : list PodEventKind * Pod :=
  match m !! id with
  | Some s => process_pod cfg (tick_pod now id s).1 p
  | None => ([], p)
  end.
(** The events of a tick, in the order the runners are walked. *)
Definition tick_events (now : Z) m pods (ids : list string) : list (string * PodEventKind) :=
  concat ((λ id, match pods !! id with Some p => (id,.) <$> (probed now m id p).1 | None => [] end) <$> ids).

Lemma tick_pod_id now id s : (tick_pod now id s).1.(t_pod_id) = id.
Proof. unfold Probes.tick_pod. by destruct (run_probes _ _ _) as [[? ?] ?]. Qed.

Lemma process_results now m ids l :
  NoDup ids → (∀ id, id ∈ ids → is_Some (m !! id)) →
  let l' := foldl (process_result cfg report_pod_events now) l
    (omap (λ id, (λ s, (tick_pod now id s).1) <$> m !! id) ids) in
  l'.(probe_manager) = l.(probe_manager) ∧
  (∀ id, l'.(pod_manager) !! id =
    (λ p, if decide (id ∈ ids) then (probed now m id p).2 else p) <$> l.(pod_manager) !! id) ∧
  l'.(event_reporter) =
    foldl (λ r e, emit report_pod_events now e.1 r e.2) l.(event_reporter) (tick_events now m l.(pod_manager) ids).
Proof.
  intros Hnd. revert l. induction Hnd as [|i ids Hi Hnd IH]; intros l Hm.
  { split; [done|]. split; [|done]. intros id. simpl. by destruct (_ !! id). }
  destruct (Hm i) as [s Hs]; [by left|]. cbn [omap list_omap]. rewrite Hs. cbn [fmap option_fmap option_map foldl].
  set (l1 := process_result cfg report_pod_events now l (tick_pod now i s).1).
  assert (l1.(probe_manager) = l.(probe_manager) ∧
    (∀ id, l1.(pod_manager) !! id = (λ p, if decide (id = i) then (probed now m id p).2 else p) <$> l.(pod_manager) !! id) ∧
    l1.(event_reporter) = foldl (emit report_pod_events now i) l.(event_reporter)
      (match l.(pod_manager) !! i with Some p => (probed now m i p).1 | None => [] end)) as (Hr & Hp & He).
  { subst l1. unfold process_result, process_probe_result, probed. rewrite tick_pod_id, Hs.
    destruct (l.(pod_manager) !! i) as [p|] eqn:Hpod.
    - destruct (process_pod cfg (tick_pod now i s).1 p) as [evs p'] eqn:Hpp. split; [done|]. split; [|done].
      intros id. simpl. rewrite lookup_insert. destruct (decide (i = id)) as [<-|Hne].
      + rewrite Hpod, Hs. simpl. by rewrite decide_True, Hpp.
      + destruct (l.(pod_manager) !! id); [|done]. simpl. by rewrite decide_False.
    - split; [done|]. split; [|done]. intros id. simpl. destruct (l.(pod_manager) !! id) eqn:Hid; [|done]. simpl.
      rewrite decide_False; [done|]. intros ->. congruence. }
  destruct (IH l1) as (Hr2 & Hp2 & He2); [intros id Hid; apply Hm; by right|]. cbn zeta.
  rewrite Hr2, He2, Hr, He. split; [done|]. split.
  - intros id. rewrite Hp2, Hp. destruct (l.(pod_manager) !! id) as [p|]; [|done]. simpl. f_equal.
    destruct (decide (id = i)) as [->|Hne].
    + by rewrite (decide_False (P := i ∈ ids)), (decide_True (P := i ∈ i :: ids)) by (done || by left).
    + destruct (decide (id ∈ ids)) as [Hid|Hid]; [by rewrite decide_True by by right|].
      by rewrite decide_False by (rewrite not_elem_of_cons; done).
  - unfold tick_events. rewrite fmap_cons. cbn [concat]. rewrite foldl_app. f_equal.
    + destruct (l.(pod_manager) !! i) as [p|]; [|done]. generalize (probed now m i p).1 as ks, (l.(event_reporter)) as r.
      induction ks as [|k ks IHk]; intros r; [done|]. simpl. apply IHk.
    + f_equal. apply list_fmap_ext. intros j id Hj. apply list_elem_of_lookup_2 in Hj. rewrite Hp.
      destruct (l.(pod_manager) !! id) as [p|]; [|done]. simpl. rewrite decide_False; [done|]. by intros ->.
Qed.

(** One tick of the probe loop.  Every runner is ticked exactly once, every
    pod that has a runner is processed exactly once, with its own runner's
    result, every other pod is untouched, and the reporter records exactly the
    events of the processed pods, each under its pod. *)
Theorem probe_tick_spec now l :
  let l' := (tick_probe_loop now l).2 in
  (∀ id, l'.(probe_manager) !! id = (λ s, (tick_pod now id s).2) <$> l.(probe_manager) !! id) ∧
  (∀ id, l'.(pod_manager) !! id = (λ p, (probed now l.(probe_manager) id p).2) <$> l.(pod_manager) !! id) ∧
  l'.(event_reporter) = foldl (λ r e, emit report_pod_events now e.1 r e.2) l.(event_reporter)
    (tick_events now l.(probe_manager) l.(pod_manager) (iter_set (dom l.(probe_manager)))).
Proof.
  intros l'. subst l'. unfold probe_loop_tick. destruct (tick_spec now l.(probe_manager)) as [Hres Hrun].
  destruct (tick run_probe now l.(probe_manager)) as [results runners]. simpl in Hres, Hrun. subst results. cbn [snd].
  destruct (process_results now l.(probe_manager) (iter_set (dom l.(probe_manager)))
    (mkLoop runners l.(pod_manager) l.(event_reporter))) as (H1 & H2 & H3).
  { apply NoDup_iter_set. }
  { intros id. by rewrite elem_of_iter_set, elem_of_dom. }
  split; [by rewrite H1|]. split; [|done]. intros id. rewrite H2. cbn [pod_manager].
  destruct (l.(pod_manager) !! id) as [p|]; [|done]. simpl. f_equal. case_decide as Hid; [done|].
  rewrite elem_of_iter_set, not_elem_of_dom in Hid. unfold probed. by rewrite Hid.
Qed.
End probe_facts.

(** ** Witnesses *)

(** A flush loop over a reachable control plane: the event before the signal is
    sent, the one after it is not. *)
Definition reachable : list PodEvent → M string unit unit := λ _, mret tt.
Definition started_event (pod : string) : wake unit meanwhile := Meanwhile (Records 0 (mkRecording 0 pod STARTED "" "")).
Definition stopped_reporter := (run_flush_loop (logged_report reachable) (reporters_new "n" (tt, []) 10)
  ([started_event "a"] ++ Changed true :: [Meanwhile (Goes_on flush_loop_task); started_event "b"])).2.
Lemma flush_task_shutdown_witness :
  map ev_pod_id <$> (requests stopped_reporter.(shared)).*1 = [["a"]] ∧
  map ev_pod_id stopped_reporter.(shared).(batch) = ["b"] ∧
  ∃ later, later = stopped_reporter.(shared).(batch) ∧ map ev_pod_id stopped_reporter.(pushed) = "a" :: map ev_pod_id later.
Proof.
  pose proof (flush_task_shutdown reachable "n" tt 10 [started_event "a"]
    [Meanwhile (Goes_on flush_loop_task); started_event "b"]) as Hrun.
  split; [by vm_compute|]. split; [by vm_compute|]. exists stopped_reporter.(shared).(batch). split; [done|].
  assert (stopped_reporter.(pushed) = (run_flush_loop (logged_report reachable) (reporters_new "n" (tt, []) 10)
    [started_event "a"]).2.(pushed) ++ stopped_reporter.(shared).(batch)) as ->; [|by vm_compute].
  apply Hrun; [lia|by intros Hin%list_elem_of_singleton|by vm_compute|by vm_compute; lia].
Defined.

Definition one_bad_read : list (wake (list (result string (Z * list PodNetCounters)) * Z) unit) :=
  [Ticked ([Ok (1, [])], 0); Ticked ([Err "EIO"], 30); Ticked ([Ok (1, [])], 60)].
Lemma counters_task_runs_witness :
  (run_counters_loop (λ _, mret tt : M string unit unit) 30 (tt, Counters.mkReporter ∅ ∅) one_bad_read).1 ≠ Running.
Proof.
  rewrite (counters_task_runs (λ _, mret tt : M string unit unit) 30 (tt, Counters.mkReporter ∅ ∅) one_bad_read).
  - intros Hall. inversion_clear Hall as [|? ? _ Hall']. inversion_clear Hall' as [|? ? Hbad _]. by inversion Hbad.
  - unfold one_bad_read. rewrite !not_elem_of_cons. split_and!; [done..|apply not_elem_of_nil].
Defined.
