(* ===== verification/VsockServer.v ===== *)
(** The vsock attestation server as it runs (src/vsock_attest/mod.rs): the
    listening socket, the accept loop, and the handshakes it spawns, each a
    blocking task of its own that reads the registries while the workload manager
    changes them.  The libc calls are the class [Sockets]; the handshake is
    cut where it reads shared state. *)
From S2P Require Import Prelude Errors Core Degraded Attest Tasks.

(** ** The sockets *)

Class Sockets (X : Type) := {
  sock_socket : M string X Z;
  sock_bind : Z → M string X unit;
  sock_listen : Z → nat → M string X unit;
  sock_accept : Z → M string X (Z * Z);
  sock_close : Z → X → X;
}.
(** Which descriptors are open. *)
Class SocketsLaws (X : Type) `{Sockets X} := {
  open_fds : X → gset Z;
  socket_ok x fd x' : sock_socket x = (Ok fd, x') → fd ∉ open_fds x ∧ open_fds x' = {[fd]} ∪ open_fds x;
  socket_err x e x' : sock_socket x = (Err e, x') → open_fds x' = open_fds x;
  bind_fds fd x : open_fds (sock_bind fd x).2 = open_fds x;
  listen_fds fd n x : open_fds (sock_listen fd n x).2 = open_fds x;
  close_fds fd x : open_fds (sock_close fd x) = open_fds x ∖ {[fd]};
}.

Section sockets.
Context {X : Type} `{Sockets X}.

(** [libc::close] on the error paths, with the error of the failed call. *)
Definition or_close {A} (fd : Z) (pre : string) (c : M string X A) : M AgentError X A := λ x,
  match c x with
  | (Ok a, x') => (Ok a, x')
  | (Err err, x') => (Err (Internal (pre +:+ err)), sock_close fd x')
  end.

Definition vsock_listen : M AgentError X Z :=
  fd ← (λ x, let '(r, x') := sock_socket x in (map_err (λ e, Internal ("socket(AF_VSOCK) failed: " +:+ e)) r, x'));
  _ ← or_close fd "bind() failed: " (sock_bind fd);
  _ ← or_close fd "listen() failed: " (sock_listen fd 16);
  mret fd.

(** The connection's descriptor and the peer's CID. *)
Definition vsock_accept (listener_fd : Z) : M AgentError X (Z * Z) := λ x,
  let '(r, x') := sock_accept listener_fd x in (map_err (λ e, Internal ("accept() failed: " +:+ e)) r, x').
End sockets.

(** ** Handshakes that interleave *)

Section server.
Context {X : Type} `{ByteStream X}.
Context `{FleetCore} {OS : HashOrder SpiffeId} {W : Type} `{!KeyGen W}.
Context `{!VsockMsg VsockAttestationChallenge} `{!VsockMsg VsockAttestationProof}
        `{!VsockMsg AgentAttestResult} `{!VsockMsg WorkloadConfig}.
Context (sign_svid_delegated : DelegatedSigningKey → bytes → Z → Z → result string bytes).
Context (PROTOCOL_VERSION MAX_MESSAGE_BYTES : Z) (production : bool).

(** The three stretches of [handle_connection] between its reads of shared
    state: up to the proof, the verdict, the configuration. *)
Definition hs_challenge (nonce : bytes) : M AgentError X VsockAttestationProof :=
  _ ← write_msg (mkChallenge PROTOCOL_VERSION nonce);
  read_msg (T := VsockAttestationProof) MAX_MESSAGE_BYTES.
Definition hs_verdict (measurement : option BootMeasurement) (nonce : bytes) (proof : VsockAttestationProof)
    (peer_cid : Z) : M AgentError X bool :=
  let result := attest_result (verify production proof nonce peer_cid measurement) in
  _ ← write_msg result;
  mret result.(accepted).
Definition hs_config (s : VsockAttestServer) (b : WorkloadConfigBuilder) (peer_cid now : Z) :
    M AgentError (X * W) unit :=
  config ← on_snd (config_for sign_svid_delegated s b peer_cid now);
  on_fst (write_msg config).

(** Run without interruption they are [handle_connection]. *)
Lemma handle_connection_phases s b nonce cid now c :
  handle_connection sign_svid_delegated PROTOCOL_VERSION MAX_MESSAGE_BYTES production s b nonce cid now c =
    (proof ← on_fst (hs_challenge nonce);
     ok ← on_fst (hs_verdict (s.(boot_measurements) !! cid) nonce proof cid);
     if ok : bool then hs_config s b cid now else mret tt) c.
Proof.
  destruct c as [x w]. unfold handle_connection, hs_challenge, hs_verdict, hs_config, mbind, M_bind, on_fst.
  destruct (write_msg (mkChallenge _ _) x) as [[u1|] x1]; [|done].
  destruct (read_msg _ x1) as [[proof|] x2]; [|done].
  by destruct (write_msg (attest_result _) x2) as [[u2|] x3].
Qed.

(** Where a spawned handshake is. *)
Inductive hs_phase :=
| Spawned
| Proven (nonce : bytes) (proof : VsockAttestationProof)
| Judged (nonce : bytes) (proof : VsockAttestationProof)
| Finished (r : Result unit).
Record Handshake := mkHandshake { hs_stream : X; hs_cid : Z; hs_at : hs_phase }.

(** The registries, the configuration builder, the key generator and the
    handshakes, oldest first. *)
Record ServerTask := mkServerTask {
  registries : VsockAttestServer;
  config_builder : WorkloadConfigBuilder;
  keygen : W;
  handshakes : list Handshake;
}.

(** The next stretch of one handshake; [nonce] is the one it draws. *)
Definition hs_step (nonce : bytes) (now : Z) (s : VsockAttestServer) (b : WorkloadConfigBuilder) (h : Handshake) (w : W) :
    Handshake * W :=
  let '(mkHandshake x cid at_) := h in
  match at_ with
  | Spawned =>
      match hs_challenge nonce x with
      | (Ok proof, x') => (mkHandshake x' cid (Proven nonce proof), w)
      | (Err e, x') => (mkHandshake x' cid (Finished (Err e)), w)
      end
  | Proven nonce proof =>
      match hs_verdict (s.(boot_measurements) !! cid) nonce proof cid x with
      | (Ok true, x') => (mkHandshake x' cid (Judged nonce proof), w)
      | (Ok false, x') => (mkHandshake x' cid (Finished (Ok tt)), w)
      | (Err e, x') => (mkHandshake x' cid (Finished (Err e)), w)
      end
  | Judged _ _ =>
      let '(r, (x', w')) := hs_config s b cid now (x, w) in (mkHandshake x' cid (Finished r), w')
  | Finished _ => (h, w)
  end.

(** What happens beside the accept loop: the launcher's registrations, the route
    task's and the key manager's changes to the builder, and the handshakes. *)
Inductive server_op :=
| RegisterMeasurement (cid : Z) (m : BootMeasurement)
| UnregisterMeasurement (cid : Z)
| RegisterContext (cid : Z) (ctx : WorkloadContext)
| UnregisterContext (cid : Z)
| SetBuilder (b : WorkloadConfigBuilder)
| Progress (i : nat) (nonce : bytes) (now : Z).

Definition on_registries (f : VsockAttestServer → VsockAttestServer) (t : ServerTask) : ServerTask :=
  mkServerTask (f t.(registries)) t.(config_builder) t.(keygen) t.(handshakes).
Definition run_server_op (o : server_op) (t : ServerTask) : ServerTask :=
  match o with
  | RegisterMeasurement cid m => on_registries (register_boot_measurement cid m) t
  | UnregisterMeasurement cid => on_registries (unregister_boot_measurement cid) t
  | RegisterContext cid ctx => on_registries (register_workload_context cid ctx) t
  | UnregisterContext cid => on_registries (unregister_workload_context cid) t
  | SetBuilder b => mkServerTask t.(registries) b t.(keygen) t.(handshakes)
  | Progress i nonce now =>
      match t.(handshakes) !! i with
      | Some h =>
          let '(h', w) := hs_step nonce now t.(registries) t.(config_builder) h t.(keygen) in
          mkServerTask t.(registries) t.(config_builder) w (<[i := h']> t.(handshakes))
      | None => t
      end
  end.

(** One accept: a connection is spawned, an error is logged. *)
Definition accept_tick (i : Result (X * Z)) : M AgentError ServerTask unit := λ t,
  (Ok tt, match i with
          | Ok (x, cid) => mkServerTask t.(registries) t.(config_builder) t.(keygen)
                             (t.(handshakes) ++ [mkHandshake x cid Spawned])
          | Err _ => t
          end).
Definition accept_loop (t : ServerTask) (ws : list (wake (Result (X * Z)) server_op)) :
    task_state AgentError * ServerTask :=
  run_task accept_tick id run_server_op t ws.

(** [VsockAttestServer::run]: no loop without a listening socket. *)
Definition server_run {Y} `{Sockets Y} (y : Y) (t : ServerTask) (ws : list (wake (Result (X * Z)) server_op)) :
    (task_state AgentError * ServerTask) * Y :=
  match vsock_listen y with
  | (Ok _, y') => (accept_loop t ws, y')
  | (Err e, y') => ((Ended e, t), y')
  end.
End server.

(** ** No descriptor is leaked *)

Section listen.
Context {X : Type} `{SocketsLaws X}.

Lemma or_close_ok {A} fd pre (c : M string X A) x a x' : or_close fd pre c x = (Ok a, x') → c x = (Ok a, x').
Proof. unfold or_close. by destruct (c x) as [[a'|e] x1]; intros [= <- <-]. Qed.
Lemma or_close_err {A} fd pre (c : M string X A) x e x' :
  or_close fd pre c x = (Err e, x') → open_fds x' = open_fds (c x).2 ∖ {[fd]}.
Proof. unfold or_close. destruct (c x) as [[a'|e'] x1]; intros [= <- <-]. apply close_fds. Qed.

(** Opening the listening socket opens exactly one descriptor, the one it
    returns; a failure on any of its three calls leaves none behind. *)
Theorem vsock_listen_fds x r x' :
  vsock_listen x = (r, x') →
  match r with
  | Ok fd => fd ∉ open_fds x ∧ open_fds x' = {[fd]} ∪ open_fds x
  | Err _ => open_fds x' = open_fds x
  end.
Proof.
  unfold vsock_listen. unfold mbind at 1, M_bind at 1.
  destruct (sock_socket x) as [[fd|e] x1] eqn:Hs; cbn [map_err]; [|intros [= <- <-]; by eapply socket_err].
  apply socket_ok in Hs as [Hfd Hopen]. unfold mbind at 1, M_bind at 1.
  pose proof (bind_fds fd x1) as Hb. pose proof (or_close_err fd "bind() failed: " (sock_bind fd) x1) as He.
  destruct (or_close fd "bind() failed: " (sock_bind fd) x1) as [[[]|e] x2] eqn:Hbind.
  2:{ intros [= <- <-]. rewrite (He _ _ eq_refl), Hb, Hopen. set_solver. }
  apply or_close_ok in Hbind. rewrite Hbind in Hb. cbn [snd] in Hb. unfold mbind, M_bind.
  pose proof (listen_fds fd 16 x2) as Hl. pose proof (or_close_err fd "listen() failed: " (sock_listen fd 16) x2) as He2.
  destruct (or_close fd "listen() failed: " (sock_listen fd 16) x2) as [[[]|e] x3] eqn:Hlis.
  - apply or_close_ok in Hlis. rewrite Hlis in Hl. cbn [snd] in Hl. intros [= <- <-]. by rewrite Hl, Hb.
  - intros [= <- <-]. rewrite (He2 _ _ eq_refl), Hl, Hb, Hopen. set_solver.
Qed.
End listen.

(** ** What a guest is told *)

Section facts.
Context {Y : Type} `{ByteStream Y}.
Context `{FleetCore} {OS : HashOrder SpiffeId} {W : Type} `{!KeyGen W}.
Context `{!VsockMsg VsockAttestationChallenge} `{!VsockMsg VsockAttestationProof}
        `{!VsockMsg AgentAttestResult} `{!VsockMsg WorkloadConfig}.
Context (sign_svid_delegated : DelegatedSigningKey → bytes → Z → Z → result string bytes).
Context (PROTOCOL_VERSION MAX_MESSAGE_BYTES : Z) (production : bool).
(** The launcher registers under a CID the measurement and the context of one
    VM only: CIDs are not reused (NodeGuests.v shows it of the node). *)
Context (measurement_of : Z → BootMeasurement) (context_of_cid : Z → WorkloadContext).
(** What is known of the builder, whatever the other tasks do to it. *)
Context (builder_ok : WorkloadConfigBuilder → Prop).
#[local] Abbreviation Conn := (Y * list bytes)%type.
#[local] Abbreviation accept_loop := (accept_loop (X := Conn) sign_svid_delegated PROTOCOL_VERSION MAX_MESSAGE_BYTES production).

Definition admissible (w : wake (Result (Conn * Z)) server_op) : Prop :=
  match w with
  | Ticked (Ok (x, _)) => x.2 = []
  | Meanwhile (RegisterMeasurement cid m) => m = measurement_of cid
  | Meanwhile (RegisterContext cid ctx) => ctx = context_of_cid cid
  | Meanwhile (SetBuilder b) => builder_ok b
  | _ => True
  end.

(** The configuration of a CID: that of its workload or, when its context is
    gone by then, the fallback. *)
Definition config_of_cid (cid : Z) (config : WorkloadConfig) : Prop :=
  ∃ b now w, builder_ok b ∧
    ((build sign_svid_delegated b (context_of_cid cid) now w).1 = Ok config ∨ build_fallback b = Ok config).
Definition verdict_on (cid : Z) (nonce : bytes) (proof : VsockAttestationProof) (v : Result VerifiedGuest) : Prop :=
  v = verify production proof nonce cid (Some (measurement_of cid)) ∨ v = verify production proof nonce cid None.

(** What a handshake has written when it is where it is. *)
Definition challenged (nonce : bytes) (l : list bytes) : Prop :=
  ∃ ch, frame_msg (mkChallenge PROTOCOL_VERSION nonce) = Ok ch ∧ l = [ch].
Definition judged (cid : Z) (nonce : bytes) (proof : VsockAttestationProof) (ok : bool) (l : list bytes) : Prop :=
  ∃ ch v verdict, challenged nonce [ch] ∧ verdict_on cid nonce proof v ∧ is_ok v = ok ∧
    frame_msg (attest_result v) = Ok verdict ∧ l = [ch; verdict].
Definition pushed (cid : Z) (l : list bytes) : Prop :=
  ∃ nonce proof config frame l0, judged cid nonce proof true l0 ∧ config_of_cid cid config ∧
    frame_msg config = Ok frame ∧ l = l0 ++ [frame].
Definition hs_wrote (h : Handshake (X := Conn)) : Prop :=
  let l := h.(hs_stream).2 in
  match h.(hs_at) with
  | Spawned => l = []
  | Proven nonce proof => challenged nonce l
  | Judged nonce proof => judged h.(hs_cid) nonce proof true l
  | Finished _ => l = [] ∨ (∃ nonce, challenged nonce l) ∨
      (∃ nonce proof ok, judged h.(hs_cid) nonce proof ok l) ∨ pushed h.(hs_cid) l
  end.

Definition registered_ok (s : VsockAttestServer) : Prop :=
  (∀ cid m, s.(boot_measurements) !! cid = Some m → m = measurement_of cid) ∧
  (∀ cid ctx, s.(workload_contexts) !! cid = Some ctx → ctx = context_of_cid cid).

Lemma hs_step_wrote nonce now s b h w :
  registered_ok s → builder_ok b → hs_wrote h →
  hs_wrote (hs_step sign_svid_delegated PROTOCOL_VERSION MAX_MESSAGE_BYTES production nonce now s b h w).1.
Proof.
  intros [Hm Hc] Hb Hh. destruct h as [[y l] cid [|n proof|n proof|r]]; unfold hs_wrote in Hh; cbn in Hh; unfold hs_step.
  - subst l. unfold hs_challenge, mbind, M_bind.
    destruct (write_msg (mkChallenge _ _) _) as [[[]|] [y1 l1]] eqn:H1; apply write_msg_log in H1; [|subst; by left].
    destruct H1 as (ch & Hch & ->). assert (challenged nonce [ch]) as Hlog by (by exists ch).
    destruct (read_msg _ _) as [[proof|] [y2 l2]] eqn:H2; apply read_msg_log in H2; subst l2; [exact Hlog|].
    right. left. by exists nonce.
  - unfold hs_verdict. set (v := verify _ _ _ _ _). unfold mbind, M_bind.
    assert (verdict_on cid n proof v) as Hv.
    { destruct (s.(boot_measurements) !! cid) as [m|] eqn:Hcid; [|by right]. apply Hm in Hcid as ->. by left. }
    destruct (write_msg (attest_result v) _) as [[[]|] [y1 l1]] eqn:H1; apply write_msg_log in H1;
      [|subst; right; left; by exists n].
    destruct H1 as (verdict & Hfr & ->). pose proof Hh as (ch & Hch & ->).
    assert (judged cid n proof (is_ok v) ([ch] ++ [verdict])) as Hj by (by exists ch, v, verdict).
    destruct v as [g|e]; [exact Hj|]. right. right. left. by exists n, proof, false.
  - unfold hs_config, mbind, M_bind, on_snd.
    destruct (config_for _ s b cid now w) as [[config|] w1] eqn:Hcfg; [|right; right; left; by exists n, proof, true].
    unfold on_fst. destruct (write_msg config _) as [[[]|] [y1 l1]] eqn:H1; apply write_msg_log in H1;
      [|subst; right; right; left; by exists n, proof, true].
    destruct H1 as (frame & Hfr & ->). right. right. right. exists n, proof, config, frame, l.
    split; [done|]. split; [|done]. unfold config_for in Hcfg. exists b, now, w. split; [exact Hb|].
    destruct (s.(workload_contexts) !! cid) as [ctx|] eqn:Hctx; [|right; by injection Hcfg as <-].
    apply Hc in Hctx as ->. left. exact (f_equal fst Hcfg).
  - exact Hh.
Qed.

(** The connections accepted before the signal, by peer. *)
Fixpoint accepted_cids (ws : list (wake (Result (Conn * Z)) server_op)) : list Z :=
  match ws with
  | [] | Changed true :: _ => []
  | Ticked (Ok (_, cid)) :: ws => cid :: accepted_cids ws
  | _ :: ws => accepted_cids ws
  end.

Definition task_ok (t : task_state AgentError * ServerTask (X := Conn) (W := W)) : Prop :=
  registered_ok t.2.(registries) ∧ builder_ok t.2.(config_builder) ∧ Forall hs_wrote t.2.(handshakes).

Lemma server_step_ok t w : admissible w → task_ok t →
  task_ok (task_step accept_tick id
    (run_server_op sign_svid_delegated PROTOCOL_VERSION MAX_MESSAGE_BYTES production) t w).
Proof.
  destruct t as [st t]. intros Hw ([Hm Hc] & Hb & Hh). destruct w as [v|[[[y l] cid]|e]|o]; cbn in Hw.
  - by destruct st, v.
  - destruct st; try done. split; [done|]. split; [done|]. cbn. apply Forall_app. split; [exact Hh|]. by constructor.
  - by destruct st.
  - destruct o as [cid m|cid|cid ctx|cid|b|i nonce now]; cbn -[register_boot_measurement]; try done.
    1-4: split; [|exact (conj Hb Hh)]; split; cbn; intros k x; rewrite ?lookup_insert_Some, ?lookup_delete_Some; naive_solver.
    destruct (t.(handshakes) !! i) as [h|] eqn:Hi; [|done].
    pose proof (hs_step_wrote nonce now t.(registries) t.(config_builder) h t.(keygen) (conj Hm Hc) Hb
      (Forall_lookup_1 _ _ _ _ Hh Hi)) as Hs.
    destruct (hs_step _ _ _ _ nonce now t.(registries) t.(config_builder) h t.(keygen)) as [h' w'].
    split; [done|]. split; [done|]. by apply Forall_insert.
Qed.

Lemma hs_step_cid nonce now s b (h : Handshake (X := Conn)) w :
  (hs_step sign_svid_delegated PROTOCOL_VERSION MAX_MESSAGE_BYTES production nonce now s b h w).1.(hs_cid) = h.(hs_cid).
Proof.
  destruct h as [x cid [|n proof|n proof|r]]; cbn; [| | |done].
  - by destruct (hs_challenge _ _ nonce x) as [[?|] ?].
  - by destruct (hs_verdict _ _ n proof cid x) as [[[]|] ?].
  - by destruct (hs_config _ s b cid now (x, w)) as [? [? ?]].
Qed.

Lemma server_op_cids o t :
  hs_cid <$> (run_server_op sign_svid_delegated PROTOCOL_VERSION MAX_MESSAGE_BYTES production o t).(handshakes) =
    hs_cid <$> (t : ServerTask (X := Conn) (W := W)).(handshakes).
Proof.
  destruct o; try done. cbn. destruct (t.(handshakes) !! i) as [h|] eqn:Hi; [|done].
  pose proof (hs_step_cid nonce now t.(registries) t.(config_builder) h t.(keygen)) as Hcid.
  destruct (hs_step _ _ _ _ _ _ _ _ _ _) as [h' w']. cbn in *.
  rewrite list_fmap_insert, Hcid. apply list_insert_id. by rewrite list_lookup_fmap, Hi.
Qed.

Lemma accept_cids_from st t ws :
  let step := task_step accept_tick id (run_server_op sign_svid_delegated PROTOCOL_VERSION MAX_MESSAGE_BYTES production) in
  hs_cid <$> (foldl step (st, t) ws).2.(handshakes) =
    (hs_cid <$> (t : ServerTask (X := Conn) (W := W)).(handshakes)) ++
      match st with Running => accepted_cids ws | _ => [] end.
Proof.
  cbn zeta. revert st t. induction ws as [|w ws IH]; intros st t; [by destruct st; rewrite app_nil_r|]. cbn [foldl].
  destruct w as [[]|[[x cid]|e]|o].
  - destruct st; cbn [task_step accepted_cids]; by rewrite IH.
  - destruct st; cbn [task_step accepted_cids]; by rewrite IH.
  - destruct st; cbn [task_step accept_tick accepted_cids]; rewrite IH; [|done..]. cbn [handshakes].
    by rewrite fmap_app, <-app_assoc.
  - destruct st; cbn [task_step accept_tick accepted_cids]; by rewrite IH.
  - cbn [task_step accepted_cids]. by rewrite IH, server_op_cids.
Qed.

(** Over any interleaving of connections, registrations, teardowns and
    handshakes that run at their own pace: every connection accepted before the
    shutdown signal, and no other, is handshaken once with its peer's CID; the
    frames written to it are the challenge, one verdict and a configuration, in
    this order; the configuration follows only an acceptance against the
    measurement registered for this CID (or, in a build that allows it, none) and
    is that of its own workload or the empty fallback, never another guest's,
    even when the launcher tears a VM down between the verdict and the push. *)
Theorem guest_isolation s b w ws :
  registered_ok s → builder_ok b → Forall admissible ws →
  let t := (accept_loop (mkServerTask s b w []) ws).2 in
  hs_cid <$> t.(handshakes) = accepted_cids ws ∧ Forall hs_wrote t.(handshakes).
Proof.
  intros Hs Hb Hws. cbn zeta. split; [apply accept_cids_from|].
  assert (task_ok (accept_loop (mkServerTask s b w []) ws)) as (_ & _ & Hh); [|exact Hh].
  apply (task_invariant accept_tick id (run_server_op sign_svid_delegated PROTOCOL_VERSION MAX_MESSAGE_BYTES production)
    task_ok); [|by split; [|split; [|constructor]]]. intros t o Ho. apply server_step_ok.
  rewrite Forall_forall in Hws. by apply Hws.
Qed.
End facts.

(** ** Witnesses *)

(** The open descriptors of a host whose port is taken. *)
#[export] Instance table_sockets : Sockets (gset Z) := {
  sock_socket x := (Ok (fresh x), {[fresh x]} ∪ x);
  sock_bind _ x := (Ok tt, x);
  sock_listen _ _ x := (Err "EADDRINUSE", x);
  sock_accept _ x := (Err "EINVAL", x);
  sock_close fd x := x ∖ {[fd]};
}.
#[export] Instance table_sockets_laws : SocketsLaws (gset Z).
Proof.
  refine {| open_fds := id |}; cbn; try done.
  intros x fd x' [= <- <-]. split; [apply is_fresh|done].
Defined.

Lemma vsock_listen_fds_witness :
  ∃ e x', vsock_listen ({[3; 4]} : gset Z) = (Err e, x') ∧ open_fds x' = {[3; 4]}.
Proof.
  destruct (vsock_listen ({[3; 4]} : gset Z)) as [r x'] eqn:Hrun.
  pose proof (vsock_listen_fds _ _ _ Hrun) as Hfds. destruct r as [fd|e]; [discriminate Hrun|].
  by exists e, x'.
Defined.

(** The VM behind CID 3 is torn down between its verdict and its
    configuration. *)
Definition torn_down : list (wake (Result ((bytes * list bytes) * Z)) server_op) :=
  [Meanwhile (RegisterMeasurement 3 sample_measurement); Meanwhile (RegisterContext 3 web_context);
   Ticked (Ok ((le_bytes 4 64 ++ sample_proof.(raw_quote), []), 3)); Ticked (Err (Internal "accept() failed: EINTR"));
   Meanwhile (Progress 0 sample_nonce 0); Meanwhile (Progress 0 [] 0);
   Meanwhile (UnregisterMeasurement 3); Meanwhile (UnregisterContext 3);
   Changed true; Meanwhile (Progress 0 [] 0)].
Definition torn_down_run : ServerTask (H0 := sample_core) (X := bytes * list bytes) (W := nat) :=
  (accept_loop (H0 := sample_core) (X := bytes * list bytes) sample_sign 1 4096 true
    (mkServerTask VsockAttestServer_new node_builder O []) torn_down).2.

Lemma guest_isolation_witness :
  hs_cid <$> torn_down_run.(handshakes) = [3] ∧
  Forall (hs_wrote sample_sign 1 true (λ _, sample_measurement) (λ _, web_context) (λ b, b = node_builder)) torn_down_run.(handshakes).
Proof.
  apply (guest_isolation sample_sign 1 4096 true (λ _, sample_measurement) (λ _, web_context) (λ b, b = node_builder)
    VsockAttestServer_new node_builder O torn_down); [split; intros k x Hk; cbn in Hk; by rewrite lookup_empty in Hk|done|].
  repeat constructor.
Defined.

Example torn_down_fallback :
  (λ h, length h.(hs_stream).2) <$> torn_down_run.(handshakes) = [3%nat].
Proof. by vm_compute. Qed.
