(* ===== verification/Workloads.v ===== *)
(** The workload manager (src/workloads/mod.rs): boot and eviction of pods over
    the runtime adapters, the IP allocator, the boot-race guard, the source
    identity registry, the probe runners and the attestation registrar.  Each
    collaborator is a component of the state; the traits are classes. *)
From S2P Require Import Prelude Errors Core Routes IpAllocator Degraded NetGuard Counters Pods.
From S2P Require Import Probes Volumes Netns Containerd MicroVm Attest PodEvents.

(** ** The traits *)

Class NetGuard (G : Type) := {
  guard_arm : string → M AgentError G unit;
  guard_disarm : string → M AgentError G unit;
}.
Class SrcIdentityRegistry (R : Type) := {
  registry_register : Z → bytes → M AgentError R unit;
  registry_unregister : Z → M AgentError R unit;
}.
(** What the manager relies on: the identity of an address.  A registry refuses
    to remove what it does not have; what it has it removes. *)
Class SrcIdentityLaws (R : Type) `{SrcIdentityRegistry R} := {
  identity_of : R → Z → option bytes;
  register_ok ip fp r r' : registry_register ip fp r = (Ok tt, r') →
    ∀ i, identity_of r' i = if decide (ip = i) then Some fp else identity_of r i;
  register_err ip fp r e r' : registry_register ip fp r = (Err e, r') →
    ∀ i, identity_of r' i = identity_of r i;
  unregister_ok ip r r' : registry_unregister ip r = (Ok tt, r') →
    ∀ i, identity_of r' i = if decide (ip = i) then None else identity_of r i;
  unregister_err ip r e r' : registry_unregister ip r = (Err e, r') →
    ∀ i, identity_of r' i = identity_of r i;
  unregister_present ip fp r : identity_of r ip = Some fp → ∃ r', registry_unregister ip r = (Ok tt, r');
}.
(** So a removal, refused or not, leaves the address without an identity. *)
Lemma unregister_clears {R} `{SrcIdentityLaws R} ip (r : R) i :
  identity_of (registry_unregister ip r).2 i = if decide (ip = i) then None else identity_of r i.
Proof.
  destruct (registry_unregister ip r) as [[[]|e] r'] eqn:Hu; cbn; [exact (unregister_ok _ _ _ Hu i)|].
  rewrite (unregister_err _ _ _ _ Hu i). case_decide as Hi; [|done]. subst i.
  destruct (identity_of r ip) as [fp|] eqn:Hf; [|done]. destruct (unregister_present ip fp r Hf) as [r1 Hr1]. congruence.
Qed.

#[export] Instance adapter_guard {E G} `{Aya E G} : NetGuard (VmNetGuardAdapter (E := E) (G := G)) :=
  { guard_arm := arm; guard_disarm := disarm }.

(** SRC_IDENTITY_MAP (src/routes/table.rs), the registry of [VmNetGuardAdapter]. *)
Definition register_src_identity {T} `{KernelMap T Z bytes} (source_ip : Z) (fp : bytes) : M AgentError T unit :=
  ebpf_err "SRC_IDENTITY_MAP insert" (λ m, km_insert m source_ip fp).
Definition unregister_src_identity {T} `{KernelMap T Z bytes} (source_ip : Z) : M AgentError T unit :=
  ebpf_err "SRC_IDENTITY_MAP remove" (λ m, km_remove m source_ip).
#[export] Instance map_registry {T} `{KernelMap T Z bytes} : SrcIdentityRegistry T :=
  { registry_register := register_src_identity; registry_unregister := unregister_src_identity }.
#[export] Instance map_registry_laws {T} `{!KernelMap T Z bytes} `{!KernelMapLaws T Z bytes} : SrcIdentityLaws T.
Proof.
  refine {| identity_of m i := km_lookup m i |}.
  - intros ip fp m m' Hr i. cbn in Hr. unfold register_src_identity, ebpf_err in Hr.
    destruct (km_insert m ip fp) as [[[]|] m1] eqn:Hi; cbn in Hr; [|done]. injection Hr as <-.
    apply (km_insert_ok _ _ _ _ Hi).
  - intros ip fp m e m' Hr i. cbn in Hr. unfold register_src_identity, ebpf_err in Hr.
    destruct (km_insert m ip fp) as [[[]|] m1] eqn:Hi; cbn in Hr; [done|]. injection Hr as _ <-.
    by rewrite (km_insert_err _ _ _ _ _ Hi).
  - intros ip m m' Hr i. cbn in Hr. unfold unregister_src_identity, ebpf_err in Hr.
    destruct (km_remove m ip) as [[[]|] m1] eqn:Hi; cbn in Hr; [|done]. injection Hr as <-.
    apply (km_remove_ok _ _ _ Hi).
  - intros ip m e m' Hr i. cbn in Hr. unfold unregister_src_identity, ebpf_err in Hr.
    destruct (km_remove m ip) as [[[]|] m1] eqn:Hi; cbn in Hr; [done|]. injection Hr as _ <-.
    by rewrite (km_remove_err _ _ _ _ Hi).
  - intros ip fp m Hf. destruct (km_remove_present _ _ _ Hf) as [m' Hm]. exists m'. cbn.
    unfold unregister_src_identity, ebpf_err. by rewrite Hm.
Defined.

(** ** Fingerprints *)

Definition workload_fingerprint `{FleetCore} (trust_domain tenant_id workload_id role : string) : Result bytes :=
  role ← map_err (λ e, Workload ("invalid workload role " +:+ debug_str role +:+ ": " +:+ e)) (role_parse role);
  mret (fingerprint_of (spiffe_new trust_domain tenant_id kind_sa workload_id) (Some role)).

(** ** The manager *)

(** Successive readings of the clocks: unix seconds, and milliseconds of the
    monotonic clock. *)
Class Clock (C : Type) := { read_clock : C → (Z * Z) * C }.

Section manager.
Context `{FleetCore} {OS : HashOrder string} {OZ : HashOrder Z}.
Context {D F W V G R A T S Ev C : Type}.
Context `{ContainerdServices D} `{FileSystem F} `{Directories F} `{Shell W} `{NetGuard G}
  `{SrcIdentityRegistry R} `{AttestationRegistrar A} `{!KernelMap T Z (list PodNetCounters)} `{Clock C}.
(** the VM behind an API socket *)
Context (vmm : string → VmmClient V).
(** serde_json, file contents and BLAKE3, the key request of degraded.rs, and
    the event service *)
Context (to_vec : Json → result string bytes).
Context (file_read : F → string → result string bytes) (blake3 : bytes → bytes).
Context (wire_from_bytes : bytes → result string DelegatedSigningKey)
        (request_delegated_key : DelegatedKeyRequest → M AgentError S DelegatedKeyResponse).
Context (report_pod_events : list PodEvent → M string Ev unit).
#[local] Abbreviation KeyManager := (gmap SpiffeId DelegatedKeyEntry).

(** Fields that never change once the manager is built. *)
Record ManagerConfig := mkManagerConfig {
  volume_config : VolumeConfig;
  mc_trust_domain : string;
  image_cache_path : string;
  mc_kernel_path : string;
  guest_init_path : string;
  node_spiffe_id : SpiffeId;
  delegated_key_ttl_secs : Z;
  possible_cpus : nat;
}.

Record WorkloadManager := mkManager {
  containerd : ContainerdAdapter (D := D) (F := F);
  shell : W;
  vms : V;
  pod_manager : gmap string Pod;
  cid_allocator : Z;
  net_guard : option G;
  (** live adapters by CID; an adapter is its API socket *)
  microvms : gmap Z string;
  src_identity : option R;
  ip_allocator : NodeIpAllocator;
  pod_source_ips : gmap string Z;
  (** the control-plane client and the delegated keys *)
  delegation : option (S * KeyManager);
  event_reporter : option (PodEventReporter Ev);
  probes : option (gmap string ProbeSetRunner);
  attestation : option A;
  pod_net_counters : option T;
  clock : C;
}.

(** Field updates. *)
Definition set_containerd x m := mkManager x m.(shell) m.(vms) m.(pod_manager) m.(cid_allocator) m.(net_guard)
  m.(microvms) m.(src_identity) m.(ip_allocator) m.(pod_source_ips) m.(delegation) m.(event_reporter)
  m.(probes) m.(attestation) m.(pod_net_counters) m.(clock).
Definition set_shell x m := mkManager m.(containerd) x m.(vms) m.(pod_manager) m.(cid_allocator) m.(net_guard)
  m.(microvms) m.(src_identity) m.(ip_allocator) m.(pod_source_ips) m.(delegation) m.(event_reporter)
  m.(probes) m.(attestation) m.(pod_net_counters) m.(clock).
Definition set_vms x m := mkManager m.(containerd) m.(shell) x m.(pod_manager) m.(cid_allocator) m.(net_guard)
  m.(microvms) m.(src_identity) m.(ip_allocator) m.(pod_source_ips) m.(delegation) m.(event_reporter)
  m.(probes) m.(attestation) m.(pod_net_counters) m.(clock).
Definition set_pod_manager x m := mkManager m.(containerd) m.(shell) m.(vms) x m.(cid_allocator) m.(net_guard)
  m.(microvms) m.(src_identity) m.(ip_allocator) m.(pod_source_ips) m.(delegation) m.(event_reporter)
  m.(probes) m.(attestation) m.(pod_net_counters) m.(clock).
Definition set_cid_allocator x m := mkManager m.(containerd) m.(shell) m.(vms) m.(pod_manager) x m.(net_guard)
  m.(microvms) m.(src_identity) m.(ip_allocator) m.(pod_source_ips) m.(delegation) m.(event_reporter)
  m.(probes) m.(attestation) m.(pod_net_counters) m.(clock).
Definition set_net_guard x m := mkManager m.(containerd) m.(shell) m.(vms) m.(pod_manager) m.(cid_allocator) x
  m.(microvms) m.(src_identity) m.(ip_allocator) m.(pod_source_ips) m.(delegation) m.(event_reporter)
  m.(probes) m.(attestation) m.(pod_net_counters) m.(clock).
Definition set_microvms x m := mkManager m.(containerd) m.(shell) m.(vms) m.(pod_manager) m.(cid_allocator)
  m.(net_guard) x m.(src_identity) m.(ip_allocator) m.(pod_source_ips) m.(delegation) m.(event_reporter)
  m.(probes) m.(attestation) m.(pod_net_counters) m.(clock).
Definition set_src_identity x m := mkManager m.(containerd) m.(shell) m.(vms) m.(pod_manager) m.(cid_allocator)
  m.(net_guard) m.(microvms) x m.(ip_allocator) m.(pod_source_ips) m.(delegation) m.(event_reporter)
  m.(probes) m.(attestation) m.(pod_net_counters) m.(clock).
Definition set_ip_allocator x m := mkManager m.(containerd) m.(shell) m.(vms) m.(pod_manager) m.(cid_allocator)
  m.(net_guard) m.(microvms) m.(src_identity) x m.(pod_source_ips) m.(delegation) m.(event_reporter)
  m.(probes) m.(attestation) m.(pod_net_counters) m.(clock).
Definition set_pod_source_ips x m := mkManager m.(containerd) m.(shell) m.(vms) m.(pod_manager) m.(cid_allocator)
  m.(net_guard) m.(microvms) m.(src_identity) m.(ip_allocator) x m.(delegation) m.(event_reporter)
  m.(probes) m.(attestation) m.(pod_net_counters) m.(clock).
Definition set_delegation x m := mkManager m.(containerd) m.(shell) m.(vms) m.(pod_manager) m.(cid_allocator)
  m.(net_guard) m.(microvms) m.(src_identity) m.(ip_allocator) m.(pod_source_ips) x m.(event_reporter)
  m.(probes) m.(attestation) m.(pod_net_counters) m.(clock).
Definition set_event_reporter x m := mkManager m.(containerd) m.(shell) m.(vms) m.(pod_manager) m.(cid_allocator)
  m.(net_guard) m.(microvms) m.(src_identity) m.(ip_allocator) m.(pod_source_ips) m.(delegation) x
  m.(probes) m.(attestation) m.(pod_net_counters) m.(clock).
Definition set_probe_manager x m := mkManager m.(containerd) m.(shell) m.(vms) m.(pod_manager) m.(cid_allocator)
  m.(net_guard) m.(microvms) m.(src_identity) m.(ip_allocator) m.(pod_source_ips) m.(delegation) m.(event_reporter)
  x m.(attestation) m.(pod_net_counters) m.(clock).
Definition set_attestation x m := mkManager m.(containerd) m.(shell) m.(vms) m.(pod_manager) m.(cid_allocator)
  m.(net_guard) m.(microvms) m.(src_identity) m.(ip_allocator) m.(pod_source_ips) m.(delegation) m.(event_reporter)
  m.(probes) x m.(pod_net_counters) m.(clock).
Definition set_counters x m := mkManager m.(containerd) m.(shell) m.(vms) m.(pod_manager) m.(cid_allocator)
  m.(net_guard) m.(microvms) m.(src_identity) m.(ip_allocator) m.(pod_source_ips) m.(delegation) m.(event_reporter)
  m.(probes) m.(attestation) x m.(clock).
Definition set_clock x m := mkManager m.(containerd) m.(shell) m.(vms) m.(pod_manager) m.(cid_allocator)
  m.(net_guard) m.(microvms) m.(src_identity) m.(ip_allocator) m.(pod_source_ips) m.(delegation) m.(event_reporter)
  m.(probes) m.(attestation) m.(pod_net_counters) x.

#[local] Abbreviation WM := (M AgentError WorkloadManager).
(** The agent's files are those the containerd adapter writes to. *)
Definition on_mfiles {B} (c : M AgentError F B) : WM B :=
  zoom (λ m, m.(containerd).(cd_files))
    (λ f m, set_containerd (mkContainerd m.(containerd).(hosts_content) m.(containerd).(cd_channel)
                              m.(containerd).(daemon) f) m) c.
Definition now : WM (Z * Z) :=
  zoom clock set_clock (λ c, let '(t, c) := read_clock c in (Ok t, c)).

Context (cfg : ManagerConfig).

(** ** Booting *)

Definition boot_containerd (spec : WorkloadSpec PodSpec) (mounts : list PreparedMount)
    (container_ip gateway_ip : Z) : WM Z :=
  pod_spec ← lift (ok_or (Workload "containerd boot requires full PodSpec") spec.(spec_pod_spec));
  let pod_id := pod_id_of spec pod_spec in
  ns ← zoom shell set_shell (prepare_netns pod_id container_ip gateway_ip);
  on_error (zoom containerd set_containerd (Containerd.boot to_vec spec mounts ns))
    (zoom shell set_shell (destroy_netns pod_id)).

Definition interface_name (cid : Z) : string := "vmtap" +:+ pretty cid.
Definition api_socket (cid : Z) : string := "/run/fleetos/vm/" +:+ pretty cid +:+ "/api.sock".

(** [ip.to_be_bytes()]. *)
Definition context_for (pod_spec : option PodSpec) (gip gw : Z) : WorkloadContext :=
  mkContext (default (mkPodSpec None "" "" "" [] [] [] None None None) pod_spec)
    (be_bytes 4 gip) [byte_of_Z 255; byte_of_Z 255; byte_of_Z 255; byte_of_Z 252] (be_bytes 4 gw).

Definition boot_microvm_inner (spec : WorkloadSpec PodSpec) (mounts : list PreparedMount) (cid : Z)
    (interface : string) (gip gw : Z) : WM Z :=
  let adapter := api_socket cid in
  rootfs_path ← lift (oci_to_erofs spec.(spec_image) cfg.(image_cache_path));
  m ← get;
  measurement ← lift (compute_boot_measurement (file_read m.(containerd).(cd_files)) blake3
                        cfg.(mc_kernel_path) rootfs_path cfg.(guest_init_path));
  let context := context_for spec.(spec_pod_spec) gip gw in
  _ ← zoom_opt attestation set_attestation
        (modify (λ a, register_workload_context cid context (register_boot_measurement cid measurement a)));
  handle ← zoom vms set_vms (vm_boot (H := vmm adapter) spec cid mounts rootfs_path interface gw);
  _ ← zoom microvms set_microvms (modify (insert cid adapter));
  mret handle.

Definition unregister_attestation (cid : Z) : WM unit :=
  zoom_opt attestation set_attestation
    (modify (λ a, unregister_workload_context cid (unregister_boot_measurement cid a))).

Definition boot_microvm (spec : WorkloadSpec PodSpec) (mounts : list PreparedMount) (gip gw : Z) : WM Z :=
  _ ← lift (validate_microvm_mounts mounts);
  cid ← zoom cid_allocator set_cid_allocator (λ n, let '(cid, n) := cid_allocate n in (Ok cid, n));
  let interface := interface_name cid in
  m ← get;
  match m.(net_guard) with
  | None =>
      fail (Workload ("boot aborted: NetGuard (VmNetGuard) not armed before MicroVM boot (fail-closed)"))
  | Some _ =>
      _ ← zoom_opt net_guard set_net_guard (guard_arm interface);
      on_error (boot_microvm_inner spec mounts cid interface gip gw)
        (_ ← unregister_attestation cid;
         ignore (zoom_opt net_guard set_net_guard (guard_disarm interface)))
  end.

(** The delegated key for the workload; a failure is logged. *)
Definition request_workload_key (spec : WorkloadSpec PodSpec) (pod_spec : PodSpec) : WM unit :=
  ignore (zoom_opt delegation set_delegation
    (request_and_install wire_from_bytes request_delegated_key cfg.(node_spiffe_id)
      (spiffe_new cfg.(mc_trust_domain) pod_spec.(ps_tenant_id) kind_sa spec.(spec_workload_id))
      pod_spec.(ps_ordinal) cfg.(delegated_key_ttl_secs))).

(** Registers the source address; a refusal gives the pair back. *)
Definition register_source (pod_id : string) (wl : Z) (fp : bytes) : WM (option Z) :=
  m ← get;
  match m.(src_identity) with
  | None => mret None
  | Some _ =>
      _ ← on_error (zoom_opt src_identity set_src_identity (registry_register wl fp))
            (zoom ip_allocator set_ip_allocator (modify (release_p2p_pair pod_id)));
      mret (Some wl)
  end.

Definition unregister_source (registered_ip : option Z) : WM unit :=
  match registered_ip with
  | Some ip => zoom_opt src_identity set_src_identity (registry_unregister ip)
  | None => mret tt
  end.

Definition booted_pod (pod_id : string) (spec : WorkloadSpec PodSpec) (pod_spec : PodSpec) (fp : bytes)
    (handle now_unix : Z) : Pod :=
  mark_started (set_pid (Some handle) (set_state Booting
    (Pod_new pod_id spec.(spec_workload_id) pod_spec.(ps_tenant_id) spec.(spec_role) spec.(spec_runtime) fp now_unix))).

Definition boot_runtime (spec : WorkloadSpec PodSpec) (mounts : list PreparedMount) (wl_ip gw_ip : Z) : WM Z :=
  match spec.(spec_runtime) with
  | Pods.Containerd => boot_containerd spec mounts wl_ip gw_ip
  | CloudHypervisor => boot_microvm spec mounts wl_ip gw_ip
  end.

(** What a boot has when it comes to start the runtime. *)
Record prepared_pod := mkPrepared {
  pr_pod_spec : PodSpec;
  pr_mounts : list PreparedMount;
  pr_fp : bytes;
  pr_pair : Z * Z;
  pr_registered_ip : option Z;
}.
(** What it leaves to be recorded. *)
Record started_pod := mkStarted {
  st_pod_spec : PodSpec;
  st_fp : bytes;
  st_registered_ip : option Z;
  st_handle : Z;
}.

(** [boot_pod] up to the start of the runtime. *)
Definition prepare_pod (spec : WorkloadSpec PodSpec) : WM prepared_pod :=
  pod_spec ← lift (ok_or (Workload "boot requires full PodSpec") spec.(spec_pod_spec));
  let pod_id := pod_id_of spec pod_spec in
  mounts ← on_mfiles (prepare_mounts cfg.(volume_config) pod_id pod_spec.(ps_volumes) pod_spec.(ps_volume_mounts));
  fp ← lift (workload_fingerprint cfg.(mc_trust_domain) pod_spec.(ps_tenant_id) spec.(spec_workload_id)
               spec.(spec_role));
  _ ← request_workload_key spec pod_spec;
  pair ← zoom ip_allocator set_ip_allocator (allocate_p2p_pair pod_id);
  registered_ip ← register_source pod_id pair.2 fp;
  _ ← ignore (zoom_opt pod_net_counters set_counters (prepopulate_pod_counters cfg.(possible_cpus) pair.2));
  mret (mkPrepared pod_spec mounts fp pair registered_ip).

(** The start itself; a failure releases the identity and the pair. *)
Definition start_runtime (spec : WorkloadSpec PodSpec) (p : prepared_pod) : WM started_pod :=
  handle ← on_error (boot_runtime spec p.(pr_mounts) p.(pr_pair).2 p.(pr_pair).1)
    (_ ← ignore (unregister_source p.(pr_registered_ip));
     zoom ip_allocator set_ip_allocator (modify (release_p2p_pair (pod_id_of spec p.(pr_pod_spec)))));
  mret (mkStarted p.(pr_pod_spec) p.(pr_fp) p.(pr_registered_ip) handle).

(** [boot_pod] up to the running workload. *)
Definition start_pod (spec : WorkloadSpec PodSpec) : WM started_pod :=
  p ← prepare_pod spec;
  start_runtime spec p.

(** The rest of [boot_pod]: the pod's record, its address and its probes. *)
Definition record_pod (spec : WorkloadSpec PodSpec) (p : started_pod) : WM Z :=
  let pod_id := pod_id_of spec p.(st_pod_spec) in
  t ← now;
  _ ← match p.(st_registered_ip) with
      | Some ip => zoom pod_source_ips set_pod_source_ips (modify (insert pod_id ip))
      | None => mret tt
      end;
  _ ← zoom pod_manager set_pod_manager
        (modify (add_pod (booted_pod pod_id spec p.(st_pod_spec) p.(st_fp) p.(st_handle) t.1)));
  _ ← zoom_opt probes set_probe_manager
        (modify (register_pod pod_id (ProbeSetRunner_new p.(st_pod_spec).(ps_probes) t.2)));
  mret p.(st_handle).

Definition boot_pod (spec : WorkloadSpec PodSpec) : WM Z :=
  p ← start_pod spec;
  record_pod spec p.

(** ** Eviction *)

Definition grace : Z := 30.

(** The runtime's part: stop, and for a MicroVM drop the adapter, disarm and
    unregister. *)
Definition stop_pod (pod_id : string) (runtime : RuntimeKind) (handle : Z) : WM unit :=
  match runtime with
  | Pods.Containerd => zoom containerd set_containerd (Containerd.stop pod_id grace)
  | CloudHypervisor =>
      m ← get;
      _ ← match m.(microvms) !! handle with
          | Some adapter =>
              _ ← zoom microvms set_microvms (modify (delete handle));
              _ ← zoom vms set_vms (vm_stop (H := vmm adapter) handle grace);
              ignore (zoom_opt net_guard set_net_guard (guard_disarm (interface_name handle)))
          | None => mret tt
          end;
      unregister_attestation handle
  end.

(** Source identity, IP pair and namespace of the pod. *)
Definition release_network (pod_id : string) (runtime : RuntimeKind) : WM unit :=
  m ← get;
  _ ← zoom pod_source_ips set_pod_source_ips (modify (delete pod_id));
  match m.(pod_source_ips) !! pod_id with
  | Some src_ip =>
      _ ← ignore (zoom_opt src_identity set_src_identity (registry_unregister src_ip));
      _ ← zoom ip_allocator set_ip_allocator (modify (release_p2p_pair pod_id));
      match runtime with
      | Pods.Containerd => ignore (zoom shell set_shell (destroy_netns pod_id))
      | CloudHypervisor => mret tt
      end
  | None => mret tt
  end.

Definition evict_pod (pod_id : string) : WM unit :=
  m ← get;
  pod ← lift (ok_or (Workload ("pod " +:+ pod_id +:+ " not found")) (get_pod pod_id m.(pod_manager)));
  let runtime := pod.(runtime) in
  let handle := default 0 pod.(pid) in
  _ ← zoom pod_manager set_pod_manager (modify (update_pod begin_eviction pod_id));
  _ ← zoom_opt probes set_probe_manager (modify (unregister_pod pod_id));
  t ← now;
  _ ← ignore (zoom_opt event_reporter set_event_reporter
                (record_event report_pod_events t.1 pod_id EVICTING "" ""));
  _ ← stop_pod pod_id runtime handle;
  _ ← release_network pod_id runtime;
  _ ← on_mfiles (teardown_pod_scratch cfg.(volume_config) pod_id);
  zoom pod_manager set_pod_manager (modify (remove_pod pod_id)).

(** ** Reconciliation: failures are logged *)

Definition evict_all (ids : list string) (m : WorkloadManager) : WorkloadManager :=
  foldl (λ m id, (evict_pod id m).2) m ids.
Definition boot_all (specs : list (WorkloadSpec PodSpec)) (m : WorkloadManager) : WorkloadManager :=
  foldl (λ m spec, (boot_pod spec m).2) m specs.
Definition manager_reconcile (desired : list (WorkloadSpec PodSpec)) : WM unit := λ m,
  let result := reconcile desired m.(pod_manager) in
  (Ok tt, boot_all result.(to_boot) (evict_all result.(to_evict) m)).

Definition resize_microvm (vsock_cid vcpus memory_mb : Z) : WM unit :=
  m ← get;
  adapter ← lift (ok_or (Workload ("no MicroVM for cid " +:+ pretty vsock_cid)) (m.(microvms) !! vsock_cid));
  zoom vms set_vms (vm_resize (H := vmm adapter) vcpus memory_mb).

(** ** What each step leaves alone *)

Lemma boot_runtime_keeps {X} (f : WorkloadManager → X) spec mounts wl gw :
  (∀ x m, f (set_containerd x m) = f m) → (∀ x m, f (set_shell x m) = f m) → (∀ x m, f (set_vms x m) = f m) →
  (∀ x m, f (set_cid_allocator x m) = f m) → (∀ x m, f (set_net_guard x m) = f m) →
  (∀ x m, f (set_microvms x m) = f m) → (∀ x m, f (set_attestation x m) = f m) →
  keeps f (boot_runtime spec mounts wl gw).
Proof.
  intros Hc Hs Hv Hn Hg Hm Ha. unfold boot_runtime, boot_containerd, boot_microvm, boot_microvm_inner,
    unregister_attestation. keeps.
Qed.
Lemma start_pod_keeps {X} (f : WorkloadManager → X) spec :
  (∀ x m, f (set_containerd x m) = f m) → (∀ x m, f (set_shell x m) = f m) → (∀ x m, f (set_vms x m) = f m) →
  (∀ x m, f (set_cid_allocator x m) = f m) → (∀ x m, f (set_net_guard x m) = f m) →
  (∀ x m, f (set_microvms x m) = f m) → (∀ x m, f (set_attestation x m) = f m) →
  (∀ x m, f (set_src_identity x m) = f m) → (∀ x m, f (set_ip_allocator x m) = f m) →
  (∀ x m, f (set_delegation x m) = f m) → (∀ x m, f (set_counters x m) = f m) →
  keeps f (start_pod spec).
Proof.
  intros Hc Hs Hv Hn Hg Hm Ha Hr Hi Hd Ht.
  assert (∀ mounts wl gw, keeps f (boot_runtime spec mounts wl gw)) as Hb
    by (intros; by apply boot_runtime_keeps).
  unfold start_pod, prepare_pod, start_runtime, register_source, unregister_source, request_workload_key, on_mfiles.
  keeps.
Qed.

Lemma record_pod_run spec p m :
  ∃ t m', record_pod spec p m = (Ok p.(st_handle), m') ∧
    let pod_id := pod_id_of spec p.(st_pod_spec) in
    m'.(pod_manager) = <[pod_id := booted_pod pod_id spec p.(st_pod_spec) p.(st_fp) p.(st_handle) t.1]> m.(pod_manager) ∧
    m'.(pod_source_ips) = (match p.(st_registered_ip) with
                           | Some ip => <[pod_id := ip]> m.(pod_source_ips) | None => m.(pod_source_ips) end) ∧
    m'.(probes) = register_pod pod_id (ProbeSetRunner_new p.(st_pod_spec).(ps_probes) t.2) <$> m.(probes) ∧
    m'.(ip_allocator) = m.(ip_allocator) ∧ m'.(src_identity) = m.(src_identity) ∧
    m'.(net_guard) = m.(net_guard) ∧ m'.(attestation) = m.(attestation) ∧ m'.(microvms) = m.(microvms).
Proof.
  destruct (read_clock m.(clock)) as [t c] eqn:Hc. exists t.
  unfold record_pod, now, mbind, M_bind, zoom at 1. rewrite Hc.
  destruct (st_registered_ip p); unfold zoom, zoom_opt, modify; cbn;
    destruct (probes m) eqn:Hp; eexists; (split; [reflexivity|]); cbn; rewrite ?Hp; split_and!; reflexivity.
Qed.

(** ** Boot *)

Context `{!SrcIdentityLaws R}.

Definition leases (m : WorkloadManager) : gmap Z string := m.(ip_allocator).(allocated).
Definition source_identity (m : WorkloadManager) (ip : Z) : option bytes :=
  r ← m.(src_identity); identity_of r ip.

Lemma boot_runtime_network spec mounts wl gw :
  keeps (λ m, (m.(ip_allocator), m.(src_identity))) (boot_runtime spec mounts wl gw).
Proof. by apply boot_runtime_keeps. Qed.

Lemma release_allocated pod a a' pair :
  allocate_p2p_pair pod a = (Ok pair, a') → (release_p2p_pair pod a').(allocated) ⊆ a.(allocated).
Proof.
  intros Ha. apply map_subseteq_spec. intros o owner.
  unfold release_p2p_pair, release_microvm_pair. rewrite release_lookup. fold (pair_owner pod).
  assert (∀ g o', a'.(allocated) = <[o' := pod]> (<[g := gw_owner pod]> a.(allocated)) →
    (pid ← a'.(allocated) !! o; if pair_owner pod pid then None else Some pid) = Some owner →
    a.(allocated) !! o = Some owner) as Hsub.
  { intros g o' ->. rewrite !lookup_insert.
    destruct (decide (o' = o)); [cbn; unfold pair_owner; by rewrite bool_decide_eq_true_2|].
    destruct (decide (g = o)); [cbn; unfold pair_owner; rewrite (bool_decide_eq_true_2 (gw_owner pod = gw_owner pod)) by done;
      by destruct (bool_decide _)|].
    destruct (allocated a !! o) as [pid|]; cbn; [|done]. by destruct (pair_owner pod pid). }
  revert Ha. unfold allocate_p2p_pair, allocate_microvm_pair. destruct (reusable a) as [g|].
  - intros [= _ <-]. by apply (Hsub g (u32_add g 1)).
  - destruct (decide _); [done|]. intros [= _ <-]. by eapply Hsub.
Qed.

(** The network part of a failed start: what was taken is given back. *)
Lemma register_source_err pod wl fp m e m' :
  register_source pod wl fp m = (Err e, m') →
  m'.(ip_allocator) = release_p2p_pair pod m.(ip_allocator) ∧
  ∃ r, m'.(src_identity) = Some r ∧ ∃ r0, m.(src_identity) = Some r0 ∧ registry_register wl fp r0 = (Err e, r).
Proof.
  unfold register_source, mbind at 1, M_bind at 1, get. destruct (src_identity m) as [r0|] eqn:Hr; [|done].
  intros [Herr|(? & ? & _ & [=])]%M_bind_err. apply on_error_err in Herr as (m1 & Hreg & ->).
  unfold zoom_opt in Hreg. rewrite Hr in Hreg. destruct (registry_register wl fp r0) as [[|] r] eqn:Hrr; [done|].
  injection Hreg as -> <-. cbn. split; [done|]. exists r. split; [done|]. by exists r0.
Qed.
Lemma register_source_ok pod wl fp m ip m' :
  register_source pod wl fp m = (Ok ip, m') →
  m'.(ip_allocator) = m.(ip_allocator) ∧
  match m.(src_identity) with
  | None => ip = None ∧ m'.(src_identity) = None
  | Some r0 => ip = Some wl ∧ ∃ r, m'.(src_identity) = Some r ∧ registry_register wl fp r0 = (Ok tt, r)
  end.
Proof.
  unfold register_source, mbind at 1, M_bind at 1, get. destruct (src_identity m) as [r0|] eqn:Hr.
  - intros (u & m1 & Hreg & [= <- <-])%M_bind_ok. apply on_error_ok in Hreg. unfold zoom_opt in Hreg.
    rewrite Hr in Hreg. destruct (registry_register wl fp r0) as [[[]|] r] eqn:Hrr; [|done].
    injection Hreg as _ <-. cbn. split; [done|]. split; [done|]. by exists r.
  - by intros [= <- <-].
Qed.

(** The two phases of a start as one sequence. *)
Lemma start_pod_flat spec m :
  start_pod spec m = (
    pod_spec ← lift (ok_or (Workload "boot requires full PodSpec") spec.(spec_pod_spec));
      let pod_id := pod_id_of spec pod_spec in
      mounts ← on_mfiles (prepare_mounts cfg.(volume_config) pod_id pod_spec.(ps_volumes) pod_spec.(ps_volume_mounts));
      fp ← lift (workload_fingerprint cfg.(mc_trust_domain) pod_spec.(ps_tenant_id) spec.(spec_workload_id)
                   spec.(spec_role));
      _ ← request_workload_key spec pod_spec;
      pair ← zoom ip_allocator set_ip_allocator (allocate_p2p_pair pod_id);
      registered_ip ← register_source pod_id pair.2 fp;
      _ ← ignore (zoom_opt pod_net_counters set_counters (prepopulate_pod_counters cfg.(possible_cpus) pair.2));
    handle ← on_error (boot_runtime spec mounts pair.2 pair.1)
      (_ ← ignore (unregister_source registered_ip);
       zoom ip_allocator set_ip_allocator (modify (release_p2p_pair pod_id)));
    mret (mkStarted pod_spec fp registered_ip handle)) m.
Proof.
  unfold start_pod, prepare_pod, mbind, M_bind. destruct (lift _ m) as [[ps|e] m1]; [|done]. cbv zeta.
  destruct (on_mfiles _ m1) as [[mounts|e] m2]; [|done]. destruct (lift _ m2) as [[fp|e] m3]; [|done].
  destruct (request_workload_key spec ps m3) as [[[]|e] m4]; [|done].
  destruct (zoom _ _ _ m4) as [[pair|e] m5]; [|done]. destruct (register_source _ _ _ m5) as [[reg|e] m6]; [|done].
  by destruct (ignore _ m6) as [[[]|e] m7].
Qed.

Lemma start_pod_network_err spec m e m' :
  start_pod spec m = (Err e, m') →
  (m'.(ip_allocator) = m.(ip_allocator) ∧ m'.(src_identity) = m.(src_identity)) ∨
  ∃ ps pair a, spec.(spec_pod_spec) = Some ps ∧
    allocate_p2p_pair (pod_id_of spec ps) m.(ip_allocator) = (Ok pair, a) ∧
    m'.(ip_allocator) = release_p2p_pair (pod_id_of spec ps) a ∧
    ∀ ip, source_identity m' ip = source_identity m ip ∨ ip = pair.2 ∧ source_identity m' ip = None.
Proof.
  set (net := λ m, (m.(ip_allocator), m.(src_identity))).
  assert (∀ n n', net n' = net n → n'.(ip_allocator) = n.(ip_allocator) ∧ n'.(src_identity) = n.(src_identity)) as Hsame.
  { by intros n n' [= Ha Hs]. }
  rewrite start_pod_flat. intros [Hrun|(ps & m1 & E1 & Hrun)]%M_bind_err.
  { left. apply Hsame. by eapply (keeps_run net) in Hrun; [|keeps]. }
  apply lift_ok in E1 as [Hps%ok_or_ok ->]. apply M_bind_err in Hrun as [Hrun|(mounts & m2 & E2 & Hrun)].
  { left. apply Hsame. eapply (keeps_run net) in Hrun; [done|]. unfold on_mfiles. keeps. }
  eapply (keeps_run net) in E2; [|unfold on_mfiles; keeps].
  apply M_bind_err in Hrun as [Hrun|(fp & m3 & E3 & Hrun)].
  { left. apply Hsame. rewrite <-E2. by eapply (keeps_run net) in Hrun; [|keeps]. }
  apply lift_ok in E3 as [_ ->]. apply M_bind_err in Hrun as [[=]|(u & m4 & E4 & Hrun)].
  eapply (keeps_run net) in E4; [|unfold request_workload_key; keeps]. rewrite E2 in E4. clear E2.
  assert (m4.(ip_allocator) = m.(ip_allocator) ∧ m4.(src_identity) = m.(src_identity)) as [Hl4 Hs4] by (by injection E4).
  apply M_bind_err in Hrun as [Hrun|(pair & m5 & E5 & Hrun)].
  { left. apply zoom_run in Hrun as (a & Ha & ->). apply Hsame. rewrite <-E4. unfold net. cbn. f_equal.
    revert Ha. unfold allocate_p2p_pair, allocate_microvm_pair. destruct (reusable _); [done|].
    destruct (decide _); [|done]. by intros [= _ <-]. }
  apply zoom_run in E5 as (a & Ha & ->). rewrite Hl4 in Ha. right. exists ps, pair, a. split; [done|]. split; [done|].
  apply M_bind_err in Hrun as [Hrun|(reg & m6 & E6 & Hrun)].
  { apply register_source_err in Hrun as (Hip & r & Hr & r0 & Hr0 & Hreg). cbn in Hip, Hr0.
    split; [done|]. intros ip. left. unfold source_identity.
    rewrite Hr, <-Hs4, Hr0. cbn. by rewrite (register_err _ _ _ _ _ Hreg). }
  apply register_source_ok in E6 as [Hip6 Hreg6]. cbn in Hip6, Hreg6.
  apply M_bind_err in Hrun as [[=]|(u7 & m7 & E7 & Hrun)].
  eapply (keeps_run net) in E7; [|keeps]. apply M_bind_err in Hrun as [Hrun|(h & m8 & _ & [=])].
  apply on_error_err in Hrun as (m8 & E8 & ->).
  eapply (keeps_run net) in E8; [|apply boot_runtime_network]. rewrite E7 in E8. injection E8 as Hip8 Hs8.
  unfold mbind, M_bind, ignore. cbn. unfold zoom, modify. cbn.
  assert ((unregister_source reg m8).2.(ip_allocator) = m8.(ip_allocator)) as ->.
  { eapply (keeps_run ip_allocator); [|apply surjective_pairing]. unfold unregister_source. destruct reg; keeps. }
  rewrite Hip8, Hip6. split; [done|]. intros ip. unfold source_identity. rewrite <-Hs4. cbn.
  destruct (src_identity m4) as [r0|].
  - destruct Hreg6 as (-> & r & Hr6 & Hreg). rewrite Hr6 in Hs8. unfold unregister_source, zoom_opt. rewrite Hs8.
    pose proof (unregister_clears pair.2 r ip) as Hclear. destruct (registry_unregister pair.2 r) as [u2 r2]. cbn in Hclear |- *.
    rewrite Hclear, (register_ok _ _ _ _ Hreg). destruct (decide (pair.2 = ip)); [by right|by left].
  - destruct Hreg6 as [-> Hr6]. left. cbn. by rewrite Hs8, Hr6.
Qed.

(** C18: A boot that fails leaves nothing behind in the node's own tables: no
    pod, no probe runner, no recorded address, no new IP lease and no new source
    identity. *)
Theorem boot_failure_clean spec m e m' :
  boot_pod spec m = (Err e, m') →
  m'.(pod_manager) = m.(pod_manager) ∧ m'.(pod_source_ips) = m.(pod_source_ips) ∧ m'.(probes) = m.(probes) ∧
  leases m' ⊆ leases m ∧ (∀ ip fp, source_identity m' ip = Some fp → source_identity m ip = Some fp).
Proof.
  intros [Hrun|(p & m1 & _ & Hrun)]%M_bind_err.
  - pose proof (keeps_run (λ m, (m.(pod_manager), m.(pod_source_ips), m.(probes))) _ _ _ _
      (start_pod_keeps (λ m, (m.(pod_manager), m.(pod_source_ips), m.(probes))) spec
        ltac:(done) ltac:(done) ltac:(done) ltac:(done) ltac:(done) ltac:(done) ltac:(done) ltac:(done)
        ltac:(done) ltac:(done) ltac:(done)) Hrun) as [= Hp Hi Hpr].
    split; [done|]. split; [done|]. split; [done|].
    destruct (start_pod_network_err _ _ _ _ Hrun) as [[Ha Hs]|(ps & pair & a & _ & Ha & Hrel & Hs)].
    + unfold leases, source_identity. by rewrite Ha, Hs.
    + split; [unfold leases; rewrite Hrel; by eapply release_allocated|].
      intros ip fp. by destruct (Hs ip) as [->|[_ ->]].
  - destruct (record_pod_run spec p m1) as (t & m2 & Hr & _). by rewrite Hr in Hrun.
Qed.

(** What a boot prepared: nothing is recorded yet. *)
Lemma prepare_pod_run spec m p m1 :
  prepare_pod spec m = (Ok p, m1) →
  spec.(spec_pod_spec) = Some p.(pr_pod_spec) ∧
  workload_fingerprint cfg.(mc_trust_domain) p.(pr_pod_spec).(ps_tenant_id) spec.(spec_workload_id) spec.(spec_role) = Ok p.(pr_fp) ∧
  allocate_p2p_pair (pod_id_of spec p.(pr_pod_spec)) m.(ip_allocator) = (Ok p.(pr_pair), m1.(ip_allocator)) ∧
  match m.(src_identity) with
  | Some _ => p.(pr_registered_ip) = Some p.(pr_pair).2 ∧
      ∀ ip, source_identity m1 ip = if decide (p.(pr_pair).2 = ip) then Some p.(pr_fp) else source_identity m ip
  | None => p.(pr_registered_ip) = None ∧ m1.(src_identity) = None
  end.
Proof.
  set (net := λ m, (m.(ip_allocator), m.(src_identity))).
  unfold prepare_pod. intros (ps & m0 & [Hps ->]%lift_ok & Hrun)%M_bind_ok.
  apply ok_or_ok in Hps. apply M_bind_ok in Hrun as (mounts & m2 & E2 & Hrun).
  eapply (keeps_run net) in E2; [|unfold on_mfiles; keeps].
  apply M_bind_ok in Hrun as (fp & m3 & [Hfp ->]%lift_ok & Hrun).
  apply M_bind_ok in Hrun as (u & m4 & E4 & Hrun).
  eapply (keeps_run net) in E4; [|unfold request_workload_key; keeps]. rewrite E2 in E4. injection E4 as Ha4 Hs4.
  apply M_bind_ok in Hrun as ([gw wl] & m5 & (a & Ha & ->)%zoom_run & Hrun). rewrite Ha4 in Ha.
  apply M_bind_ok in Hrun as (reg & m6 & E6 & Hrun). apply register_source_ok in E6 as [Hip6 Hreg6].
  cbn in Hip6, Hreg6. apply M_bind_ok in Hrun as (u7 & m7 & E7 & [= <- <-]).
  eapply (keeps_run net) in E7; [|keeps]. injection E7 as Hip7 Hs7. cbn.
  split_and!; [done|done|by rewrite Hip7, Hip6|]. rewrite Hs4 in Hreg6. destruct (src_identity m) as [r0|] eqn:Hr0.
  - destruct Hreg6 as (-> & r & Hr6 & Hreg). split; [done|]. intros ip. unfold source_identity.
    rewrite Hs7, Hr6, Hr0. cbn. apply (register_ok _ _ _ _ Hreg).
  - destruct Hreg6 as [-> Hr6]. split; [done|congruence].
Qed.

(** The start of a prepared runtime leaves the network as it is. *)
Lemma start_runtime_run spec p m1 s m' :
  start_runtime spec p m1 = (Ok s, m') →
  boot_runtime spec p.(pr_mounts) p.(pr_pair).2 p.(pr_pair).1 m1 = (Ok s.(st_handle), m') ∧
  s = mkStarted p.(pr_pod_spec) p.(pr_fp) p.(pr_registered_ip) s.(st_handle) ∧
  m'.(ip_allocator) = m1.(ip_allocator) ∧ m'.(src_identity) = m1.(src_identity).
Proof.
  unfold start_runtime. intros (h & m2 & E%on_error_ok & [= <- <-])%M_bind_ok. split; [done|]. split; [done|].
  pose proof (keeps_run _ _ _ _ _ (boot_runtime_network _ _ _ _) E) as [= Ha Hs]. done.
Qed.

(** What a successful start did. *)
Lemma start_pod_run spec m p m' :
  start_pod spec m = (Ok p, m') →
  ∃ gw wl mounts m1,
    prepare_pod spec m = (Ok (mkPrepared p.(st_pod_spec) mounts p.(st_fp) (gw, wl) p.(st_registered_ip)), m1) ∧
    boot_runtime spec mounts wl gw m1 = (Ok p.(st_handle), m') ∧
    spec.(spec_pod_spec) = Some p.(st_pod_spec) ∧
    workload_fingerprint cfg.(mc_trust_domain) p.(st_pod_spec).(ps_tenant_id) spec.(spec_workload_id) spec.(spec_role) = Ok p.(st_fp) ∧
    allocate_p2p_pair (pod_id_of spec p.(st_pod_spec)) m.(ip_allocator) = (Ok (gw, wl), m'.(ip_allocator)) ∧
    match m.(src_identity) with
    | Some _ => p.(st_registered_ip) = Some wl ∧
        (∀ ip, source_identity m1 ip = if decide (wl = ip) then Some p.(st_fp) else source_identity m ip) ∧
        (∀ ip, source_identity m' ip = if decide (wl = ip) then Some p.(st_fp) else source_identity m ip)
    | None => p.(st_registered_ip) = None ∧ m'.(src_identity) = None
    end ∧
    (m'.(pod_manager), m'.(probes), m'.(pod_source_ips)) = (m.(pod_manager), m.(probes), m.(pod_source_ips)).
Proof.
  intros Hstart.
  pose proof (keeps_run (λ m, (m.(pod_manager), m.(probes), m.(pod_source_ips))) _ _ _ _
      (start_pod_keeps (λ m, (m.(pod_manager), m.(probes), m.(pod_source_ips))) spec
        ltac:(done) ltac:(done) ltac:(done) ltac:(done) ltac:(done) ltac:(done) ltac:(done) ltac:(done)
        ltac:(done) ltac:(done) ltac:(done)) Hstart) as Hkept.
  apply M_bind_ok in Hstart as ([ps mounts fp [gw wl] reg] & m1 & Hprep & Hrun).
  pose proof (prepare_pod_run _ _ _ _ Hprep) as (Hps & Hfp & Ha & Hnet). cbn in Hps, Hfp, Ha, Hnet.
  apply start_runtime_run in Hrun as (Hb & -> & Hal & Hsi). cbn in Hb |- *.
  exists gw, wl, mounts, m1. rewrite Hal. split_and!; [done..| |done].
  unfold source_identity at 3. rewrite Hsi. fold (source_identity m1). destruct (src_identity m); [|done]. destruct Hnet as [-> Hid]. by split_and!.
Qed.

(** C17: A successful boot runs in three phases.  What precedes the runtime
    allocates one fresh /30 pair, and, on a node with a registry, leaves the
    workload's address with the workload's fingerprint and no other address
    changed; from exactly that state the runtime is started with this pair; from
    the state it leaves, the pod is recorded under its id, booting, started, with
    neither of the other two gates and with the runtime's handle, its address
    is remembered for the eviction, and its probes are registered. *)
Theorem boot_pod_ok spec m h m' :
  boot_pod spec m = (Ok h, m') →
  ∃ ps fp gw wl mounts reg m1 m2 t,
    prepare_pod spec m = (Ok (mkPrepared ps mounts fp (gw, wl) reg), m1) ∧
    boot_runtime spec mounts wl gw m1 = (Ok h, m2) ∧
    record_pod spec (mkStarted ps fp reg h) m2 = (Ok h, m') ∧
    spec.(spec_pod_spec) = Some ps ∧
    workload_fingerprint cfg.(mc_trust_domain) ps.(ps_tenant_id) spec.(spec_workload_id) spec.(spec_role) = Ok fp ∧
    allocate_p2p_pair (pod_id_of spec ps) m.(ip_allocator) = (Ok (gw, wl), m1.(ip_allocator)) ∧
    m'.(ip_allocator) = m1.(ip_allocator) ∧
    match m.(src_identity) with
    | Some _ =>
        (∀ ip, source_identity m1 ip = if decide (wl = ip) then Some fp else source_identity m ip) ∧
        (∀ ip, source_identity m' ip = source_identity m1 ip) ∧
        m'.(pod_source_ips) = <[pod_id_of spec ps := wl]> m.(pod_source_ips)
    | None => m'.(src_identity) = None ∧ m'.(pod_source_ips) = m.(pod_source_ips)
    end ∧
    m'.(pod_manager) = <[pod_id_of spec ps := booted_pod (pod_id_of spec ps) spec ps fp h t]> m.(pod_manager) ∧
    ∃ now_ms, m'.(probes) =
      register_pod (pod_id_of spec ps) (ProbeSetRunner_new ps.(ps_probes) now_ms) <$> m.(probes).
Proof.
  intros (p & m2 & Hstart & Hrec)%M_bind_ok.
  destruct (record_pod_run spec p m2) as (t & m3 & Hr & Hpods & Hips & Hprobes & Hal & Hsi & _).
  pose proof Hrec as Hrec0. rewrite Hr in Hrec. injection Hrec as <- <-.
  pose proof Hstart as (gw & wl & mounts & m1 & Hprep & Hb & Hps & Hfp & Ha & Hnet & [= Hp9 Hpr9 Hips9])%start_pod_run.
  pose proof (prepare_pod_run _ _ _ _ Hprep) as (_ & _ & Ha1 & _). cbn in Ha1. rewrite Ha1 in Ha. injection Ha as Ha.
  exists p.(st_pod_spec), p.(st_fp), gw, wl, mounts, p.(st_registered_ip), m1, m2, t.1.
  split_and!; try done; [by rewrite Hal, <-Ha| |by rewrite Hpods, Hp9|exists t.2; by rewrite Hprobes, Hpr9].
  destruct (src_identity m).
  - destruct Hnet as (Hreg & H1' & H2'). split_and!; [done| |by rewrite Hips, Hreg, Hips9].
    intros ip. unfold source_identity at 1. rewrite Hsi. rewrite H1'. apply H2'.
  - destruct Hnet as [Hreg Hno]. by rewrite Hips, Hreg, Hips9, Hsi.
Qed.

(** ** The boot-race guard *)

Context `{!AttestationRegistrarLaws A}.

Definition measured_at (m : WorkloadManager) (cid : Z) : option BootMeasurement :=
  a ← m.(attestation); measured a cid.
Definition context_at (m : WorkloadManager) (cid : Z) : option WorkloadContext :=
  a ← m.(attestation); context_of a cid.

Lemma unregister_attestation_run cid m :
  let m' := (unregister_attestation cid m).2 in
  (unregister_attestation cid m).1 = Ok tt ∧
  (∀ c, measured_at m' c = if decide (cid = c) then None else measured_at m c) ∧
  (∀ c, context_at m' c = if decide (cid = c) then None else context_at m c).
Proof.
  unfold unregister_attestation, zoom_opt, measured_at, context_at, modify.
  destruct (attestation m) as [a|] eqn:Ha; cbn; rewrite ?Ha; cbn; (split; [done|]); split; intros c.
  - by rewrite measured_uncontext, measured_unregister.
  - by rewrite context_unregister, context_unmeasure.
  - by destruct (decide _).
  - by destruct (decide _).
Qed.

(** A boot registers its own CID's material and nothing else's. *)
Lemma boot_microvm_inner_run spec mounts cid iface gip gw m r m' :
  boot_microvm_inner spec mounts cid iface gip gw m = (r, m') →
  m'.(net_guard) = m.(net_guard) ∧
  (∀ c, c ≠ cid → measured_at m' c = measured_at m c ∧ context_at m' c = context_at m c) ∧
  match r with
  | Err _ => m'.(microvms) = m.(microvms)
  | Ok h => h = cid ∧ m'.(microvms) = <[cid := api_socket cid]> m.(microvms) ∧
      ∃ rootfs meas, oci_to_erofs spec.(spec_image) cfg.(image_cache_path) = Ok rootfs ∧
        compute_boot_measurement (file_read m.(containerd).(cd_files)) blake3 cfg.(mc_kernel_path) rootfs
          cfg.(guest_init_path) = Ok meas ∧
        (is_Some m.(attestation) →
           measured_at m' cid = Some meas ∧ context_at m' cid = Some (context_for spec.(spec_pod_spec) gip gw))
  end.
Proof.
  unfold boot_microvm_inner, oci_to_erofs. set (rootfs := path_join _ _).
  unfold mbind at 1, M_bind at 1, lift at 1. unfold mbind at 1, M_bind at 1, get.
  unfold mbind at 1, M_bind at 1, lift at 1.
  destruct (compute_boot_measurement _ _ _ _ _) as [meas|] eqn:Hmeas; [|by intros [= <- <-]].
  unfold mbind at 1, M_bind at 1.
  destruct (zoom_opt attestation set_attestation _ m) as [[[]|] m1] eqn:Hreg;
    [|unfold zoom_opt in Hreg; by destruct (attestation m)].
  assert (m1.(net_guard) = m.(net_guard) ∧ m1.(microvms) = m.(microvms) ∧
    (∀ c, c ≠ cid → measured_at m1 c = measured_at m c ∧ context_at m1 c = context_at m c) ∧
    (is_Some m.(attestation) → measured_at m1 cid = Some meas ∧
       context_at m1 cid = Some (context_for spec.(spec_pod_spec) gip gw))) as (Hg1 & Hm1 & Hne & Heq).
  { unfold zoom_opt, measured_at, context_at, modify in *. destruct (attestation m) as [a|] eqn:Ha; cbn in Hreg;
      injection Hreg as <-; cbn; rewrite ?Ha; cbn; split_and!; try done.
    - intros c Hc. rewrite measured_context, measured_register, context_register, context_measure.
      by rewrite !decide_False by congruence.
    - intros _. rewrite measured_context, measured_register, context_register. by rewrite !decide_True. }
  clear Hreg. unfold mbind at 1, M_bind at 1, zoom at 1.
  destruct (vm_boot _ _ _ _ _ _ (vms m1)) as [[h|e] v] eqn:Hv; [|by intros [= <- <-]; split_and!].
  intros [= <- <-]. cbn. rewrite Hm1. split; [done|split].
  - intros c Hc. by apply (Hne c Hc).
  - assert (h = cid) as ->.
    { revert Hv. unfold vm_boot. intros (? & ? & _ & (? & ? & _ & (? & ? & _ & (? & ? & _ & [= <- _])%M_bind_ok)%M_bind_ok)%M_bind_ok)%M_bind_ok.
      done. }
    split; [done|]. split; [done|]. exists rootfs, meas. split; [done|]. split; [done|exact Heq].
Qed.

(** C19: A MicroVM boots only behind its guard.  Without a guard, or when
    arming it fails, the boot fails and no VM is touched.  A successful boot
    armed the guard of its own interface, and the guest's boot measurement
    and network context are registered under its CID.  A failed boot leaves no
    attestation material for the CID it was given, which no later boot reuses. *)
Theorem microvm_boot_guarded spec mounts gip gw m r m' :
  boot_microvm spec mounts gip gw m = (r, m') →
  let cid := m.(cid_allocator) in
  ((∀ g, m.(net_guard) = Some g → is_ok (guard_arm (interface_name cid) g).1 = false) →
     is_ok r = false ∧ m'.(vms) = m.(vms)) ∧
  match r with
  | Ok h => h = cid ∧ m'.(cid_allocator) = u32_add cid 1 ∧ m'.(microvms) !! cid = Some (api_socket cid) ∧
      (∃ g g', m.(net_guard) = Some g ∧ guard_arm (interface_name cid) g = (Ok tt, g') ∧ m'.(net_guard) = Some g') ∧
      (is_Some m.(attestation) → is_Some (measured_at m' cid) ∧
         context_at m' cid = Some (context_for spec.(spec_pod_spec) gip gw))
  | Err _ => m'.(microvms) = m.(microvms) ∧
      (measured_at m cid = None → context_at m cid = None →
         ∀ c, measured_at m' c = measured_at m c ∧ context_at m' c = context_at m c)
  end.
Proof.
  cbn zeta. unfold boot_microvm, mbind at 1, M_bind at 1, lift.
  destruct (validate_microvm_mounts mounts) as [u|e]; [|by intros [= <- <-]].
  unfold mbind at 1, M_bind at 1, zoom at 1. cbn [cid_allocate].
  set (cid := cid_allocator m). set (m1 := set_cid_allocator (u32_add cid 1) m).
  unfold mbind at 1, M_bind at 1, get. assert (net_guard m1 = net_guard m) as -> by done.
  destruct (net_guard m) as [g|] eqn:Hg; [|by intros [= <- <-]].
  unfold mbind at 1, M_bind at 1.
  unfold zoom_opt at 1. assert (net_guard m1 = Some g) as -> by done.
  destruct (guard_arm (interface_name cid) g) as [[[]|e] g'] eqn:Harm.
  2:{ intros [= <- <-]. split; [|done]. by intros _. }
  set (m2 := set_net_guard (Some g') m1). intros Hrun.
  split; [intros Hno; specialize (Hno g eq_refl); by rewrite Harm in Hno|].
  assert (∀ c, measured_at m2 c = measured_at m c ∧ context_at m2 c = context_at m c) as Hm2 by done.
  destruct r as [h|e].
  - apply on_error_ok in Hrun.
    assert (m'.(cid_allocator) = u32_add cid 1) as Hcid.
    { eapply (keeps_run cid_allocator) in Hrun; [done|]. unfold boot_microvm_inner. keeps. }
    apply boot_microvm_inner_run in Hrun as (Hg' & _ & -> & Hvms & rootfs & meas & _ & _ & Hat).
    split; [done|]. split; [done|]. split; [rewrite Hvms; apply lookup_insert_eq|].
    split; [by exists g, g'|]. intros Ha. destruct (Hat Ha) as [-> ->]. by split.
  - apply on_error_err in Hrun as (m3 & Hrun & ->).
    apply boot_microvm_inner_run in Hrun as (Hg' & Hne & Hvms).
    destruct (unregister_attestation_run cid m3) as (Hok & Hme & Hco).
    unfold mbind, M_bind. destruct (unregister_attestation cid m3) as [r4 m4] eqn:Hun. cbn in Hok, Hme, Hco. subst r4.
    assert (m4.(microvms) = m3.(microvms)) as Hv4.
    { eapply (keeps_run microvms) in Hun; [done|]. unfold unregister_attestation. keeps. }
    set (f := λ m, (m.(microvms), m.(attestation))).
    set (m5 := (ignore (zoom_opt net_guard set_net_guard (guard_disarm (interface_name cid))) m4).2).
    assert (f m5 = f m4) as [= Hv5 Ha5] by (eapply (keeps_run f); [|apply surjective_pairing]; keeps).
    split; [by rewrite Hv5, Hv4, Hvms|]. intros Hn1 Hn2 c. unfold measured_at, context_at. rewrite Ha5.
    fold (measured_at m4 c) (context_at m4 c). rewrite Hme, Hco.
    destruct (decide (cid = c)) as [<-|Hc]; [by rewrite <-Hn1, <-Hn2|]. by apply Hne.
Qed.

(** ** Eviction *)

Definition tables (m : WorkloadManager) :=
  (m.(pod_manager), m.(probes), m.(pod_source_ips), m.(ip_allocator), m.(src_identity)).

Lemma stop_pod_keeps id rt h : keeps tables (stop_pod id rt h).
Proof. unfold stop_pod, unregister_attestation. keeps. Qed.

(** What is left of the VM's adapter, and its attestation material. *)
Lemma stop_pod_vm id h m r m' :
  stop_pod id CloudHypervisor h m = (r, m') →
  m'.(microvms) !! h = None ∧
  (is_ok r = true → measured_at m' h = None ∧ context_at m' h = None).
Proof.
  unfold stop_pod. unfold mbind at 1, M_bind at 1, get.
  intros Hrun. assert (∀ n r n', unregister_attestation h n = (r, n') →
    n'.(microvms) = n.(microvms) ∧ measured_at n' h = None ∧ context_at n' h = None) as Hun.
  { intros n r0 n' Hr. pose proof (unregister_attestation_run h n) as (_ & Hme & Hco). rewrite Hr in Hme, Hco.
    cbn in Hme, Hco. rewrite Hme, Hco, !decide_True by done.
    eapply (keeps_run microvms) in Hr; [done|]. unfold unregister_attestation. keeps. }
  destruct (microvms m !! h) as [adapter|] eqn:Hv; unfold mbind at 1, M_bind at 1 in Hrun.
  - match type of Hrun with context [match ?c ?s with _ => _ end] => destruct (c s) as [r1 m1] eqn:E1 end.
    assert (m1.(microvms) !! h = None) as Hm1.
    { unfold mbind at 1, M_bind at 1, zoom at 1, modify in E1. eapply (keeps_run microvms) in E1; [|keeps].
      rewrite E1. apply lookup_delete_eq. }
    destruct r1 as [u|e]; [|by injection Hrun as <- <-]. apply Hun in Hrun as (-> & ? & ?). done.
  - cbn in Hrun. apply Hun in Hrun as (-> & ? & ?). done.
Qed.

Lemma release_network_run id rt m :
  ∃ m', release_network id rt m = (Ok tt, m') ∧
  m'.(pod_manager) = m.(pod_manager) ∧ m'.(probes) = m.(probes) ∧ m'.(microvms) = m.(microvms) ∧
  m'.(attestation) = m.(attestation) ∧ m'.(pod_source_ips) = delete id m.(pod_source_ips) ∧
  m'.(ip_allocator) = (if decide (is_Some (m.(pod_source_ips) !! id)) then release_p2p_pair id m.(ip_allocator)
                       else m.(ip_allocator)) ∧
  m'.(src_identity) = match m.(pod_source_ips) !! id with
                      | Some ip => (λ r, (registry_unregister ip r).2) <$> m.(src_identity)
                      | None => m.(src_identity)
                      end.
Proof.
  unfold release_network, mbind at 1, M_bind at 1, get. unfold mbind at 1, M_bind at 1, zoom at 1, modify at 1.
  destruct (pod_source_ips m !! id) as [ip|] eqn:Hip.
  - rewrite decide_True by eauto.
    unfold mbind, M_bind, ignore, zoom_opt, zoom, modify. cbn.
    destruct (src_identity m) as [r0|] eqn:Hr; cbn; [destruct (registry_unregister ip r0) eqn:Hu; cbn|];
      destruct rt; cbn; try (match goal with |- context [destroy_netns id ?w] => destruct (destroy_netns id w) end); cbn;
      (eexists; split; [reflexivity|]; cbn; rewrite ?Hr; split_and!; try done; cbn; by rewrite ?Hu).
  - rewrite decide_False by (intros [? ?]; congruence). eexists. split; [reflexivity|]. cbn. by split_and!.
Qed.

(** The phases of an eviction: marking, stopping, releasing, removing. *)
Lemma evict_pod_phases id p m r m' :
  m.(pod_manager) !! id = Some p → evict_pod id m = (r, m') →
  ∃ m1, m1.(pod_manager) = alter begin_eviction id m.(pod_manager) ∧ m1.(probes) = delete id <$> m.(probes) ∧
    m1.(pod_source_ips) = m.(pod_source_ips) ∧ m1.(ip_allocator) = m.(ip_allocator) ∧
    m1.(src_identity) = m.(src_identity) ∧
    ((∃ e, stop_pod id p.(runtime) (default 0 p.(pid)) m1 = (Err e, m') ∧ r = Err e) ∨
     ∃ u m2 m3, stop_pod id p.(runtime) (default 0 p.(pid)) m1 = (Ok u, m2) ∧
       release_network id p.(runtime) m2 = (Ok tt, m3) ∧
       m'.(pod_manager) = (if is_ok r then delete id m3.(pod_manager) else m3.(pod_manager)) ∧
       m'.(probes) = m3.(probes) ∧ m'.(pod_source_ips) = m3.(pod_source_ips) ∧
       m'.(ip_allocator) = m3.(ip_allocator) ∧ m'.(src_identity) = m3.(src_identity) ∧
       m'.(microvms) = m3.(microvms) ∧ m'.(attestation) = m3.(attestation)).
Proof.
  intros Hp. unfold evict_pod, mbind at 1, M_bind at 1, get. unfold get_pod. rewrite Hp.
  unfold mbind at 1, M_bind at 1, lift at 1. cbn [ok_or].
  set (ma := set_pod_manager (alter begin_eviction id m.(pod_manager)) m).
  unfold mbind at 1, M_bind at 1, zoom at 1, modify at 1, update_pod. fold ma.
  unfold mbind at 1, M_bind at 1.
  destruct (zoom_opt probes set_probe_manager (modify (unregister_pod id)) ma) as [rb mb] eqn:Eb.
  assert (rb = Ok tt ∧ mb = set_probe_manager (delete id <$> m.(probes)) ma) as [-> ->].
  { revert Eb. unfold zoom_opt, modify, unregister_pod. destruct (probes ma) as [ps|] eqn:Hps; intros [= <- <-].
    - change (probes m) with (probes ma). rewrite Hps. done.
    - split; [done|]. change (probes m) with (probes ma). rewrite Hps. destruct ma; cbn in *. by subst. }
  clear Eb. set (mb := set_probe_manager _ _). unfold mbind at 1, M_bind at 1, now, zoom at 1.
  destruct (read_clock (clock mb)) as [t c]. set (mc := set_clock c mb).
  unfold mbind at 1, M_bind at 1. destruct (ignore _ mc) as [[u|e] m1] eqn:Ed; [|done].
  eapply (keeps_run tables) in Ed; [|keeps]. injection Ed as Hpods Hpr Hips Hal Hsrc.
  intros Hrun. exists m1. split; [done|]. split; [done|]. split; [done|]. split; [done|]. split; [done|].
  unfold mbind at 1, M_bind at 1 in Hrun.
  destruct (stop_pod _ _ _ m1) as [[u2|e] m2] eqn:Hst; [right|left; injection Hrun as <- <-; by exists e].
  destruct (release_network_run id p.(runtime) m2) as (m3 & Hrel & _). exists u2, m2, m3.
  split; [done|]. split; [done|]. unfold mbind at 1, M_bind at 1 in Hrun. rewrite Hrel in Hrun.
  unfold mbind at 1, M_bind at 1 in Hrun. destruct (on_mfiles _ m3) as [[u4|e] m4] eqn:Htd;
    (eapply (keeps_run (λ m, (tables m, m.(microvms), m.(attestation)))) in Htd; [|unfold on_mfiles; keeps]);
    injection Htd as E1 E2 E3 E4 E5 E6 E7; cbn in Hrun; injection Hrun as <- <-; cbn; rewrite ?E1; split_and!; done.
Qed.

(** C20: A completed eviction removes the pod, its probes and its recorded
    address; if it had one, no IP lease is left under its id and the address has
    no source identity; a MicroVM's adapter and attestation material are gone.  Without a recorded address
    (no registry at boot) the lease stays. *)
Theorem evict_pod_ok id p m u m' :
  m.(pod_manager) !! id = Some p → evict_pod id m = (Ok u, m') →
  m'.(pod_manager) = delete id m.(pod_manager) ∧
  (∀ ps, m'.(probes) = Some ps → ps !! id = None) ∧
  m'.(pod_source_ips) !! id = None ∧
  match m.(pod_source_ips) !! id with
  | Some ip =>
      (∀ o owner, leases m' !! o = Some owner → owner ≠ id ∧ owner ≠ gw_owner id) ∧
      source_identity m' ip = None
  | None => leases m' = leases m
  end ∧
  (p.(runtime) = CloudHypervisor →
     m'.(microvms) !! default 0 p.(pid) = None ∧ measured_at m' (default 0 p.(pid)) = None ∧
     context_at m' (default 0 p.(pid)) = None).
Proof.
  intros Hp Hrun. destruct (evict_pod_phases id p m _ _ Hp Hrun)
    as (m1 & Hpods1 & Hpr1 & Hip1 & Hal1 & Hsi1 & [(e & _ & [=])|(u2 & m2 & m3 & Hst & Hrel & Hpods & Hpr & Hip & Hal & Hsi & Hmv & Hat)]).
  pose proof (keeps_run tables _ _ _ _ (stop_pod_keeps _ _ _) Hst) as [= Hpods2 Hpr2 Hip2 Hal2 Hsi2].
  destruct (release_network_run id p.(runtime) m2) as (m3' & Hrel' & Hpods3 & Hpr3 & Hmv3 & Hat3 & Hip3 & Hal3 & Hsi3).
  rewrite Hrel in Hrel'. injection Hrel' as <-. cbn in Hpods.
  split; [rewrite Hpods, Hpods3, Hpods2, Hpods1; apply map_eq; intros i;
    rewrite !lookup_delete; destruct (decide (id = i)); [done|by rewrite lookup_alter_ne]|].
  split. { intros ps. rewrite Hpr, Hpr3, Hpr2, Hpr1. destruct (probes m); [|done]. intros [= <-]. apply lookup_delete_eq. }
  split; [rewrite Hip, Hip3; apply lookup_delete_eq|].
  split.
  - rewrite Hip2, Hip1 in Hal3, Hsi3. unfold leases, source_identity. rewrite Hal, Hal3, Hsi.
    destruct (pod_source_ips m !! id) as [ip|] eqn:Hi; [rewrite decide_True by eauto|rewrite decide_False by (by intros [])].
    + split.
      * intros o owner. unfold release_p2p_pair, release_microvm_pair. rewrite release_lookup.
        destruct (allocated _ !! o) as [pid|]; cbn; [|done].
        destruct (decide (pid = id)); [by rewrite bool_decide_eq_true_2|].
        destruct (decide (pid = gw_owner id)); [by rewrite (bool_decide_eq_true_2 (pid = gw_owner id)), orb_true_r|].
        rewrite !bool_decide_eq_false_2 by done. by intros [= <-].
      * rewrite Hsi3. destruct (src_identity m2) as [r|]; [|done]. cbn. by rewrite unregister_clears, decide_True.
    + by rewrite Hal2, Hal1.
  - intros Hvm. rewrite Hvm in Hst. apply stop_pod_vm in Hst as [Hnone Hatt].
    unfold measured_at, context_at. rewrite Hmv, Hmv3, Hat, Hat3.
    split; [done|]. by apply Hatt.
Qed.

Lemma evict_pod_pods id m :
  let m' := (evict_pod id m).2 in
  (∀ k, k ≠ id → m'.(pod_manager) !! k = m.(pod_manager) !! k) ∧
  (m'.(pod_manager) !! id = None ∨ ∃ p, m.(pod_manager) !! id = Some p ∧
     m'.(pod_manager) !! id = Some (begin_eviction p)).
Proof.
  cbn zeta. destruct (evict_pod id m) as [r m'] eqn:Hrun. cbn [snd].
  destruct (pod_manager m !! id) as [p|] eqn:Hp.
  - destruct (evict_pod_phases id p m _ _ Hp Hrun) as (m1 & Hpods1 & _ & _ & _ & _ & Hcases).
    assert (m'.(pod_manager) = m1.(pod_manager) ∨ m'.(pod_manager) = delete id m1.(pod_manager)) as [Heq|Heq].
    { destruct Hcases as [(e & Hst & _)|(u & m2 & m3 & Hst & Hrel & Hpods & _)].
      - left. by pose proof (keeps_run tables _ _ _ _ (stop_pod_keeps _ _ _) Hst) as [= ? _].
      - pose proof (keeps_run tables _ _ _ _ (stop_pod_keeps _ _ _) Hst) as [= Hpods2 _].
        destruct (release_network_run id p.(runtime) m2) as (m3' & Hrel' & Hpods3 & _).
        rewrite Hrel in Hrel'. injection Hrel' as <-. rewrite Hpods, Hpods3, Hpods2.
        destruct (is_ok r); [by right|by left]. }
    + rewrite Heq, Hpods1. split; [intros k Hk; by rewrite lookup_alter_ne|]. right. exists p.
      by rewrite lookup_alter_eq, Hp.
    + rewrite Heq, Hpods1. split; [intros k Hk; by rewrite lookup_delete_ne, lookup_alter_ne|]. left.
      apply lookup_delete_eq.
  - revert Hrun. unfold evict_pod, mbind at 1, M_bind at 1, get. unfold get_pod. rewrite Hp.
    intros [= <- <-]. split; [done|]. by left.
Qed.

(** An eviction whose stop fails is final for the agent: the pod stays
    recorded as terminating, its probes are gone and, for a MicroVM, its
    adapter too, so nothing can stop it again; no later frame, whatever it
    desires, evicts it. *)
Theorem failed_eviction_stuck id p m e m' :
  keyed m.(pod_manager) → m.(pod_manager) !! id = Some p → active p → evict_pod id m = (Err e, m') →
  (∃ p', m'.(pod_manager) !! id = Some p' ∧ p'.(state) = Terminating) ∧
  (∀ ps, m'.(probes) = Some ps → ps !! id = None) ∧
  (p.(runtime) = CloudHypervisor → m'.(microvms) !! default 0 p.(pid) = None) ∧
  ∀ desired, id ∉ (reconcile (PodSpec := PodSpec) desired m'.(pod_manager)).(to_evict).
Proof.
  clear blake3 wire_from_bytes. intros Hkey Hp Hact Hrun.
  assert (m'.(pod_manager) = alter begin_eviction id m.(pod_manager) ∧ m'.(probes) = delete id <$> m.(probes) ∧
    (p.(runtime) = CloudHypervisor → m'.(microvms) !! default 0 p.(pid) = None)) as (Hpods & Hpr & Hvm).
  { destruct (evict_pod_phases id p m _ _ Hp Hrun) as (m1 & Hpods1 & Hpr1 & _ & _ & _ &
      [(e' & Hst & _)|(u & m2 & m3 & Hst & Hrel & Hpods & Hpr & _ & _ & _ & Hmv & _)]).
    - pose proof (keeps_run tables _ _ _ _ (stop_pod_keeps _ _ _) Hst) as [= Hp' Hpr' _ _ _].
      split; [congruence|]. split; [congruence|]. intros Hrt. rewrite Hrt in Hst.
      by apply stop_pod_vm in Hst as [? _].
    - pose proof (keeps_run tables _ _ _ _ (stop_pod_keeps _ _ _) Hst) as [= Hp2 Hpr2 _ _ _].
      destruct (release_network_run id p.(runtime) m2) as (m3' & Hrel' & Hp3 & Hpr3 & Hmv3 & _).
      rewrite Hrel in Hrel'. injection Hrel' as <-. cbn in Hpods.
      split; [congruence|]. split; [congruence|]. intros Hrt. rewrite Hrt in Hst.
      apply stop_pod_vm in Hst as [? _]. congruence. }
  assert (m'.(pod_manager) !! id = Some (begin_eviction p)) as Hid by (by rewrite Hpods, lookup_alter_eq, Hp).
  split_and!; [| |done|].
  - exists (begin_eviction p). split; [done|]. destruct Hact as [H1' H2']. unfold begin_eviction.
    by destruct (state p) eqn:Hst.
  - intros ps. rewrite Hpr. destruct (probes m); [|done]. intros [= <-]. apply lookup_delete_eq.
  - intros desired (k & q & Hk & Hqid & Hq & _)%elem_of_to_evict. rewrite Hpods in Hk.
    destruct (decide (id = k)) as [<-|Hne].
    + rewrite lookup_alter_eq, Hp in Hk. injection Hk as <-. by apply (begin_eviction_inactive p).
    + rewrite lookup_alter_ne in Hk by done. by rewrite (Hkey _ _ Hk) in Hqid.
Qed.

Lemma evict_all_pods ids m k :
  let m' := evict_all ids m in
  m'.(pod_manager) !! k = m.(pod_manager) !! k ∧ k ∉ ids ∨
  k ∈ ids ∧ ∀ p, m'.(pod_manager) !! k = Some p → ¬ active p.
Proof.
  cbn zeta. unfold evict_all. revert m. induction ids as [|id ids IH]; intros m; cbn [foldl].
  { left. split; [done|]. apply not_elem_of_nil. }
  destruct (evict_pod_pods id m) as [Hne Hid]. specialize (IH (evict_pod id m).2).
  destruct (decide (k = id)) as [->|Hk].
  - right. split; [by left|]. destruct IH as [[-> _]|[_ IH]]; [|done].
    intros p Hp. destruct Hid as [Hid|(q & _ & Hid)]; rewrite Hid in Hp; [done|]. injection Hp as <-.
    apply begin_eviction_inactive.
  - destruct IH as [[-> Hin]|[Hin IH]].
    + left. split; [by apply Hne|]. rewrite not_elem_of_cons. done.
    + right. split; [by right|done].
Qed.

(** What one boot leaves in the table of pods. *)
Lemma boot_pod_pods s m k p :
  (boot_pod s m).2.(pod_manager) !! k = Some p →
  m.(pod_manager) !! k = Some p ∨ p.(pod_id) = k ∧ p.(workload_id) = s.(spec_workload_id).
Proof.
  destruct (boot_pod s m) as [[h|e] m'] eqn:Hb; cbn; intros Hp.
  - unfold boot_pod in Hb. apply M_bind_ok in Hb as (st & m9 & Hstart & Hrec).
    destruct (record_pod_run s st m9) as (t & m10 & Hr & Hpods & _). rewrite Hr in Hrec. injection Hrec as _ <-.
    eapply (keeps_run pod_manager) in Hstart; [|by apply start_pod_keeps].
    rewrite Hpods, Hstart in Hp. apply lookup_insert_Some in Hp as [[<- <-]|[_ Hp]]; [by right|by left].
  - left. revert Hb. unfold boot_pod. intros [Hrun|(st & m1 & _ & Hrun)]%M_bind_err.
    + eapply (keeps_run pod_manager) in Hrun; [congruence|by apply start_pod_keeps].
    + destruct (record_pod_run s st m1) as (t & m2 & Hr & _). by rewrite Hr in Hrun.
Qed.

Lemma boot_all_pods specs m k p :
  (boot_all specs m).(pod_manager) !! k = Some p →
  m.(pod_manager) !! k = Some p ∨ p.(pod_id) = k ∧ ∃ s, s ∈ specs ∧ p.(workload_id) = s.(spec_workload_id).
Proof.
  unfold boot_all. revert m. induction specs as [|s specs IH]; intros m; cbn [foldl]; [by left|].
  intros [Hp|(Hk & s' & Hs & Hw)]%IH; [|right; split; [done|]; exists s'; split; [by right|done]].
  apply boot_pod_pods in Hp as [Hp|[Hk Hw]]; [by left|right]. split; [done|]. exists s. split; [by left|done].
Qed.

Lemma evict_all_keyed ids m : keyed m.(pod_manager) → keyed (evict_all ids m).(pod_manager).
Proof.
  unfold evict_all. revert m. induction ids as [|id ids IH]; intros m Hm; [done|]. cbn [foldl]. apply IH.
  intros k p Hp. destruct (evict_pod_pods id m) as [Hne Hid]. destruct (decide (k = id)) as [->|Hk].
  - destruct Hid as [Hid|(q & Hq & Hid)]; rewrite Hid in Hp; [done|]. injection Hp as <-.
    rewrite <-(Hm _ _ Hq). unfold begin_eviction. by destruct (state q).
  - apply Hm. by rewrite <-Hne.
Qed.

(** The diff and its execution, together. *)
Lemma manager_reconcile_pods desired m :
  keyed m.(pod_manager) →
  let m' := (manager_reconcile desired m).2 in
  keyed m'.(pod_manager) ∧ ∀ id p, m'.(pod_manager) !! id = Some p → active p →
    ∃ s, s ∈ desired ∧ s.(spec_workload_id) = p.(workload_id).
Proof.
  intros Hkey. unfold manager_reconcile. cbn zeta. cbn [snd]. split.
  { intros k p [Hp|[Hk _]]%boot_all_pods; [|done]. by eapply evict_all_keyed. }
  intros id p Hp Hact.
  apply boot_all_pods in Hp as [Hp|(_ & s & Hs & Hw)].
  - destruct (evict_all_pods (reconcile desired m.(pod_manager)).(to_evict) m id) as [[Heq Hno]|[_ Hno]];
      [|by destruct (Hno p Hp)].
    rewrite Heq in Hp. destruct (decide (Exists (λ s, s.(spec_workload_id) = p.(workload_id)) desired))
      as [Hex|Hnone]; [by apply Exists_exists in Hex as (s & ? & ?); exists s|]. destruct Hno.
    apply elem_of_to_evict. exists id, p. split_and!; [done|by apply Hkey|done|].
    intros s Hs Hw. apply Hnone, Exists_exists. by exists s.
  - exists s. split; [|done]. by apply elem_of_to_boot in Hs as [Hs _].
Qed.

(** Processing a frame never fails, and whichever evictions and boots
    failed, afterwards every active pod belongs to a workload of the frame. *)
Theorem reconcile_enforces_frame desired m :
  keyed m.(pod_manager) →
  let '(r, m') := manager_reconcile desired m in
  r = Ok tt ∧ ∀ id p, m'.(pod_manager) !! id = Some p → active p →
    ∃ s, s ∈ desired ∧ s.(spec_workload_id) = p.(workload_id).
Proof.
  intros Hkey. pose proof (manager_reconcile_pods desired m Hkey) as [_ Hact]. unfold manager_reconcile in *.
  by split.
Qed.
(** The manager is what the schedule task reconciles with. *)
#[export] Instance manager_frames : FrameReconciler WorkloadManager PodSpec.
Proof.
  refine {| reconcile_frame specs m := (manager_reconcile specs m).2;
            hosted m w := ∃ id p, m.(pod_manager) !! id = Some p ∧ active p ∧ p.(workload_id) = w;
            manager_ok m := keyed m.(pod_manager) |}.
  - intros specs m Hm. apply (manager_reconcile_pods specs m Hm).
  - intros specs m w Hm (id & p & Hp & Ha & <-). by apply (proj2 (manager_reconcile_pods specs m Hm) id).
Defined.
End manager.

(** ** Witnesses: a node whose containerd works and whose VMs do not shut down *)

Module Sample.
#[export] Instance node_containerd : ContainerdServices (gset string) := {
  CdChannel := unit;
  cd_connect d := (Ok tt, d);
  containers_create _ c d := (Ok tt, {[c.(c_id)]} ∪ d);
  containers_delete _ id d := (Ok tt, d ∖ {[id]});
  tasks_create _ _ d := (Ok 4242, d);
  tasks_start _ _ d := (Ok tt, d);
  tasks_kill _ _ _ d := (Ok tt, d);
  tasks_delete _ _ d := (Ok tt, d);
  cd_sleep _ d := d;
}.
#[export] Instance node_shell : Shell unit :=
  {| run_command _ _ w := (Exited true "0" "", w); path_exists _ _ := true |}.
#[export] Instance node_guard : NetGuard nat :=
  {| guard_arm _ n := (Ok tt, S n); guard_disarm _ n := (Ok tt, n) |}.
(** The registry is [SRC_IDENTITY_MAP], a kernel map of bounded capacity. *)
Definition identities0 : capmap Z bytes := mkCapmap 1024 ∅.
#[export] Instance node_clock : Clock Z := {| read_clock c := ((c, c * 1000), c + 1) |}.
Definition node_vmm (socket : string) : VmmClient (list VmConfig) := {|
  create_vm cfg v := (Ok tt, v ++ [cfg]);
  boot_vm v := (Ok tt, v);
  shutdown_vm v := (Err "no response", v);
  delete_vm v := (Ok tt, v);
  vm_resize_put _ _ v := (Ok tt, v);
  vm_sleep _ v := v;
|}.
Definition node_cfg : ManagerConfig (H := sample_core) :=
  mkManagerConfig (H := sample_core) VolumeConfig_default "td" "/img" "/k" "/g" ("sys", "node") 3600 2.

Definition Node : Type :=
  WorkloadManager (H := sample_core) (D := gset string) (F := gmap string bytes) (W := unit) (V := list VmConfig)
    (G := nat) (R := capmap Z bytes) (A := VsockAttestServer) (T := capmap Z (list PodNetCounters)) (S := Z)
    (Ev := unit) (C := Z).
Definition node0 (guard : option nat) : Node :=
  mkManager (H := sample_core) (new_lazy "" ∅ ∅) tt [] ∅ (VsockCidAllocator_new 0) guard ∅ (Some identities0) block0 ∅ None
    None (Some ∅) (Some VsockAttestServer_new) None 0.

#[local] Notation run c := (c node_vmm (λ _, Ok []) (λ (_ : gmap string bytes) p, Ok (as_bytes p)) (λ b, b)
  (λ _, Err "none") (λ _, fail (Internal "down")) node_cfg) (only parsing).
#[local] Notation run' c := (c node_vmm (λ (_ : list PodEvent), fail "down") node_cfg) (only parsing).

Definition booted_vm := run boot_pod big_spec (node0 (Some O)).
Definition booted_container := run boot_pod sample_spec (node0 None).
Definition vm_id : string := pod_id_of big_spec big_pod.

Lemma boot_failure_clean_witness :
  (run boot_pod big_spec (node0 None)).2.(pod_manager) = ∅ ∧
  leases (run boot_pod big_spec (node0 None)).2 ⊆ leases (node0 None).
Proof.
  destruct (run boot_pod big_spec (node0 None)) as [[h|e] m'] eqn:Hrun.
  - exfalso. assert (is_ok (run boot_pod big_spec (node0 None)).1 = false) as Hno by (by vm_compute).
    by rewrite Hrun in Hno.
  - destruct (run boot_failure_clean big_spec (node0 None) e m' Hrun) as (Hp & _ & _ & Hl & _).
    split; [exact Hp|exact Hl].
Defined.

Lemma booted_vm_ok : is_ok booted_vm.1 = true.
Proof. by vm_compute. Qed.
Lemma booted_container_ok : is_ok booted_container.1 = true.
Proof. by vm_compute. Qed.

Lemma boot_pod_ok_witness : ∃ gw wl,
  allocate_p2p_pair "web" block0 = (Ok (gw, wl), booted_container.2.(ip_allocator)) ∧
  booted_container.2.(pod_source_ips) !! "web" = Some wl.
Proof.
  destruct booted_container as [[h|e] m'] eqn:Hrun.
  - destruct (run boot_pod_ok sample_spec (node0 None) h m' Hrun)
      as (ps & fp & gw & wl & mounts & reg & m1 & m2 & t & _ & _ & _ & Hps & _ & Ha & Hal & (_ & _ & Hreg) & _).
    injection Hps as <-. exists gw, wl. cbn [snd]. rewrite Hal, Hreg. split; [exact Ha|]. apply lookup_insert_eq.
  - exfalso. pose proof booted_container_ok as Hok. by rewrite Hrun in Hok.
Defined.

Lemma microvm_boot_guarded_witness :
  let guarded m := boot_microvm node_vmm (λ _ p, Ok (as_bytes p)) (λ b, b) node_cfg big_spec [] 2 1 m in
  is_ok (guarded (node0 None)).1 = false ∧ (guarded (node0 None)).2.(vms) = [] ∧
  ∃ h, (guarded (node0 (Some O))).1 = Ok h ∧ h = 3.
Proof.
  intros guarded. split; [|split].
  - destruct (guarded (node0 None)) as [r m'] eqn:Hrun.
    by apply (microvm_boot_guarded node_vmm (λ _ p, Ok (as_bytes p)) (λ b, b) node_cfg big_spec [] 2 1 (node0 None) r m' Hrun).
  - destruct (guarded (node0 None)) as [r m'] eqn:Hrun.
    by apply (microvm_boot_guarded node_vmm (λ _ p, Ok (as_bytes p)) (λ b, b) node_cfg big_spec [] 2 1 (node0 None) r m' Hrun).
  - assert (is_ok (guarded (node0 (Some O))).1 = true) as Hok by (by vm_compute).
    destruct (guarded (node0 (Some O))) as [[h|e] m'] eqn:Hrun; [|done]. exists h. split; [done|].
    destruct (microvm_boot_guarded node_vmm (λ _ p, Ok (as_bytes p)) (λ b, b) node_cfg big_spec [] 2 1
      (node0 (Some O)) _ m' Hrun) as (_ & Hh & _). exact Hh.
Defined.

(** A pod of each runtime, evicted. *)
Definition container_pod : Pod := booted_pod "web" sample_spec (mkPodSpec None "t" "web" "primary" [] [] [] None None None) [] 4242 0.
Definition vm_pod : Pod := booted_pod "db" big_spec big_pod [] 3 0.
Definition node_with (p : Pod) : Node := set_pod_manager {[p.(pod_id) := p]} (set_microvms {[3 := api_socket 3]} (node0 (Some O))).

Lemma node_with_pod p : (node_with p).(pod_manager) !! p.(pod_id) = Some p.
Proof. apply lookup_insert_eq. Qed.
Lemma node_with_keyed p : keyed (node_with p).(pod_manager).
Proof. intros id q. cbn. rewrite lookup_singleton_Some. by intros [<- <-]. Qed.

Lemma evict_pod_ok_witness :
  ∃ m', (run' evict_pod "web" (node_with container_pod)).2 = m' ∧ m'.(pod_manager) !! "web" = None.
Proof.
  assert (is_ok (run' evict_pod "web" (node_with container_pod)).1 = true) as Hok by (by vm_compute).
  destruct (run' evict_pod "web" (node_with container_pod)) as [[u|e] m'] eqn:Hrun; [|done].
  exists m'. split; [done|].
  destruct (run' evict_pod_ok "web" container_pod (node_with container_pod) u m'
    (node_with_pod container_pod) Hrun)
    as [Hp _]. rewrite Hp. apply lookup_delete_eq.
Defined.

Lemma failed_eviction_stuck_witness :
  ∃ p', (run' evict_pod "db" (node_with vm_pod)).2.(pod_manager) !! "db" = Some p' ∧ p'.(state) = Terminating.
Proof.
  assert (is_ok (run' evict_pod "db" (node_with vm_pod)).1 = false) as Hok by (by vm_compute).
  destruct (run' evict_pod "db" (node_with vm_pod)) as [[u|e] m'] eqn:Hrun; [done|].
  apply (run' failed_eviction_stuck "db" vm_pod (node_with vm_pod) e m'
    (node_with_keyed vm_pod) (node_with_pod vm_pod)
    ltac:(by split) Hrun).
Defined.

Definition framed := manager_reconcile node_vmm (λ _, Ok []) (λ (_ : gmap string bytes) p, Ok (as_bytes p)) (λ b, b)
  (λ _, Err "none") (λ _, fail (Internal "down")) (λ _, fail "down") node_cfg [sample_spec] (node_with vm_pod).

Lemma reconcile_enforces_frame_witness :
  framed.1 = Ok tt ∧ ∀ id p, framed.2.(pod_manager) !! id = Some p → active p → p.(workload_id) = "web".
Proof.
  pose proof (reconcile_enforces_frame node_vmm (λ _, Ok []) (λ (_ : gmap string bytes) p, Ok (as_bytes p)) (λ b, b)
    (λ _, Err "none") (λ _, fail (Internal "down")) (λ _, fail "down") node_cfg [sample_spec] (node_with vm_pod)
    (node_with_keyed vm_pod)) as Hr.
  fold framed in Hr. destruct framed as [r m']. destruct Hr as [Hok Hr]. split; [exact Hok|].
  intros id p Hp Ha. destruct (Hr id p Hp Ha) as (s & Hs & <-). by apply list_elem_of_singleton in Hs as ->.
Defined.
End Sample.
