(* ===== verification/Addresses.v ===== *)
(** The node's address plan over the workload manager (src/workloads/mod.rs):
    the recorded source addresses, the leases behind them and the identities the
    kernel resolves them to, over histories of boots and evictions that succeed
    or fail.  IpAllocator.v is the pool, Workloads.v the operations. *)
From S2P Require Import Prelude Errors Core Routes IpAllocator Degraded Counters Pods.
From S2P Require Import Probes Volumes Netns Containerd MicroVm Attest PodEvents Workloads.

Section addresses.
Context `{FleetCore} {OS : HashOrder string} {OZ : HashOrder Z}.
Context {D F W V G R A T S Ev C : Type}.
Context `{ContainerdServices D} `{FileSystem F} `{Directories F} `{Shell W} `{NetGuard G}
  `{SrcIdentityRegistry R} `{AttestationRegistrar A} `{!KernelMap T Z (list PodNetCounters)} `{Clock C}.
Context (vmm : string → VmmClient V).
Context (to_vec : Json → result string bytes).
Context (file_read : F → string → result string bytes) (blake3 : bytes → bytes).
Context (wire_from_bytes : bytes → result string DelegatedSigningKey)
        (request_delegated_key : DelegatedKeyRequest → M AgentError S DelegatedKeyResponse).
Context (report_pod_events : list PodEvent → M string Ev unit).
Context (cfg : ManagerConfig).
Context `{!SrcIdentityLaws R}.
#[local] Abbreviation Manager := (WorkloadManager (D := D) (F := F) (W := W) (V := V) (G := G) (R := R) (A := A) (T := T)
  (S := S) (Ev := Ev) (C := C)).
#[local] Abbreviation boot_pod := (boot_pod vmm to_vec file_read blake3 wire_from_bytes request_delegated_key cfg).
#[local] Abbreviation evict_pod := (evict_pod vmm report_pod_events cfg).
Implicit Types (m : Manager).

(** The pod ids in use: none is another's gateway entry. *)
Context (ids : gset string) (Hids : ids_ok ids).

Inductive manager_op := Boot (spec : WorkloadSpec PodSpec) | Evict (pod_id : string).
Definition run_manager_op (m : Manager) (o : manager_op) : Manager :=
  match o with Boot spec => (boot_pod spec m).2 | Evict id => (evict_pod id m).2 end.

(** Every recorded address is an address of the block, leased to its pod and
    resolved to some identity. *)
Record addressed (m : Manager) : Prop := mkAddressed {
  ad_wf : wf m.(ip_allocator);
  ad_recorded id ip : m.(pod_source_ips) !! id = Some ip →
    id ∈ ids ∧ leases m !! (ip - m.(ip_allocator).(base)) = Some id;
  ad_resolved id ip : m.(pod_source_ips) !! id = Some ip → is_Some (source_identity m ip);
}.

(** A boot of an id whose address is still recorded is left out. *)
Definition fresh_op (m : Manager) (o : manager_op) : Prop :=
  match o with
  | Boot spec => ∀ ps, spec.(spec_pod_spec) = Some ps →
      pod_id_of spec ps ∈ ids ∧ m.(pod_source_ips) !! pod_id_of spec ps = None
  | Evict id => id ∈ ids
  end.
Fixpoint fresh_ops (m : Manager) (ops : list manager_op) : Prop :=
  match ops with [] => True | o :: ops => fresh_op m o ∧ fresh_ops (run_manager_op m o) ops end.

(** ** One operation *)

Lemma addressed_frame m m' :
  m'.(ip_allocator) = m.(ip_allocator) → m'.(src_identity) = m.(src_identity) →
  m'.(pod_source_ips) = m.(pod_source_ips) → addressed m → addressed m'.
Proof.
  intros Ha Hs Hp [Hwf Hrec Hres]. unfold leases, source_identity in *.
  split; unfold leases, source_identity; rewrite ?Ha, ?Hs, ?Hp; eauto.
Qed.

(** Different pods have different addresses, and no recorded address is one the
    pool would give out. *)
Lemma addressed_inj m id id' ip : addressed m →
  m.(pod_source_ips) !! id = Some ip → m.(pod_source_ips) !! id' = Some ip → id = id'.
Proof. intros Hm Hi Hj. apply (ad_recorded m Hm) in Hi as [_ Hi], Hj as [_ Hj]. congruence. Qed.

Lemma release_others id id' a o :
  id ∈ ids → id' ∈ ids → id ≠ id' → a.(allocated) !! o = Some id' →
  (release_p2p_pair id a).(allocated) !! o = Some id'.
Proof.
  intros Hi Hi' Hne Ho. unfold release_p2p_pair, release_microvm_pair. rewrite release_lookup, Ho. cbn.
  fold (pair_owner id id'). rewrite (pair_owner_pod ids id id' Hids Hi Hi').
  by rewrite bool_decide_eq_false_2.
Qed.

(** The new pair is beside every recorded address. *)
Lemma allocate_others pod m pair a id ip :
  addressed m → allocate_p2p_pair pod m.(ip_allocator) = (Ok pair, a) → m.(pod_source_ips) !! id = Some ip →
  a.(allocated) !! (ip - a.(base)) = Some id ∧ ip ≠ pair.2.
Proof.
  intros Hm Ha Hip. pose proof (ad_wf m Hm) as Hwf. apply (ad_recorded m Hm) in Hip as [_ Hip]. unfold leases in Hip.
  destruct pair as [gw wl]. apply (allocate_cases pod _ _ _ Hwf) in Ha
    as (o & next & -> & -> & -> & _ & _ & _ & _ & _ & Hfree & Hfree1).
  cbn [base allocated with_pair snd]. split; [rewrite !lookup_insert_ne; [done|congruence..]|].
  intros ->. replace (base (ip_allocator m) + (o + 1) - base (ip_allocator m)) with (o + 1) in Hip by lia. congruence.
Qed.

Lemma allocated_wf pod m pair a : addressed m → allocate_p2p_pair pod m.(ip_allocator) = (Ok pair, a) →
  wf a ∧ a.(base) = m.(ip_allocator).(base) ∧ a.(allocated) !! (pair.2 - a.(base)) = Some pod.
Proof.
  intros Hm Ha. pose proof (ad_wf m Hm) as Hwf. destruct pair as [gw wl].
  apply (allocate_cases pod _ _ _ Hwf) in Ha as (o & next & -> & -> & -> & _ & Ho & Ho1 & Hn1 & Hn2 & _ & _).
  split; [by apply with_pair_wf|]. split; [done|]. cbn [base allocated with_pair snd].
  replace (base (ip_allocator m) + (o + 1) - base (ip_allocator m)) with (o + 1) by lia. apply lookup_insert_eq.
Qed.

(** A pair was taken, and at most its own address was given an identity. *)
Lemma allocated_addressed pod pair m m' :
  addressed m → allocate_p2p_pair pod m.(ip_allocator) = (Ok pair, m'.(ip_allocator)) →
  (∀ ip, ip ≠ pair.2 → source_identity m' ip = source_identity m ip) → m'.(pod_source_ips) = m.(pod_source_ips) →
  addressed m'.
Proof.
  intros Hm Ha Hs Hips. destruct (allocated_wf _ _ _ _ Hm Ha) as (Hwf & _ & _).
  split; [done|intros k ip..]; rewrite Hips; intros Hk; destruct (allocate_others _ _ _ _ _ _ Hm Ha Hk) as [Hl Hne].
  - split; [by apply (ad_recorded m Hm) in Hk as [? _]|done].
  - rewrite Hs by done. by eapply (ad_resolved m Hm).
Qed.

(** The address of a started pod is recorded. *)
Lemma recorded_addressed id ip m m' :
  addressed m → id ∈ ids → leases m !! (ip - m.(ip_allocator).(base)) = Some id → is_Some (source_identity m ip) →
  m'.(ip_allocator) = m.(ip_allocator) → m'.(src_identity) = m.(src_identity) →
  m'.(pod_source_ips) = <[id := ip]> m.(pod_source_ips) → addressed m'.
Proof.
  intros Hm Hid Hl Hr Ha Hs Hips. unfold source_identity, leases in *.
  split; unfold source_identity, leases; rewrite ?Ha, ?Hs, ?Hips; [apply (ad_wf m Hm)|intros k ip'..]; rewrite lookup_insert_Some.
  - intros [[<- <-]|[_ Hk]]; [done|by apply (ad_recorded m Hm)].
  - intros [[<- <-]|[_ Hk]]; [done|by apply (ad_resolved m Hm k)].
Qed.

Lemma start_pod_ips spec m r m' :
  start_pod vmm to_vec file_read blake3 wire_from_bytes request_delegated_key cfg spec m = (r, m') →
  m'.(pod_source_ips) = m.(pod_source_ips).
Proof. apply keeps_run. by apply start_pod_keeps. Qed.

(** A start that succeeds or fails; when it succeeds its address is ready to be
    recorded. *)
Lemma start_addressed spec m r m' :
  start_pod vmm to_vec file_read blake3 wire_from_bytes request_delegated_key cfg spec m = (r, m') →
  addressed m → fresh_op m (Boot spec) →
  addressed m' ∧ ∀ p, r = Ok p → spec.(spec_pod_spec) = Some p.(st_pod_spec) ∧
    ∀ ip, p.(st_registered_ip) = Some ip →
      leases m' !! (ip - m'.(ip_allocator).(base)) = Some (pod_id_of spec p.(st_pod_spec)) ∧ is_Some (source_identity m' ip).
Proof.
  intros Hrun Hm Hfresh. pose proof (start_pod_ips _ _ _ _ Hrun) as Hips. destruct r as [p|e].
  - apply (start_pod_run vmm to_vec file_read blake3 wire_from_bytes request_delegated_key cfg) in Hrun
      as (gw & wl & mounts & m1 & _ & _ & Hps & _ & Ha & Hnet & _).
    destruct (allocated_wf _ _ _ _ Hm Ha) as (_ & _ & Hnew). split.
    + eapply allocated_addressed; [done|exact Ha| |done]. intros ip Hne. cbn in Hne. destruct (src_identity m) as [r0|] eqn:Hr0.
      * destruct Hnet as (_ & _ & Hs). by rewrite Hs, decide_False.
      * destruct Hnet as [_ Hs]. unfold source_identity. by rewrite Hr0, Hs.
    + intros ? [= <-]. split; [done|]. intros ip Hip. destruct (src_identity m) as [r0|]; [|by destruct Hnet; congruence].
      destruct Hnet as (Hreg & _ & Hs). rewrite Hreg in Hip. injection Hip as <-.
      split; [done|]. rewrite Hs, decide_True by done. by eexists.
  - split; [|done].
    apply (start_pod_network_err vmm to_vec file_read blake3 wire_from_bytes request_delegated_key cfg _ _ _ _) in Hrun
      as [[Ha Hs]|(ps & pair & a & Hps & Ha & Hrel & Hs)]; [by eapply addressed_frame|].
    destruct (Hfresh ps Hps) as [Hid Hnone]. destruct (allocated_wf _ _ _ _ Hm Ha) as (Hwf & _ & _).
    split; [rewrite Hrel; by apply release_wf|intros k ip..]; rewrite Hips; intros Hk;
      destruct (allocate_others _ _ _ _ _ _ Hm Ha Hk) as [Hl Hne].
    + pose proof (ad_recorded m Hm _ _ Hk) as [Hkid _]. split; [done|]. unfold leases. rewrite Hrel.
      apply release_others; [done..|congruence|done].
    + destruct (Hs ip) as [->|[? _]]; [by eapply (ad_resolved m Hm)|done].
Qed.

Lemma boot_addressed spec m : addressed m → fresh_op m (Boot spec) → addressed (boot_pod spec m).2.
Proof.
  intros Hm Hfresh. unfold Workloads.boot_pod, mbind, M_bind.
  destruct (start_pod _ _ _ _ _ _ _ spec m) as [r m1] eqn:Hrun.
  destruct (start_addressed _ _ _ _ Hrun Hm Hfresh) as [Hm1 Hready]. destruct r as [p|e]; [|done].
  destruct (Hready p eq_refl) as [Hps Hreg]. destruct (Hfresh _ Hps) as [Hid _].
  destruct (record_pod_run spec p m1) as (t & m2 & -> & _ & Hips & _ & Ha & Hs & _). cbn [snd].
  destruct (st_registered_ip p) as [ip|]; [|by eapply addressed_frame].
  destruct (Hreg ip eq_refl) as [Hl Hr]. by eapply recorded_addressed.
Qed.
(** What an eviction, completed or not, does to the network tables. *)
Lemma evict_tables id m :
  let m' := (evict_pod id m).2 in
  (m'.(ip_allocator) = m.(ip_allocator) ∧ m'.(src_identity) = m.(src_identity) ∧ m'.(pod_source_ips) = m.(pod_source_ips)) ∨
  m'.(pod_source_ips) = delete id m.(pod_source_ips) ∧
  m'.(ip_allocator) = (if decide (is_Some (m.(pod_source_ips) !! id)) then release_p2p_pair id m.(ip_allocator)
                       else m.(ip_allocator)) ∧
  ∀ ip, source_identity m' ip = source_identity m ip ∨ m.(pod_source_ips) !! id = Some ip.
Proof.
  cbn zeta. destruct (evict_pod id m) as [r m'] eqn:Hrun. cbn [snd].
  destruct (m.(pod_manager) !! id) as [p|] eqn:Hp.
  2:{ revert Hrun. unfold Workloads.evict_pod, mbind, M_bind, get, get_pod. rewrite Hp. intros [= <- <-]. by left. }
  destruct (evict_pod_phases vmm report_pod_events cfg id p m r m' Hp Hrun)
    as (m1 & _ & _ & Hip1 & Hal1 & Hsi1 & Hcases).
  destruct Hcases as [(e & Hst & _)|(u & m2 & m3 & Hst & Hrel & _ & _ & Hip & Hal & Hsi & _ & _)];
    pose proof (keeps_run tables _ _ _ _ (stop_pod_keeps vmm _ _ _) Hst) as [= _ _ Hip2 Hal2 Hsi2].
  { left. split_and!; congruence. }
  right. destruct (release_network_run id p.(runtime) m2) as (m3' & Hrel' & _ & _ & _ & _ & Hip3 & Hal3 & Hsi3).
  rewrite Hrel in Hrel'. injection Hrel' as <-. rewrite Hip2, Hip1 in Hip3, Hal3, Hsi3.
  split; [congruence|]. split; [by rewrite Hal, Hal3, Hal2, Hal1|]. intros ip. unfold source_identity.
  rewrite Hsi, Hsi3, Hsi2, Hsi1. destruct (m.(pod_source_ips) !! id) as [ip0|]; [|by left].
  destruct (src_identity m) as [r0|]; [|by left]. cbn.
  rewrite unregister_clears. destruct (decide (ip0 = ip)) as [->|]; [by right|by left].
Qed.

(** The network of a pod was given back. *)
Definition network_released (id : string) (m m' : Manager) : Prop :=
  m'.(pod_source_ips) = delete id m.(pod_source_ips) ∧
  m'.(ip_allocator) = (if decide (is_Some (m.(pod_source_ips) !! id)) then release_p2p_pair id m.(ip_allocator)
                       else m.(ip_allocator)) ∧
  ∀ ip, source_identity m' ip = source_identity m ip ∨ m.(pod_source_ips) !! id = Some ip.

Lemma released_addressed id m m' : network_released id m m' → addressed m → addressed m'.
Proof.
  intros (Hp & Ha & Hs) Hm.
  assert (∀ k ip, m'.(pod_source_ips) !! k = Some ip → id ≠ k ∧ m.(pod_source_ips) !! k = Some ip) as Hkept
    by (intros k ip; rewrite Hp; apply lookup_delete_Some).
  split; [|intros k ip [Hne Hk]%Hkept..].
  - rewrite Ha. destruct (decide _); [apply release_wf|]; apply (ad_wf m Hm).
  - pose proof (ad_recorded m Hm _ _ Hk) as [Hkid Hl]. split; [done|]. unfold leases in *. rewrite Ha.
    destruct (decide _) as [[ip' Hid]|]; [|done]. apply (ad_recorded m Hm) in Hid as [Hid _]. by apply release_others.
  - destruct (Hs ip) as [->|Hi]; [by eapply (ad_resolved m Hm)|]. by destruct Hne; apply (addressed_inj m id k ip Hm).
Qed.

Lemma evict_addressed id m : addressed m → addressed (evict_pod id m).2.
Proof.
  intros Hm. destruct (evict_tables id m) as [(Ha & Hs & Hp)|Hrel]; [by eapply addressed_frame|by eapply released_addressed].
Qed.

(** ** Histories *)

(** The address plan holds over any history of boots and evictions, whichever
    of them fail, in which no pod id is booted while its address is still
    recorded: two pods never have the same address; every recorded address lies
    strictly inside the node's block, is leased to its pod, so that the pool
    cannot give it out again, and resolves to an identity in the kernel. *)
Theorem addresses_disjoint m ops :
  addressed m → fresh_ops m ops →
  let m' := foldl run_manager_op m ops in
  (∀ id id' ip, m'.(pod_source_ips) !! id = Some ip → m'.(pod_source_ips) !! id' = Some ip → id = id') ∧
  ∀ id ip, m'.(pod_source_ips) !! id = Some ip →
    m'.(ip_allocator).(base) < ip < m'.(ip_allocator).(base) + m'.(ip_allocator).(host_count) - 1 ∧
    leases m' !! (ip - m'.(ip_allocator).(base)) = Some id ∧ is_Some (source_identity m' ip).
Proof.
  intros Hm Hops. cbn zeta. assert (addressed (foldl run_manager_op m ops)) as Hm'.
  { revert m Hm Hops. induction ops as [|o ops IH]; intros m Hm; [done|]. intros [Ho Hops]. apply IH; [|done].
    destruct o as [spec|id]; [by apply boot_addressed|by apply evict_addressed]. }
  split; [intros id id' ip; by apply addressed_inj|]. intros id ip Hip.
  pose proof (ad_recorded _ Hm' _ _ Hip) as [_ Hl]. split; [|split; [done|by eapply (ad_resolved _ Hm')]].
  destruct (wf_allocated _ (ad_wf _ Hm') (ip - base (ip_allocator (foldl run_manager_op m ops)))) as [? _]; [by eexists|]. lia.
Qed.
End addresses.

(** ** Witnesses *)

Import Workloads.Sample.
#[local] Notation on_node op := (op node_vmm (λ _, Ok []) (λ (_ : gmap string bytes) p, Ok (as_bytes p)) (λ b, b)
  (λ _, Err "none") (λ _, fail (Internal "down")) (λ (_ : list PodEvent), fail "down") node_cfg) (only parsing).

(** A VM and a container, an eviction of the VM that fails, and a replaced
    container. *)
Definition node_ids : gset string := {["web"; "db"]}.
Definition node_history : list manager_op := [Boot big_spec; Boot sample_spec; Evict "db"; Evict "web"; Boot sample_spec].
Definition node_end := foldl (on_node run_manager_op) (node0 (Some O)) node_history.

Lemma node_ids_ok : ids_ok node_ids.
Proof.
  intros p q Hp Hq. unfold node_ids in *. rewrite !elem_of_union, !elem_of_singleton in *.
  by destruct Hp as [->| ->], Hq as [->| ->].
Qed.
Lemma node_addressed : addressed node_ids (node0 (Some O)).
Proof.
  split; [apply (new_wf node_block block0 block0_new)|..]; intros id ip Hip; cbn in Hip; by rewrite lookup_empty in Hip.
Qed.
Lemma node_fresh : on_node fresh_ops node_ids (node0 (Some O)) node_history.
Proof.
  unfold node_history. split; [|split; [|split; [|split; [|split; [|done]]]]]; cbn [fresh_op].
  1,2,5: intros ps [= <-]; split; [apply (bool_decide_unpack _); by vm_compute|by vm_compute].
  all: apply (bool_decide_unpack _); by vm_compute.
Qed.

Lemma addresses_disjoint_witness :
  size node_end.(pod_source_ips) = 2%nat ∧ ∀ id id' ip,
  node_end.(pod_source_ips) !! id = Some ip → node_end.(pod_source_ips) !! id' = Some ip → id = id'.
Proof.
  split; [by vm_compute|].
  apply (on_node addresses_disjoint node_ids node_ids_ok (node0 (Some O)) node_history
    node_addressed node_fresh).
Defined.

(** *** A pod that is booted again while its eviction is stuck *)

(** A guard that, like the adapter, arms one interface in its life. *)
Definition once_guard := bool.
#[local] Instance guard_once : NetGuard once_guard :=
  {| guard_arm _ := λ used : bool, if used then (Err (Ebpf "already loaded"), used) else (Ok tt, true);
     guard_disarm _ := λ used, (Ok tt, used) |}.
Definition once_node : WorkloadManager (H := sample_core) (D := gset string) (F := gmap string bytes) (W := unit)
    (V := list VmConfig) (G := once_guard) (R := capmap Z bytes) (A := VsockAttestServer)
    (T := capmap Z (list PodNetCounters)) (S := Z) (Ev := unit) (C := Z) :=
  mkManager (H := sample_core) (new_lazy "" ∅ ∅) tt [] ∅ (VsockCidAllocator_new 0) (Some false) ∅ (Some identities0) block0 ∅
    None None (Some ∅) (Some VsockAttestServer_new) None 0.
Definition frames_processed (frames : list (list (WorkloadSpec PodSpec))) :=
  foldl (λ m frame, (manager_reconcile node_vmm (λ _, Ok []) (λ (_ : gmap string bytes) p, Ok (as_bytes p)) (λ b, b)
    (λ _, Err "none") (λ _, fail (Internal "down")) (λ (_ : list PodEvent), fail "down") node_cfg frame m).2)
    once_node frames.

(** The frame drops "db", whose VM does not shut down, takes it back, where the
    boot fails and releases both pairs of the id, and adds "web": "web" gets the
    address that "db", still running, is recorded with. *)
Example stuck_address_reused :
  let m := frames_processed [[big_spec]; []; [big_spec]; [big_spec; sample_spec]] in
  m.(pod_source_ips) !! "db" = Some 183763202 ∧ m.(pod_source_ips) !! "web" = Some 183763202 ∧
  state <$> m.(pod_manager) !! "db" = Some Terminating.
Proof. by vm_compute. Qed.
