(* ===== verification/Wiring.v ===== *)
(** The watch loops (src/wiring.rs): what one frame of the schedule, route and
    SAG streams does to the pods, the names handed to workloads and the kernel
    maps. *)
From S2P Require Import Prelude Errors Core Pods Volumes Attest.
From S2P Require Routes Policy.
Import Routes(ipv4_to_string, nl, RouteSyncState, sync_routes, sync_outcome, Applied).

Section wiring.
Context `{FleetCore}.

(** [all_pods_mut], each pod changed alike. *)
Definition for_all_pods (f : Pod → Pod) (m : gmap string Pod) : gmap string Pod := f <$> m.

Definition pod_spiffe (trust_domain : string) (p : Pod) : string :=
  spiffe_to_string (spiffe_new trust_domain p.(Pods.tenant_id) kind_sa p.(Pods.workload_id)).

Definition reevaluate_router_connected (routes : list RouteEntry) (trust_domain : string) :
    gmap string Pod → gmap string Pod :=
  for_all_pods (λ p,
    let my_routes := filter (λ r, pod_spiffe trust_domain p ∈ r.(source_spiffe_ids)) routes in
    let connected := match my_routes with
                     | [] => true
                     | _ => forallb (λ r, bool_decide (r.(dummy_ip) ≠ 0)) my_routes
                     end in
    set_gates p.(started) p.(policy_enforced) connected p).

Definition mark_all_pods_policy_enforced : gmap string Pod → gmap string Pod :=
  for_all_pods mark_policy_enforced.

(** ** WatchSchedule: assignments that do not parse are dropped *)

Definition schedule_specs {PodSpec} (assignments : list (WorkloadAssignment PodSpec)) :
    list (WorkloadSpec PodSpec) :=
  omap (λ a, result_ok (from_assignment a)) assignments.

(** ** WatchRoutes *)

Definition route_to_dummy_ip_config (entry : RouteEntry) : option DummyIpRouteConfig :=
  spiffe ← result_ok (spiffe_parse entry.(destination_svid));
  Some (mkDummyRoute (be_bytes 4 entry.(dummy_ip)) (spiffe_name spiffe) entry.(destination_role)
          (spiffe_tenant spiffe)).

Definition dummy_routes (routes : list RouteEntry) : list DummyIpRouteConfig :=
  omap route_to_dummy_ip_config routes.
Definition hosts_lines (routes : list RouteEntry) : list string :=
  "127.0.0.1 localhost" ::
  omap (λ e, cfg ← route_to_dummy_ip_config e;
             Some (ipv4_to_string e.(dummy_ip) +:+ " " +:+ cfg.(route_service) +:+ "." +:+ cfg.(route_tenant))) routes.
Definition hosts_content (routes : list RouteEntry) : string :=
  String.concat nl (hosts_lines routes) +:+ nl.

Context {D L : Type} `{!KernelMap D Z bytes} `{!KernelMap L bytes Z}.
Context {OZ : HashOrder Z} {OB : HashOrder bytes}.

(** What the routes loop owns or writes: the containerd adapter's hosts file
    and the config builder's routes, its sync state, the maps and the pods. *)
Record RoutesWatch := mkRoutesWatch {
  containerd_hosts : string;
  builder_routes : list DummyIpRouteConfig;
  route_state : RouteSyncState;
  route_maps : D * L;
  pods : gmap string Pod;
}.

(** One update of [run_routes_watch]. *)
Definition on_route_update (trust_domain node_name : string) (update : RouteUpdate) (s : RoutesWatch) :
    sync_outcome * RoutesWatch :=
  let own := spiffe_new trust_domain "system" kind_node node_name in
  let '(out, (st, maps)) := sync_routes own update (s.(route_state), s.(route_maps)) in
  (out, mkRoutesWatch (hosts_content update.(routes)) (dummy_routes update.(routes)) st maps
    (match out with
     | Applied => reevaluate_router_connected update.(routes) trust_domain s.(pods)
     | _ => s.(pods)
     end)).

(** ** WatchSag *)

Context `{Policy.PolicyCompiler} {T : Type} `{!KernelMap T bytes bytes}.

(** One update of [run_sag_watch], on its sync state, the policy maps and the
    pods. *)
Definition on_sag_update (data_trust_domain : string) (update : Policy.SagUpdate)
    (s : (Policy.PolicySyncState * (T * T)) * gmap string Pod) :
    Result unit * ((Policy.PolicySyncState * (T * T)) * gmap string Pod) :=
  let '(st, pods) := s in
  let '(r, st) := Policy.sync_policy update data_trust_domain st in
  (r, (st, if is_ok r then mark_all_pods_policy_enforced pods else pods)).

(** ** Gates *)

(** A route frame always replaces the names handed to containers and
    guests, also when the table rejects it or the kernel maps refuse it; only
    an applied frame re-evaluates the pods, and then each pod's router gate is
    open exactly when every route of the frame that lists the pod as a source
    has an address, its other fields being untouched. *)
Theorem route_update_spec td node update s :
  let '(out, s') := on_route_update td node update s in
  s'.(containerd_hosts) = hosts_content update.(routes) ∧
  s'.(builder_routes) = dummy_routes update.(routes) ∧
  (out ≠ Applied → s'.(pods) = s.(pods)) ∧
  (out = Applied → dom s'.(pods) = dom s.(pods) ∧
     ∀ id p, s.(pods) !! id = Some p → ∃ connected,
       s'.(pods) !! id = Some (set_gates p.(started) p.(policy_enforced) connected p) ∧
       (connected = true ↔ ∀ r, r ∈ update.(routes) → pod_spiffe td p ∈ r.(source_spiffe_ids) → r.(dummy_ip) ≠ 0)).
Proof.
  unfold on_route_update. destruct (sync_routes _ _ _) as [out [st maps]]. cbn.
  split; [done|]. split; [done|]. split; [by destruct out|]. intros ->.
  unfold reevaluate_router_connected, for_all_pods. split; [apply dom_fmap_L|].
  intros id p Hp. rewrite lookup_fmap, Hp. cbn. eexists. split; [done|].
  set (mine := filter _ _).
  assert (∀ r, r ∈ mine ↔ r ∈ update.(routes) ∧ pod_spiffe td p ∈ r.(source_spiffe_ids)) as Hmine
    by (intros r; unfold mine; rewrite list_elem_of_filter; naive_solver).
  assert ((match mine with [] => true | _ => forallb (λ r, bool_decide (dummy_ip r ≠ 0)) mine end) =
    forallb (λ r, bool_decide (dummy_ip r ≠ 0)) mine) as -> by (by destruct mine).
  clearbody mine. rewrite forallb_forall. setoid_rewrite <-list_elem_of_In. setoid_rewrite bool_decide_eq_true.
  naive_solver.
Qed.

(** An assignment whose runtime is not recognised is dropped before the
    diff: a workload that is running and whose assignments are all of that
    kind is evicted, although the frame desires it. *)
Theorem unknown_runtime_evicts {PodSpec} {OS : HashOrder string} (assignments : list (WorkloadAssignment PodSpec))
    (m : gmap string Pod) id p :
  keyed m → m !! id = Some p → active p →
  (∀ a, a ∈ assignments → a.(as_workload_id) = p.(Pods.workload_id) →
     is_ok (runtime_of_str a.(as_runtime)) = false) →
  id ∈ (reconcile (schedule_specs assignments) m).(to_evict).
Proof.
  intros Hkey Hp Hact Hbad. apply elem_of_to_evict. exists id, p. split_and!; [done|by apply Hkey|done|].
  intros s Hs Hw. unfold schedule_specs in Hs. apply list_elem_of_omap in Hs as (a & Ha & Hs).
  destruct (from_assignment a) as [s'|] eqn:Hf; cbn in Hs; [|done]. injection Hs as ->.
  unfold from_assignment in Hf. apply result_bind_ok in Hf as (rt & Hrt & [= <-]). cbn in Hw.
  specialize (Hbad a Ha Hw). by rewrite Hrt in Hbad.
Qed.
End wiring.

Lemma unknown_runtime_evicts_witness :
  "p1" ∈ (reconcile (schedule_specs [mkAssignment (PodSpec := unit) "w1" "kata" "img" "primary" None "h"])
            sample_pods).(to_evict).
Proof.
  apply (unknown_runtime_evicts _ sample_pods "p1" sample_running); [apply sample_pods_keyed|apply lookup_insert_eq|done|].
  intros a Ha _. by apply list_elem_of_singleton in Ha as ->.
Defined.
