(* ===== verification/WatchLoops.v ===== *)
(** The four watch tasks of src/wiring.rs: each consumes one of the streams of
    src/client/watch.rs and hands every frame to its handler; an error of the
    stream is logged.  The schedule task reaches the workload manager through
    the interface [FrameReconciler] of Pods.v, which Workloads.v implements. *)
From S2P Require Import Prelude Simulation Errors Core Pods Workloads Retry Watch Wiring.
From S2P Require Store Keystore Routes Policy Volumes Attest Secrets.

(** ** A stream and its consumer *)

Section loop.
Context {U S : Type} (step : watch_state → answer U → option (watch_state * list (output U))) (handle : U → S → S).

(** [while let Some(result) = stream.next().await]: the consumer's state after
    the stream got the answers of [script]. *)
Definition run_watch (s : S) (script : list (answer U)) : option (watch_state * S) :=
  '(st, out) ← watch_run step watch_init script;
  Some (st, foldl (λ s u, handle u s) s (items out)).
End loop.

(** The frames a versioned stream hands to its consumer: those of the script
    that are newer than all before them. *)
Lemma run_watch_frames {U S} (version : U → Z) (handle : U → S → S) s script st s' :
  run_watch (watch_versioned version) handle s script = Some (st, s') →
  let frames := newer_frames version 0 script in
  StronglySorted Z.lt (version <$> frames) ∧ Forall (λ u, 0 < version u) frames ∧
  st.(last_known_version) = default 0 (last (version <$> frames)) ∧
  s' = foldl (λ s u, handle u s) s frames.
Proof.
  unfold run_watch. destruct (watch_run _ watch_init script) as [[st1 out]|] eqn:Hw; [|done]. intros [= <- <-].
  pose proof (watch_run_items version _ _ _ _ Hw) as Hi. cbn in Hi. rewrite <-Hi. by apply watch_run_increasing in Hw as (? & ? & ? & _).
Qed.

(** A consumer whose steps also answer. *)
Lemma foldl_run {S U Out} (step : S → U → Out * S) s frames :
  foldl (λ s u, (step s u).2) s frames = (run step s frames).2.
Proof. revert s. induction frames as [|u us IH]; intros s; [done|]. by rewrite run_cons, <-IH. Qed.

Record ScheduleUpdate (PodSpec : Type) := mkSchedule {
  schedule_version : Z;
  assignments : list (WorkloadAssignment PodSpec);
}.
Arguments mkSchedule {PodSpec}.
Arguments schedule_version {PodSpec}.
Arguments assignments {PodSpec}.

(** [SecretRotation]/[SvidRotation] events have no version. *)
Definition watch_sag `{Policy.PolicyCompiler} := watch_versioned Policy.version.
Definition watch_schedule {PodSpec} := watch_versioned (schedule_version (PodSpec := PodSpec)).
Definition watch_routes := watch_versioned Core.version.

(** ** Schedule *)

Section schedule.
Context {S PodSpec : Type} `{!FrameReconciler S PodSpec}.

(** Assignments of an unknown runtime are skipped. *)
Definition on_schedule_update (update : ScheduleUpdate PodSpec) (s : S) : S :=
  reconcile_frame (schedule_specs update.(assignments)) s.
Definition run_schedule_watch : S → list (answer (ScheduleUpdate PodSpec)) → option (watch_state * S) :=
  run_watch watch_schedule on_schedule_update.

Lemma schedule_specs_from specs w :
  (∃ s, s ∈ schedule_specs (PodSpec := PodSpec) specs ∧ s.(spec_workload_id) = w) →
  ∃ a, a ∈ specs ∧ a.(as_workload_id) = w.
Proof.
  intros (s & Hs & <-). unfold schedule_specs in Hs. apply list_elem_of_omap in Hs as (a & Ha & Hs).
  exists a. split; [done|]. destruct (from_assignment a) as [s'|] eqn:Hf; cbn in Hs; [|done]. injection Hs as ->.
  unfold from_assignment in Hf. by apply result_bind_ok in Hf as (rt & _ & [= <-]).
Qed.

(** Whatever the control plane answers, once a schedule frame was handed
    on, only workloads the newest such frame assigns have an active pod; a frame
    older than one already processed is never processed. *)
Theorem schedule_watch_enforces s script st s' :
  manager_ok s → run_schedule_watch s script = Some (st, s') →
  let frames := newer_frames schedule_version 0 script in
  StronglySorted Z.lt (schedule_version <$> frames) ∧
  s' = foldl (λ s u, on_schedule_update u s) s frames ∧
  match last frames with
  | Some u => st.(last_known_version) = schedule_version u ∧
      ∀ w, hosted s' w → ∃ a, a ∈ u.(assignments) ∧ a.(as_workload_id) = w
  | None => s' = s
  end.
Proof.
  intros Hok Hrun. apply run_watch_frames in Hrun as (Hsort & _ & Hlast & ->). cbn zeta.
  split; [done|]. split; [done|]. revert Hlast. clear Hsort. generalize (newer_frames schedule_version 0 script) as frames. induction frames as [|u us _] using rev_ind; [done|].
  rewrite fmap_app, last_snoc, foldl_app. cbn [fmap list_fmap foldl]. rewrite last_snoc. intros Hv. split; [done|].
  intros w Hw. unfold on_schedule_update in Hw at 1. apply reconcile_enforces in Hw.
  - by apply schedule_specs_from.
  - clear -Hok FrameReconciler0. induction us as [|u us IH] using rev_ind; [done|]. rewrite foldl_app. by apply reconcile_keeps_ok.
Qed.
End schedule.

(** ** Handlers that keep the version they applied *)

Section tracked.
Context {U S Out : Type} (version : U → Z) (v : S → Z) (step : S → U → Out * S) (applied : Out → bool).
Hypothesis step_version : ∀ s u, v s < version u →
  v (step s u).2 = if applied (step s u).1 then version u else v s.

(** The versions of the frames that were applied. *)
Definition applied_versions (frames : list U) (outs : list Out) : list Z :=
  omap (λ uo, if applied uo.2 then Some (version uo.1) else None) (zip frames outs).
Lemma applied_versions_cons u us o os :
  applied_versions (u :: us) (o :: os) =
    if applied o then version u :: applied_versions us os else applied_versions us os.
Proof. unfold applied_versions. simpl. by destruct (applied o). Qed.

(** Frames in version order all find a handler that is behind them, so that
    its version is that of the last frame it applied. *)
Lemma tracked_run frames s :
  StronglySorted Z.lt (version <$> frames) → Forall (λ u, v s < version u) frames →
  v (run step s frames).2 = default (v s) (last (applied_versions frames (run step s frames).1)) ∧
  ∀ P : Out → Prop, (∀ s u, v s < version u → P (step s u).1) → Forall P (run step s frames).1.
Proof.
  revert s. induction frames as [|u us IH]; intros s Hsort Hall; [by split|].
  apply StronglySorted_inv in Hsort as [Hsort Hu]. apply Forall_cons_1 in Hall as [Hlt Hall].
  rewrite !run_cons. cbn [fst snd]. pose proof (step_version s u Hlt) as Hstep.
  assert (Forall (λ w, v (step s u).2 < version w) us) as Hall'.
  { rewrite Hstep. destruct (applied _); [|done]. exact (proj1 (Forall_fmap _ _ _) Hu). }
  destruct (IH _ Hsort Hall') as [Hv HP]. split; [|intros P Hf; constructor; [by apply Hf|by apply HP]].
  rewrite Hv, Hstep, applied_versions_cons. destruct (applied (step s u).1); [|done].
  rewrite last_cons. by destruct (last (applied_versions us _)).
Qed.

(** A frame that is not applied leaves the handler behind the stream. *)
Lemma tracked_behind frames s u o :
  StronglySorted Z.lt (version <$> frames) → Forall (λ u, v s < version u) frames →
  last frames = Some u → last (run step s frames).1 = Some o → applied o = false →
  v (run step s frames).2 < version u.
Proof.
  intros Hsort Hall Hu Ho Hno. apply last_Some in Hu as [us ->]. rewrite run_app in *. cbn [fst snd] in *.
  rewrite run_cons in *. cbn [fst snd run] in *. rewrite last_snoc in Ho. injection Ho as Ho.
  set (s1 := (run step s us).2) in *.
  assert (v s1 < version u) as Hlt; [|by rewrite step_version, Ho, Hno].
  clear Ho. subst s1. revert s Hall. induction us as [|w us IH]; intros s Hall; [by apply Forall_cons_1 in Hall as [? _]|].
  rewrite run_cons. cbn in Hsort, Hall. apply StronglySorted_inv in Hsort as [Hsort Hw].
  apply Forall_cons_1 in Hall as [Hlt Hall]. apply IH; [done|]. rewrite step_version by done.
  destruct (applied (step s w).1); [|done]. exact (proj1 (Forall_fmap _ _ _) Hw).
Qed.
End tracked.

(** ** Routes *)

Section routes.
Context `{FleetCore} {D L : Type} `{!KernelMap D Z bytes} `{!KernelMap L bytes Z}.
Context {OZ : HashOrder Z} {OB : HashOrder bytes}.
Context (trust_domain node_name : string).
Implicit Types (s : RoutesWatch (D := D) (L := L)).

Definition run_routes_watch : RoutesWatch → list (answer RouteUpdate) → option (watch_state * RoutesWatch) :=
  run_watch watch_routes (λ u s, (on_route_update trust_domain node_name u s).2).

Definition is_applied (out : Routes.sync_outcome) : bool := match out with Routes.Applied => true | _ => false end.
Definition route_version s : Z := s.(route_state).(Routes.current_version).
Definition route_step s u := on_route_update trust_domain node_name u s.

Lemma route_step_version s u : route_version s < u.(version) →
  route_version (route_step s u).2 = if is_applied (route_step s u).1 then u.(version) else route_version s.
Proof.
  intros Hv. unfold route_step, on_route_update, route_version, Routes.sync_routes.
  destruct (Routes.process_route_update _ _ _) as [[ms|]|e]; [|done..].
  by destruct (Routes.apply_mutations_to_maps _ _) as [[u'|e] maps'].
Qed.
Lemma route_step_fresh s u : route_version s < u.(version) → (route_step s u).1 ≠ Routes.Stale.
Proof.
  intros Hv. unfold route_step, on_route_update, Routes.sync_routes, Routes.process_route_update.
  unfold route_version in Hv. rewrite decide_False by lia.
  destruct (Routes.process_entries _ _ _ _ _) as [a|e]; cbn; [|done].
  by destruct (Routes.apply_mutations_to_maps _ _) as [[u'|e] maps'].
Qed.

(** C21: The route task, from an agent that just started.  The frames the control
    plane sends that are newer than all it sent before, across reconnects, and no
    others, are each processed once, in that order, and none is found stale; the
    names handed to workloads are those of the newest frame; the table's version
    is that of the last frame that was applied.  When the newest frame was
    rejected or the kernel maps refused it the table stays behind the stream,
    whose requests name the newer version: the frame is not asked for again. *)
Theorem routes_watch_current s script st s' :
  route_version s ≤ 0 → run_routes_watch s script = Some (st, s') →
  let frames := newer_frames version 0 script in
  let outs := (run route_step s frames).1 in
  s' = (run route_step s frames).2 ∧ StronglySorted Z.lt (version <$> frames) ∧
  Forall (λ out, out ≠ Routes.Stale) outs ∧
  st.(last_known_version) = default 0 (last (version <$> frames)) ∧
  route_version s' = default (route_version s) (last (applied_versions version is_applied frames outs)) ∧
  (∀ u, last frames = Some u → s'.(containerd_hosts) = hosts_content u.(routes) ∧
     ∀ out, last outs = Some out → out ≠ Routes.Applied → route_version s' < st.(last_known_version)).
Proof.
  intros Hs Hrun. apply run_watch_frames in Hrun as (Hsort & Hpos & Hlast & ->). cbn zeta.
  set (frames := newer_frames version 0 script) in *.
  assert (Forall (λ u, route_version s < u.(version)) frames) as Hall.
  { eapply Forall_impl; [exact Hpos|]. simpl. lia. }
  destruct (tracked_run version route_version route_step is_applied route_step_version frames s Hsort Hall) as [Hv HP].
  rewrite (foldl_run route_step). split; [done|]. split; [done|].
  split; [by apply HP, route_step_fresh|]. split; [done|]. split; [done|].
  intros u Hu. split.
  - apply last_Some in Hu as [us ->]. rewrite run_app. cbn [snd]. rewrite run_cons. cbn [snd run].
    unfold route_step, on_route_update. by destruct (Routes.sync_routes _ _ _) as [out [? ?]].
  - intros out Ho Hne. rewrite Hlast. rewrite fmap_last, Hu. cbn.
    apply (tracked_behind version route_version route_step is_applied route_step_version frames s u out Hsort Hall Hu Ho).
    by destruct out.
Qed.
End routes.

(** ** SAG *)

Section sag.
Context {OB : HashOrder bytes} `{Policy.PolicyCompiler} {T : Type} `{!KernelMap T bytes bytes}.
Context (data_trust_domain : string).
#[local] Abbreviation SagWatch := ((Policy.PolicySyncState * (T * T)) * gmap string Pod)%type.

Definition run_sag_watch : SagWatch → list (answer Policy.SagUpdate) → option (watch_state * SagWatch) :=
  run_watch watch_sag (λ u s, (on_sag_update data_trust_domain u s).2).

Definition sag_version (s : SagWatch) : Z := s.1.1.(Policy.current_version).
Definition sag_step (s : SagWatch) u := on_sag_update data_trust_domain u s.

Lemma sag_step_version s u : sag_version s < Policy.version u →
  sag_version (sag_step s u).2 = if is_ok (sag_step s u).1 then Policy.version u else sag_version s.
Proof.
  destruct s as [[st maps] pods]. unfold sag_version, sag_step, on_sag_update, Policy.sync_policy. cbn. intros Hv.
  destruct (Policy.compile_and_sync st _ _ _) as [[[m c]|]|e] eqn:Hc; cbn; [|exfalso|done].
  - by destruct (Policy.apply_policy_mutations m maps) as [[u'|e] maps'].
  - unfold Policy.compile_and_sync in Hc. rewrite decide_False in Hc by lia.
    apply result_bind_ok in Hc as (a & _ & Hc). by apply result_bind_ok in Hc as (b & _ & [=]).
Qed.

Lemma mark_enforced_twice (m : gmap string Pod) :
  mark_all_pods_policy_enforced (mark_all_pods_policy_enforced m) = mark_all_pods_policy_enforced m.
Proof. unfold mark_all_pods_policy_enforced, for_all_pods. by rewrite <-map_fmap_compose. Qed.

Lemma sag_run_pods frames s :
  (run sag_step s frames).2.2 =
    if existsb is_ok (run sag_step s frames).1 then mark_all_pods_policy_enforced s.2 else s.2.
Proof.
  revert s. induction frames as [|u us IH]; intros s; [done|]. rewrite run_cons. cbn [fst snd existsb]. rewrite IH.
  assert ((sag_step s u).2.2 =
    if is_ok (sag_step s u).1 then mark_all_pods_policy_enforced s.2 else s.2) as ->.
  { destruct s as [st pods]. unfold sag_step, on_sag_update. cbn [snd]. by destruct (Policy.sync_policy u _ st). }
  destruct (is_ok (sag_step s u).1), (existsb is_ok _); try done. apply mark_enforced_twice.
Qed.

(** The SAG task, from an agent that just started.  Frames are processed
    once, in version order; the policy in the kernel maps is that of the last
    frame that was applied, and is behind the stream as long as the newest frame
    failed.  The policy gate opens, for every pod the node has then, with the first
    frame that is applied, and nothing closes it. *)
Theorem sag_watch_gates s script st s' :
  sag_version s ≤ 0 → run_sag_watch s script = Some (st, s') →
  let frames := newer_frames Policy.version 0 script in
  let outs := (run sag_step s frames).1 in
  s' = (run sag_step s frames).2 ∧ StronglySorted Z.lt (Policy.version <$> frames) ∧
  st.(last_known_version) = default 0 (last (Policy.version <$> frames)) ∧
  sag_version s' = default (sag_version s) (last (applied_versions Policy.version is_ok frames outs)) ∧
  s'.2 = (if existsb is_ok outs then mark_all_pods_policy_enforced s.2 else s.2) ∧
  (∀ out, last outs = Some out → is_ok out = false → sag_version s' < st.(last_known_version)).
Proof.
  intros Hs Hrun. apply run_watch_frames in Hrun as (Hsort & Hpos & Hlast & ->). cbn zeta.
  set (frames := newer_frames Policy.version 0 script) in *.
  assert (Forall (λ u, sag_version s < Policy.version u) frames) as Hall.
  { eapply Forall_impl; [exact Hpos|]. simpl. lia. }
  destruct (tracked_run Policy.version sag_version sag_step is_ok sag_step_version frames s Hsort Hall) as [Hv _].
  rewrite (foldl_run sag_step). split; [done|].
  split; [done|]. split; [done|]. split; [done|]. split; [apply sag_run_pods|].
  intros out Ho Hno. rewrite Hlast, fmap_last.
  destruct (last frames) as [u|] eqn:Hu.
  - apply (tracked_behind Policy.version sag_version sag_step is_ok sag_step_version frames s u out Hsort Hall Hu Ho Hno).
  - apply last_None in Hu as ->. discriminate Ho.
Qed.
End sag.

(** ** Events: unversioned, every event is handled *)

Section events.
Context {K W S F : Type} `{Store.Keyspace K} `{Keystore.Sealing W} `{ControlClient S} `{FileSystem F} `{FleetCore}.
Context (rpc : Channel → string → Z → M Status S Secrets.ProtoSealedSecret).
Context (endpoint : option (Keystore.TpmEndpoint (W := W))).

Definition run_events_watch : Secrets.SecretsHandler → list (answer Secrets.WatchEvent) →
    option (watch_state * Secrets.SecretsHandler) :=
  run_watch watch_events (Secrets.on_event rpc endpoint).
End events.

(** ** Witnesses *)

Import Volumes Attest Workloads.Sample.
Abbreviation node_manager := (manager_frames node_vmm (λ _, Ok []) (λ (_ : gmap string bytes) p, Ok (as_bytes p)) (λ b, b)
  (λ _, Err "none") (λ _, fail (Internal "down")) (λ _, fail "down") node_cfg).

(** A frame for "web" over a node that hosts the VM pod "db", with a stale frame
    and a lost stream behind it. *)
Definition web_assignment : WorkloadAssignment Volumes.PodSpec :=
  mkAssignment "web" "containerd" "img" "primary" None "h".
Definition schedule_script : list (answer (ScheduleUpdate Volumes.PodSpec)) :=
  [Accepted; Message (mkSchedule 2 [web_assignment]); Message (mkSchedule 1 []); Closed].
Definition schedule_run := run_schedule_watch (FrameReconciler0 := node_manager) (node_with vm_pod) schedule_script.

Definition is_some {A} (o : option A) : bool := match o with Some _ => true | None => false end.

Lemma schedule_watch_enforces_witness :
  is_some schedule_run = true ∧ ∀ st m, schedule_run = Some (st, m) →
    let frames := newer_frames schedule_version 0 schedule_script in
    StronglySorted Z.lt (schedule_version <$> frames) ∧
    m = foldl (λ m u, on_schedule_update (FrameReconciler0 := node_manager) u m) (node_with vm_pod) frames.
Proof.
  split; [by vm_compute|]. intros st m Hrun.
  destruct (schedule_watch_enforces (FrameReconciler0 := node_manager) (node_with vm_pod) schedule_script st m
    (node_with_keyed vm_pod) Hrun) as (Hsort & Hm & _).
  exact (conj Hsort Hm).
Defined.

(** Two route frames: the second needs more room than the kernel map has, so it
    fails after the first was applied, and stays unapplied. *)
Definition routes0 : RoutesWatch (D := Routes.routes_map) (L := Routes.locals_map) :=
  mkRoutesWatch "" [] Routes.RouteSyncState_new (mkCapmap 2 ∅, mkCapmap 4 ∅) ∅.
Definition routes_script : list (answer RouteUpdate) :=
  [Accepted; Message Routes.update1; Message Routes.update2; Closed].
Definition routes_run := run_routes_watch (H := sample_core) "td" "a" routes0 routes_script.

Lemma routes_watch_current_witness :
  newer_frames Core.version 0 routes_script = [Routes.update1; Routes.update2] ∧
  is_some routes_run = true ∧ ∀ st s', routes_run = Some (st, s') →
    s' = (run (route_step (H := sample_core) "td" "a") routes0 [Routes.update1; Routes.update2]).2.
Proof.
  split; [by vm_compute|]. split; [by vm_compute|]. intros st s' Hrun.
  exact (proj1 (routes_watch_current (H := sample_core) "td" "a" routes0 routes_script st s' ltac:(done) Hrun)).
Defined.

Example failed_frame_lost :
  (λ r, (r.1.(last_known_version), route_version r.2)) <$> routes_run = Some (2, 1).
Proof. by vm_compute. Qed.

(** A frame that compiles, then one that does not. *)
Definition sag_script : list (answer (Policy.SagUpdate (H := Policy.sample_compiler))) :=
  [Accepted; Message Policy.sag1; Message Policy.sag3; Closed].
Definition sag_run := run_sag_watch (H := Policy.sample_compiler) "data"
  ((Policy.PolicySyncState_new, Policy.pmaps0), sample_pods) sag_script.

Lemma sag_watch_gates_witness :
  is_some sag_run = true ∧ ∀ st s', sag_run = Some (st, s') →
    let outs := (run (sag_step (H := Policy.sample_compiler) "data") ((Policy.PolicySyncState_new, Policy.pmaps0), sample_pods)
      (newer_frames Policy.version 0 sag_script)).1 in
    s'.2 = if existsb is_ok outs then mark_all_pods_policy_enforced sample_pods else sample_pods.
Proof.
  split; [by vm_compute|]. intros st s' Hrun.
  destruct (sag_watch_gates (H := Policy.sample_compiler) "data"
    ((Policy.PolicySyncState_new, Policy.pmaps0), sample_pods) sag_script st s' ltac:(done) Hrun)
    as (_ & _ & _ & _ & Hgates & _).
  exact Hgates.
Defined.
