(* ===== verification/Config.v ===== *)
(** The agent's configuration (src/config.rs).  TOML parsing with its defaults
    and reading files are arguments; [f64] is the standard library's binary64
    specification. *)
From Stdlib Require Import SpecFloat.
From S2P Require Import Prelude Errors.

Definition f64 : Type := spec_float.
Definition f64_zero : f64 := S754_zero false.
Definition f64_one : f64 := S754_finite false (2 ^ 52) (-52).
(** 0.75 *)
Definition f64_three_quarters : f64 := S754_finite false (3 * 2 ^ 51) (-53).
Definition f64_le (a b : f64) : bool := SFleb a b.
Definition is_nan (x : f64) : bool := match x with S754_nan => true | _ => false end.

Record ImagesConfig := mkImages { cache_path : string }.
Definition ImagesConfig_default : ImagesConfig := mkImages "/var/lib/fleetos/images".
Record ObservabilityConfig := mkObservability { otlp_endpoint : string; push_interval_secs : Z }.
Definition ObservabilityConfig_default : ObservabilityConfig := mkObservability "" 5.
Record NodeConfig := mkNode { name : string; trust_domain : string }.
Record ControlConfig := mkControl { address : string; trust_bundle_path : string }.

Inductive JoinMode := Secure | Insecure.
#[export] Instance JoinMode_eq_dec : EqDecision JoinMode.
Proof. solve_decision. Defined.
Record JoinConfig := mkJoin {
  mode : JoinMode;
  token : string;
  join_token_path : option string;
  join_trust_bundle_path : option string;
  pcr_indices : list Z;
}.
Definition JoinConfig_default : JoinConfig := mkJoin Secure "" None None [0; 7; 9].

Record NetworkingConfig := mkNetworking { workload_ip_cidr : string }.
Definition NetworkingConfig_default : NetworkingConfig := mkNetworking "172.30.0.0/16".

Inductive TpmBackend := Device | Swtpm | Mssim.
Record TpmConfig := mkTpm { backend : TpmBackend; device_path : string; host : string; port : Z }.
Definition TpmConfig_default : TpmConfig := mkTpm Device "/dev/tpmrm0" "localhost" 2321.

Record EbpfConfig := mkEbpf {
  object_path : string;
  cgroup_path : string;
  pin_path : string;
  map_headroom_percent : Z;
  interfaces : list string;
}.
Definition EbpfConfig_default : EbpfConfig :=
  mkEbpf "/usr/lib/fleetos/fleetos-ebpf" "/sys/fs/cgroup" "/sys/fs/bpf/fleetos" 20 [].

Record SvidConfig := mkSvid {
  ttl_secs : Z;
  refresh_fraction : f64;
  workload_ttl_secs : Z;
  cfg_delegated_key_ttl_secs : Z;
}.
Definition SvidConfig_default : SvidConfig := mkSvid 3600 f64_three_quarters 3600 14400.

Record VsockAttestConfig := mkVsockAttest {
  vsock_port : Z;
  cfg_kernel_path : option string;
  cfg_rootfs_path : option string;
  cfg_guest_init_path : option string;
}.
Definition VsockAttestConfig_default : VsockAttestConfig := mkVsockAttest 0x4649 None None None.

(** [storage] is its one field, [fjall_path]. *)
Record AgentConfig := mkConfig {
  node : NodeConfig;
  control : ControlConfig;
  join : JoinConfig;
  tpm : TpmConfig;
  fjall_path : string;
  ebpf : EbpfConfig;
  svid : SvidConfig;
  vsock_attest : VsockAttestConfig;
  images : ImagesConfig;
  networking : NetworkingConfig;
  observability : ObservabilityConfig;
}.

Definition with_token (t : string) (c : AgentConfig) : AgentConfig :=
  let j := c.(join) in
  mkConfig c.(node) c.(control) (mkJoin j.(mode) t j.(join_token_path) j.(join_trust_bundle_path) j.(pcr_indices))
    c.(tpm) c.(fjall_path) c.(ebpf) c.(svid) c.(vsock_attest) c.(images) c.(networking) c.(observability).

Section load.
(** [{}] of an [f64], [toml::from_str] and [std::fs::read_to_string]. *)
Context (show_f64 : f64 → string) (toml_parse : string → result string AgentConfig)
        (read_to_string : string → result string string).

Definition validate (c : AgentConfig) : Result unit :=
  if decide (c.(node).(name) = "") then Err (Errors.Config "node.name cannot be empty")
  else if decide (c.(node).(trust_domain) = "") then Err (Errors.Config "node.trust_domain cannot be empty")
  else if decide (c.(control).(address) = "") then Err (Errors.Config "control.address cannot be empty")
  else
    let f := c.(svid).(refresh_fraction) in
    if f64_le f f64_zero || f64_le f64_one f then
      Err (Errors.Config ("svid.refresh_fraction must be in (0.0, 1.0), got " +:+ show_f64 f))
    else if decide (100 < c.(ebpf).(map_headroom_percent)) then
      Err (Errors.Config ("ebpf.map_headroom_percent must be <= 100, got " +:+ pretty c.(ebpf).(map_headroom_percent)))
    else if decide (c.(join).(mode) = Insecure ∧ c.(join).(token) = "") then
      Err (Errors.Config ("join.token is required when join.mode = " +:+ debug_str "insecure"))
    else Ok tt.

Definition load (path : string) : Result AgentConfig :=
  raw ← map_err (λ e, Errors.Config ("failed to read config: " +:+ e)) (read_to_string path);
  config ← map_err (λ e, Errors.Config ("failed to parse config: " +:+ e)) (toml_parse raw);
  config ← match config.(join).(join_token_path) with
           | Some token_path =>
               t ← map_err (λ e, Errors.Config ("failed to read join token file " +:+ token_path +:+ ": " +:+ e))
                     (read_to_string token_path);
               mret (with_token (str_trim t) config)
           | None => mret config
           end;
  _ ← validate config;
  mret config.
End load.

(** [fleetos_core::attestation::tpm::TpmEndpoint]. *)
Inductive TpmEndpoint :=
| DeviceEndpoint (path : string)
| SwtpmEndpoint (host : string) (port : Z)
| MssimEndpoint (host : string) (port : Z).
Definition tpm_endpoint (c : AgentConfig) : TpmEndpoint :=
  match c.(tpm).(backend) with
  | Device => DeviceEndpoint c.(tpm).(device_path)
  | Swtpm => SwtpmEndpoint c.(tpm).(host) c.(tpm).(port)
  | Mssim => MssimEndpoint c.(tpm).(host) c.(tpm).(port)
  end.
Definition sealing_endpoint (c : AgentConfig) : option TpmEndpoint :=
  match c.(join).(mode) with Insecure => None | Secure => Some (tpm_endpoint c) end.

(** ** What a loaded configuration guarantees *)

Definition f64_in_unit (x : f64) : Prop := SFltb f64_zero x = true ∧ SFltb x f64_one = true.

(** [<=] and [<] on numbers are complementary; NaN is below and above nothing. *)
Lemma SFcompare_swap x y : SFcompare y x = CompOpp <$> SFcompare x y.
Proof.
  destruct x as [[]|[]| |[] m e], y as [[]|[]| |[] m' e']; try done; cbn;
    rewrite (Z.compare_antisym e e'), ?(Pos.compare_cont_antisym _ _ Eq), ?(Pos.compare_antisym m m'); cbn;
    destruct (e ?= e'); cbn; try done; fold (Pos.compare m m'); fold (Pos.compare m' m);
    rewrite ?(Pos.compare_antisym m m'); by destruct (Pos.compare m m').
Qed.
Lemma SFcompare_none x y : SFcompare x y = None → is_nan x = true ∨ is_nan y = true.
Proof.
  destruct x as [[]|[]| |[] m e], y as [[]|[]| |[] m' e']; cbn; auto; try done; by destruct (e ?= e').
Qed.
Lemma in_unit_iff f :
  f64_le f f64_zero || f64_le f64_one f = false ↔ is_nan f = true ∨ f64_in_unit f.
Proof.
  unfold f64_le, f64_in_unit, SFleb, SFltb. rewrite (SFcompare_swap f f64_zero), (SFcompare_swap f f64_one).
  pose proof (SFcompare_none f f64_zero) as H0. pose proof (SFcompare_none f f64_one) as H1.
  destruct (is_nan f) eqn:Hn.
  { destruct f; try done. cbn. naive_solver. }
  destruct (SFcompare f f64_zero) as [[]|]; [| | |naive_solver];
    (destruct (SFcompare f f64_one) as [[]|]; [| | |naive_solver]); cbn; naive_solver.
Qed.

Section facts.
Context (show_f64 : f64 → string) (toml_parse : string → result string AgentConfig)
        (read_to_string : string → result string string).

(** C39: A configuration that loads names the node, its trust domain and the
    control plane, and an insecure one carries a token, the token file's
    trimmed content when one is configured; its headroom is at most 100.  Its
    refresh fraction is in range, strictly between 0 and 1, or it is NaN: the
    comment before the check demands the range, but both its comparisons are
    false of NaN, which is let through. *)
Theorem load_valid path c :
  load show_f64 toml_parse read_to_string path = Ok c →
  c.(node).(name) ≠ "" ∧ c.(node).(trust_domain) ≠ "" ∧ c.(control).(address) ≠ "" ∧
  c.(ebpf).(map_headroom_percent) ≤ 100 ∧
  (c.(join).(mode) = Insecure → c.(join).(token) ≠ "") ∧
  (∀ p, c.(join).(join_token_path) = Some p → ∃ t, read_to_string p = Ok t ∧ c.(join).(token) = str_trim t) ∧
  (is_nan c.(svid).(refresh_fraction) = true ∨ f64_in_unit c.(svid).(refresh_fraction)).
Proof.
  unfold load. intros (raw & _ & Hl)%result_bind_ok. apply result_bind_ok in Hl as (c0 & _ & Hl).
  apply result_bind_ok in Hl as (c1 & Htok & Hl). apply result_bind_ok in Hl as (u & Hv & [= <-]).
  unfold validate in Hv.
  destruct (decide (c1.(node).(name) = "")); [done|]. destruct (decide (c1.(node).(trust_domain) = "")); [done|].
  destruct (decide (c1.(control).(address) = "")); [done|].
  destruct (f64_le _ _ || f64_le _ _) eqn:Hf; [done|]. apply in_unit_iff in Hf.
  destruct (decide (100 < _)); [done|].
  destruct (decide (c1.(join).(mode) = Insecure ∧ c1.(join).(token) = "")) as [|Hins]; [done|].
  split_and!; try done; try lia; [naive_solver|]. intros p Hp.
  destruct (join_token_path (join c0)) as [p0|] eqn:Hp0.
  - apply result_bind_ok in Htok as (t & Ht & [= <-]). apply map_err_ok in Ht. cbn in *.
    rewrite Hp0 in Hp. injection Hp as ->. by exists t.
  - injection Htok as <-. congruence.
Qed.
End facts.

Definition sample_config (f : f64) : AgentConfig :=
  mkConfig (mkNode "n1" "td") (mkControl "c:9443" "/ca.pem") (mkJoin Insecure "" (Some "/token") None [])
    TpmConfig_default "/db" EbpfConfig_default (mkSvid 3600 f 3600 14400) VsockAttestConfig_default
    ImagesConfig_default NetworkingConfig_default ObservabilityConfig_default.
Definition load_sample (f : f64) : Result AgentConfig :=
  load (λ _, "") (λ _, Ok (sample_config f)) (λ p, Ok (if decide (p = "/token") then " secret" else "toml")) "/agent.toml".

Lemma load_valid_witness :
  ∃ c, load_sample S754_nan = Ok c ∧ c.(join).(token) ≠ "".
Proof.
  exists (with_token "secret" (sample_config S754_nan)). assert (load_sample S754_nan = Ok (with_token "secret" (sample_config S754_nan))) as Hl by (by vm_compute).
  split; [exact Hl|]. apply load_valid in Hl as (_ & _ & _ & _ & Hi & _). by apply Hi.
Defined.
Example refresh_fraction_checked :
  is_ok (load_sample f64_three_quarters) = true ∧ is_ok (load_sample f64_zero) = false ∧
  is_ok (load_sample f64_one) = false ∧ is_ok (load_sample S754_nan) = true.
Proof. by vm_compute. Qed.
