(* ===== verification/Assembly.v ===== *)
(** The workload manager as src/main.rs assembles it (phases 6b to 8.2) with the
    builder of src/workloads/mod.rs, and what the assembled agent then guarantees
    without further assumptions.  The processes and devices it is given (containerd,
    the file system, the guard, the registry, the control client, ...) are
    arguments. *)
From S2P Require Import Prelude Errors Core Config Retry Watch Routes IpAllocator Degraded Counters Pods.
From S2P Require Import Probes Volumes Netns Containerd MicroVm Attest PodEvents Workloads Addresses WatchLoops.

Section assembly.
Context `{FleetCore} {OS : HashOrder string} {OZ : HashOrder Z}.
Context {D F W V G R A T S Ev C : Type}.
Context `{ContainerdServices D} `{FileSystem F} `{Directories F} `{Shell W} `{NetGuard G}
  `{SrcIdentityRegistry R} `{AttestationRegistrar A} `{!KernelMap T Z (list PodNetCounters)} `{Clock C}.
#[local] Abbreviation Manager := (WorkloadManager (D := D) (F := F) (W := W) (V := V) (G := G) (R := R) (A := A) (T := T)
  (S := S) (Ev := Ev) (C := C)).
(** The settled fields and the state. *)
#[local] Abbreviation Builder := (ManagerConfig * Manager)%type.

(** ** The builder *)

(** [unset] stands for the node id before [with_delegation] sets it; without
    delegation nothing reads it.  The last arguments are the processes the
    manager talks to and the CPUs the kernel reports. *)
Definition WorkloadManager_new (containerd : ContainerdAdapter (D := D) (F := F)) (vc : VolumeConfig) (net_guard : option G)
    (td : string) (src : option R) (alloc : NodeIpAllocator) (cache : string)
    (unset : SpiffeId) (w : W) (v : V) (c : C) (cpus : nat) : Builder :=
  (mkManagerConfig vc td cache "/var/lib/fleetos/vmlinux" "/var/lib/fleetos/fleetos-guest-init" unset 14400 cpus,
   mkManager containerd w v ∅ (VsockCidAllocator_new 3) net_guard ∅ src alloc ∅ None None None None None c).

Definition with_event_reporter (r : PodEventReporter Ev) (b : Builder) : Builder := (b.1, set_event_reporter (Some r) b.2).
Definition with_delegation (s : S) (keys : gmap SpiffeId DelegatedKeyEntry) (node_id : SpiffeId) (ttl : Z) (b : Builder) :
    Builder :=
  let '(g, m) := b in
  (mkManagerConfig g.(volume_config) g.(mc_trust_domain) g.(image_cache_path) g.(mc_kernel_path) g.(guest_init_path)
     node_id ttl g.(possible_cpus),
   set_delegation (Some (s, keys)) m).
Definition with_attestation (a : A) (b : Builder) : Builder := (b.1, set_attestation (Some a) b.2).
Definition with_ebpf_manager (t : T) (b : Builder) : Builder := (b.1, set_counters (Some t) b.2).
Definition with_probes (ps : gmap string ProbeSetRunner) (b : Builder) : Builder := (b.1, set_probe_manager (Some ps) b.2).
Definition with_boot_artifact_paths (kernel guest_init : string) (b : Builder) : Builder :=
  let '(g, m) := b in
  (mkManagerConfig g.(volume_config) g.(mc_trust_domain) g.(image_cache_path) kernel guest_init
     g.(node_spiffe_id) g.(Workloads.delegated_key_ttl_secs) g.(possible_cpus), m).

(** ** src/main.rs *)

Definition agent_node_id (config : AgentConfig) : SpiffeId :=
  spiffe_new config.(node).(Config.trust_domain) "system" kind_node config.(node).(Config.name).

Definition agent_manager (config : AgentConfig) (unset : SpiffeId) (d : D) (f : F) (w : W) (v : V) (g : G) (r : R) (a : A)
    (t : T) (s : S) (c : C) (cpus : nat) : Result Builder :=
  alloc ← NodeIpAllocator_new config.(networking).(workload_ip_cidr);
  let b := WorkloadManager_new (new_lazy "" d f) VolumeConfig_default (Some g) config.(node).(Config.trust_domain) (Some r) alloc
             config.(images).(cache_path) unset w v c cpus in
  let b := with_delegation s ∅ (agent_node_id config) config.(svid).(cfg_delegated_key_ttl_secs) b in
  let b := with_probes ∅ b in
  let b := with_attestation a b in
  let b := with_ebpf_manager t b in
  mret (match config.(vsock_attest).(cfg_kernel_path) with
        | Some kp => with_boot_artifact_paths kp
            (default "/var/lib/fleetos/fleetos-guest-init" config.(vsock_attest).(cfg_guest_init_path)) b
        | None => b
        end).

(** ** The assembled agent *)

(** What main builds, for every configuration whose address block is
    accepted: no pod, address, key or VM yet; the guard, the registry, the
    attestation registrar and the counters in place, host paths denied, CIDs from 3
    on; and no event reporter, so that no Evicting event is ever recorded.  The
    configured guest-init is used only beside a configured kernel. *)
Theorem agent_assembled config unset d f w v g r a t s c cpus cfg m :
  agent_manager config unset d f w v g r a t s c cpus = Ok (cfg, m) →
  (m.(pod_manager) = ∅ ∧ m.(pod_source_ips) = ∅ ∧ m.(microvms) = ∅ ∧ m.(probes) = Some ∅ ∧ m.(delegation) = Some (s, ∅)) ∧
  (wf m.(ip_allocator) ∧ leases m = ∅) ∧
  (m.(net_guard) = Some g ∧ m.(src_identity) = Some r ∧ m.(attestation) = Some a ∧ m.(pod_net_counters) = Some t) ∧
  m.(event_reporter) = None ∧ cfg.(volume_config).(allow_host_path) = false ∧ m.(cid_allocator) = 3 ∧
  cfg.(guest_init_path) = match config.(vsock_attest).(cfg_kernel_path), config.(vsock_attest).(cfg_guest_init_path) with
                          | Some _, Some gi => gi
                          | _, _ => "/var/lib/fleetos/fleetos-guest-init"
                          end.
Proof.
  unfold agent_manager. intros (alloc & Hal & Hm)%result_bind_ok. apply new_wf in Hal as (Hwf & Hno & _ & _).
  destruct (cfg_kernel_path (vsock_attest config)) as [kp|]; injection Hm as <- <-; cbn; split_and!; done.
Qed.

Context (vmm : string → VmmClient V).
Context (to_vec : Json → result string bytes).
Context (file_read : F → string → result string bytes) (blake3 : bytes → bytes).
Context (wire_from_bytes : bytes → result string DelegatedSigningKey)
        (request_delegated_key : DelegatedKeyRequest → M AgentError S DelegatedKeyResponse).
Context (report_pod_events : list PodEvent → M string Ev unit).
Context `{!SrcIdentityLaws R}.

(** From what main assembles, whatever the control plane answers on the
    schedule stream and whichever boots and evictions fail on the node: the frames
    are processed in increasing version order, and once one was, every active
    pod belongs to a workload the newest one assigns. *)
Theorem agent_follows_schedule config unset d f w v g r a t s c cpus cfg m script st m' :
  agent_manager config unset d f w v g r a t s c cpus = Ok (cfg, m) →
  let frames_of := manager_frames vmm to_vec file_read blake3 wire_from_bytes request_delegated_key report_pod_events cfg in
  run_schedule_watch (FrameReconciler0 := frames_of) m script = Some (st, m') →
  let frames := newer_frames schedule_version 0 script in
  StronglySorted Z.lt (schedule_version <$> frames) ∧
  m' = foldl (λ m u, on_schedule_update (FrameReconciler0 := frames_of) u m) m frames ∧
  ∀ u, last frames = Some u → st.(last_known_version) = schedule_version u ∧
    ∀ id p, m'.(pod_manager) !! id = Some p → active p →
      ∃ x, x ∈ u.(assignments) ∧ x.(as_workload_id) = p.(workload_id).
Proof.
  intros Hm frames_of Hrun. assert (keyed m.(pod_manager)) as Hkey.
  { apply agent_assembled in Hm as ((-> & _) & _). intros id p Hp. by rewrite lookup_empty in Hp. }
  destruct (schedule_watch_enforces (FrameReconciler0 := frames_of) m script st m' Hkey Hrun)
    as (Hsort & Hm' & Hlast).
  cbn zeta. split; [done|]. split; [done|]. intros u Hu. rewrite Hu in Hlast.
  destruct Hlast as [Hv Hhost]. split; [done|]. intros id p Hp Ha. apply Hhost. by exists id, p.
Qed.
End assembly.

(** ** Witnesses *)

Import Workloads.Sample.

Definition sample_agent := agent_manager (H := sample_core) (D := gset string) (F := gmap string bytes) (W := unit)
  (V := list VmConfig) (G := nat) (R := capmap Z bytes) (A := VsockAttestServer) (T := capmap Z (list PodNetCounters))
  (S := Z) (Ev := unit) (C := Z) (sample_config f64_three_quarters) ("", "") ∅ ∅ tt [] O identities0 VsockAttestServer_new (mkCapmap 4 ∅) 0 0 2.
Definition agent_cfg := match sample_agent with Ok b => b.1 | Err _ => node_cfg end.
Definition agent_at_start := match sample_agent with Ok b => b.2 | Err _ => node0 None end.
Lemma sample_agent_ok : sample_agent = Ok (agent_cfg, agent_at_start).
Proof.
  assert (is_ok sample_agent = true) as Hok by (by vm_compute). unfold agent_cfg, agent_at_start.
  by destruct sample_agent as [[]|].
Qed.

Lemma agent_assembled_witness :
  agent_at_start.(event_reporter) = None ∧ agent_at_start.(net_guard) = Some O ∧ wf agent_at_start.(ip_allocator).
Proof.
  destruct (agent_assembled _ _ _ _ _ _ _ _ _ _ _ _ _ _ _ sample_agent_ok) as (_ & [Hwf _] & (Hg & _) & He & _).
  by split_and!.
Defined.

Abbreviation agent_frames := (manager_frames node_vmm (λ _, Ok []) (λ (_ : gmap string bytes) p, Ok (as_bytes p)) (λ b, b)
  (λ _, Err "none") (λ _, fail (Internal "down")) (λ (_ : list PodEvent), fail "down") agent_cfg).
Definition agent_run := run_schedule_watch (FrameReconciler0 := agent_frames) agent_at_start schedule_script.

Lemma agent_follows_schedule_witness :
  is_some agent_run = true ∧ ∀ st m, agent_run = Some (st, m) →
    let frames := newer_frames schedule_version 0 schedule_script in
    StronglySorted Z.lt (schedule_version <$> frames) ∧
    m = foldl (λ m u, on_schedule_update (FrameReconciler0 := agent_frames) u m) agent_at_start frames.
Proof.
  split; [by vm_compute|]. intros st m Hrun.
  destruct (agent_follows_schedule (H := sample_core) node_vmm (λ _, Ok [])
    (λ (_ : gmap string bytes) p, Ok (as_bytes p)) (λ b, b) (λ _, Err "none") (λ _, fail (Internal "down"))
    (λ _, fail "down") (sample_config f64_three_quarters) ("", "") ∅ ∅ tt [] O identities0 VsockAttestServer_new (mkCapmap 4 ∅) 0 0 2 agent_cfg agent_at_start
    schedule_script st m sample_agent_ok Hrun) as (Hsort & Hm & _).
  exact (conj Hsort Hm).
Defined.
