(* ===== verification/Node.v ===== *)
(** The node while it runs: the tasks src/main.rs spawns over the state they
    share.  The schedule task (src/wiring.rs, src/workloads/mod.rs) is split at its
    awaits, the probe loop (src/workloads/probe_loop.rs) into its tick and the
    results it still has to process, and the route, SAG, delegation and flush tasks
    take their steps in between, in any order. *)
From S2P Require Import Prelude Simulation Errors Core Routes IpAllocator Degraded Counters Pods.
From S2P Require Import Probes Volumes Netns Containerd MicroVm Attest PodEvents Workloads Wiring WatchLoops.
From S2P Require AgentTasks Policy.

Section node.
Context `{FleetCore} {OS : HashOrder string} {OZ : HashOrder Z} {OB : HashOrder bytes} {OI : HashOrder SpiffeId}.
Context {D F W V G R A T S Ev C : Type}.
Context `{ContainerdServices D} `{FileSystem F} `{Directories F} `{Shell W} `{NetGuard G}
  `{SrcIdentityRegistry R} `{AttestationRegistrar A} `{!KernelMap T Z (list PodNetCounters)} `{Clock C}.
(** the route maps, the policy maps and the policy compiler *)
Context {RD RL PT : Type} `{!KernelMap RD Z bytes} `{!KernelMap RL bytes Z} `{!KernelMap PT bytes bytes}.
Context `{Policy.PolicyCompiler}.
Context (vmm : string → VmmClient V).
Context (to_vec : Json → result string bytes).
Context (file_read : F → string → result string bytes) (blake3 : bytes → bytes).
Context (wire_from_bytes : bytes → result string DelegatedSigningKey)
        (request_delegated_key : DelegatedKeyRequest → M AgentError S DelegatedKeyResponse).
Context (report_pod_events : list PodEvent → M string Ev unit).
Context (cfg : ManagerConfig) (loop_cfg : ProbeLoopConfig).
Context (node_name : string).
#[local] Abbreviation Manager := (WorkloadManager (D := D) (F := F) (W := W) (V := V) (G := G) (R := R) (A := A) (T := T)
  (S := S) (Ev := Ev) (C := C)).
#[local] Abbreviation WM := (M AgentError Manager).
#[local] Abbreviation start_pod := (start_pod vmm to_vec file_read blake3 wire_from_bytes request_delegated_key cfg).
#[local] Abbreviation boot_pod := (boot_pod vmm to_vec file_read blake3 wire_from_bytes request_delegated_key cfg).
#[local] Abbreviation evict_pod := (evict_pod vmm report_pod_events cfg).
#[local] Abbreviation manager_reconcile := (manager_reconcile vmm to_vec file_read blake3 wire_from_bytes
  request_delegated_key report_pod_events cfg).

(** ** The schedule task between two awaits *)

(** What is left of an eviction or a boot, with the locals it carries over. *)
Inductive action :=
| EvictBegin (id : string)
| EvictUnprobe (id : string) (rt : RuntimeKind) (handle : Z)
| EvictStop (id : string) (rt : RuntimeKind) (handle : Z)
| EvictRemove (id : string)
| BootStart (spec : WorkloadSpec PodSpec)
| BootAdd (spec : WorkloadSpec PodSpec) (p : started_pod)
| BootRegister (id : string) (probe_set : option ProbeSet) (now_ms : Z).

(** One of them, up to the next access to the pods or to the probe runners. *)
Definition do_action (a : action) : WM (list action) :=
  match a with
  | EvictBegin id =>
      m ← get;
      pod ← lift (ok_or (Workload ("pod " +:+ id +:+ " not found")) (get_pod id m.(pod_manager)));
      _ ← zoom pod_manager set_pod_manager (modify (update_pod begin_eviction id));
      mret [EvictUnprobe id pod.(runtime) (default 0 pod.(pid))]
  | EvictUnprobe id rt handle =>
      _ ← zoom_opt probes set_probe_manager (modify (unregister_pod id));
      mret [EvictStop id rt handle]
  | EvictStop id rt handle =>
      t ← now;
      _ ← ignore (zoom_opt event_reporter set_event_reporter
                    (record_event report_pod_events t.1 id EVICTING "" ""));
      _ ← stop_pod vmm id rt handle;
      _ ← release_network id rt;
      _ ← on_mfiles (teardown_pod_scratch cfg.(volume_config) id);
      mret [EvictRemove id]
  | EvictRemove id =>
      _ ← zoom pod_manager set_pod_manager (modify (remove_pod id));
      mret []
  | BootStart spec =>
      p ← start_pod spec;
      mret [BootAdd spec p]
  | BootAdd spec p =>
      let pod_id := pod_id_of spec p.(st_pod_spec) in
      t ← now;
      _ ← match p.(st_registered_ip) with
          | Some ip => zoom pod_source_ips set_pod_source_ips (modify (insert pod_id ip))
          | None => mret tt
          end;
      _ ← zoom pod_manager set_pod_manager
            (modify (add_pod (booted_pod pod_id spec p.(st_pod_spec) p.(st_fp) p.(st_handle) t.1)));
      mret [BootRegister pod_id p.(st_pod_spec).(ps_probes) t.2]
  | BootRegister id probe_set now_ms =>
      _ ← zoom_opt probes set_probe_manager (modify (register_pod id (ProbeSetRunner_new probe_set now_ms)));
      mret []
  end.

(** A failure is logged: the pod's remaining actions are given up. *)
Definition act (a : action) (m : Manager) : list action * Manager :=
  match do_action a m with (Ok next, m') => (next, m') | (Err _, m') => ([], m') end.

(** The head of what the task has to do. *)
Definition work_step (tm : list action * Manager) : list action * Manager :=
  match tm.1 with
  | [] => tm
  | a :: todo => let '(next, m) := act a tm.2 in (next ++ todo, m)
  end.

Definition frame_work (specs : list (WorkloadSpec PodSpec)) (m : Manager) : list action :=
  let r := reconcile specs m.(pod_manager) in (EvictBegin <$> r.(to_evict)) ++ (BootStart <$> r.(to_boot)).

(** ** The state the tasks share *)

Record NodeState := mkNode {
  (** the workload manager: the pods, the probe runners, the delegated keys,
      the containerd adapter and the attestation server among its parts *)
  manager : Manager;
  (** where the schedule task and the probe loop are *)
  todo : list action;
  probing : list ProbeTickResult;
  (** the keys the delegation loop has still to ask for in this tick *)
  refreshing : list (SpiffeId * option Z);
  (** the locals of the route and SAG tasks and the maps they write *)
  route_sync : RouteSyncState * (RD * RL);
  policy_sync : Policy.PolicySyncState * (PT * PT);
  (** the config builder's routes, which the attestation server hands out *)
  handed_routes : list DummyIpRouteConfig;
  (** the reporter of the probe loop and the flush loop *)
  reporter : PodEventReporter Ev;
}.

Definition set_manager (m : Manager) (n : NodeState) : NodeState :=
  mkNode m n.(todo) n.(probing) n.(refreshing) n.(route_sync) n.(policy_sync) n.(handed_routes) n.(reporter).
Definition set_refreshing (keys : list (SpiffeId * option Z)) (n : NodeState) : NodeState :=
  mkNode n.(manager) n.(todo) n.(probing) keys n.(route_sync) n.(policy_sync) n.(handed_routes) n.(reporter).
Definition set_pods (pods : gmap string Pod) (n : NodeState) : NodeState :=
  set_manager (set_pod_manager pods n.(manager)) n.
Definition n_pods (n : NodeState) : gmap string Pod := n.(manager).(pod_manager).

(** What the route task sees and writes. *)
Definition routes_view (n : NodeState) : RoutesWatch (D := RD) (L := RL) :=
  mkRoutesWatch n.(manager).(containerd).(Containerd.hosts_content) n.(handed_routes) n.(route_sync).1
    n.(route_sync).2 (n_pods n).
Definition set_hosts (hosts : string) (m : Manager) : Manager :=
  let c := m.(containerd) in set_containerd (mkContainerd hosts c.(cd_channel) c.(daemon) c.(cd_files)) m.
Definition set_routes_view (v : RoutesWatch (D := RD) (L := RL)) (n : NodeState) : NodeState :=
  mkNode (set_pod_manager v.(pods) (set_hosts v.(containerd_hosts) n.(manager))) n.(todo) n.(probing) n.(refreshing)
    (v.(route_state), v.(route_maps)) n.(policy_sync) v.(builder_routes) n.(reporter).

(** ** Its steps *)

Inductive node_event :=
| ScheduleFrame (update : ScheduleUpdate PodSpec)
| ScheduleStep
| ProbeTick (run_probe : ProbeKind → Z → Z → bool) (now_ms : Z)
| ProbeResult (now_unix : Z)
| RouteFrame (update : RouteUpdate)
| SagFrame (update : Policy.SagUpdate)
| DelegationTick (now_unix : Z)
| DelegationStep
| FlushTick.

(** What a step answers: the outcome of a route or SAG frame, the pod a boot
    recorded. *)
Inductive node_out :=
| Quiet
| RoutesOut (out : sync_outcome)
| PolicyOut (r : Result unit)
| Recorded (pod_id : string).

Definition recorded_by (a : action) : node_out :=
  match a with BootAdd spec p => Recorded (pod_id_of spec p.(st_pod_spec)) | _ => Quiet end.

(** A frame reaches the schedule task, and a tick the probe or the delegation
    loop, only when it is back at its await; each step of the others holds its
    locks once.  The delegation loop prunes and collects under the lock, then
    asks for one key at a time without it and installs the answer. *)
Definition node_step (n : NodeState) (e : node_event) : option (node_out * NodeState) :=
  match e with
  | ScheduleFrame u =>
      match n.(todo) with
      | [] => Some (Quiet, mkNode n.(manager) (frame_work (schedule_specs u.(assignments)) n.(manager)) n.(probing)
                             n.(refreshing) n.(route_sync) n.(policy_sync) n.(handed_routes) n.(reporter))
      | _ => None
      end
  | ScheduleStep =>
      match n.(todo) with
      | [] => None
      | a :: _ =>
          let '(todo, m) := work_step (n.(todo), n.(manager)) in
          Some (recorded_by a, mkNode m todo n.(probing) n.(refreshing) n.(route_sync) n.(policy_sync) n.(handed_routes) n.(reporter))
      end
  | ProbeTick run_probe now_ms =>
      match n.(probing), n.(manager).(probes) with
      | [], Some runners =>
          let '(results, runners) := tick run_probe now_ms runners in
          Some (Quiet, mkNode (set_probe_manager (Some runners) n.(manager)) n.(todo) results
                         n.(refreshing) n.(route_sync) n.(policy_sync) n.(handed_routes) n.(reporter))
      | _, _ => None
      end
  | ProbeResult now_unix =>
      match n.(probing) with
      | [] => None
      | t :: results =>
          let '(evs, pods) := process_probe_result loop_cfg t (n_pods n) in
          Some (Quiet, mkNode (set_pod_manager pods n.(manager)) n.(todo) results n.(refreshing) n.(route_sync)
                         n.(policy_sync) n.(handed_routes)
                         (foldl (λ r k, (record_event report_pod_events now_unix t.(t_pod_id)
                                           (AgentTasks.event_name k) "" "" r).2) n.(reporter) evs))
      end
  | RouteFrame u =>
      let '(out, v) := on_route_update cfg.(mc_trust_domain) node_name u (routes_view n) in
      Some (RoutesOut out, set_routes_view v n)
  | SagFrame u =>
      let '(r, (st, pods)) := on_sag_update cfg.(mc_trust_domain) u (n.(policy_sync), n_pods n) in
      Some (PolicyOut r, mkNode (set_pod_manager pods n.(manager)) n.(todo) n.(probing) n.(refreshing) n.(route_sync) st
                           n.(handed_routes) n.(reporter))
  | DelegationTick now_unix =>
      match n.(refreshing), n.(manager).(delegation) with
      | [], Some (client, keys) =>
          let keys := prune_expired now_unix keys in
          Some (Quiet, set_refreshing (needs_refresh keys now_unix)
                         (set_manager (set_delegation (Some (client, keys)) n.(manager)) n))
      | _, _ => None
      end
  | DelegationStep =>
      match n.(refreshing) with
      | [] => None
      | (target, ordinal) :: rest =>
          Some (Quiet, set_refreshing rest (set_manager (zoom_opt delegation set_delegation
            (request_and_install wire_from_bytes request_delegated_key cfg.(node_spiffe_id) target ordinal
               cfg.(Workloads.delegated_key_ttl_secs)) n.(manager)).2 n))
      end
  | FlushTick =>
      Some (Quiet, mkNode n.(manager) n.(todo) n.(probing) n.(refreshing) n.(route_sync) n.(policy_sync) n.(handed_routes)
                     (flush report_pod_events n.(reporter)).2)
  end.

Fixpoint node_run (n : NodeState) (es : list node_event) : option (list node_out * NodeState) :=
  match es with
  | [] => Some ([], n)
  | e :: es =>
      '(out, n1) ← node_step n e;
      '(outs, n2) ← node_run n1 es;
      Some (out :: outs, n2)
  end.

(** ** The split task does what the code does in one go *)

Implicit Types (m : Manager) (n : NodeState).
#[local] Arguments work_step : simpl never.
#[local] Arguments act : simpl never.

(** The steps an action takes at most, with what it leads to. *)
Definition action_cost (a : action) : nat :=
  match a with
  | EvictBegin _ => 4 | EvictUnprobe _ _ _ => 3 | EvictStop _ _ _ => 2 | EvictRemove _ => 1
  | BootStart _ => 3 | BootAdd _ _ => 2 | BootRegister _ _ _ => 1
  end.
Definition work_cost (todo : list action) : nat := sum_list_with action_cost todo.

Lemma do_action_next a m next m' :
  do_action a m = (Ok next, m') →
  match a with
  | EvictBegin id => ∃ p, m.(pod_manager) !! id = Some p ∧ next = [EvictUnprobe id p.(runtime) (default 0 p.(pid))]
  | EvictUnprobe id rt h => next = [EvictStop id rt h]
  | EvictStop id rt h => next = [EvictRemove id]
  | BootStart spec => ∃ p, next = [BootAdd spec p]
  | BootAdd spec p => ∃ now_ms, next = [BootRegister (pod_id_of spec p.(st_pod_spec)) p.(st_pod_spec).(ps_probes) now_ms]
  | EvictRemove _ | BootRegister _ _ _ => next = []
  end.
Proof.
  destruct a as [id|id rt h|id rt h|id|spec|spec p|id probe_set now_ms]; cbn [do_action].
  - intros (m0 & m1 & [= <- <-] & Hrun)%M_bind_ok.
    apply M_bind_ok in Hrun as (p & m2 & [Hp%ok_or_ok _]%lift_ok & Hrun).
    apply M_bind_ok in Hrun as (? & ? & _ & [= <- _]). by exists p.
  - by intros (? & ? & _ & [= <- _])%M_bind_ok.
  - intros (? & ? & _ & (? & ? & _ & (? & ? & _ & (? & ? & _ & (? & ? & _ & [= <- _])%M_bind_ok)%M_bind_ok)%M_bind_ok)%M_bind_ok)%M_bind_ok.
    done.
  - by intros (? & ? & _ & [= <- _])%M_bind_ok.
  - intros (p & ? & _ & [= <- _])%M_bind_ok. by exists p.
  - intros (t & ? & _ & (? & ? & _ & (? & ? & _ & [= <- _])%M_bind_ok)%M_bind_ok)%M_bind_ok. by exists t.2.
  - by intros (? & ? & _ & [= <- _])%M_bind_ok.
Qed.

(** Every step of the task shortens its work. *)
Lemma act_cost a m : (work_cost (act a m).1 < action_cost a)%nat.
Proof.
  unfold act. destruct (do_action a m) as [[next|e] m'] eqn:Hrun; cbn [fst]; [|destruct a; cbn; lia].
  apply do_action_next in Hrun. destruct a; naive_solver (cbn; lia).
Qed.


Lemma work_step_act a rest m : work_step (a :: rest, m) = ((act a m).1 ++ rest, (act a m).2).
Proof. unfold work_step. cbn [fst snd]. by destruct (act a m). Qed.

(** Four steps at most are an eviction, three a boot. *)
Lemma evict_work id m rest :
  ∃ k, (k ≤ 4)%nat ∧ Nat.iter k work_step (EvictBegin id :: rest, m) = (rest, (evict_pod id m).2).
Proof.
  destruct (m.(pod_manager) !! id) as [p|] eqn:Hp.
  2:{ exists 1%nat. split; [lia|]. cbn [Nat.iter nat_rect]. rewrite work_step_act.
      unfold act, do_action, Workloads.evict_pod, mbind, M_bind, get, get_pod. by rewrite Hp. }
  set (m1 := set_pod_manager (update_pod begin_eviction id m.(pod_manager)) m).
  set (m2 := (zoom_opt (E := AgentError) probes set_probe_manager (modify (unregister_pod id)) m1).2).
  assert (work_step (EvictBegin id :: rest, m) = (EvictUnprobe id p.(runtime) (default 0 p.(pid)) :: rest, m1)) as E1.
  { rewrite work_step_act. unfold act, do_action, mbind, M_bind, get, get_pod. by rewrite Hp. }
  assert (zoom_opt (E := AgentError) probes set_probe_manager (modify (unregister_pod id)) m1 = (Ok tt, m2)) as Em2.
  { subst m2. unfold zoom_opt. by destruct (probes m1). }
  assert (∀ rt h, work_step (EvictUnprobe id rt h :: rest, m1) = (EvictStop id rt h :: rest, m2)) as E2.
  { intros rt h. rewrite work_step_act. unfold act, do_action, mbind, M_bind. by rewrite Em2. }
  assert (evict_pod id m = match do_action (EvictStop id p.(runtime) (default 0 p.(pid))) m2 with
    | (Ok _, m3) => zoom pod_manager set_pod_manager (modify (remove_pod id)) m3
    | (Err e, m3) => (Err e, m3) end) as Hev.
  { unfold Workloads.evict_pod. unfold mbind at 1, M_bind at 1, get at 1, get_pod. rewrite Hp.
    do 3 unfold mbind at 1, M_bind at 1. cbn [lift ok_or]. unfold zoom at 1. cbn.
    match goal with |- context [zoom_opt probes _ _ ?x] => change x with m1 end. rewrite Em2.
    unfold do_action, mbind, M_bind, mret, M_ret. by repeat (match goal with |- context [match ?c ?s with _ => _ end] => destruct (c s) as [[]] end). }
  rewrite Hev. destruct (do_action _ m2) as [[next|e] m3] eqn:E3.
  - exists 4%nat. split; [lia|]. cbn [Nat.iter nat_rect]. rewrite E1, E2, work_step_act. unfold act at 1 2.
    rewrite E3. apply do_action_next in E3 as ->. cbn [fst snd app]. by rewrite work_step_act.
  - exists 3%nat. split; [lia|]. cbn [Nat.iter nat_rect]. rewrite E1, E2, work_step_act. unfold act. by rewrite E3.
Qed.
Lemma boot_work spec m rest :
  ∃ k, (k ≤ 3)%nat ∧ Nat.iter k work_step (BootStart spec :: rest, m) = (rest, (boot_pod spec m).2).
Proof.
  unfold Workloads.boot_pod, mbind, M_bind. destruct (start_pod spec m) as [[p|e] m1] eqn:E1.
  2:{ exists 1%nat. split; [lia|]. cbn [Nat.iter nat_rect]. rewrite work_step_act.
      unfold act, do_action, mbind, M_bind. by rewrite E1. }
  exists 3%nat. split; [lia|]. cbn [Nat.iter nat_rect].
  assert (work_step (BootStart spec :: rest, m) = (BootAdd spec p :: rest, m1)) as ->.
  { rewrite work_step_act. unfold act, do_action, mbind, M_bind. by rewrite E1. }
  destruct (read_clock m1.(clock)) as [t c] eqn:Hc. rewrite work_step_act.
  unfold act, do_action, record_pod, now, mbind, M_bind, zoom, zoom_opt. rewrite Hc.
  destruct (st_registered_ip p); cbn; rewrite work_step_act;
    unfold act, do_action, mbind, M_bind, zoom_opt; cbn; by destruct (probes m1).
Qed.

Lemma work_cost_cons a todo : work_cost (a :: todo) = (action_cost a + work_cost todo)%nat.
Proof. done. Qed.
Lemma work_cost_app todo rest : work_cost (todo ++ rest) = (work_cost todo + work_cost rest)%nat.
Proof. apply sum_list_with_app. Qed.
Lemma work_cost_map {B} (f : B → action) c (l : list B) :
  (∀ x, action_cost (f x) = c) → work_cost (f <$> l) = (c * length l)%nat.
Proof. intros Hf. induction l as [|x l IH]; [cbn; lia|]. rewrite fmap_cons, work_cost_cons, Hf, IH. cbn [length]. lia. Qed.

Lemma frame_work_run specs m :
  ∃ k, (k ≤ work_cost (frame_work specs m))%nat ∧
    Nat.iter k work_step (frame_work specs m, m) = ([], (manager_reconcile specs m).2).
Proof.
  unfold frame_work, Workloads.manager_reconcile. cbn zeta. cbn [snd]. set (r := reconcile specs m.(pod_manager)).
  assert (∀ ids rest m, ∃ k, (k ≤ work_cost (EvictBegin <$> ids))%nat ∧
    Nat.iter k work_step ((EvictBegin <$> ids) ++ rest, m) = (rest, evict_all vmm report_pod_events cfg ids m)) as Hev.
  { clear. induction ids as [|id ids IH]; intros rest m; [by exists 0%nat|].
    destruct (evict_work id m ((EvictBegin <$> ids) ++ rest)) as (k1 & Hk1 & E1).
    destruct (IH rest (evict_pod id m).2) as (k2 & Hk2 & E2).
    exists (k2 + k1)%nat. rewrite fmap_cons, work_cost_cons. split; [cbn [action_cost]; lia|]. by rewrite Nat.iter_add, <-app_comm_cons, E1. }
  assert (∀ booted m, ∃ k, (k ≤ work_cost (BootStart <$> booted))%nat ∧
    Nat.iter k work_step (BootStart <$> booted, m) =
      ([], boot_all vmm to_vec file_read blake3 wire_from_bytes request_delegated_key cfg booted m)) as Hbo.
  { clear. induction booted as [|spec booted IH]; intros m; [by exists 0%nat|].
    destruct (boot_work spec m (BootStart <$> booted)) as (k1 & Hk1 & E1). destruct (IH (boot_pod spec m).2) as (k2 & Hk2 & E2).
    exists (k2 + k1)%nat. rewrite fmap_cons, work_cost_cons. split; [cbn [action_cost]; lia|]. by rewrite Nat.iter_add, E1. }
  destruct (Hev r.(to_evict) (BootStart <$> r.(to_boot)) m) as (k1 & Hk1 & E1).
  destruct (Hbo r.(to_boot) (evict_all vmm report_pod_events cfg r.(to_evict) m)) as (k2 & Hk2 & E2).
  exists (k2 + k1)%nat. rewrite work_cost_app. split; [lia|].
  by rewrite Nat.iter_add, E1.
Qed.

Definition with_work (tm : list action * Manager) n : NodeState :=
  mkNode tm.2 tm.1 n.(probing) n.(refreshing) n.(route_sync) n.(policy_sync) n.(handed_routes) n.(reporter).

Lemma uninterrupted k tm m' n :
  Nat.iter k work_step tm = ([], m') →
  ∃ j outs, (j ≤ k)%nat ∧ node_run (with_work tm n) (replicate j ScheduleStep) = Some (outs, with_work ([], m') n).
Proof.
  revert tm. induction k as [|k IH]; intros tm Hk; [cbn in Hk; subst; exists 0%nat, []; by split|].
  rewrite Nat.iter_succ_r in Hk. destruct (IH _ Hk) as (j & outs & Hj & Hrun). destruct tm as [[|a rest] m].
  - exists j, outs. split; [lia|done].
  - exists (Datatypes.S j), (recorded_by a :: outs). split; [lia|]. cbn [replicate node_run node_step with_work fst snd todo manager].
    destruct (work_step (a :: rest, m)) as [rest' m1] eqn:Hw. unfold with_work in Hrun |- *. cbn [fst snd] in *.
    cbn. by rewrite Hrun.
Qed.

(** The schedule task, split at its awaits, is the code: from a frame on,
    when no other task takes a step in between, it comes back to its await
    after at most four steps per eviction and three per boot, with the manager
    as the sequential reconciliation leaves it and nothing else changed. *)
Theorem schedule_atomic n u :
  n.(todo) = [] →
  let specs := schedule_specs u.(assignments) in
  ∃ k outs, (k ≤ 4 * length (reconcile specs (n_pods n)).(to_evict) + 3 * length (reconcile specs (n_pods n)).(to_boot))%nat ∧
    node_run n (ScheduleFrame u :: replicate k ScheduleStep) =
      Some (outs, set_manager (manager_reconcile specs n.(manager)).2 n).
Proof.
  intros Hidle specs. destruct (frame_work_run specs n.(manager)) as (k & Hk & Hrun).
  destruct (uninterrupted k _ _ n Hrun) as (j & outs & Hj & Hrun').
  exists j, (Quiet :: outs). split.
  - etrans; [exact Hj|]. etrans; [exact Hk|]. unfold frame_work. rewrite work_cost_app.
    by rewrite (work_cost_map _ 4%nat), (work_cost_map _ 3%nat).
  - cbn [node_run node_step]. rewrite Hidle. fold specs.
    change (mkNode _ _ _ _ _ _ _ _) with (with_work (frame_work specs n.(manager), n.(manager)) n). cbn [mbind option_bind].
    rewrite Hrun'. unfold with_work, set_manager. by rewrite Hidle.
Qed.

(** ** Runs *)

Lemma node_run_cons n e es outs n' :
  node_run n (e :: es) = Some (outs, n') ↔
  ∃ out outs' n1, node_step n e = Some (out, n1) ∧ node_run n1 es = Some (outs', n') ∧ outs = out :: outs'.
Proof.
  cbn [node_run]. split.
  - intros H'. destruct (node_step n e) as [[out n1]|]; [|done]. cbn in H'.
    destruct (node_run n1 es) as [[outs' n2]|] eqn:Hr; [|done]. cbn in H'. injection H' as <- <-. eauto 10.
  - intros (out & outs' & n1 & -> & Hr & ->). cbn. by rewrite Hr.
Qed.
Lemma node_run_snoc n es e outs n' :
  node_run n (es ++ [e]) = Some (outs, n') ↔
  ∃ outs' n1 out, node_run n es = Some (outs', n1) ∧ node_step n1 e = Some (out, n') ∧ outs = outs' ++ [out].
Proof.
  revert n outs. induction es as [|e0 es IH]; intros n outs; cbn [app].
  - rewrite node_run_cons. split.
    + intros (out & outs' & n1 & Hs & [= <- <-] & ->). by exists [], n, out.
    + intros (outs' & n1 & out & [= <- <-] & Hs & ->). by exists out, [], n'.
  - rewrite node_run_cons. setoid_rewrite IH. setoid_rewrite node_run_cons. split.
    + intros (o & os & n1 & Hs & (os' & n2 & out & Hr & Hs' & ->) & ->). exists (o :: os'), n2, out. naive_solver.
    + intros (os & n2 & out & (o & os' & n1 & Hs & Hr & ->) & Hs' & ->). exists o, (os' ++ [out]), n1. naive_solver.
Qed.

(** An invariant of the steps holds along every run. *)
Lemma node_run_invariant (I : NodeState → Prop) :
  (∀ n e out n', I n → node_step n e = Some (out, n') → I n') →
  ∀ es n outs n', I n → node_run n es = Some (outs, n') → I n'.
Proof.
  intros Hstep es. induction es as [|e es IH]; intros n outs n' Hn; [by intros [= <- <-]|].
  intros (out & outs' & n1 & Hs & Hr & ->)%node_run_cons. eapply IH; [|exact Hr]. by eapply Hstep.
Qed.

(** ** What a step does to the pods and the probe runners *)

(** A pod that only changed in what the other tasks write. *)
Record same_pod (p p' : Pod) : Prop := mkSame {
  same_id : p'.(pod_id) = p.(pod_id);
  same_workload : p'.(workload_id) = p.(workload_id) ∧ p'.(Pods.tenant_id) = p.(Pods.tenant_id);
  same_runtime : p'.(runtime) = p.(runtime) ∧ p'.(pid) = p.(pid) ∧ p'.(Pods.fingerprint) = p.(Pods.fingerprint);
  same_active : active p' ↔ active p;
}.
Definition same_pods (m m' : gmap string Pod) : Prop := ∀ id, option_Forall2 same_pod (m !! id) (m' !! id).

Lemma same_pod_refl p : same_pod p p.
Proof. by split. Qed.
Lemma same_pods_refl pods : same_pods pods pods.
Proof. intros id. destruct (pods !! id); constructor. apply same_pod_refl. Qed.
Lemma same_pods_inv pods pods' id p' :
  same_pods pods pods' → pods' !! id = Some p' → ∃ p, pods !! id = Some p ∧ same_pod p p'.
Proof. intros Hs Hp. specialize (Hs id). rewrite Hp in Hs. inversion Hs as [p ? Hpp Hq|]; subst. eauto. Qed.
Lemma same_pods_fwd pods pods' id p :
  same_pods pods pods' → pods !! id = Some p → ∃ p', pods' !! id = Some p' ∧ same_pod p p'.
Proof. intros Hs Hp. specialize (Hs id). rewrite Hp in Hs. inversion Hs as [? p' Hpp|]; subst. eauto. Qed.

Lemma process_pod_same t p : same_pod p (process_pod loop_cfg t p).2.
Proof.
  destruct p as [? ? ? ? ? st ? ? ? rc ? ? ? ? ? ? ? rep ever], t as [? live ready passing failed].
  unfold process_pod. cbn [state t_live restart_count restart_policy].
  destruct st, live, passing, failed, rep, ever; simpl; try destruct (decide (_ ≤ rc)); split; simpl; try done;
    unfold active; simpl; by split.
Qed.
Lemma process_result_same t pods : same_pods pods (process_probe_result loop_cfg t pods).2.
Proof.
  unfold process_probe_result. destruct (pods !! t.(t_pod_id)) as [p|] eqn:Hp; [|apply same_pods_refl].
  pose proof (process_pod_same t p) as Hs. destruct (process_pod _ _ _) as [evs p']. cbn [snd] in *. intros id.
  destruct (decide (t.(t_pod_id) = id)) as [<-|Hne]; [rewrite Hp, lookup_insert_eq; by constructor|].
  rewrite lookup_insert_ne by done. apply same_pods_refl.
Qed.
Lemma all_pods_same f pods : (∀ p, same_pod p (f p)) → same_pods pods (for_all_pods f pods).
Proof. intros Hf id. unfold for_all_pods. rewrite lookup_fmap. destruct (pods !! id); constructor. apply Hf. Qed.

Lemma tick_dom run_probe now_ms runners : dom (tick run_probe now_ms runners).2 = dom runners.
Proof.
  unfold tick. match goal with |- context [foldl ?f] => set (step := f) end.
  assert (∀ ids acc, dom acc.2 = dom runners → dom (foldl step acc ids).2 = dom runners) as Hfold; [|by apply Hfold].
  induction ids as [|id ids IH]; intros [results rs] Hacc; [done|]. cbn [foldl]. apply IH. subst step. cbn [snd] in *.
  destruct (rs !! id) as [s|] eqn:Hs; [|done]. destruct (tick_pod _ _ _ _) as [t s']. cbn [snd].
  rewrite dom_insert_L, Hacc. apply elem_of_dom_2 in Hs. set_solver.
Qed.

(** The delegation loop writes the keys alone. *)
Lemma delegation_quiet n e out n' :
  node_step n e = Some (out, n') →
  match e with
  | DelegationTick _ | DelegationStep =>
      ∃ d ks, out = Quiet ∧ n' = set_refreshing ks (set_manager (set_delegation d n.(manager)) n)
  | _ => True
  end.
Proof.
  destruct e as [u| |run_probe now_ms|now_unix|u|u|now_unix| |]; try done; cbn [node_step].
  - destruct (refreshing n); [|done]. destruct (delegation (manager n)) as [[client keys]|]; [|done].
    intros [= <- <-]. eauto.
  - destruct (refreshing n) as [|[target ordinal] ks]; [done|]. intros [= <- <-]. unfold zoom_opt.
    destruct (delegation (manager n)) as [x|] eqn:Hd.
    + destruct (request_and_install _ _ _ _ _ _ x) as [r x']. eauto.
    + exists None, ks. split; [done|]. rewrite <-Hd. by destruct (manager n).
Qed.

(** Another task than the schedule task. *)
Definition other_event (e : node_event) : Prop :=
  match e with ScheduleFrame _ | ScheduleStep => False | _ => True end.
Definition n_runners n : option (gmap string ProbeSetRunner) := n.(manager).(probes).

(** The other tasks touch neither the schedule task's work nor which pods there
    are, which workload they belong to, whether they are active or probed. *)
Lemma other_step n e out n' :
  node_step n e = Some (out, n') → other_event e →
  n'.(todo) = n.(todo) ∧ same_pods (n_pods n) (n_pods n') ∧ dom <$> n_runners n' = dom <$> n_runners n.
Proof.
  intros Hs He. pose proof Hs as Hd%delegation_quiet.
  destruct e as [u| |run_probe now_ms|now_unix|u|u|now_unix| |]; try done; cbn [node_step] in Hs.
  - destruct (probing n); [|done]. destruct (manager n).(probes) as [rs|] eqn:Hrs; [|done].
    pose proof (tick_dom run_probe now_ms rs) as Hdom. destruct (tick _ _ rs) as [results rs'].
    injection Hs as _ <-. split; [done|]. split; [apply same_pods_refl|]. unfold n_runners. cbn. rewrite Hrs. cbn in *. by rewrite Hdom.
  - destruct (probing n) as [|t results]; [done|]. pose proof (process_result_same t (n_pods n)) as Hp.
    destruct (process_probe_result _ _ _) as [evs pods']. injection Hs as _ <-. by split_and!.
  - unfold on_route_update in Hs. destruct (sync_routes _ _ _) as [o [st maps]]. injection Hs as _ <-.
    split; [done|]. split; [|done]. destruct o; try apply same_pods_refl. by apply all_pods_same.
  - unfold on_sag_update in Hs. destruct (Policy.sync_policy _ _ _) as [r st]. injection Hs as _ <-.
    split; [done|]. split; [|done]. cbn. destruct (is_ok r); [by apply all_pods_same|apply same_pods_refl].
  - destruct Hd as (d & ks & _ & ->). split; [done|]. split; [apply same_pods_refl|done].
  - destruct Hd as (d & ks & _ & ->). split; [done|]. split; [apply same_pods_refl|done].
  - injection Hs as _ <-. split; [done|]. split; [apply same_pods_refl|done].
Qed.

(** An action of the schedule task changes one pod or one runner. *)
Definition pods_after (a : action) (pods pods' : gmap string Pod) : Prop :=
  match a with
  | EvictBegin id => pods' = alter begin_eviction id pods
  | EvictRemove id => pods' = delete id pods
  | BootAdd spec p => ∃ t, let id := pod_id_of spec p.(st_pod_spec) in
      pods' = <[id := booted_pod id spec p.(st_pod_spec) p.(st_fp) p.(st_handle) t]> pods
  | _ => pods' = pods
  end.
Definition runners_after (a : action) (rs rs' : option (gmap string ProbeSetRunner)) : Prop :=
  match a with
  | EvictUnprobe id _ _ => rs' = delete id <$> rs
  | BootRegister id probe_set now_ms => rs' = insert id (ProbeSetRunner_new probe_set now_ms) <$> rs
  | _ => rs' = rs
  end.
Definition next_of (a : action) (pods : gmap string Pod) (next : list action) : Prop :=
  match a with
  | EvictBegin id => (pods !! id = None ∧ next = []) ∨ ∃ rt h, is_Some (pods !! id) ∧ next = [EvictUnprobe id rt h]
  | EvictUnprobe id rt h => next = [EvictStop id rt h]
  | EvictStop id rt h => next = [] ∨ next = [EvictRemove id]
  | BootStart spec => next = [] ∨ ∃ p, next = [BootAdd spec p]
  | BootAdd spec p => ∃ probe_set now_ms, next = [BootRegister (pod_id_of spec p.(st_pod_spec)) probe_set now_ms]
  | EvictRemove _ | BootRegister _ _ _ => next = []
  end.

Lemma act_effect a m next m' :
  act a m = (next, m') →
  pods_after a m.(pod_manager) m'.(pod_manager) ∧ runners_after a m.(probes) m'.(probes) ∧
  next_of a m.(pod_manager) next.
Proof.
  unfold act. destruct a as [id|id rt h|id rt h|id|spec|spec p|id probe_set now_ms];
    cbn [pods_after runners_after next_of].
  - unfold do_action, mbind, M_bind, get, get_pod. destruct (pod_manager m !! id) as [p|] eqn:Hp; cbn.
    + intros [= <- <-]. split_and!; [done..|]. right. exists p.(runtime), (default 0 p.(pid)). by eauto.
    + intros [= <- <-]. split; [|split; [done|by left]]. apply map_eq. intros k.
      destruct (decide (id = k)) as [<-|]; [by rewrite lookup_alter_eq, Hp|by rewrite lookup_alter_ne].
  - unfold do_action, mbind, M_bind, zoom_opt. destruct (probes m) eqn:Hr; cbn; intros [= <- <-]; cbn; by rewrite ?Hr.
  - destruct (do_action (EvictStop id rt h) m) as [r m1] eqn:Hrun.
    assert ((m1.(pod_manager), m1.(probes)) = (m.(pod_manager), m.(probes))) as [= Hp Hr].
    { eapply (keeps_run (λ m, (m.(pod_manager), m.(probes)))) in Hrun; [done|]. unfold do_action, now, on_mfiles.
      repeat (apply keeps_bind; [|intros ?]); try by keeps.
      intros m0. by pose proof (stop_pod_keeps vmm id rt h m0) as [= -> -> _ _ _]. }
    destruct r as [nx|e]; intros [= <- <-]; (split; [done|split; [done|]]); [|by left].
    apply (do_action_next (EvictStop id rt h)) in Hrun. by right.
  - cbn. by intros [= <- <-].
  - destruct (do_action (BootStart spec) m) as [r m1] eqn:Hrun.
    assert ((m1.(pod_manager), m1.(probes)) = (m.(pod_manager), m.(probes))) as [= Hp Hr].
    { eapply (keeps_run (λ m, (m.(pod_manager), m.(probes)))) in Hrun; [done|]. unfold do_action.
      apply keeps_bind; [by apply start_pod_keeps|intros ?; by keeps]. }
    destruct r as [nx|e]; intros [= <- <-]; (split; [done|split; [done|]]); [|by left].
    apply (do_action_next (BootStart spec)) in Hrun. by right.
  - unfold do_action, now, mbind, M_bind, zoom. destruct (read_clock (clock m)) as [t c].
    destruct (st_registered_ip p); cbn; intros [= <- <-]; cbn; split_and!; eauto.
  - unfold do_action, mbind, M_bind, zoom_opt. destruct (probes m) eqn:Hr; cbn; intros [= <- <-]; cbn; by rewrite ?Hr.
Qed.
End node.
