(* ===== verification/NodeInvariants.v ===== *)
(** What holds of the running node (Node.v) however its tasks interleave: which
    pods are probed, which workloads have pods, what the readiness gates say, what
    the kernel maps hold and which keys sign. *)
From S2P Require Import Prelude Simulation Errors Core Routes IpAllocator Degraded Counters Pods.
From S2P Require Import Probes Volumes Netns Containerd MicroVm Attest PodEvents Workloads Wiring WatchLoops Node.
From S2P Require AgentTasks Policy RouteTable PolicyTable.

Section invariants.
Context `{FleetCore} {OS : HashOrder string} {OZ : HashOrder Z} {OB : HashOrder bytes} {OI : HashOrder SpiffeId}.
Context {D F W V G R A T S Ev C : Type}.
Context `{ContainerdServices D} `{FileSystem F} `{Directories F} `{Shell W} `{NetGuard G}
  `{SrcIdentityRegistry R} `{AttestationRegistrar A} `{!KernelMap T Z (list PodNetCounters)} `{Clock C}.
Context {RD RL PT : Type} `{!KernelMap RD Z bytes} `{!KernelMap RL bytes Z} `{!KernelMap PT bytes bytes}.
Context `{Policy.PolicyCompiler}.
Context (vmm : string → VmmClient V).
Context (to_vec : Json → result string bytes).
Context (file_read : F → string → result string bytes) (blake3 : bytes → bytes).
Context (wire_from_bytes : bytes → result string DelegatedSigningKey)
        (request_delegated_key : DelegatedKeyRequest → M AgentError S DelegatedKeyResponse).
Context (report_pod_events : list PodEvent → M string Ev unit).
Context (cfg : ManagerConfig) (loop_cfg : ProbeLoopConfig).
Context (node_name : string).
#[local] Abbreviation Manager := (WorkloadManager (D := D) (F := F) (W := W) (V := V) (G := G) (R := R) (A := A) (T := T)
  (S := S) (Ev := Ev) (C := C)).
#[local] Abbreviation State := (NodeState (D := D) (F := F) (W := W) (V := V) (G := G) (R := R) (A := A) (T := T)
  (S := S) (Ev := Ev) (C := C) (RD := RD) (RL := RL) (PT := PT)).
#[local] Abbreviation node_step := (node_step vmm to_vec file_read blake3 wire_from_bytes request_delegated_key
  report_pod_events cfg loop_cfg node_name).
#[local] Abbreviation node_run := (node_run vmm to_vec file_read blake3 wire_from_bytes request_delegated_key
  report_pod_events cfg loop_cfg node_name).
#[local] Abbreviation act := (act vmm to_vec file_read blake3 wire_from_bytes request_delegated_key report_pod_events cfg).
Implicit Types (n : State) (pods : gmap string Pod).

(** ** Who is probed *)

(** Only the head of the schedule task's work is under way. *)
Definition is_start (a : action) : Prop := match a with EvictBegin _ | BootStart _ => True | _ => False end.
(** The pod that is between its two tables. *)
Definition in_hand (work : list action) : option string :=
  match work with EvictUnprobe id _ _ :: _ | BootRegister id _ _ :: _ => Some id | _ => None end.
Definition hand_ok pods (a : action) : Prop :=
  match a with
  | EvictUnprobe id _ _ | EvictStop id _ _ | EvictRemove id => ∀ p, pods !! id = Some p → ¬ active p
  | BootRegister id _ _ => ∃ p, pods !! id = Some p ∧ active p
  | _ => True
  end.
Definition pod_active pods (id : string) : Prop := ∃ p, pods !! id = Some p ∧ active p.

(** The schedule task's work beside the two tables. *)
Record tables_wf (work : list action) pods (rs : option (gmap string ProbeSetRunner)) : Prop := mkTablesWf {
  wf_keyed : keyed pods;
  wf_tail : Forall is_start (tail work);
  wf_hand a : head work = Some a → hand_ok pods a;
  wf_probed r id : rs = Some r → in_hand work ≠ Some id → is_Some (r !! id) ↔ pod_active pods id;
}.
Definition node_wf n : Prop := tables_wf n.(todo) (n_pods n) (n_runners n).
Lemma no_pods_wf n : n.(todo) = [] → n_pods n = ∅ → n_runners n = Some ∅ → node_wf n.
Proof.
  intros Ht Hp Hr. unfold node_wf. rewrite Ht, Hp, Hr. split; [|done|done|].
  - intros id p Hl. by rewrite lookup_empty in Hl.
  - intros r id [= <-] _. unfold pod_active. rewrite !lookup_empty. split; [by intros []|by intros (p & [=] & _)].
Qed.

Lemma same_active_pods pods pods' id : same_pods pods pods' → pod_active pods' id ↔ pod_active pods id.
Proof.
  intros Hs. split; intros (p & Hp & Ha).
  - destruct (same_pods_inv _ _ _ _ Hs Hp) as (q & Hq & Hpq). exists q. split; [done|]. by apply Hpq.
  - destruct (same_pods_fwd _ _ _ _ Hs Hp) as (q & Hq & Hpq). exists q. split; [done|]. by apply Hpq.
Qed.
Lemma inactive_pods pods id : (∀ p, pods !! id = Some p → ¬ active p) ↔ ¬ pod_active pods id.
Proof. unfold pod_active. naive_solver. Qed.
Lemma hand_same pods pods' a : same_pods pods pods' → hand_ok pods a → hand_ok pods' a.
Proof.
  intros Hs. destruct a as [|id ? ?|id ? ?|id| | |id ? ?]; cbn; try done; rewrite ?inactive_pods;
    by rewrite <-?(same_active_pods pods pods' id Hs) || (intros Hp; by apply (same_active_pods pods pods' id Hs)).
Qed.
Lemma in_hand_starts rest : Forall is_start rest → in_hand rest = None.
Proof. intros [|[] ? Ha _]; naive_solver. Qed.

Lemma keyed_same pods pods' : same_pods pods pods' → keyed pods → keyed pods'.
Proof.
  intros Hs Hk id p Hp. destruct (same_pods_inv _ _ _ _ Hs Hp) as (q & Hq & Hpq). rewrite (same_id _ _ Hpq). by apply Hk.
Qed.

(** The other tasks keep it. *)
Lemma tables_same work pods pods' rs rs' :
  same_pods pods pods' → dom <$> rs' = dom <$> rs → tables_wf work pods rs → tables_wf work pods' rs'.
Proof.
  intros Hs Hd [Hk Ht Hh Hp]. split; [by eapply keyed_same|done|intros a Ha; eapply hand_same; [exact Hs|auto]|].
  intros r id -> Hid. rewrite (same_active_pods pods pods' id Hs). destruct rs as [r0|]; [|done].
  injection Hd as Hd. rewrite <-elem_of_dom, Hd, elem_of_dom. by apply Hp.
Qed.

Lemma active_alter pods id k : pod_active (alter begin_eviction id pods) k ↔ k ≠ id ∧ pod_active pods k.
Proof.
  unfold pod_active. destruct (decide (k = id)) as [->|Hne].
  - rewrite lookup_alter_eq. split; [|naive_solver]. intros (p & Hp & Ha).
    destruct (pods !! id) as [q|]; [|done]. injection Hp as <-. by apply begin_eviction_inactive in Ha.
  - rewrite lookup_alter_ne by done. naive_solver.
Qed.
Lemma active_insert pods p k : pod_active (<[p.(pod_id) := p]> pods) k ↔
  (k = p.(pod_id) ∧ active p) ∨ (k ≠ p.(pod_id) ∧ pod_active pods k).
Proof. unfold pod_active. setoid_rewrite lookup_insert_Some. naive_solver. Qed.
Lemma active_delete pods id k : pod_active (delete id pods) k ↔ k ≠ id ∧ pod_active pods k.
Proof. unfold pod_active. setoid_rewrite lookup_delete_Some. naive_solver. Qed.

Lemma keyed_after a pods pods' : pods_after a pods pods' → keyed pods → keyed pods'.
Proof.
  intros Ha Hk. destruct a as [id|?|?|id|?|spec p|?]; cbn in Ha; try by subst.
  - subst. intros k p Hp. destruct (decide (id = k)) as [->|Hne]; [|rewrite lookup_alter_ne in Hp by done; by apply Hk].
    rewrite lookup_alter_eq in Hp. destruct (pods !! k) as [q|] eqn:Hq; [|done]. injection Hp as <-.
    rewrite <-(Hk _ _ Hq). unfold begin_eviction. by destruct (state q).
  - subst. intros k p [_ Hp]%lookup_delete_Some. by apply Hk.
  - destruct Ha as [t ->]. intros k q [[<- <-]|[_ Hq]]%lookup_insert_Some; [done|by apply Hk].
Qed.

(** So does the schedule task. *)
Lemma tables_action a rest next pods pods' rs rs' :
  tables_wf (a :: rest) pods rs → pods_after a pods pods' → runners_after a rs rs' → next_of a pods next →
  tables_wf (next ++ rest) pods' rs'.
Proof.
  intros [Hk Hrest Hh Hp] Hpods Hrs Hnext. cbn [tail] in Hrest. pose proof (keyed_after _ _ _ Hpods Hk) as Hk'.
  specialize (Hh a eq_refl). pose proof (in_hand_starts _ Hrest) as Hnone.
  assert (∀ b, head rest = Some b → hand_ok pods' b) as Hhead.
  { intros b Hb. destruct Hrest as [|[] ? Hs _]; try done; by injection Hb as <-. }
  assert (Forall is_start (tail rest)) as Htail by by destruct Hrest.
  destruct a as [id|id rt h|id rt h|id|spec|spec p|id ps now_ms]; cbn in Hpods, Hrs, Hnext, Hh.
  - subst pods' rs'. destruct Hnext as [[Hno ->]|(rt & h & _ & ->)]; (split; [done| | |]); cbn [app tail head]; try done.
    + intros r k -> _. rewrite active_alter, (Hp r k eq_refl) by done. unfold pod_active. naive_solver.
    + intros ? [= <-]. cbn. rewrite inactive_pods, active_alter. naive_solver.
    + intros r k -> Hne. rewrite active_alter, (Hp r k eq_refl) by done. cbn in Hne. naive_solver.
  - subst pods' rs' next. rewrite inactive_pods in Hh. split; [done..| |]; cbn [app head].
    + intros ? [= <-]. cbn. by rewrite inactive_pods.
    + intros r k Hr _. destruct rs as [r0|]; [|done]. injection Hr as <-. destruct (decide (k = id)) as [->|Hne].
      * rewrite lookup_delete_eq. split; [by intros []|done].
      * rewrite lookup_delete_ne by done. apply (Hp r0 k eq_refl). cbn. congruence.
  - subst pods' rs'. destruct Hnext as [->| ->]; (split; [done| | |]); cbn [app tail head]; try done;
      try (by intros ? [= <-]); intros r k -> _; by apply Hp.
  - subst pods' rs' next. rewrite inactive_pods in Hh. split; [done..|]. intros r k -> _.
    rewrite active_delete, (Hp r k eq_refl) by done. naive_solver.
  - subst pods' rs'. destruct Hnext as [->|[p ->]]; (split; [done| | |]); cbn [app tail head]; try done;
      try (by intros ? [= <-]); intros r k -> _; by apply Hp.
  - destruct Hpods as [t ->], Hnext as (ps & now_ms & ->). subst rs'. split; [done..| |]; cbn [app head].
    + intros ? [= <-]. cbn. eexists. split; [apply lookup_insert_eq|done].
    + intros r k -> Hne. cbn in Hne.
      match goal with |- context [<[?i := ?q]> pods] => change (<[i := q]> pods) with (<[q.(pod_id) := q]> pods) end.
      rewrite active_insert, (Hp r k eq_refl) by done. cbn. naive_solver.
  - subst pods' rs' next. split; [done..|]. intros r k Hr _. destruct rs as [r0|]; [|done]. injection Hr as <-.
    destruct (decide (k = id)) as [->|Hne].
    + rewrite lookup_insert_eq. split; [by intros _|by eexists].
    + rewrite lookup_insert_ne by done. apply (Hp r0 k eq_refl). cbn. congruence.
Qed.

Lemma frame_wf specs pods rs : tables_wf [] pods rs →
  tables_wf ((EvictBegin <$> (reconcile (PodSpec := PodSpec) specs pods).(to_evict)) ++ (BootStart <$> (reconcile specs pods).(to_boot))) pods rs.
Proof.
  intros [Hk _ _ Hp]. set (r := reconcile specs pods).
  assert (Forall is_start ((EvictBegin <$> r.(to_evict)) ++ (BootStart <$> r.(to_boot)))) as Hs.
  { apply Forall_app. split; apply Forall_fmap, Forall_true; done. }
  split; [done|by destruct Hs| |].
  - intros a Ha. destruct Hs as [|[] ? Hs _]; try done; by injection Ha as <-.
  - intros rs' id Hr _. by apply Hp.
Qed.

Lemma node_step_wf n e out n' : node_wf n → node_step n e = Some (out, n') → node_wf n'.
Proof.
  intros Hn Hs. assert (other_event e → node_wf n') as Hother.
  { intros Ho. destruct (other_step _ _ _ _ _ _ _ _ _ _ _ _ _ _ Hs Ho) as (Ht & Hp & Hd). unfold node_wf. rewrite Ht.
    by eapply tables_same. }
  destruct e as [u| |?|?|?|?|?| |]; try by apply Hother.
  - cbn [Node.node_step] in Hs. destruct (todo n) eqn:Ht; [|done]. injection Hs as _ <-. unfold node_wf in Hn. rewrite Ht in Hn.
    by apply frame_wf.
  - cbn [Node.node_step] in Hs. destruct (todo n) as [|a rest] eqn:Ht; [done|]. unfold node_wf in Hn. rewrite Ht in Hn.
    rewrite work_step_act in Hs. injection Hs as _ <-. destruct (act a (manager n)) as [next m'] eqn:Ha.
    apply act_effect in Ha as (Hpods & Hrs & Hnext). by eapply tables_action.
Qed.

(** C8: Exactly the active pods are probed.  However the tasks interleave
    (frames, evictions and boots that fail half-way, probe ticks, results that
    come late, route and policy frames), a pod is pending, booting or running if
    and only if it has a probe runner; the one exception is the pod the schedule
    task is moving between the two tables at that moment.  Pods stay filed under
    their ids. *)
Theorem probed_iff_active n es outs n' :
  node_wf n → node_run n es = Some (outs, n') →
  keyed (n_pods n') ∧ ∀ rs id, n_runners n' = Some rs → in_hand n'.(todo) ≠ Some id →
    (is_Some (rs !! id) ↔ ∃ p, n_pods n' !! id = Some p ∧ active p).
Proof.
  intros Hn Hrun. assert (node_wf n') as [Hk _ _ Hp]; [|split; [done|intros rs id; apply Hp]].
  by eapply node_run_invariant in Hrun; [|intros ????; apply node_step_wf|].
Qed.

(** ** Which workloads have pods *)

Definition schedule_frames (es : list (node_event)) : list (ScheduleUpdate PodSpec) :=
  omap (λ e, match e with ScheduleFrame u => Some u | _ => None end) es.

(** The work left and the pods, after a frame with these specs. *)
Record follows (specs : list (WorkloadSpec PodSpec)) (work : list action) pods : Prop := mkFollows {
  fo_keyed : keyed pods;
  fo_active id p : pods !! id = Some p → active p →
    (∃ s, s ∈ specs ∧ s.(spec_workload_id) = p.(workload_id)) ∨ EvictBegin id ∈ work;
  fo_boot s : BootStart s ∈ work → s ∈ specs;
  fo_add s p : BootAdd s p ∈ work → s ∈ specs;
}.

Lemma frame_follows specs pods :
  keyed pods → follows specs ((EvictBegin <$> (reconcile specs pods).(to_evict)) ++
    (BootStart <$> (reconcile specs pods).(to_boot))) pods.
Proof.
  intros Hk. split; [done|..].
  - intros id p Hp Ha. destruct (decide (Exists (λ s, s.(spec_workload_id) = p.(workload_id)) specs)) as [Hex|Hno].
    + left. by apply Exists_exists in Hex.
    + right. apply elem_of_app. left. apply list_elem_of_fmap. exists id. split; [done|].
      apply elem_of_to_evict. exists id, p. split_and!; [done|by apply Hk|done|].
      intros s Hs Hw. apply Hno, Exists_exists. by exists s.
  - intros s [(? & [=] & _)%list_elem_of_fmap|(? & [= ->] & Hs)%list_elem_of_fmap]%elem_of_app.
    by apply elem_of_to_boot in Hs as [Hs _].
  - intros s p [(? & [=] & _)%list_elem_of_fmap|(? & [=] & _)%list_elem_of_fmap]%elem_of_app.
Qed.

Lemma follows_same specs work pods pods' : same_pods pods pods' → follows specs work pods → follows specs work pods'.
Proof.
  intros Hs [Hk Ha Hb Hadd]. split; [by eapply keyed_same| |done|done].
  intros id p Hp Hact. destruct (same_pods_inv _ _ _ _ Hs Hp) as (q & Hq & Hpq).
  destruct (same_workload _ _ Hpq) as [-> _]. apply (Ha id q Hq). by apply Hpq.
Qed.

Lemma next_of_elem a pods next b : next_of a pods next → b ∈ next →
  ¬ is_start b ∧ match b with BootAdd spec _ => a = BootStart spec | _ => True end.
Proof.
  intros Hn Hb. destruct a; cbn in Hn; repeat (destruct_or?; destruct_and?; try match goal with H : ∃ _, _ |- _ => destruct H end); subst;
    first [by apply not_elem_of_nil in Hb|apply list_elem_of_singleton in Hb as ->; by split; [intros []|]].
Qed.

Lemma follows_action specs a rest next pods pods' :
  follows specs (a :: rest) pods → pods_after a pods pods' → next_of a pods next → follows specs (next ++ rest) pods'.
Proof.
  intros [Hk Ha Hb Hadd] Hpods Hnext. pose proof (keyed_after _ _ _ Hpods Hk) as Hk'.
  assert (∀ id, EvictBegin id ∈ a :: rest → EvictBegin id ∉ next ++ rest → a = EvictBegin id) as Hev.
  { intros id [<-|Hin]%elem_of_cons Hno; [done|]. destruct Hno. apply elem_of_app. by right. }
  assert (∀ b, b ∈ next ++ rest → b ∈ next ∨ b ∈ a :: rest) as Hin.
  { intros b [?|?]%elem_of_app; [by left|right; by right]. }
  assert (∀ id p q, pods !! id = Some q → active q → q.(workload_id) = p.(workload_id) → a ≠ EvictBegin id →
    (∃ s, s ∈ specs ∧ s.(spec_workload_id) = p.(workload_id)) ∨ EvictBegin id ∈ next ++ rest) as Hkeep.
  { intros id p q Hq Hact <- Hne. destruct (Ha id q Hq Hact) as [?|[Heq|?]%elem_of_cons]; [by left|by destruct Hne|].
    right. apply elem_of_app. by right. }
  split; [done|..].
  - intros id p Hp Hact. destruct a as [id'|id' rt h|id' rt h|id'|spec|spec st|id' ps now_ms]; cbn in Hpods;
      try (subst pods'; by eapply Hkeep).
    + subst pods'. destruct (proj1 (active_alter pods id' id)) as [Hne _]; [by exists p|].
      rewrite lookup_alter_ne in Hp by done. eapply Hkeep; [done..|congruence].
    + subst pods'. apply lookup_delete_Some in Hp as [Hne Hp]. by eapply Hkeep.
    + destruct Hpods as [t ->]. apply lookup_insert_Some in Hp as [[<- <-]|[_ Hp]]; [left|by eapply Hkeep].
      exists spec. split; [|done]. eapply Hadd. by left.
  - intros s Hs. apply Hin in Hs as [Hs|Hs]; [|by apply Hb]. by destruct (next_of_elem _ _ _ _ Hnext Hs) as [[] _].
  - intros s p Hs. apply Hin in Hs as [Hs|Hs]; [|by eapply Hadd].
    destruct (next_of_elem _ _ _ _ Hnext Hs) as [_ ->]. apply Hb. by left.
Qed.

(** C2: The node follows its schedule while all its tasks run.  At any moment
    after a schedule frame was taken, whatever failed and whatever the other
    tasks did in between, every active pod belongs to a workload the newest
    frame assigns or is still waiting for its eviction in the task's work; once
    the task is back at its await none is waiting. *)
Theorem node_follows_schedule n es outs n' u :
  keyed (n_pods n) → node_run n es = Some (outs, n') → last (schedule_frames es) = Some u →
  ∀ id p, n_pods n' !! id = Some p → active p →
    (∃ x, x ∈ u.(assignments) ∧ x.(as_workload_id) = p.(workload_id)) ∨
    (EvictBegin id ∈ n'.(todo) ∧ n'.(todo) ≠ []).
Proof.
  intros Hk Hrun Hu id p Hp Ha.
  assert (keyed (n_pods n') ∧ ∀ u, last (schedule_frames es) = Some u →
    follows (schedule_specs u.(assignments)) n'.(todo) (n_pods n')) as [_ Hf].
  { clear u Hu id p Hp Ha. revert outs n' Hrun. induction es as [|e es IH] using rev_ind; intros outs n' Hrun.
    { injection Hrun as _ <-. by split. }
    apply node_run_snoc in Hrun as (outs' & n1 & out & Hrun & Hs & ->). apply IH in Hrun as [Hk1 Hf1]. clear IH.
    assert (other_event e → keyed (n_pods n') ∧ ∀ u, last (schedule_frames (es ++ [e])) = Some u →
      follows (schedule_specs u.(assignments)) n'.(todo) (n_pods n')) as Hother.
    { intros Ho. destruct (other_step _ _ _ _ _ _ _ _ _ _ _ _ _ _ Hs Ho) as (Ht & Hsame & _).
      split; [by eapply keyed_same|]. intros u Hu. rewrite Ht. eapply follows_same; [exact Hsame|]. apply Hf1.
      unfold schedule_frames in Hu. rewrite omap_app in Hu. destruct e; try done; cbn in Hu; by rewrite app_nil_r in Hu. }
    destruct e as [u'| |?|?|?|?|?| |]; try by apply Hother.
    - cbn [Node.node_step] in Hs. destruct (todo n1); [|done]. injection Hs as _ <-. split; [done|]. intros u Hu.
      unfold schedule_frames in Hu. rewrite omap_app in Hu. cbn in Hu. rewrite last_snoc in Hu. injection Hu as ->.
      by apply frame_follows.
    - cbn [Node.node_step] in Hs. destruct (todo n1) as [|a rest] eqn:Ht; [done|]. rewrite work_step_act in Hs.
      injection Hs as _ <-. destruct (act a (manager n1)) as [next m'] eqn:Hact.
      apply act_effect in Hact as (Hpods & _ & Hnext). split; [by eapply keyed_after|]. intros u Hu.
      eapply follows_action; [|exact Hpods|exact Hnext]. apply Hf1.
      unfold schedule_frames in Hu. rewrite omap_app in Hu. cbn in Hu. by rewrite app_nil_r in Hu. }
  destruct (fo_active _ _ _ (Hf u Hu) id p Hp Ha) as [Hs|Hin]; [left; by apply schedule_specs_from|right].
  split; [done|]. intros Hno. rewrite Hno in Hin. by apply not_elem_of_nil in Hin.
Qed.

(** ** The readiness gates *)

(** Every route of a frame that lists the pod as a source has an address. *)
Definition routed (u : RouteUpdate) (p : Pod) : bool :=
  forallb (λ r, bool_decide (r.(dummy_ip) ≠ 0))
    (filter (λ r, pod_spiffe cfg.(mc_trust_domain) p ∈ r.(source_spiffe_ids)) u.(routes)).
Definition applied_route (e : node_event) (out : node_out) : option RouteUpdate :=
  match e, out with RouteFrame u, RoutesOut Applied => Some u | _, _ => None end.
(** The route frames that were applied in a run, and whether a policy was. *)
Definition applied_routes (es : list node_event) (outs : list node_out) : list RouteUpdate :=
  omap (λ eo, applied_route eo.1 eo.2) (zip es outs).
Definition policy_in (out : node_out) : bool := match out with PolicyOut r => is_ok r | _ => false end.

(** What the other fields of a pod do not decide. *)
Definition gates_from (p p' : Pod) (policy : bool) (route : option RouteUpdate) : Prop :=
  p'.(started) = p.(started) ∧ pod_spiffe cfg.(mc_trust_domain) p' = pod_spiffe cfg.(mc_trust_domain) p ∧
  p'.(policy_enforced) = policy || p.(policy_enforced) ∧
  p'.(router_connected) = default p.(router_connected) ((λ u, routed u p) <$> route).

Lemma gates_refl p : gates_from p p false None.
Proof. done. Qed.
Lemma routed_same u p p' : pod_spiffe cfg.(mc_trust_domain) p' = pod_spiffe cfg.(mc_trust_domain) p → routed u p' = routed u p.
Proof. unfold routed. by intros ->. Qed.
Lemma gates_trans p p1 p2 b1 b2 r1 r2 :
  gates_from p p1 b1 r1 → gates_from p1 p2 b2 r2 → gates_from p p2 (b2 || b1) (match r2 with Some u => Some u | None => r1 end).
Proof.
  intros (Hs1 & Hp1 & Hb1 & Hr1) (Hs2 & Hp2 & Hb2 & Hr2). split_and!; [congruence..| |].
  - by rewrite Hb2, Hb1, orb_assoc.
  - rewrite Hr2, Hr1. destruct r2 as [u|]; cbn; [by apply routed_same|done].
Qed.

Lemma action_gates a pods pods' id p' :
  pods_after a pods pods' → recorded_by a ≠ Recorded id → pods' !! id = Some p' →
  ∃ p, pods !! id = Some p ∧ gates_from p p' false None.
Proof.
  intros Hpods Hout Hp. destruct a as [id'|id' rt h|id' rt h|id'|spec|spec st|id' ps now_ms]; cbn in Hpods, Hout;
    try (subst pods'; exists p'; by split).
  - subst pods'. destruct (decide (id' = id)) as [->|Hne]; [|rewrite lookup_alter_ne in Hp by done; by exists p'].
    rewrite lookup_alter_eq in Hp. destruct (pods !! id) as [p|]; [|done]. injection Hp as <-. exists p. split; [done|].
    unfold begin_eviction. by destruct (state p).
  - subst pods'. apply lookup_delete_Some in Hp as [_ Hp]. by exists p'.
  - destruct Hpods as [t ->]. apply lookup_insert_Some in Hp as [[<- _]|[_ Hp]]; [by destruct Hout|by exists p'].
Qed.

Lemma step_gates n e out n' id p' :
  node_step n e = Some (out, n') → out ≠ Recorded id → n_pods n' !! id = Some p' →
  ∃ p, n_pods n !! id = Some p ∧ gates_from p p' (policy_in out) (applied_route e out).
Proof.
  intros Hs Hout Hp. pose proof Hs as Hd%delegation_quiet.
  destruct e as [u| |run_probe now_ms|now_unix|u|u|now_unix| |]; cbn [Node.node_step] in Hs.
  - destruct (todo n); [|done]. injection Hs as <- <-. by exists p'.
  - destruct (todo n) as [|a rest]; [done|]. rewrite work_step_act in Hs. injection Hs as <- <-.
    destruct (act a (manager n)) as [next m'] eqn:Ha. apply act_effect in Ha as (Hpods & _ & _).
    destruct (action_gates _ _ _ _ _ Hpods Hout Hp) as (p & Hp0 & Hg). exists p. split; [done|]. by destruct a.
  - destruct (probing n); [|done]. destruct (manager n).(probes) as [rs|]; [|done]. destruct (tick _ _ rs) as [res rs'].
    injection Hs as <- <-. by exists p'.
  - destruct (probing n) as [|t results]; [done|]. unfold process_probe_result in Hs.
    destruct (n_pods n !! t.(t_pod_id)) as [p|] eqn:Hp0; [|injection Hs as <- <-; by exists p'].
    pose proof (process_pod_spec loop_cfg t p) as Hspec. pose proof (process_pod_same loop_cfg t p) as Hsame.
    destruct (process_pod loop_cfg t p) as [evs q]. cbn [snd] in Hsame. destruct Hspec as (_ & _ & [= E1 E2 E3] & _).
    injection Hs as <- <-. cbn in Hp. apply lookup_insert_Some in Hp as [[<- <-]|[_ Hp]]; [|by exists p'].
    exists p. split; [done|]. destruct (same_workload _ _ Hsame) as [Hw Ht]. unfold gates_from, pod_spiffe. by rewrite Hw, Ht.
  - unfold on_route_update in Hs. destruct (sync_routes _ _ _) as [o [st maps]]. injection Hs as <- <-. cbn in Hp.
    destruct o; try (exists p'; by split). unfold reevaluate_router_connected, for_all_pods in Hp.
    rewrite lookup_fmap in Hp. destruct (n_pods n !! id) as [p|]; [|done]. injection Hp as <-. exists p.
    split; [done|]. split_and!; try done. cbn. unfold routed. by destruct (filter _ _).
  - unfold on_sag_update in Hs. destruct (Policy.sync_policy _ _ _) as [r st]. injection Hs as <- <-. cbn in Hp |- *.
    destruct (is_ok r); [|by exists p']. unfold mark_all_pods_policy_enforced, for_all_pods in Hp.
    rewrite lookup_fmap in Hp. destruct (n_pods n !! id) as [p|]; [|done]. injection Hp as <-. by exists p.
  - destruct Hd as (d & ks & -> & ->). by exists p'.
  - destruct Hd as (d & ks & -> & ->). by exists p'.
  - injection Hs as <- <-. by exists p'.
Qed.

Lemma run_gates n es outs n' id p' :
  node_run n es = Some (outs, n') → Recorded id ∉ outs → n_pods n' !! id = Some p' →
  ∃ p, n_pods n !! id = Some p ∧ gates_from p p' (existsb policy_in outs) (last (applied_routes es outs)).
Proof.
  revert n outs p'. induction es as [|e es IH]; intros n outs p' Hrun Hout Hp; [injection Hrun as <- <-; by exists p'|].
  apply node_run_cons in Hrun as (out & outs' & n1 & Hs & Hrun & ->). apply not_elem_of_cons in Hout as [Ho Hout].
  destruct (IH _ _ _ Hrun Hout Hp) as (p1 & Hp1 & Hg1).
  destruct (step_gates _ _ _ _ _ _ Hs (not_eq_sym Ho) Hp1) as (p & Hp0 & Hg). exists p. split; [done|].
  pose proof (gates_trans _ _ _ _ _ _ _ Hg Hg1) as Hgt. rewrite orb_comm in Hgt. cbn [existsb].
  assert (last (applied_routes (e :: es) (out :: outs')) =
    match last (applied_routes es outs') with Some u => Some u | None => applied_route e out end) as ->; [|done].
  unfold applied_routes. cbn [zip zip_with omap list_omap fst snd].
  destruct (applied_route e out) as [u|]; [apply last_cons|by destruct (last _)].
Qed.

(** C9: The gates of a pod tell what was applied since it was recorded.  Over
    any interleaving its policy gate is open exactly when a policy frame has been
    accepted since its boot recorded it, and its router gate is what the newest
    route frame applied since then says of it, closed before the first; no other
    task touches them.  A pod booted after the last policy and route frames thus
    stays behind closed gates until control sends others. *)
Theorem gates_since_boot n e es outs n' id p :
  node_run n (e :: es) = Some (Recorded id :: outs, n') → Recorded id ∉ outs → n_pods n' !! id = Some p →
  p.(started) = true ∧
  p.(policy_enforced) = existsb policy_in outs ∧
  p.(router_connected) = default false ((λ u, routed u p) <$> last (applied_routes es outs)).
Proof.
  intros (out & outs' & n1 & Hs & Hrun & [= <- <-])%node_run_cons Hout Hp.
  destruct (run_gates _ _ _ _ _ _ Hrun Hout Hp) as (p0 & Hp0 & Hst & Hsp & Hpol & Hrt).
  assert (p0.(started) = true ∧ p0.(policy_enforced) = false ∧ p0.(router_connected) = false) as (E1 & E2 & E3).
  { destruct e as [u| |?|?|u|u|?| |]; cbn [Node.node_step] in Hs; try (by repeat case_match; simplify_eq).
    - destruct (todo n) as [|a rest]; [done|]. rewrite work_step_act in Hs. injection Hs as Ha <-.
      destruct (act a (manager n)) as [next m'] eqn:Hact. apply act_effect in Hact as (Hpods & _ & _).
      destruct a; try done. injection Ha as Ha. cbn in Hpods, Hp0. destruct Hpods as [t Hpods]. rewrite Ha in Hpods.
      unfold n_pods in Hp0. cbn in Hp0. rewrite Hpods, lookup_insert_eq in Hp0. by injection Hp0 as <-. }
  split; [congruence|]. split; [by rewrite Hpol, E2, orb_false_r|]. rewrite Hrt, E3.
  destruct (last _) as [u|]; [|done]. cbn. symmetry. by apply routed_same.
Qed.

(** ** One component among the tasks *)

(** A part [f] of the node that only the frames of one task change, each by one
    step of a machine of its own, goes through exactly the run of that machine. *)
Lemma node_projection {X U O} (f : State → X) (frame : node_event → option U) (answer : node_out → option O)
    (step : X → U → O * X) :
  (∀ n e out n', node_step n e = Some (out, n') →
     match frame e with
     | Some u => ∃ o, answer out = Some o ∧ step (f n) u = (o, f n')
     | None => answer out = None ∧ f n' = f n
     end) →
  ∀ es n outs n', node_run n es = Some (outs, n') → run step (f n) (omap frame es) = (omap answer outs, f n').
Proof.
  intros Hstep es. induction es as [|e es IH]; intros n outs n' Hrun; [by injection Hrun as <- <-|].
  apply node_run_cons in Hrun as (out & outs' & n1 & Hs & Hrun & ->). apply IH in Hrun. specialize (Hstep _ _ _ _ Hs).
  cbn [omap list_omap]. destruct (frame e) as [u|].
  - destruct Hstep as (o & Ho & Hx). cbn [run]. rewrite Hx, Ho.
    change (run step (f n1) (omap frame es) = (omap answer outs', f n')) in Hrun.
    change (list_omap _ _ frame es) with (omap frame es). rewrite Hrun. done.
  - destruct Hstep as [-> <-]. exact Hrun.
Qed.

Definition own_node : SpiffeId := spiffe_new cfg.(mc_trust_domain) "system" kind_node node_name.
Definition route_frame (e : node_event) : option RouteUpdate := match e with RouteFrame u => Some u | _ => None end.
Definition route_answer (out : node_out) : option sync_outcome := match out with RoutesOut o => Some o | _ => None end.
Definition sag_frame (e : node_event) : option Policy.SagUpdate := match e with SagFrame u => Some u | _ => None end.
Definition sag_answer (out : node_out) : option (Result unit) := match out with PolicyOut r => Some r | _ => None end.

(** The two kernel tables, step by step. *)
Lemma step_tables n e out n' :
  node_step n e = Some (out, n') →
  match route_frame e with
  | Some u => ∃ o, route_answer out = Some o ∧ sync_routes own_node u n.(route_sync) = (o, n'.(route_sync))
  | None => route_answer out = None ∧ n'.(route_sync) = n.(route_sync)
  end ∧
  match sag_frame e with
  | Some u => ∃ r, sag_answer out = Some r ∧ Policy.sync_policy u cfg.(mc_trust_domain) n.(policy_sync) = (r, n'.(policy_sync))
  | None => sag_answer out = None ∧ n'.(policy_sync) = n.(policy_sync)
  end.
Proof.
  intros Hs. pose proof Hs as Hd%delegation_quiet.
  destruct e as [u| |run_probe now_ms|now_unix|u|u|now_unix| |]; cbn [Node.node_step route_frame sag_frame] in *.
  - destruct (todo n); [|done]. by injection Hs as <- <-.
  - destruct (todo n) as [|a rest]; [done|]. rewrite work_step_act in Hs. injection Hs as <- <-. by destruct a.
  - destruct (probing n); [|done]. destruct (manager n).(probes) as [rs|]; [|done]. destruct (tick _ _ rs) as [res rs'].
    by injection Hs as <- <-.
  - destruct (probing n) as [|t results]; [done|]. destruct (process_probe_result _ _ _) as [evs pods'].
    by injection Hs as <- <-.
  - unfold on_route_update in Hs. fold own_node in Hs. cbn [route_state route_maps routes_view] in Hs.
    rewrite <-surjective_pairing in Hs. destruct (sync_routes own_node u n.(route_sync)) as [o [st maps]].
    injection Hs as <- <-. split; [by exists o|done].
  - unfold on_sag_update in Hs. destruct (Policy.sync_policy _ _ _) as [r st] eqn:Hr. injection Hs as <- <-.
    split; [done|]. by exists r.
  - by destruct Hd as (d & ks & -> & ->).
  - by destruct Hd as (d & ks & -> & ->).
  - by injection Hs as <- <-.
Qed.

(** ** The keys that sign *)

(** Every key is filed under the workload it may renew, and was granted by the
    control plane. *)
Definition keys_granted (d : option (S * gmap SpiffeId DelegatedKeyEntry)) : Prop :=
  ∀ s keys, d = Some (s, keys) → Degraded.keyed keys ∧
    ∀ id e, keys !! id = Some e → granted wire_from_bytes request_delegated_key e.

Lemma request_granted node id o ttl :
  preserves (λ x, keys_granted (Some x)) (request_and_install wire_from_bytes request_delegated_key node id o ttl).
Proof.
  intros [s keys] Hk. destruct (request_and_install _ _ _ _ _ _ _) as [r [s' keys']] eqn:Hrun. cbn [snd].
  destruct (Hk _ _ eq_refl) as [Hkey Hg].
  apply request_and_install_spec in Hrun as [->|(e & He & ->)]; intros ? ? [= <- <-]; [done|]. split.
  - intros t e'. rewrite lookup_insert. case_decide as Ht; [intros [= <-]; done|apply Hkey].
  - intros t e'. rewrite lookup_insert. case_decide; [by intros [= <-]|apply Hg].
Qed.
Lemma prune_granted now_unix s keys :
  keys_granted (Some (s, keys)) → keys_granted (Some (s, prune_expired now_unix keys)).
Proof.
  intros Hk. destruct (Hk _ _ eq_refl) as [Hkey Hg]. intros ? ? [= <- <-]. split; [by apply keyed_prune|].
  intros id e [He _]%lookup_prune. by eapply Hg.
Qed.

#[local] Abbreviation granted_keys := (λ m : Manager, keys_granted m.(delegation)).
Lemma delegation_granted (c : M AgentError (S * gmap SpiffeId DelegatedKeyEntry) unit) :
  preserves (λ x, keys_granted (Some x)) c → preserves granted_keys (zoom_opt delegation set_delegation c).
Proof. intros Hc. by apply (preserves_zoom_opt _ _ _ keys_granted). Qed.

Lemma act_granted a : preserves granted_keys (do_action vmm to_vec file_read blake3 wire_from_bytes request_delegated_key
  report_pod_events cfg a).
Proof.
  assert (∀ B (c : M AgentError Manager B), keeps delegation c → preserves granted_keys c) as Hkeep
    by (intros B c Hc; by apply (preserves_keeps delegation keys_granted)).
  destruct a as [id|id rt h|id rt h|id|spec|spec p|id ps now_ms]; cbn [do_action];
    try (apply Hkeep; unfold now, on_mfiles, stop_pod, unregister_attestation, release_network; by keeps).
  apply preserves_bind; [|intros p; by apply Hkeep; keeps]. unfold start_pod, prepare_pod, start_runtime.
  repeat (apply preserves_bind; [|intros ?]);
    try (apply Hkeep; unfold register_source, unregister_source, on_mfiles; by keeps).
  - apply preserves_ignore, delegation_granted, request_granted.
  - apply Hkeep. unfold unregister_source. apply keeps_on_error; [by apply boot_runtime_keeps|by keeps].
Qed.

Lemma node_step_granted n e out n' :
  granted_keys n.(manager) → node_step n e = Some (out, n') → granted_keys n'.(manager).
Proof.
  intros Hn Hs. destruct e as [u| |run_probe now_ms|now_unix|u|u|now_unix| |]; cbn [Node.node_step] in Hs.
  - destruct (todo n); [|done]. by injection Hs as <- <-.
  - destruct (todo n) as [|a rest]; [done|]. rewrite work_step_act in Hs. injection Hs as _ <-.
    pose proof (act_granted a (manager n) Hn) as Ha. unfold Node.act. cbn [manager].
    by destruct (do_action _ _ _ _ _ _ _ _ a (manager n)) as [[]].
  - destruct (probing n); [|done]. destruct (manager n).(probes) as [rs|]; [|done]. destruct (tick _ _ rs) as [res rs'].
    by injection Hs as <- <-.
  - destruct (probing n) as [|t results]; [done|]. destruct (process_probe_result _ _ _) as [evs pods'].
    by injection Hs as <- <-.
  - unfold on_route_update in Hs. destruct (sync_routes _ _ _) as [o [st maps]]. by injection Hs as <- <-.
  - unfold on_sag_update in Hs. destruct (Policy.sync_policy _ _ _) as [r st]. by injection Hs as <- <-.
  - destruct (refreshing n); [|done]. destruct (delegation (manager n)) as [[client keys]|] eqn:Hd; [|done].
    injection Hs as _ <-. cbn. apply prune_granted. by rewrite <-Hd.
  - destruct (refreshing n) as [|[target ordinal] rest]; [done|]. injection Hs as _ <-.
    apply (delegation_granted _ (request_granted _ _ _ _) _ Hn).
  - by injection Hs as <- <-.
Qed.

(** The names handed out are those of the newest route frame. *)
Lemma step_handed n e out n' :
  node_step n e = Some (out, n') →
  n'.(handed_routes) = default n.(handed_routes) ((λ u, dummy_routes u.(routes)) <$> route_frame e).
Proof.
  intros Hs. pose proof Hs as Hd%delegation_quiet.
  destruct e as [u| |run_probe now_ms|now_unix|u|u|now_unix| |]; cbn [Node.node_step route_frame] in *.
  - destruct (todo n); [|done]. by injection Hs as <- <-.
  - destruct (todo n) as [|a rest]; [done|]. rewrite work_step_act in Hs. by injection Hs as <- <-.
  - destruct (probing n); [|done]. destruct (manager n).(probes) as [rs|]; [|done]. destruct (tick _ _ rs) as [res rs'].
    by injection Hs as <- <-.
  - destruct (probing n) as [|t results]; [done|]. destruct (process_probe_result _ _ _) as [evs pods'].
    by injection Hs as <- <-.
  - unfold on_route_update in Hs. destruct (sync_routes _ _ _) as [o [st maps]]. by injection Hs as <- <-.
  - unfold on_sag_update in Hs. destruct (Policy.sync_policy _ _ _) as [r st]. by injection Hs as <- <-.
  - by destruct Hd as (d & ks & _ & ->).
  - by destruct Hd as (d & ks & _ & ->).
  - by injection Hs as <- <-.
Qed.
Lemma run_handed n es outs n' :
  node_run n es = Some (outs, n') →
  n'.(handed_routes) = default n.(handed_routes) ((λ u, dummy_routes u.(routes)) <$> last (omap route_frame es)).
Proof.
  revert outs n'. induction es as [|e es IH] using rev_ind; intros outs n' Hrun; [by injection Hrun as _ <-|].
  apply node_run_snoc in Hrun as (outs' & n1 & out & Hrun & Hs & ->). apply IH in Hrun. apply step_handed in Hs.
  rewrite Hs, Hrun, omap_app. destruct e; cbn; rewrite ?app_nil_r, ?last_snoc; done.
Qed.

(** C7: What a guest is given while the node runs.  The delegated keys are shared
    by the boots that request them, the task that refreshes them and the
    attestation server that signs with them: at any moment of any interleaving the
    configuration built for a workload carries a certificate only if an unexpired
    key granted by the control plane for exactly this workload signed it, and
    otherwise neither certificate nor private key; its names are those of the
    newest route frame. *)
Theorem guest_config_granted `{!KeyGen X} sign n es outs n' s keys ttl ctx now x config x' :
  keys_granted n.(manager).(delegation) → node_run n es = Some (outs, n') →
  n'.(manager).(delegation) = Some (s, keys) →
  let b := mkBuilder cfg.(mc_trust_domain) n'.(handed_routes) keys ttl in
  build sign b ctx now x = (Ok config, x') →
  config.(dummy_ip_routes) =
    default n.(handed_routes) ((λ u, dummy_routes u.(routes)) <$> last (omap route_frame es)) ∧
  ((config.(svid_cert_chain_der) = [] ∧ config.(svid_private_key_der) = []) ∨
   ∃ e csr cert, granted wire_from_bytes request_delegated_key e ∧
     e.(key).(target_svid_id) = workload_spiffe_id b ctx ∧ now < e.(key).(expires_at_unix) ∧
     sign e.(key) csr ttl now = Ok cert ∧ config.(svid_cert_chain_der) = [cert]).
Proof.
  intros Hn Hrun Hd b Hb. assert (keys_granted n'.(manager).(delegation)) as Hg.
  { by eapply node_run_invariant in Hrun; [|intros ????; apply node_step_granted|]. }
  rewrite Hd in Hg. destruct (Hg _ _ eq_refl) as [Hkey Hgr]. apply run_handed in Hrun. split.
  - rewrite <-Hrun. unfold build in Hb. apply M_bind_ok in Hb as (? & ? & _ & [= <- _]). done.
  - apply svid_fail_closed in Hb as [(-> & -> & _)|(e & kp & csr & cert & He & Hexp & _ & _ & Hsig & -> & _)]; [by left|right].
    exists e, csr, cert. split_and!; try done; [by eapply Hgr|]. by apply (Hkey _ _ He).
Qed.

(** ** The schedule task comes back to its await *)

Definition is_schedule_step (e : node_event) : bool := match e with ScheduleStep => true | _ => false end.

(** However the other tasks interleave, between two frames the schedule task
    takes at most four steps per eviction and three per boot of the first, and
    the next of them can always be taken. *)
Theorem schedule_progress n es outs n' :
  node_run n es = Some (outs, n') → schedule_frames es = [] →
  (length (filter is_schedule_step es) + work_cost n'.(todo) ≤ work_cost n.(todo))%nat ∧
  (n'.(todo) ≠ [] → ∃ out n2, node_step n' ScheduleStep = Some (out, n2)).
Proof.
  intros Hrun Hno. split.
  2:{ cbn [Node.node_step]. destruct (todo n') as [|a rest]; [done|]. rewrite work_step_act. eauto. }
  revert n outs Hrun Hno. induction es as [|e es IH]; intros n outs Hrun Hno; [by injection Hrun as _ <-|].
  apply node_run_cons in Hrun as (out & outs' & n1 & Hs & Hrun & ->).
  assert (schedule_frames es = []) as Hno'.
  { by destruct e. }
  specialize (IH _ _ Hrun Hno'). rewrite filter_cons.
  assert (other_event e → n1.(todo) = n.(todo)) as Hother by (intros Ho; by apply other_step in Hs as [? _]).
  destruct e; try (rewrite decide_False by (intros []); by rewrite <-Hother).
  rewrite decide_True by done. cbn [Node.node_step] in Hs. destruct (todo n) as [|a rest]; [done|].
  rewrite work_step_act in Hs. injection Hs as _ <-. cbn [todo] in IH.
  assert (work_cost (act a n.(manager)).1 < action_cost a)%nat as Hc by (by eapply act_cost).
  rewrite work_cost_app in IH. rewrite work_cost_cons. cbn [length]. lia.
Qed.
End invariants.

(** ** The kernel tables *)

Section tables.
Context `{FleetCore} {OS : HashOrder string} {OZ : HashOrder Z} {OB : HashOrder bytes} {OI : HashOrder SpiffeId}.
Context {D F W V G R A T S Ev C : Type}.
Context `{ContainerdServices D} `{FileSystem F} `{Directories F} `{Shell W} `{NetGuard G}
  `{SrcIdentityRegistry R} `{AttestationRegistrar A} `{!KernelMap T Z (list PodNetCounters)} `{Clock C}.
Context `{Policy.PolicyCompiler}.
Context (vmm : string → VmmClient V).
Context (to_vec : Json → result string bytes).
Context (file_read : F → string → result string bytes) (blake3 : bytes → bytes).
Context (wire_from_bytes : bytes → result string DelegatedSigningKey)
        (request_delegated_key : DelegatedKeyRequest → M AgentError S DelegatedKeyResponse).
Context (report_pod_events : list PodEvent → M string Ev unit).
Context (cfg : ManagerConfig) (loop_cfg : ProbeLoopConfig) (node_name : string).
(** The rooms of the four kernel maps. *)
Context (cap_routes cap_locals cap_exact cap_wildcard : nat).
#[local] Abbreviation State := (NodeState (D := D) (F := F) (W := W) (V := V) (G := G) (R := R) (A := A) (T := T)
  (S := S) (Ev := Ev) (C := C) (RD := capmap Z bytes) (RL := capmap bytes Z) (PT := capmap bytes bytes)).
#[local] Abbreviation own := (own_node cfg node_name).

(** The tables of a node that just started. *)
Definition tables_empty (n : State) : Prop :=
  n.(route_sync) = (RouteSyncState_new, (mkCapmap cap_routes ∅, mkCapmap cap_locals ∅)) ∧
  n.(policy_sync) = (Policy.PolicySyncState_new, (mkCapmap cap_exact ∅, mkCapmap cap_wildcard ∅)).

(** C6: Both synchronisations implement their tables on the running node.  From
    a fresh node, over any interleaving of all tasks whose route and policy
    frames each take at most half of their kernel maps, the route and the SAG
    task answer their frames as the two abstract tables do, and the four kernel
    maps hold exactly the tables' routes, local workloads and rules: no other
    task is seen by either. *)
Theorem node_tables_refine (n : State) es outs n' :
  tables_empty n →
  node_run vmm to_vec file_read blake3 wire_from_bytes request_delegated_key report_pod_events cfg loop_cfg node_name
    n es = Some (outs, n') →
  Forall (RouteTable.fits own cap_routes cap_locals) (omap route_frame es) →
  Forall (PolicyTable.policy_fits cfg.(mc_trust_domain) cap_exact cap_wildcard) (omap sag_frame es) →
  let routes := run (RouteTable.table_step own) (RouteTable.mkTable 0 ∅ ∅) (omap route_frame es) in
  let policy := run (PolicyTable.policy_step cfg.(mc_trust_domain)) (PolicyTable.mkPolicyTable 0 ∅ ∅) (omap sag_frame es) in
  (omap route_answer outs = routes.1 ∧ n'.(route_sync).2.1.(contents) = routes.2.(RouteTable.rt_routes) ∧
   dom n'.(route_sync).2.2.(contents) = routes.2.(RouteTable.rt_locals)) ∧
  (omap sag_answer outs = policy.1 ∧ n'.(policy_sync).2.1.(contents) = policy.2.(PolicyTable.pt_exact) ∧
   n'.(policy_sync).2.2.(contents) = policy.2.(PolicyTable.pt_wildcard)).
Proof.
  intros [Hr0 Hp0] Hrun Hfr Hfp routes policy. split.
  - assert (run (λ s u, sync_routes own u s) n.(route_sync) (omap route_frame es) =
      (omap route_answer outs, n'.(route_sync))) as Hproj.
    { eapply (node_projection _ _ _ _ _ _ _ _ _ _ route_sync); [|exact Hrun]. intros ???? Hs.
      by apply step_tables in Hs as [? _]. }
    destruct (simulation _ _ _ _ n.(route_sync) (RouteTable.mkTable 0 ∅ ∅) (omap route_frame es)
      (RouteTable.routes_simulate own cap_routes cap_locals) Hfr) as [Hout Hrep].
    { rewrite Hr0. split; rewrite ?dom_empty_L; try done. split; apply Nat.le_0_l. }
    rewrite Hproj in Hout, Hrep. cbn [fst snd] in *. split; [exact Hout|]. split; [apply Hrep|].
    by rewrite (RouteTable.rep_locals _ _ _ _ Hrep).
  - assert (run (λ s u, Policy.sync_policy u cfg.(mc_trust_domain) s) n.(policy_sync) (omap sag_frame es) =
      (omap sag_answer outs, n'.(policy_sync))) as Hproj.
    { eapply (node_projection _ _ _ _ _ _ _ _ _ _ policy_sync); [|exact Hrun]. intros ???? Hs.
      by apply step_tables in Hs as [_ ?]. }
    destruct (simulation _ _ _ _ n.(policy_sync) (PolicyTable.mkPolicyTable 0 ∅ ∅) (omap sag_frame es)
      (PolicyTable.policy_simulate cfg.(mc_trust_domain) cap_exact cap_wildcard) Hfp) as [Hout [_ [He _] [Hw _] _ _]].
    { rewrite Hp0. split; simpl; rewrite ?dom_empty_L; try done. split; apply Nat.le_0_l. }
    rewrite Hproj in Hout, He, Hw. by split_and!.
Qed.
End tables.

(** ** Witnesses: a node that gets routes and a policy, boots and probes "web",
    drops it and takes it back *)

Import Workloads.Sample.
#[local] Existing Instance Policy.sample_compiler.

(** A control plane that grants a key for the workload asked for. *)
Definition grant_key (q : DelegatedKeyRequest) : M AgentError Z DelegatedKeyResponse :=
  λ s, (Ok (mkKeyResponse (as_bytes q.(req_target_spiffe_id)) (as_bytes "d")), s + 1).
Definition granted_wire (b : bytes) : result string (DelegatedSigningKey (H := sample_core)) :=
  if decide (b = as_bytes "t/web")
  then Ok (mkKey ("sys", "node") ("t", "web") None 0 15400 (as_bytes "k") (as_bytes "ca") None) else Err "no key".

#[local] Notation on_running_node op := (op node_vmm (λ _, Ok []) (λ (_ : gmap string bytes) p, Ok (as_bytes p)) (λ b, b)
  granted_wire grant_key (λ (_ : list PodEvent), λ n : nat, (Ok tt, Datatypes.S n)) node_cfg ProbeLoopConfig_default "a") (only parsing).

Definition live_manager : WorkloadManager (H := sample_core) (D := gset string) (F := gmap string bytes) (W := unit)
    (V := list VmConfig) (G := nat) (R := capmap Z bytes) (A := VsockAttestServer) (T := capmap Z (list PodNetCounters))
    (S := Z) (Ev := nat) (C := Z) :=
  mkManager (H := sample_core) (new_lazy "" ∅ ∅) tt [] ∅ (VsockCidAllocator_new 3) (Some O) ∅ (Some identities0) block0 ∅
    (Some (0, ∅)) None (Some ∅) (Some VsockAttestServer_new) None 0.
Definition fresh_node := mkNode live_manager [] [] [] (RouteSyncState_new, (mkCapmap 4 ∅ : routes_map, mkCapmap 4 ∅ : locals_map))
  (Policy.PolicySyncState_new, (mkCapmap 4 ∅ : capmap bytes bytes, mkCapmap 4 ∅ : capmap bytes bytes)) [] (PodEventReporter_new "a" O 100).

Definition probed_pod : PodSpec :=
  mkPodSpec None "t" "web" "primary" [] [] [] None None (Some (mkProbeSet (Some sample_tcp_probe) None None)).
Definition web_frame (v : Z) : ScheduleUpdate PodSpec :=
  mkSchedule v [mkAssignment "web" "containerd" "img" "primary" (Some probed_pod) "web"].
Definition web_booted : list node_event :=
  [RouteFrame update1; SagFrame Policy.sag1; ScheduleFrame (web_frame 1); ScheduleStep; DelegationTick 5; ScheduleStep; ScheduleStep].
Definition run_from n es := on_running_node node_run n es.
Definition node_from n es := default n (snd <$> run_from n es).
Definition outs_from n es := default [] (fst <$> run_from n es).
Lemma run_from_some n es : is_some (run_from n es) = true →
  on_running_node node_run n es = Some (outs_from n es, node_from n es).
Proof. unfold outs_from, node_from, run_from. by destruct (on_running_node node_run n es) as [[]|]. Qed.
Abbreviation run_node := (run_from fresh_node).
(** The node at the end of a run that is possible. *)
Abbreviation node_after := (node_from fresh_node).
Abbreviation outs_of := (outs_from fresh_node).
Abbreviation run_node_some := (run_from_some fresh_node).

Lemma fresh_node_wf : node_wf fresh_node.
Proof. by apply no_pods_wf. Qed.
Lemma fresh_keys_granted : keys_granted granted_wire grant_key fresh_node.(manager).(delegation).
Proof.
  intros s keys [= <- <-]. split; [intros t e He|intros t e He]; by rewrite lookup_empty in He.
Qed.

Lemma schedule_atomic_witness :
  ∃ k, (k ≤ 3)%nat ∧ is_some (run_node (ScheduleFrame (web_frame 1) :: replicate k ScheduleStep)) = true.
Proof.
  destruct (on_running_node schedule_atomic fresh_node (web_frame 1) eq_refl) as (k & outs & Hk & Hrun).
  exists k. split; [exact Hk|]. by rewrite (Hrun : run_from _ _ = _).
Defined.

Lemma probed_iff_active_witness :
  state <$> n_pods (node_after web_booted) !! "web" = Some Booting ∧
  ∀ rs, n_runners (node_after web_booted) = Some rs → is_Some (rs !! "web").
Proof.
  assert (state <$> n_pods (node_after web_booted) !! "web" = Some Booting) as Hst by (by vm_compute).
  split; [exact Hst|]. intros rs Hrs.
  destruct (on_running_node probed_iff_active fresh_node web_booted (outs_of web_booted) (node_after web_booted)
    fresh_node_wf (run_node_some web_booted ltac:(by vm_compute))) as [_ Hp].
  refine (proj2 (Hp rs "web" Hrs ltac:(by vm_compute)) _). apply fmap_Some in Hst as (p & Hweb & Hst).
  exists p. split; [exact Hweb|]. unfold active. rewrite <-Hst. split; discriminate.
Defined.

(** A frame that assigns nothing, taken while "web" runs. *)
Definition web_dropped : list node_event := web_booted ++ [ScheduleFrame (mkSchedule 2 []); ScheduleStep].

Lemma node_follows_schedule_witness :
  state <$> n_pods (node_after web_dropped) !! "web" = Some Terminating ∧
  ∀ id p, n_pods (node_after web_dropped) !! id = Some p → active p → EvictBegin id ∈ (node_after web_dropped).(todo).
Proof.
  split; [by vm_compute|]. intros id p Hp Ha.
  destruct (on_running_node node_follows_schedule fresh_node web_dropped (outs_of web_dropped) (node_after web_dropped)
    (mkSchedule 2 []) (wf_keyed _ _ _ fresh_node_wf) (run_node_some web_dropped ltac:(by vm_compute)) eq_refl id p Hp Ha)
    as [(x & Hx & _)|[Hin _]]; [inversion Hx|exact Hin].
Defined.

Definition frame_taken : NodeState := node_after (web_booted ++ [ScheduleFrame (mkSchedule 2 [])]).
Lemma schedule_progress_witness :
  frame_taken.(todo) = [EvictBegin "web"] ∧
  (work_cost (node_from frame_taken [ScheduleStep; FlushTick; ScheduleStep]).(todo) ≤ 2)%nat.
Proof.
  split; [by vm_compute|].
  set (es := [ScheduleStep; FlushTick; ScheduleStep]).
  assert (is_some (run_from frame_taken es) = true) as Hok by (by vm_compute).
  assert (work_cost frame_taken.(todo) = 4%nat) as E1 by (vm_compute; reflexivity).
  assert (length (filter is_schedule_step es) = 2%nat) as E2 by (vm_compute; reflexivity).
  pose proof (proj1 (on_running_node schedule_progress frame_taken es (outs_from frame_taken es) (node_from frame_taken es)
    (run_from_some frame_taken es Hok) eq_refl)) as Hle.
  rewrite E1, E2 in Hle. clear -Hle. lia.
Defined.

(** The pod is recorded, then a policy is accepted and a frame that routes all
    it depends on applied. *)
Definition web_starting : NodeState := node_after (take 5 web_booted).
Definition gate_events : list node_event := [ScheduleStep; SagFrame Policy.sag2; RouteFrame update2].

Lemma gates_since_boot_witness :
  ∃ outs p, outs_from web_starting (ScheduleStep :: gate_events) = Recorded "web" :: outs ∧
    n_pods (node_from web_starting (ScheduleStep :: gate_events)) !! "web" = Some p ∧
    p.(policy_enforced) = existsb policy_in outs ∧ existsb policy_in outs = true.
Proof.
  set (out := outs_from web_starting (ScheduleStep :: gate_events)).
  assert (out = Recorded "web" :: tail out ∧ Recorded "web" ∉ tail out ∧ existsb policy_in (tail out) = true) as (Ho & Hno & Hpol).
  { split; [by vm_compute|]. split; [|by vm_compute]. vm_compute. set_solver. }
  assert (is_some (n_pods (node_from web_starting (ScheduleStep :: gate_events)) !! "web") = true) as Hweb by (by vm_compute).
  destruct (n_pods (node_from web_starting (ScheduleStep :: gate_events)) !! "web") as [p|] eqn:Hp; [|discriminate Hweb].
  exists (tail out), p. split; [exact Ho|]. split; [reflexivity|]. split; [|exact Hpol].
  eapply (on_running_node gates_since_boot web_starting ScheduleStep gate_events (tail out)); [|exact Hno|exact Hp].
  rewrite <-Ho. apply (run_from_some web_starting). by vm_compute.
Defined.

Definition guest_build (keys : gmap SpiffeId DelegatedKeyEntry) :=
  build sample_sign (mkBuilder (H := sample_core) "td" (node_after web_booted).(handed_routes) keys 60)
    (mkContext probed_pod [] [] []) 100 O.
Lemma guest_config_granted_witness :
  ∃ s keys config, (node_after web_booted).(manager).(delegation) = Some (s, keys) ∧
    (guest_build keys).1 = Ok config ∧
    config.(dummy_ip_routes) = dummy_routes update1.(routes) ∧ config.(svid_cert_chain_der) ≠ [].
Proof.
  assert (match (node_after web_booted).(manager).(delegation) with
          | Some (_, keys) => match (guest_build keys).1 with
                              | Ok config => negb (bool_decide (config.(svid_cert_chain_der) = [])) | Err _ => false end
          | None => false end = true) as Hok by (vm_compute; reflexivity).
  destruct ((node_after web_booted).(manager).(delegation)) as [[s keys]|] eqn:Hd; [|discriminate Hok].
  destruct (guest_build keys) as [[config|e] x'] eqn:Hb; [|discriminate Hok]. cbn [fst] in Hok.
  exists s, keys, config. split; [reflexivity|]. split; [rewrite Hb; reflexivity|]. split.
  - apply (on_running_node guest_config_granted sample_sign fresh_node web_booted (outs_of web_booted) (node_after web_booted)
      s keys 60 (mkContext probed_pod [] [] []) 100 O config x' fresh_keys_granted
      (run_node_some web_booted ltac:(by vm_compute)) Hd Hb).
  - apply negb_true_iff, bool_decide_eq_false in Hok. exact Hok.
Defined.

(** The frames of a longer run take at most half of the maps. *)
Definition full_run : list node_event := web_booted ++ [SagFrame Policy.sag2; RouteFrame update2; SagFrame Policy.sag3].
Definition sag_sizes (u : Policy.SagUpdate) : nat * nat :=
  match PolicyTable.compiled "td" u with
  | Ok es => (size (list_to_set (Policy.exact_table es).*1 : gset bytes), size (list_to_set (Policy.wildcard_table es).*1 : gset bytes))
  | Err _ => (0, 0)%nat
  end.
Lemma route_frames_fit : Forall (RouteTable.fits (own_node node_cfg "a") 4 4) (omap route_frame full_run).
Proof.
  assert (Forall (λ u, 2 * (RouteTable.decoded_sizes u).1 ≤ 4 ∧ 2 * (RouteTable.decoded_sizes u).2 ≤ 4)%nat
    (omap route_frame full_run)) as Hs by (apply (bool_decide_unpack _); vm_compute; exact I).
  eapply Forall_impl; [exact Hs|]. intros u Hu ds Hds. unfold RouteTable.decoded_sizes in Hu. rewrite Hds in Hu. exact Hu.
Qed.
Lemma sag_frames_fit : Forall (PolicyTable.policy_fits "td" 4 4) (omap sag_frame full_run).
Proof.
  assert (Forall (λ u, 2 * (sag_sizes u).1 ≤ 4 ∧ 2 * (sag_sizes u).2 ≤ 4)%nat (omap sag_frame full_run)) as Hs
    by (apply (bool_decide_unpack _); vm_compute; exact I).
  eapply Forall_impl; [exact Hs|]. intros u Hu ds Hds. unfold sag_sizes in Hu. rewrite Hds in Hu. exact Hu.
Qed.

Lemma node_tables_refine_witness :
  omap route_answer (outs_of full_run) = [Applied; Applied] ∧
  is_ok <$> omap sag_answer (outs_of full_run) = [true; true; false] ∧
  (node_after full_run).(route_sync).2.1.(contents) =
    (run (RouteTable.table_step node_a) (RouteTable.mkTable 0 ∅ ∅) [update1; update2]).2.(RouteTable.rt_routes).
Proof.
  split; [vm_compute; reflexivity|]. split; [vm_compute; reflexivity|].
  apply (on_running_node node_tables_refine 4 4 4 4 fresh_node full_run (outs_of full_run) (node_after full_run)
    (conj eq_refl eq_refl) (run_node_some full_run ltac:(by vm_compute)) route_frames_fit sag_frames_fit).
Defined.

(** ** Races and gaps *)

(** A check that passed before "web" was evicted is processed after it was
    booted again: the new pod is running although none of its probes ran. *)
Definition stale_result : list node_event :=
  web_booted ++ [ProbeTick (λ _ _ _, true) 20000; ScheduleFrame (mkSchedule 2 []); ScheduleStep; ScheduleStep; ScheduleStep;
    ScheduleStep; ScheduleFrame (web_frame 3); ScheduleStep; ScheduleStep; ScheduleStep; ProbeResult 30].
Example stale_result_starts_pod :
  state <$> n_pods (node_after stale_result) !! "web" = Some Running ∧
  (all_passing <$> (default ∅ (n_runners (node_after stale_result))) !! "web") = Some false.
Proof. split; vm_compute; reflexivity. Qed.

(** The pod of [web_booted] was booted after the frames that opened the gates. *)
Example late_pod_gated :
  (λ p, (started p, policy_enforced p, router_connected p)) <$> n_pods (node_after web_booted) !! "web" =
    Some (true, false, false).
Proof. vm_compute. reflexivity. Qed.
