(* ===== verification/NodeConverge.v ===== *)
(** The running node reaches what a schedule frame asks for: every workload it
    assigns gets an active pod unless its own boot fails, every other pod is
    given up, in a bounded number of steps of the schedule task, whatever the
    other tasks do in between. *)
From S2P Require Import Prelude Simulation Errors Core Routes IpAllocator Degraded Counters Pods.
From S2P Require Import Probes Volumes Netns Containerd MicroVm Attest PodEvents Workloads Wiring WatchLoops.
From S2P Require Import Node NodeInvariants.
From S2P Require AgentTasks Policy.

Section converge.
Context `{FleetCore} {OS : HashOrder string} {OZ : HashOrder Z} {OB : HashOrder bytes} {OI : HashOrder SpiffeId}.
Context {D F W V G R A T S Ev C : Type}.
Context `{ContainerdServices D} `{FileSystem F} `{Directories F} `{Shell W} `{NetGuard G}
  `{SrcIdentityRegistry R} `{AttestationRegistrar A} `{!KernelMap T Z (list PodNetCounters)} `{Clock C}.
Context {RD RL PT : Type} `{!KernelMap RD Z bytes} `{!KernelMap RL bytes Z} `{!KernelMap PT bytes bytes}.
Context `{Policy.PolicyCompiler}.
Context (vmm : string → VmmClient V).
Context (to_vec : Json → result string bytes).
Context (file_read : F → string → result string bytes) (blake3 : bytes → bytes).
Context (wire_from_bytes : bytes → result string DelegatedSigningKey)
        (request_delegated_key : DelegatedKeyRequest → M AgentError S DelegatedKeyResponse).
Context (report_pod_events : list PodEvent → M string Ev unit).
Context (cfg : ManagerConfig) (loop_cfg : ProbeLoopConfig).
Context (node_name : string).
#[local] Abbreviation Manager := (WorkloadManager (D := D) (F := F) (W := W) (V := V) (G := G) (R := R) (A := A) (T := T)
  (S := S) (Ev := Ev) (C := C)).
#[local] Abbreviation State := (NodeState (D := D) (F := F) (W := W) (V := V) (G := G) (R := R) (A := A) (T := T)
  (S := S) (Ev := Ev) (C := C) (RD := RD) (RL := RL) (PT := PT)).
#[local] Abbreviation node_step := (node_step vmm to_vec file_read blake3 wire_from_bytes request_delegated_key
  report_pod_events cfg loop_cfg node_name).
#[local] Abbreviation node_run := (node_run vmm to_vec file_read blake3 wire_from_bytes request_delegated_key
  report_pod_events cfg loop_cfg node_name).
#[local] Abbreviation do_action := (do_action vmm to_vec file_read blake3 wire_from_bytes request_delegated_key
  report_pod_events cfg).
#[local] Abbreviation act := (act vmm to_vec file_read blake3 wire_from_bytes request_delegated_key report_pod_events cfg).
#[local] Abbreviation start_pod := (start_pod vmm to_vec file_read blake3 wire_from_bytes request_delegated_key cfg).
Implicit Types (n : State) (m : Manager) (pods : gmap string Pod) (specs failed : list (WorkloadSpec PodSpec)).

(** ** What a run may leave without a pod *)

(** The workload [w] has, or may get, its pod under [id]: an active one when the
    frame arrives, or that of an assignment. *)
Definition names specs pods (id w : string) : Prop :=
  (∃ p, pods !! id = Some p ∧ active p ∧ p.(workload_id) = w) ∨
  ∃ s ps, s ∈ specs ∧ s.(spec_pod_spec) = Some ps ∧ pod_id_of s ps = id ∧ s.(spec_workload_id) = w.
(** An assignment of another workload is booted under a pod id of [w]: [add_pod]
    inserts it over the pod that is there. *)
Definition contested specs pods (w : string) : Prop :=
  ∃ s ps, s ∈ (reconcile specs pods).(to_boot) ∧ s.(spec_pod_spec) = Some ps ∧
    s.(spec_workload_id) ≠ w ∧ names specs pods (pod_id_of s ps) w.

(** The boots that fail along a run. *)
Definition step_failed n (e : node_event) : list (WorkloadSpec PodSpec) :=
  match e, n.(todo) with
  | ScheduleStep, BootStart spec :: _ => if is_ok (start_pod spec n.(manager)).1 then [] else [spec]
  | _, _ => []
  end.
Fixpoint boots_failed n (es : list node_event) : list (WorkloadSpec PodSpec) :=
  match es with
  | [] => []
  | e :: es => match node_step n e with
               | Some (_, n1) => step_failed n e ++ boots_failed n1 es
               | None => []
               end
  end.

(** ** The workloads on their way *)

Definition evicts (b : action) : option string :=
  match b with
  | EvictBegin id | EvictUnprobe id _ _ | EvictStop id _ _ | EvictRemove id => Some id
  | _ => None
  end.
(** A specification whose boot is still to come, or whose pod is to be recorded. *)
Definition booting (work : list action) (spec : WorkloadSpec PodSpec) : Prop :=
  BootStart spec ∈ work ∨ ∃ p, BootAdd spec p ∈ work.
Definition hosted pods (w : string) : Prop := ∃ id p, pods !! id = Some p ∧ active p ∧ p.(workload_id) = w.

(** The evictions of a frame come before its boots. *)
Definition evictions_first (work : list action) : Prop :=
  ∃ es bs, work = es ++ bs ∧ Forall (λ b, evicts b ≠ None) es ∧ Forall (λ b, evicts b = None) bs.

(** [pods0] are the pods the frame found. *)
Record provides specs (pods0 : gmap string Pod) failed (work : list action) pods : Prop := mkProvides {
  pv_order : evictions_first work;
  pv_names id p : pods !! id = Some p → active p → names specs pods0 id p.(workload_id);
  pv_start spec : BootStart spec ∈ work → spec ∈ (reconcile specs pods0).(to_boot);
  pv_add spec p : BootAdd spec p ∈ work →
    spec ∈ (reconcile specs pods0).(to_boot) ∧ spec.(spec_pod_spec) = Some p.(st_pod_spec);
  pv_evict b id p spec : b ∈ work → evicts b = Some id → pods !! id = Some p → spec ∈ specs →
    p.(workload_id) ≠ spec.(spec_workload_id);
  pv_specs spec : spec ∈ specs →
    hosted pods spec.(spec_workload_id) ∨ booting work spec ∨ spec ∈ failed ∨ contested specs pods0 spec.(spec_workload_id);
}.

Lemma frame_provides specs pods :
  keyed pods → let r := reconcile specs pods in
  provides specs pods [] ((EvictBegin <$> r.(to_evict)) ++ (BootStart <$> r.(to_boot))) pods.
Proof.
  intros Hk r. split.
  - eexists _, _. split; [done|]. by split; apply Forall_fmap, Forall_true.
  - intros id p Hp Ha. left. by exists p.
  - by intros spec [(? & [=] & _)%list_elem_of_fmap|(? & [= <-] & Hin)%list_elem_of_fmap]%elem_of_app.
  - intros spec p [(? & [=] & _)%list_elem_of_fmap|(? & [=] & _)%list_elem_of_fmap]%elem_of_app.
  - intros b id p spec [(? & -> & Hin)%list_elem_of_fmap|(? & -> & _)%list_elem_of_fmap]%elem_of_app; [|done].
    intros [= ->] Hp Hspec. apply elem_of_to_evict_keyed in Hin as (q & Hq & _ & Hno); [|done].
    rewrite Hp in Hq. injection Hq as <-. intros Heq. by apply (Hno spec Hspec).
  - intros spec Hspec. destruct (decide (spec.(spec_workload_id) ∈ workload_id <$> filter active (all_pods pods))) as [Hin|Hno].
    + apply list_elem_of_fmap in Hin as (p & Hw & [Ha (id & Hp)%elem_of_all_pods]%list_elem_of_filter). left. by exists id, p.
    + right. left. left. apply elem_of_app. right. apply list_elem_of_fmap_2, elem_of_to_boot. split; [done|].
      intros id p Hp Ha Hw. apply Hno. rewrite <-Hw. apply list_elem_of_fmap_2, list_elem_of_filter. split; [done|].
      apply elem_of_all_pods. by exists id.
Qed.

Lemma hosted_same pods pods' w : same_pods pods pods' → hosted pods w → hosted pods' w.
Proof.
  intros Hs (id & p & Hp & Ha & Hw). destruct (same_pods_fwd _ _ _ _ Hs Hp) as (q & Hq & [_ [Hw' _] _ Ha']).
  exists id, q. split; [done|]. split; [by apply Ha'|congruence].
Qed.
Lemma provides_same specs pods0 failed work pods pods' :
  same_pods pods pods' → provides specs pods0 failed work pods → provides specs pods0 failed work pods'.
Proof.
  intros Hs [Hor Hn Hst Ha He Hsp]. split; try done.
  - intros id q Hq Hact. destruct (same_pods_inv _ _ _ _ Hs Hq) as (p & Hp & [_ [-> _] _ Hactive]).
    by apply Hn, Hactive.
  - intros b id q spec Hb Hid Hq. destruct (same_pods_inv _ _ _ _ Hs Hq) as (p & Hp & [_ [-> _] _ _]). by eapply He.
  - intros spec Hin. destruct (Hsp spec Hin) as [Hh|?]; [left; by eapply hosted_same|by right].
Qed.

Lemma start_pod_spec spec m p m' : start_pod spec m = (Ok p, m') → spec.(spec_pod_spec) = Some p.(st_pod_spec).
Proof.
  rewrite start_pod_flat. intros (ps & ? & [Hps%ok_or_ok _]%lift_ok & Hrun)%M_bind_ok.
  revert Hrun. by intros (? & ? & _ & (? & ? & _ & (? & ? & _ & (? & ? & _ & (? & ? & _ & (? & ? & _ &
    (? & ? & _ & [= <- _])%M_bind_ok)%M_bind_ok)%M_bind_ok)%M_bind_ok)%M_bind_ok)%M_bind_ok)%M_bind_ok.
Qed.

(** An action that evicts none of a workload's pods leaves it hosted, or records
    another workload's pod over its own. *)
Lemma hosted_after b pods pods' w :
  pods_after b pods pods' → (∀ id p, evicts b = Some id → pods !! id = Some p → p.(workload_id) ≠ w) →
  hosted pods w →
  hosted pods' w ∨ ∃ spec st p, b = BootAdd spec st ∧ spec.(spec_workload_id) ≠ w ∧
    pods !! pod_id_of spec st.(st_pod_spec) = Some p ∧ active p ∧ p.(workload_id) = w.
Proof.
  intros Hpods Hev (id & p & Hp & Ha & Hw).
  assert (pods' !! id = pods !! id → hosted pods' w) as Hkeep by (intros Heq; exists id, p; by rewrite Heq).
  assert (∀ k, evicts b = Some k → id ≠ k) as Hne by (intros k Hk ->; by apply (Hev k p Hk)).
  destruct b as [k|k rt h|k rt h|k|spec|spec st|k ps now_ms]; cbn [pods_after] in Hpods;
    try (left; subst pods'; by apply Hkeep).
  - left. apply Hkeep. subst pods'. apply lookup_alter_ne. symmetry. by apply Hne.
  - left. apply Hkeep. subst pods'. apply lookup_delete_ne. symmetry. by apply Hne.
  - destruct Hpods as [t Hpods]. cbn zeta in Hpods. set (k := pod_id_of spec st.(st_pod_spec)) in *.
    destruct (decide (spec.(spec_workload_id) = w)) as [Hs|Hs].
    + left. exists k, (booted_pod k spec st.(st_pod_spec) st.(st_fp) st.(st_handle) t). subst pods'. rewrite lookup_insert_eq.
      split; [done|]. by split; [split|].
    + destruct (decide (k = id)) as [<-|Hk]; [right; by exists spec, st, p|].
      left. apply Hkeep. subst pods'. by rewrite lookup_insert_ne.
Qed.

Lemma next_evicts b pods next b' : next_of b pods next → b' ∈ next → evicts b' = evicts b.
Proof.
  intros Hn Hb. destruct b; cbn in Hn; repeat (destruct_or?; destruct_and?; try match goal with H : ∃ _, _ |- _ => destruct H end); subst;
    first [by apply not_elem_of_nil in Hb|by apply list_elem_of_singleton in Hb as ->].
Qed.
(** A boot goes on to record its pod, or it has failed. *)
Definition action_failed b m : list (WorkloadSpec PodSpec) :=
  match b with BootStart spec => if is_ok (start_pod spec m).1 then [] else [spec] | _ => [] end.
Lemma start_next spec m next m' : act (BootStart spec) m = (next, m') →
  (spec ∈ action_failed (BootStart spec) m ∧ next = []) ∨
  ∃ p, next = [BootAdd spec p] ∧ spec.(spec_pod_spec) = Some p.(st_pod_spec).
Proof.
  unfold Node.act. cbn [do_action action_failed]. unfold mbind, M_bind. destruct (start_pod spec m) as [[p|e] m1] eqn:Hs.
  - intros [= <- _]. right. exists p. split; [done|]. by eapply start_pod_spec.
  - intros [= <- _]. left. split; [by left|done].
Qed.

Lemma order_action b rest pods next :
  evictions_first (b :: rest) → next_of b pods next → evictions_first (next ++ rest).
Proof.
  intros (es & bs & Hwork & He & Hb) Hn.
  assert (Forall (λ b', evicts b' = evicts b) next) as Hnext.
  { apply Forall_forall. intros b' Hin. by eapply next_evicts. }
  destruct es as [|e es]; simpl in Hwork.
  - subst bs. inversion Hb as [|?? Hb1 Hb2]; subst. exists [], (next ++ rest). split; [done|]. split; [done|].
    apply Forall_app. split; [|done]. eapply Forall_impl; [exact Hnext|]. intros b' ->. done.
  - injection Hwork as -> ->. inversion He as [|?? He1 He2]; subst. exists (next ++ es), bs. rewrite app_assoc.
    split; [done|]. split; [|done]. apply Forall_app. split; [|done].
    eapply Forall_impl; [exact Hnext|]. intros b' ->. done.
Qed.
(** Once a boot is next, no eviction is left. *)
Lemma order_booting b rest b' : evictions_first (b :: rest) → evicts b = None → b' ∈ rest → evicts b' = None.
Proof.
  intros (es & bs & Hwork & He & Hb) Hev Hin. destruct es as [|e es]; simpl in Hwork.
  - subst bs. inversion Hb as [|?? _ Hb2]; subst. rewrite Forall_forall in Hb2. by apply Hb2.
  - injection Hwork as -> _. by inversion He.
Qed.

(** What [next] puts before the rest. *)
Lemma boots_next b m next m' spec p :
  act b m = (next, m') → BootAdd spec p ∈ next → b = BootStart spec ∧ spec.(spec_pod_spec) = Some p.(st_pod_spec).
Proof.
  intros Hact Hin. pose proof Hact as (_ & _ & Hnext)%act_effect.
  destruct (next_of_elem _ _ _ _ Hnext Hin) as [_ ->]. split; [done|].
  apply start_next in Hact as [[_ ->]|(p' & -> & Hps)]; [by apply not_elem_of_nil in Hin|].
  apply list_elem_of_singleton in Hin. by injection Hin as <-.
Qed.
(** The evictions left are still of pods of no assigned workload: no boot comes
    before them. *)
Lemma evict_kept specs pods0 failed b rest pods pods' b' id q spec :
  provides specs pods0 failed (b :: rest) pods → pods_after b pods pods' → b' ∈ b :: rest ∨ evicts b' = evicts b →
  evicts b' = Some id → pods' !! id = Some q → spec ∈ specs → q.(workload_id) ≠ spec.(spec_workload_id).
Proof.
  intros Hp Hpods Hb' Hid Hq Hspec.
  assert (∃ b2, b2 ∈ b :: rest ∧ evicts b2 = Some id) as (b2 & Hb2 & Hid2).
  { destruct Hb' as [Hin|Heq]; [by exists b'|]. exists b. split; [left|congruence]. }
  assert (∀ p, pods !! id = Some p → p.(workload_id) = q.(workload_id) → q.(workload_id) ≠ spec.(spec_workload_id)) as Hgo
    by (intros p Hp0 <-; by eapply (pv_evict _ _ _ _ _ Hp b2 id)).
  destruct b as [k|k rt h|k rt h|k|s|s st|k ps now_ms]; cbn [pods_after] in Hpods; try (subst pods'; by eapply Hgo).
  - subst pods'. destruct (decide (k = id)) as [<-|Hk]; [|rewrite lookup_alter_ne in Hq by done; by eapply Hgo].
    rewrite lookup_alter_eq in Hq. apply fmap_Some in Hq as (p & Hp0 & ->). apply (Hgo p Hp0).
    unfold begin_eviction. by destruct (state p).
  - subst pods'. apply lookup_delete_Some in Hq as [_ Hq]. by eapply Hgo.
  - apply elem_of_cons in Hb2 as [->|Hb2]; [done|].
    pose proof (order_booting _ _ _ (pv_order _ _ _ _ _ Hp) eq_refl Hb2). congruence.
Qed.
Lemma names_after specs pods0 failed b rest pods pods' id q :
  provides specs pods0 failed (b :: rest) pods → pods_after b pods pods' →
  pods' !! id = Some q → active q → names specs pods0 id q.(workload_id).
Proof.
  intros Hp Hpods Hq Ha. pose proof (pv_names _ _ _ _ _ Hp) as Hn.
  destruct b as [k|k rt h|k rt h|k|s|s st|k ps now_ms]; cbn [pods_after] in Hpods; try (subst pods'; by apply Hn).
  - subst pods'. destruct (decide (k = id)) as [<-|Hk]; [|rewrite lookup_alter_ne in Hq by done; by apply Hn].
    rewrite lookup_alter_eq in Hq. apply fmap_Some in Hq as (p & _ & ->). by apply begin_eviction_inactive in Ha.
  - subst pods'. apply lookup_delete_Some in Hq as [_ Hq]. by apply Hn.
  - destruct Hpods as [t ->]. apply lookup_insert_Some in Hq as [[<- <-]|[_ Hq]]; [|by apply Hn]. right.
    destruct (pv_add _ _ _ _ _ Hp s st ltac:(by left)) as [[Hs _]%elem_of_to_boot Hps]. by exists s, st.(st_pod_spec).
Qed.

Lemma provides_action specs pods0 failed b rest m next m' :
  provides specs pods0 failed (b :: rest) m.(pod_manager) → act b m = (next, m') →
  provides specs pods0 (failed ++ action_failed b m) (next ++ rest) m'.(pod_manager).
Proof.
  intros Hp Hact. pose proof Hact as (Hpods & _ & Hnext)%act_effect. pose proof Hp as [Hor Hn Hst Hadd Hev Hsp]. split.
  - by eapply order_action.
  - intros id q Hq Ha. by eapply names_after.
  - intros spec [Hin|Hin]%elem_of_app; [|by apply Hst; right]. by destruct (next_of_elem _ _ _ _ Hnext Hin) as [[] _].
  - intros spec p [Hin|Hin]%elem_of_app; [|by apply (Hadd spec p); right].
    destruct (boots_next _ _ _ _ _ _ Hact Hin) as [-> Hps]. by split; [apply Hst; left|].
  - intros b' id q spec Hin. eapply evict_kept; [exact Hp|exact Hpods|].
    apply elem_of_app in Hin as [Hin|Hin]; [right; by eapply next_evicts|left; by right].
  - intros spec Hspec. destruct (Hsp spec Hspec) as [Hh|[Hb|[Hf|Hc]]].
    + destruct (hosted_after _ _ _ _ Hpods (λ id p He Hlook, Hev b id p spec ltac:(left) He Hlook Hspec) Hh)
        as [?|(s & st & p & Hb & Hw & Hlook & Ha & Hpw)]; [by left|].
      destruct (Hadd s st ltac:(rewrite Hb; left)) as [Hs Hps]. right. right. right.
      exists s, st.(st_pod_spec). split_and!; [done..|]. rewrite <-Hpw. by apply Hn.
    + destruct Hb as [Hin|[p Hin]]; apply elem_of_cons in Hin as [Hin|Hin].
      * subst b. apply start_next in Hact as [[Hf ->]|(p & -> & _)].
        -- right. right. left. apply elem_of_app. by right.
        -- right. left. right. exists p. by left.
      * right. left. left. apply elem_of_app. by right.
      * subst b. left. destruct Hpods as [t Hpods]. cbn zeta in Hpods. eexists _, _. rewrite Hpods, lookup_insert_eq.
        split; [done|]. by split.
      * right. left. right. exists p. apply elem_of_app. by right.
    + right. right. left. apply elem_of_app. by left.
    + by do 3 right.
Qed.

Lemma converge_run specs pods0 failed n es outs n' :
  provides specs pods0 failed n.(todo) (n_pods n) → follows specs n.(todo) (n_pods n) →
  node_run n es = Some (outs, n') → schedule_frames es = [] →
  provides specs pods0 (failed ++ boots_failed n es) n'.(todo) (n_pods n') ∧ follows specs n'.(todo) (n_pods n').
Proof.
  revert n failed outs. induction es as [|e es IH]; intros n failed outs Hp Hf.
  { intros [= _ <-] _. cbn. by rewrite app_nil_r. }
  intros (out & outs' & n1 & Hs & Hrun & ->)%node_run_cons Hno. cbn [boots_failed]. rewrite Hs, app_assoc.
  assert (schedule_frames es = []) as Hno' by by destruct e.
  assert (provides specs pods0 (failed ++ step_failed n e) n1.(todo) (n_pods n1) ∧ follows specs n1.(todo) (n_pods n1)) as [Hp1 Hf1];
    [|by eapply IH].
  assert (other_event e → provides specs pods0 (failed ++ step_failed n e) n1.(todo) (n_pods n1) ∧ follows specs n1.(todo) (n_pods n1)) as Hother.
  { intros Ho. destruct (other_step _ _ _ _ _ _ _ _ _ _ _ _ _ _ Hs Ho) as (-> & Hsame & _).
    assert (step_failed n e = []) as -> by by destruct e. rewrite app_nil_r.
    split; [by eapply provides_same|by eapply follows_same]. }
  destruct e as [u| |?|?|?|?|?| |]; try by apply Hother.
  cbn [Node.node_step] in Hs. destruct (todo n) as [|b rest] eqn:Ht; [done|]. rewrite work_step_act in Hs.
  injection Hs as _ <-. destruct (act b (manager n)) as [next m'] eqn:Ha. cbn [todo n_pods fst snd manager]. split.
  - assert (step_failed n ScheduleStep = action_failed b n.(manager)) as ->; [|by eapply provides_action].
    unfold step_failed. rewrite Ht. by destruct b.
  - apply act_effect in Ha as (Hpods & _ & Hnext). by eapply follows_action.
Qed.

(** C1: The node reaches what it is asked for.  From a schedule frame on that is
    taken by an idle schedule task, every pod filed under its own id, until the
    next one, however the other tasks interleave and whatever fails: the task is
    back at its await after at most four steps per eviction and three per boot,
    and can always take the next of them; when it is, every active pod belongs to
    a workload the frame assigns, and every workload it assigns has an active
    pod, except those whose own boot failed in the meantime and those under whose
    pod id the frame has another workload booted ([contested]: that pod replaces
    theirs).  Probes, route and policy frames, key refreshes and failing
    evictions of other workloads never take a pod away. *)
Theorem node_converges n u es outs n' :
  let specs := schedule_specs u.(assignments) in
  n.(todo) = [] → keyed (n_pods n) →
  node_run n (ScheduleFrame u :: es) = Some (outs, n') → schedule_frames es = [] →
  let r := reconcile specs (n_pods n) in
  (length (filter is_schedule_step es) + work_cost n'.(todo) ≤ 4 * length r.(to_evict) + 3 * length r.(to_boot))%nat ∧
  (n'.(todo) ≠ [] → ∃ out n2, node_step n' ScheduleStep = Some (out, n2)) ∧
  (n'.(todo) = [] →
     (∀ id p, n_pods n' !! id = Some p → active p → ∃ spec, spec ∈ specs ∧ spec.(spec_workload_id) = p.(workload_id)) ∧
     ∀ spec, spec ∈ specs →
       (∃ id p, n_pods n' !! id = Some p ∧ active p ∧ p.(workload_id) = spec.(spec_workload_id)) ∨
       spec ∈ boots_failed n (ScheduleFrame u :: es) ∨
       contested specs (n_pods n) spec.(spec_workload_id)).
Proof.
  intros specs Hidle Hk Hrun Hno r. pose proof Hrun as (out & outs' & n1 & Hstep & Hrun1 & _)%node_run_cons.
  assert (n1.(todo) = (EvictBegin <$> r.(to_evict)) ++ (BootStart <$> r.(to_boot)) ∧ n_pods n1 = n_pods n) as [Ht Hn1].
  { cbn [Node.node_step] in Hstep. rewrite Hidle in Hstep. by injection Hstep as _ <-. }
  pose proof (frame_provides specs (n_pods n) Hk) as Hp. pose proof (frame_follows specs (n_pods n) Hk) as Hf.
  cbn zeta in Hp. fold r in Hp, Hf. rewrite <-Ht in Hp, Hf. rewrite <-Hn1 in Hf. rewrite <-Hn1 in Hp at 2.
  destruct (converge_run _ _ _ _ _ _ _ Hp Hf Hrun1 Hno) as [Hp' Hf'].
  pose proof Hrun1 as [Hbound Hnext]%schedule_progress; [|done]. split; [|split; [exact Hnext|]].
  - rewrite Ht, work_cost_app, (work_cost_map _ 4%nat), (work_cost_map _ 3%nat) in Hbound by done. exact Hbound.
  - intros Hdone. rewrite Hdone in Hp', Hf'. split.
    + intros id p Hp0 Ha. by destruct (fo_active _ _ _ Hf' id p Hp0 Ha) as [?|?%not_elem_of_nil].
    + intros spec Hspec.
      destruct (pv_specs _ _ _ _ _ Hp' spec Hspec) as [Hh|[[?%not_elem_of_nil|[p ?%not_elem_of_nil]]|[Hin|Hc]]];
        [by left|done|done| |by do 2 right].
      right. left. cbn [boots_failed]. by rewrite Hstep.
Qed.

Lemma same_pods_trans pods1 pods2 pods3 : same_pods pods1 pods2 → same_pods pods2 pods3 → same_pods pods1 pods3.
Proof.
  intros H12 H23 id. specialize (H12 id). specialize (H23 id). destruct H12 as [p q [E1 [E2 E3] (E4 & E5 & E6) E7]|]; [|done].
  inversion H23 as [? r [F1 [F2 F3] (F4 & F5 & F6) F7]|]; subst. constructor. split; [congruence|by split; congruence| |by rewrite F7].
  split_and!; congruence.
Qed.

(** Only frames make the schedule task work: until the next one a workload whose
    boot failed stays without a pod, and a pod whose eviction failed stays
    where it is. *)
Theorem idle_until_frame n es outs n' :
  n.(todo) = [] → node_run n es = Some (outs, n') → schedule_frames es = [] →
  n'.(todo) = [] ∧ same_pods (n_pods n) (n_pods n').
Proof.
  revert n outs. induction es as [|e es IH]; intros n outs Hidle.
  { intros [= _ <-] _. by split; [|apply same_pods_refl]. }
  intros (out & outs' & n1 & Hs & Hrun & ->)%node_run_cons Hno. assert (schedule_frames es = []) as Hno' by by destruct e.
  assert (other_event e) as Ho.
  { destruct e; try done. cbn [Node.node_step] in Hs. by rewrite Hidle in Hs. }
  destruct (other_step _ _ _ _ _ _ _ _ _ _ _ _ _ _ Hs Ho) as (Ht & Hsame & _). rewrite Hidle in Ht.
  destruct (IH _ _ Ht Hrun Hno') as [Ht' Hsame']. split; [done|by eapply same_pods_trans].
Qed.
End converge.

(** ** Witness: "web" and "db" are assigned to a node that runs "web"; the image of
    "db" is there, its role is not a valid one *)

Import Workloads.Sample.
#[local] Existing Instance Policy.sample_compiler.
#[local] Notation on_running_node op := (op node_vmm (λ _, Ok []) (λ (_ : gmap string bytes) p, Ok (as_bytes p)) (λ b, b)
  granted_wire grant_key (λ (_ : list PodEvent), λ n : nat, (Ok tt, Datatypes.S n)) node_cfg ProbeLoopConfig_default "a") (only parsing).
Definition two_frame : ScheduleUpdate PodSpec := mkSchedule 2
  ((web_frame 1).(assignments) ++ [mkAssignment "db" "cloud-hypervisor" "img" "?" (Some big_pod) "db"]).
Definition two_events : list node_event := [RouteFrame update2; ScheduleStep; FlushTick].
Definition web_running : NodeState := node_after web_booted.
Definition web_settled : NodeState := node_from web_running (ScheduleFrame two_frame :: two_events).

Lemma web_filed : keyed (n_pods web_running).
Proof.
  intros k p Hp. assert (pod_id <$> n_pods web_running = {["web" := "web"]}) as Hpods by (vm_compute; reflexivity).
  assert ((pod_id <$> n_pods web_running) !! k = Some p.(pod_id)) as Hk by (rewrite lookup_fmap, Hp; reflexivity).
  rewrite Hpods in Hk. apply lookup_singleton_Some in Hk as [<- <-]. reflexivity.
Qed.
(** No other workload is booted under the id of "web". *)
Lemma web_uncontested : ¬ contested (schedule_specs two_frame.(assignments)) (n_pods web_running) "web".
Proof.
  intros (s & ps & Hs & Hps & Hw & Hn).
  assert (n_pods web_running !! "db" = None) as Hno by (vm_compute; reflexivity).
  change (schedule_specs two_frame.(assignments)) with
    [mkSpec "web" Pods.Containerd "img" "primary" (Some probed_pod) "web"; mkSpec "db" CloudHypervisor "img" "?" (Some big_pod) "db"]
    in Hs, Hn.
  apply elem_of_to_boot in Hs as [Hs _].
  repeat (apply elem_of_cons in Hs as [->|Hs]; [|]); [destruct Hw; reflexivity| |exfalso; exact (not_elem_of_nil _ Hs)].
  injection Hps as <-. change (pod_id_of _ big_pod) with "db" in Hn. destruct Hn as [(p & Hp & _ & _)|(s & ps & Hs & Hps & Hid & Hsw)].
  - pose proof (eq_trans (eq_sym Hp) Hno) as Heq. discriminate Heq.
  - repeat (apply elem_of_cons in Hs as [->|Hs]; [|]); [|discriminate Hsw|exfalso; exact (not_elem_of_nil _ Hs)].
    injection Hps as <-. discriminate Hid.
Qed.

Lemma node_converges_witness :
  web_settled.(todo) = [] ∧
  spec_workload_id <$> on_running_node boots_failed web_running (ScheduleFrame two_frame :: two_events) = ["db"] ∧
  ∃ id p, n_pods web_settled !! id = Some p ∧ active p ∧ p.(workload_id) = "web".
Proof.
  split; [vm_compute; reflexivity|]. split; [vm_compute; reflexivity|].
  assert (web_running.(todo) = []) as Hidle by (vm_compute; reflexivity).
  assert (is_some (run_from web_running (ScheduleFrame two_frame :: two_events)) = true) as Hsome by (vm_compute; reflexivity).
  pose proof (run_from_some web_running _ Hsome) as Hrun.
  assert (web_settled.(todo) = []) as Hdone by (vm_compute; reflexivity).
  pose proof (on_running_node node_converges web_running two_frame two_events) as Hconv.
  specialize (Hconv _ _ Hidle web_filed Hrun eq_refl) as (_ & _ & Hall).
  destruct (Hall Hdone) as [_ Hweb].
  destruct (Hweb (mkSpec "web" Pods.Containerd "img" "primary" (Some probed_pod) "web") ltac:(left)) as [Hhost|[Hf|Hc]];
    [exact Hhost| |destruct (web_uncontested Hc)].
  assert (spec_workload_id <$> on_running_node boots_failed web_running (ScheduleFrame two_frame :: two_events) = ["db"]) as Hdb
    by (vm_compute; reflexivity).
  apply (list_elem_of_fmap_2 spec_workload_id) in Hf. rewrite Hdb in Hf. apply list_elem_of_singleton in Hf. discriminate Hf.
Defined.

(** "db" is not tried again. *)
Lemma idle_until_frame_witness :
  (node_from web_settled [DelegationTick 9; FlushTick]).(todo) = [] ∧
  n_pods (node_from web_settled [DelegationTick 9; FlushTick]) !! "db" = None.
Proof.
  assert (web_settled.(todo) = []) as Hidle by (vm_compute; reflexivity).
  assert (is_some (run_from web_settled [DelegationTick 9; FlushTick]) = true) as Hsome by (vm_compute; reflexivity).
  pose proof (on_running_node idle_until_frame web_settled _ _ _ Hidle (run_from_some web_settled _ Hsome) eq_refl) as [Ht Hsame].
  split; [exact Ht|]. specialize (Hsame "db").
  assert (n_pods web_settled !! "db" = None) as Hno by (vm_compute; reflexivity). rewrite Hno in Hsame.
  destruct (n_pods (node_from web_settled _) !! "db"); [inversion Hsame|reflexivity].
Defined.

(** Two assignments that share a pod id: both boots succeed, and only the second
    workload has a pod. *)
Definition shared_pod (image : string) : PodSpec :=
  mkPodSpec (Some "p") "t" image "primary" [] [] [] None None None.
Definition shared_frame : ScheduleUpdate PodSpec := mkSchedule 2
  [mkAssignment "web" "containerd" "img" "primary" (Some (shared_pod "web")) "web";
   mkAssignment "api" "containerd" "img" "primary" (Some (shared_pod "api")) "api"].
Definition shared_events : list node_event :=
  [ScheduleFrame shared_frame; ScheduleStep; ScheduleStep; ScheduleStep; ScheduleStep; ScheduleStep; ScheduleStep].
Lemma shared_pod_id_overwritten :
  let n := node_from fresh_node (RouteFrame update1 :: shared_events) in
  n.(todo) = [] ∧ on_running_node boots_failed fresh_node (RouteFrame update1 :: shared_events) = [] ∧
  workload_id <$> n_pods n = {["p" := "api"]}.
Proof. vm_compute. by split_and!. Qed.
