(* ===== verification/NodeAddresses.v ===== *)
(** The address plan of the running node (Node.v): the addresses of Addresses.v
    while the steps of an eviction and of a boot interleave with the other
    tasks.  What the sequential theorem assumes of the boots follows here from the
    reconciler, as long as no eviction fails and a frame names each pod once. *)
From S2P Require Import Prelude Simulation Errors Core Routes IpAllocator Degraded Counters Pods.
From S2P Require Import Probes Volumes Netns Containerd MicroVm Attest PodEvents Workloads Addresses Wiring WatchLoops.
From S2P Require Import Node NodeInvariants.
From S2P Require AgentTasks Policy.

Section addresses.
Context `{FleetCore} {OS : HashOrder string} {OZ : HashOrder Z} {OB : HashOrder bytes} {OI : HashOrder SpiffeId}.
Context {D F W V G R A T S Ev C : Type}.
Context `{ContainerdServices D} `{FileSystem F} `{Directories F} `{Shell W} `{NetGuard G}
  `{SrcIdentityRegistry R} `{AttestationRegistrar A} `{!KernelMap T Z (list PodNetCounters)} `{Clock C}.
Context {RD RL PT : Type} `{!KernelMap RD Z bytes} `{!KernelMap RL bytes Z} `{!KernelMap PT bytes bytes}.
Context `{Policy.PolicyCompiler}.
Context (vmm : string → VmmClient V).
Context (to_vec : Json → result string bytes).
Context (file_read : F → string → result string bytes) (blake3 : bytes → bytes).
Context (wire_from_bytes : bytes → result string DelegatedSigningKey)
        (request_delegated_key : DelegatedKeyRequest → M AgentError S DelegatedKeyResponse).
Context (report_pod_events : list PodEvent → M string Ev unit).
Context (cfg : ManagerConfig) (loop_cfg : ProbeLoopConfig).
Context (node_name : string).
Context `{!SrcIdentityLaws R}.
#[local] Abbreviation Manager := (WorkloadManager (D := D) (F := F) (W := W) (V := V) (G := G) (R := R) (A := A) (T := T)
  (S := S) (Ev := Ev) (C := C)).
#[local] Abbreviation State := (NodeState (D := D) (F := F) (W := W) (V := V) (G := G) (R := R) (A := A) (T := T)
  (S := S) (Ev := Ev) (C := C) (RD := RD) (RL := RL) (PT := PT)).
#[local] Abbreviation node_step := (node_step vmm to_vec file_read blake3 wire_from_bytes request_delegated_key
  report_pod_events cfg loop_cfg node_name).
#[local] Abbreviation node_run := (node_run vmm to_vec file_read blake3 wire_from_bytes request_delegated_key
  report_pod_events cfg loop_cfg node_name).
#[local] Abbreviation do_action := (do_action vmm to_vec file_read blake3 wire_from_bytes request_delegated_key
  report_pod_events cfg).
#[local] Abbreviation act := (act vmm to_vec file_read blake3 wire_from_bytes request_delegated_key report_pod_events cfg).
Implicit Types (n : State) (m : Manager).

(** The pod ids in use, none another's gateway entry, and the workload of each. *)
Context (ids : gset string) (Hids : ids_ok ids) (owner : string → string).

(** ** What is assumed of the frames and of the evictions *)

(** The pod a specification boots. *)
Definition spec_pod_id (spec : WorkloadSpec PodSpec) : option string := pod_id_of spec <$> spec.(spec_pod_spec).

(** A frame names each pod once, under its workload. *)
Definition frame_ok (u : ScheduleUpdate PodSpec) : Prop :=
  let specs := schedule_specs u.(assignments) in
  NoDup (omap spec_pod_id specs) ∧
  ∀ spec id, spec ∈ specs → spec_pod_id spec = Some id → id ∈ ids ∧ owner id = spec.(spec_workload_id).

(** No eviction is given up half-way. *)
Fixpoint evictions_complete n (es : list node_event) : Prop :=
  match es with
  | [] => True
  | e :: es =>
      match e, n.(todo) with
      | ScheduleStep, (EvictStop _ _ _ as a) :: _ => is_ok (do_action a n.(manager)).1 = true
      | _, _ => True
      end ∧
      match node_step n e with Some (_, n1) => evictions_complete n1 es | None => True end
  end.

(** ** The invariant *)

(** The pod an action boots, and the one under eviction. *)
Definition boots (a : action) : option string :=
  match a with
  | BootStart spec => spec_pod_id spec
  | BootAdd spec p => Some (pod_id_of spec p.(st_pod_spec))
  | _ => None
  end.
Definition evicting (work : list action) : option string :=
  match work with EvictUnprobe id _ _ :: _ | EvictStop id _ _ :: _ | EvictRemove id :: _ => Some id | _ => None end.
Definition boot_workload (a : action) : string :=
  match a with BootStart spec | BootAdd spec _ => spec.(spec_workload_id) | _ => "" end.

(** The pods in the table are active but for the one under eviction, and every
    recorded address has its pod there; the pods still to be booted are not there,
    each is to be booted once; an address that is ready to be recorded is leased to
    its pod and resolved, and that of a pod that only has to be removed is gone. *)
Record planned (work : list action) m : Prop := mkPlanned {
  pl_addressed : addressed ids m;
  pl_recorded id ip : m.(pod_source_ips) !! id = Some ip → is_Some (m.(pod_manager) !! id);
  pl_pods id p : m.(pod_manager) !! id = Some p →
    p.(pod_id) = id ∧ owner id = p.(workload_id) ∧ (active p ∨ evicting work = Some id);
  pl_boots a id : a ∈ work → boots a = Some id →
    id ∈ ids ∧ owner id = boot_workload a ∧ m.(pod_manager) !! id = None;
  pl_once : NoDup (omap boots work);
  pl_ready spec p ip : BootAdd spec p ∈ work → p.(st_registered_ip) = Some ip →
    leases m !! (ip - m.(ip_allocator).(base)) = Some (pod_id_of spec p.(st_pod_spec)) ∧ is_Some (source_identity m ip);
  pl_gone id : EvictRemove id ∈ work → m.(pod_source_ips) !! id = None;
  pl_tail : Forall is_start (tail work);
}.

(** A node without pods, as main.rs assembles it. *)
Lemma no_pods_planned m : wf m.(ip_allocator) → m.(pod_manager) = ∅ → m.(pod_source_ips) = ∅ → planned [] m.
Proof.
  intros Hwf Hp Hi. split.
  - split; [done|..]; intros id ip; by rewrite Hi, lookup_empty.
  - intros id ip. by rewrite Hi, lookup_empty.
  - intros id p. by rewrite Hp, lookup_empty.
  - by intros a id ?%not_elem_of_nil.
  - constructor.
  - by intros spec p ip ?%not_elem_of_nil.
  - by intros id ?%not_elem_of_nil.
  - constructor.
Qed.

(** *** The other tasks *)

Definition network m := (m.(ip_allocator), m.(src_identity), m.(pod_source_ips)).

Lemma other_network n e out n' :
  node_step n e = Some (out, n') → other_event e → network n'.(manager) = network n.(manager).
Proof.
  intros Hs He. pose proof Hs as Hd%delegation_quiet.
  destruct e as [u| |run_probe now_ms|now_unix|u|u|now_unix| |]; try done; cbn [Node.node_step] in Hs.
  - destruct (probing n); [|done]. destruct (manager n).(probes) as [rs|]; [|done].
    destruct (tick _ _ rs) as [results rs']. by injection Hs as _ <-.
  - destruct (probing n) as [|t results]; [done|]. destruct (process_probe_result _ _ _) as [evs pods']. by injection Hs as _ <-.
  - destruct (on_route_update _ _ _ _) as [o v]. by injection Hs as _ <-.
  - destruct (on_sag_update _ _ _) as [r [st pods']]. by injection Hs as _ <-.
  - by destruct Hd as (d & ks & _ & ->).
  - by destruct Hd as (d & ks & _ & ->).
  - by injection Hs as _ <-.
Qed.

Lemma planned_same work m m' :
  network m' = network m → same_pods m.(pod_manager) m'.(pod_manager) → planned work m → planned work m'.
Proof.
  intros [= Ha Hs Hi] Hsame [Had Hrec Hpods Hboots Honce Hready Hgone Htail].
  assert (∀ id, m.(pod_manager) !! id = None → m'.(pod_manager) !! id = None) as Hnone.
  { intros id Hno. destruct (m'.(pod_manager) !! id) as [q|] eqn:Hq; [|done].
    destruct (same_pods_inv _ _ _ _ Hsame Hq) as (p & Hp & _). congruence. }
  split; [by eapply addressed_frame|..|done].
  - intros id ip Hip. rewrite Hi in Hip. destruct (Hrec _ _ Hip) as [p Hp].
    destruct (same_pods_fwd _ _ _ _ Hsame Hp) as (q & Hq & _). by eexists.
  - intros id q Hq. destruct (same_pods_inv _ _ _ _ Hsame Hq) as (p & Hp & Hpq).
    destruct (Hpods _ _ Hp) as (Hid & Ho & Hact). destruct (same_workload _ _ Hpq) as [-> _]. rewrite (same_id _ _ Hpq).
    split_and!; [done..|]. destruct Hact as [Hact|?]; [left|by right]. by apply Hpq.
  - intros a id Hin Hb. destruct (Hboots a id Hin Hb) as (? & ? & ?). eauto.
  - done.
  - intros spec p ip Hin Hip. unfold leases, source_identity. rewrite Ha, Hs. by apply (Hready spec p ip).
  - intros id Hin. rewrite Hi. by apply Hgone.
Qed.

(** *** The schedule task *)

Lemma starts_evict_none rest : Forall is_start rest → evicting rest = None.
Proof. by intros [|[] ? Ha _]. Qed.
Lemma starts_no_add rest spec p : Forall is_start rest → BootAdd spec p ∉ rest.
Proof. rewrite Forall_forall. intros Hr Hin. by apply Hr in Hin. Qed.

(** What an action leaves planned: it goes on with at most one action, for the
    same pod or for none. *)
Lemma planned_next a rest next m m' :
  planned (a :: rest) m → (next = [] ∨ ∃ b, next = [b]) →
  (∀ b, b ∈ next → boots b = None ∨ boots b = boots a ∧ boot_workload b = boot_workload a) →
  addressed ids m' →
  (∀ id ip, m'.(pod_source_ips) !! id = Some ip → is_Some (m'.(pod_manager) !! id)) →
  (∀ id p, m'.(pod_manager) !! id = Some p → p.(pod_id) = id ∧ owner id = p.(workload_id) ∧
     (active p ∨ evicting (next ++ rest) = Some id)) →
  (∀ b id, b ∈ next ++ rest → boots b = Some id → m.(pod_manager) !! id = None → m'.(pod_manager) !! id = None) →
  (∀ spec p ip, BootAdd spec p ∈ next → p.(st_registered_ip) = Some ip →
     leases m' !! (ip - m'.(ip_allocator).(base)) = Some (pod_id_of spec p.(st_pod_spec)) ∧ is_Some (source_identity m' ip)) →
  (∀ id, EvictRemove id ∈ next → m'.(pod_source_ips) !! id = None) →
  planned (next ++ rest) m'.
Proof.
  intros Hpl Hone Hnext Had Hrec Hpods Hnone Hready Hgone. pose proof (pl_tail _ _ Hpl) as Hstarts. cbn [tail] in Hstarts.
  split; [done..| | | | |].
  - intros b id Hin Hb. assert (id ∈ ids ∧ owner id = boot_workload b ∧ m.(pod_manager) !! id = None) as (? & ? & ?).
    { apply elem_of_app in Hin as [Hin|Hin].
      - destruct (Hnext b Hin) as [Hno|[Hba ->]]; [congruence|]. apply (pl_boots _ _ Hpl); [by left|congruence].
      - apply (pl_boots _ _ Hpl); [by right|done]. }
    split_and!; [done..|by eapply Hnone].
  - pose proof (pl_once _ _ Hpl) as Honce. cbn [omap list_omap] in Honce.
    assert (NoDup (omap boots rest)) as Hrest by (destruct (boots a); [by apply NoDup_cons in Honce as [_ ?]|done]).
    destruct Hone as [->|[b ->]]; [done|]. cbn [app omap list_omap].
    destruct (Hnext b) as [->|[-> _]]; [by left|done|done].
  - intros spec p ip [Hin|Hin]%elem_of_app; [by apply Hready|]. by apply starts_no_add in Hin.
  - intros id [Hin|Hin]%elem_of_app; [by apply Hgone|]. rewrite Forall_forall in Hstarts. by apply Hstarts in Hin.
  - destruct Hone as [->|[b ->]]; [|done]. by destruct Hstarts.
Qed.

Lemma pods_while a rest m id p :
  planned (a :: rest) m → m.(pod_manager) !! id = Some p → evicting (a :: rest) ≠ Some id →
  p.(pod_id) = id ∧ owner id = p.(workload_id) ∧ active p.
Proof. intros Hpl Hp Hne. destruct (pl_pods _ _ Hpl _ _ Hp) as (? & ? & [?|?]); by split_and!. Qed.

(** An action on one pod that leaves the network alone. *)
Lemma planned_on a rest next m m' id :
  planned (a :: rest) m → (next = [] ∨ ∃ b, next = [b]) → (∀ b, b ∈ next → boots b = None) →
  network m' = network m → (∀ k, k ≠ id → m'.(pod_manager) !! k = m.(pod_manager) !! k) →
  (∀ k, k ≠ id → evicting (a :: rest) ≠ Some k) →
  (∀ p', m'.(pod_manager) !! id = Some p' → (active p' ∨ evicting (next ++ rest) = Some id) ∧
     ∃ p, m.(pod_manager) !! id = Some p ∧ p'.(pod_id) = p.(pod_id) ∧ p'.(workload_id) = p.(workload_id)) →
  (is_Some (m'.(pod_manager) !! id) ∨ m'.(pod_source_ips) !! id = None) →
  (∀ k, EvictRemove k ∉ next) →
  planned (next ++ rest) m'.
Proof.
  intros Hpl Hone Hno [= Ha Hs Hi] Hsame Hev Hid Hkept Hgone. eapply planned_next; [done..|by left; apply Hno| | | | | |].
  - eapply addressed_frame; [done..|]. apply (pl_addressed _ _ Hpl).
  - intros k ip Hip. destruct (decide (k = id)) as [->|Hne].
    + destruct Hkept as [?|?]; [done|congruence].
    + rewrite Hsame by done. rewrite Hi in Hip. by apply (pl_recorded _ _ Hpl k ip).
  - intros k p' Hp. destruct (decide (k = id)) as [->|Hne].
    + destruct (Hid _ Hp) as (Hev' & p & Hpm & -> & ->). destruct (pl_pods _ _ Hpl _ _ Hpm) as (? & ? & _). eauto.
    + rewrite Hsame in Hp by done. destruct (pods_while _ _ _ _ _ Hpl Hp (Hev _ Hne)) as (? & ? & ?). eauto.
  - intros b k Hin Hb Hk. destruct (decide (k = id)) as [->|Hne]; [|by rewrite Hsame].
    destruct (m'.(pod_manager) !! id) as [p'|] eqn:Hp; [|done]. destruct (Hid p' eq_refl) as (_ & p & ? & _). congruence.
  - intros spec p ip Hin. apply Hno in Hin. done.
  - intros k Hin. by apply Hgone in Hin.
Qed.

(** A stop that succeeds gives the pod's network back. *)
Lemma evict_stop_network id rt h m next m' :
  do_action (EvictStop id rt h) m = (Ok next, m') →
  m'.(pod_manager) = m.(pod_manager) ∧ network_released id m m'.
Proof.
  unfold Node.do_action. intros (t & m1 & E1 & Hrun)%M_bind_ok.
  eapply (keeps_run tables) in E1; [|unfold now; keeps]. apply M_bind_ok in Hrun as (u2 & m2 & E2 & Hrun).
  eapply (keeps_run tables) in E2; [|keeps]. apply M_bind_ok in Hrun as (u3 & m3 & E3%(keeps_run tables) & Hrun); [|apply stop_pod_keeps].
  apply M_bind_ok in Hrun as (u4 & m4 & E4 & Hrun). apply M_bind_ok in Hrun as (u5 & m5 & E5 & [= _ <-]).
  eapply (keeps_run tables) in E5; [|unfold on_mfiles; keeps].
  destruct (release_network_run id rt m3) as (m4' & Hr & Hp4 & _ & _ & _ & Hi4 & Ha4 & Hs4). rewrite E4 in Hr. injection Hr as _ <-.
  rewrite E2, E1 in E3. injection E3 as Hp3 _ Hi3 Ha3 Hs3. injection E5 as Hp5 _ Hi5 Ha5 Hs5.
  split; [congruence|]. split; [congruence|]. split; [by rewrite Ha5, Ha4, Hi3, Ha3|]. intros ip. unfold source_identity.
  rewrite Hs5, Hs4, Hi3, Hs3. destruct (pod_source_ips m !! id) as [ip0|]; [|by left].
  destruct (src_identity m) as [r0|]; [|by left]. cbn. rewrite unregister_clears. destruct (decide (ip0 = ip)) as [->|]; [by right|by left].
Qed.

(** The other actions of an eviction leave the network alone. *)
Lemma evict_network a m next m' :
  act a m = (next, m') →
  match a with EvictStop _ _ _ | BootStart _ | BootAdd _ _ => True | _ => network m' = network m end.
Proof.
  unfold Node.act. destruct (do_action a m) as [r m1] eqn:Hrun. intros Heq.
  assert (m' = m1) as -> by (by destruct r; injection Heq as _ <-). clear Heq.
  destruct a as [id|id rt h| |id| | |id probe_set now_ms]; try done; eapply (keeps_run network); try exact Hrun; cbn [Node.do_action]; keeps.
Qed.

Lemma planned_stop id rt h rest next m m' :
  planned (EvictStop id rt h :: rest) m → act (EvictStop id rt h) m = (next, m') →
  is_ok (do_action (EvictStop id rt h) m).1 = true → planned (next ++ rest) m'.
Proof.
  intros Hpl Hact Hok. unfold Node.act in Hact. destruct (do_action _ m) as [[nx|] m1] eqn:Hrun; [|done].
  injection Hact as <- <-. destruct (evict_stop_network _ _ _ _ _ _ Hrun) as [Hp Hrel]. pose proof Hrel as (Hi & _).
  apply do_action_next in Hrun as ->. eapply planned_next; [exact Hpl|eauto|..].
  - intros b ->%list_elem_of_singleton. by left.
  - eapply released_addressed; [done..|]. apply (pl_addressed _ _ Hpl).
  - intros k ip. rewrite Hi, Hp. intros [_ Hk]%lookup_delete_Some. by apply (pl_recorded _ _ Hpl k ip).
  - intros k p. rewrite Hp. apply (pl_pods _ _ Hpl).
  - intros b k _ _. by rewrite Hp.
  - by intros spec p ip ?%list_elem_of_singleton.
  - intros k [= ->]%list_elem_of_singleton. rewrite Hi. apply lookup_delete_eq.
Qed.

Lemma planned_start spec rest next m m' :
  planned (BootStart spec :: rest) m → act (BootStart spec) m = (next, m') → planned (next ++ rest) m'.
Proof.
  intros Hpl Hact. pose proof (act_effect _ _ _ _ _ _ _ _ _ _ _ _ Hact) as (Hp & _ & _). cbn [pods_after] in Hp.
  unfold Node.act in Hact. cbn [Node.do_action] in Hact. unfold mbind, M_bind in Hact.
  destruct (start_pod _ _ _ _ _ _ _ spec m) as [r m1] eqn:Hrun.
  assert (m' = m1 ∧ next = match r with Ok p => [BootAdd spec p] | Err _ => [] end) as [-> ->]
    by (destruct r; by injection Hact as <- <-). clear Hact.
  pose proof (start_pod_ips _ _ _ _ _ _ _ _ _ _ _ Hrun) as Hi.
  destruct (start_addressed _ _ _ _ _ _ _ ids Hids _ _ _ _ Hrun (pl_addressed _ _ Hpl)) as [Had Hready].
  { intros ps Hps. destruct (pl_boots _ _ Hpl (BootStart spec) (pod_id_of spec ps)) as (? & _ & Hno);
      [by left|unfold boots, spec_pod_id; by rewrite Hps|]. split; [done|].
    destruct (pod_source_ips m !! _) as [ip|] eqn:Hip; [|done]. apply (pl_recorded _ _ Hpl) in Hip as [? ?]. congruence. }
  eapply planned_next; [exact Hpl|destruct r; eauto| |done|..].
  - intros b Hb. destruct r as [p|]; [|by apply not_elem_of_nil in Hb]. apply list_elem_of_singleton in Hb as ->. right.
    destruct (Hready p eq_refl) as [Hps _]. cbn. unfold spec_pod_id. by rewrite Hps.
  - intros k ip. rewrite Hi, Hp. by apply (pl_recorded _ _ Hpl).
  - intros k p. rewrite Hp. intros Hk. destruct (pods_while _ _ _ _ _ Hpl Hk) as (? & ? & ?); [done|by split_and!; [..|left]].
  - intros b k _ _. by rewrite Hp.
  - intros spec' p ip Hin Hip. destruct r as [p'|]; [|by apply not_elem_of_nil in Hin].
    apply list_elem_of_singleton in Hin as [= -> ->]. by apply (proj2 (Hready p' eq_refl)).
  - intros k Hin. destruct r; [by apply list_elem_of_singleton in Hin|by apply not_elem_of_nil in Hin].
Qed.

Lemma planned_add spec p rest next m m' :
  planned (BootAdd spec p :: rest) m → act (BootAdd spec p) m = (next, m') → planned (next ++ rest) m'.
Proof.
  intros Hpl Hact. pose proof (act_effect _ _ _ _ _ _ _ _ _ _ _ _ Hact) as ((t & Hp) & _ & (probe_set & now_ms & ->)).
  set (id := pod_id_of spec p.(st_pod_spec)) in *. cbn zeta in Hp.
  destruct (pl_boots _ _ Hpl (BootAdd spec p) id) as (Hid & Ho & Hno); [by left|done|].
  pose proof (pl_once _ _ Hpl) as Honce. cbn [omap list_omap boots] in Honce. apply NoDup_cons in Honce as [Hfresh _].
  assert (m'.(ip_allocator) = m.(ip_allocator) ∧ m'.(src_identity) = m.(src_identity) ∧
    m'.(pod_source_ips) = match p.(st_registered_ip) with Some ip => <[id := ip]> m.(pod_source_ips) | None => m.(pod_source_ips) end)
    as (Ha & Hs & Hi).
  { revert Hact. unfold Node.act, Node.do_action, now, mbind, M_bind, zoom. destruct (read_clock (clock m)) as [t' c].
    destruct (st_registered_ip p); cbn; by intros [= _ _ <-]. }
  eapply planned_next; [exact Hpl|eauto|..].
  - intros b ->%list_elem_of_singleton. by left.
  - pose proof (pl_ready _ _ Hpl spec p) as Hready. destruct (st_registered_ip p) as [ip|].
    + destruct (Hready ip ltac:(by left) eq_refl) as [Hl Hr]. eapply recorded_addressed; [apply (pl_addressed _ _ Hpl)|done..].
    + eapply addressed_frame; [done..|]. apply (pl_addressed _ _ Hpl).
  - intros k ip Hk. rewrite Hp, lookup_insert. case_decide as Hk'; [by eexists|]. apply (pl_recorded _ _ Hpl k ip).
    rewrite Hi in Hk. destruct (st_registered_ip p); [by rewrite lookup_insert_ne in Hk|done].
  - intros k q. rewrite Hp. intros [[<- <-]|[_ Hk]]%lookup_insert_Some; [by split_and!; [..|left]|].
    destruct (pods_while _ _ _ _ _ Hpl Hk) as (? & ? & ?); [done|by split_and!; [..|left]].
  - intros b k Hin Hb Hk. rewrite Hp, lookup_insert_ne; [done|]. intros <-. apply Hfresh, list_elem_of_omap. exists b.
    split; [|done]. apply elem_of_app in Hin as [->%list_elem_of_singleton|?]; done.
  - by intros spec' p' ip ?%list_elem_of_singleton.
  - by intros k ?%list_elem_of_singleton.
Qed.

Lemma planned_action a rest next m m' :
  planned (a :: rest) m → act a m = (next, m') →
  match a with EvictStop _ _ _ => is_ok (do_action a m).1 = true | _ => True end →
  planned (next ++ rest) m'.
Proof.
  intros Hpl Hact Hok. pose proof (act_effect _ _ _ _ _ _ _ _ _ _ _ _ Hact) as (Hp & _ & Hnext).
  pose proof (evict_network _ _ _ _ Hact) as Hnet. destruct a as [id|id rt h|id rt h|id|spec|spec p|id probe_set now_ms];
    cbn [pods_after next_of] in Hp, Hnext; [| |by eapply planned_stop| |by eapply planned_start|by eapply planned_add|].
  - assert (∀ b, b ∈ next → boots b = None ∧ ∀ k, b ≠ EvictRemove k) as Hno.
    { intros b Hb. destruct Hnext as [[_ ->]|(rt & h & _ & ->)]; [by apply not_elem_of_nil in Hb|].
      by apply list_elem_of_singleton in Hb as ->. }
    eapply (planned_on _ _ _ m m' id); [done|destruct Hnext as [[_ ->]|(rt & h & _ & ->)]; eauto|by apply Hno|done|..].
    + intros k Hne. by rewrite Hp, lookup_alter_ne.
    + done.
    + intros p'. rewrite Hp, lookup_alter_eq. destruct (pod_manager m !! id) as [p|] eqn:Hpm; [|done]. intros [= <-].
      destruct Hnext as [[? _]|(rt & h & _ & ->)]; [done|]. split; [by right|]. exists p. split; [done|].
      by unfold begin_eviction; destruct (state p).
    + injection Hnet as _ _ ->. destruct (pod_source_ips m !! id) as [ip|] eqn:Hip; [left|by right].
      apply (pl_recorded _ _ Hpl) in Hip as [p Hpm]. rewrite Hp, lookup_alter_eq, Hpm. by eexists.
    + intros k Hk. by apply (proj2 (Hno _ Hk) k).
  - subst next. eapply (planned_on _ _ _ m m' id); [done|eauto|by intros b ->%list_elem_of_singleton|done|..].
    + intros k _. by rewrite Hp.
    + intros k Hne [= <-]. done.
    + intros p'. rewrite Hp. intros Hpm. split; [by right|by exists p'].
    + injection Hnet as _ _ ->. rewrite Hp. destruct (pod_source_ips m !! id) as [ip|] eqn:Hip; [left|by right].
      by apply (pl_recorded _ _ Hpl) in Hip.
    + by intros k ?%list_elem_of_singleton.
  - subst next. eapply (planned_on _ _ [] m m' id); [done|by left|by intros b ?%not_elem_of_nil|done|..].
    + intros k Hne. by rewrite Hp, lookup_delete_ne.
    + intros k Hne [= <-]. done.
    + intros p'. by rewrite Hp, lookup_delete_eq.
    + right. injection Hnet as _ _ ->. apply (pl_gone _ _ Hpl). by left.
    + by intros k ?%not_elem_of_nil.
  - subst next. eapply (planned_on _ _ [] m m' id); [done|by left|by intros b ?%not_elem_of_nil|done|..].
    + intros k _. by rewrite Hp.
    + done.
    + intros p'. rewrite Hp. intros Hpm. destruct (pods_while _ _ _ _ _ Hpl Hpm) as (? & ? & ?); [done|].
      split; [by left|by exists p'].
    + injection Hnet as _ _ ->. rewrite Hp. destruct (pod_source_ips m !! id) as [ip|] eqn:Hip; [left|by right].
      by apply (pl_recorded _ _ Hpl) in Hip.
    + by intros k ?%not_elem_of_nil.
Qed.

(** *** Frames *)

Lemma omap_sublist {X Y} (f : X → option Y) (l k : list X) : sublist l k → sublist (omap f l) (omap f k).
Proof.
  induction 1 as [|x l k _ IH|x l k _ IH]; [done|..]; cbn [omap list_omap]; destruct (f x); try done; by constructor.
Qed.
Lemma filter_sublist {X} (P : X → Prop) `{∀ x, Decision (P x)} (l : list X) : sublist (filter P l) l.
Proof. induction l as [|x l IH]; [done|]. rewrite filter_cons. case_decide; by constructor. Qed.

Lemma frame_boots evs specs : omap boots ((EvictBegin <$> evs) ++ (BootStart <$> specs)) = omap spec_pod_id specs.
Proof.
  rewrite omap_app. assert (omap boots (EvictBegin <$> evs) = []) as ->.
  { induction evs as [|id evs IH]; [done|exact IH]. }
  cbn. induction specs as [|spec specs IH]; [done|]. cbn. destruct (spec_pod_id spec); [by f_equal|done].
Qed.

(** The work of a frame boots no pod that is there. *)
Lemma planned_frame u m :
  planned [] m → frame_ok u → planned (frame_work (schedule_specs u.(assignments)) m) m.
Proof.
  intros Hpl [Honce Hspecs]. unfold frame_work. set (r := reconcile _ _).
  assert (∀ spec id, spec ∈ r.(to_boot) → spec_pod_id spec = Some id →
    id ∈ ids ∧ owner id = spec.(spec_workload_id) ∧ m.(pod_manager) !! id = None) as Hboot.
  { intros spec id Hin Hid. apply elem_of_to_boot in Hin as [Hin Hnot]. destruct (Hspecs _ _ Hin Hid) as [Hk Ho].
    split; [done|]. split; [done|]. destruct (m.(pod_manager) !! id) as [p|] eqn:Hp; [|done].
    destruct (pl_pods _ _ Hpl _ _ Hp) as (Hpid & How & [Ha|?]); [|done]. exfalso. apply (Hnot id p); [done..|congruence]. }
  assert (∀ b, b ∈ (EvictBegin <$> r.(to_evict)) ++ (BootStart <$> r.(to_boot)) →
    is_start b ∧ (boots b = None ∨ ∃ spec, b = BootStart spec ∧ spec ∈ r.(to_boot))) as Hwork.
  { intros b [(id & -> & _)%list_elem_of_fmap|(spec & -> & Hs)%list_elem_of_fmap]%elem_of_app; (split; [done|]); [by left|right; eauto]. }
  split.
  - apply (pl_addressed _ _ Hpl).
  - apply (pl_recorded _ _ Hpl).
  - intros id p Hp. destruct (pl_pods _ _ Hpl _ _ Hp) as (? & ? & [?|?]); [by split_and!; [..|left]|done].
  - intros b id Hin Hb. apply Hwork in Hin as [_ [?|(spec & -> & Hs)]]; [congruence|]. by apply Hboot.
  - rewrite frame_boots. apply (sublist_NoDup _ (omap spec_pod_id (schedule_specs u.(assignments)))); [exact Honce|]. apply omap_sublist. unfold r, reconcile. cbn. apply filter_sublist.
  - intros spec p ip Hin. by apply Hwork in Hin as [[] _].
  - intros id Hin. by apply Hwork in Hin as [[] _].
  - apply Forall_forall. intros b Hin. apply Hwork. destruct (_ ++ _); [done|]. by right.
Qed.

Lemma planned_run n es outs n' :
  planned n.(todo) n.(manager) → Forall frame_ok (schedule_frames es) → evictions_complete n es →
  node_run n es = Some (outs, n') → planned n'.(todo) n'.(manager).
Proof.
  revert n outs. induction es as [|e es IH]; intros n outs Hpl Hframes Hdone; [by intros [= _ <-]|].
  intros (out & outs' & n1 & Hs & Hrun & ->)%node_run_cons. cbn [evictions_complete] in Hdone. destruct Hdone as [Hev Hdone].
  rewrite Hs in Hdone. assert (Forall frame_ok (schedule_frames es)) as Hframes'.
  { unfold schedule_frames in *. destruct e; [by apply Forall_cons in Hframes as [_ ?]|done..]. }
  eapply IH; [|done..|exact Hrun]. clear IH Hrun Hdone.
  assert (other_event e → planned n1.(todo) n1.(manager)) as Hother.
  { intros Ho. destruct (other_step _ _ _ _ _ _ _ _ _ _ _ _ _ _ Hs Ho) as (-> & Hsame & _).
    eapply planned_same; [by eapply other_network|exact Hsame|done]. }
  destruct e as [u| |?|?|?|?|?| |]; try by apply Hother.
  - cbn [Node.node_step] in Hs. destruct (todo n) eqn:Ht; [|done]. injection Hs as _ <-.
    unfold schedule_frames in Hframes. cbn in Hframes. apply Forall_cons in Hframes as [Hu _]. by apply planned_frame.
  - cbn [Node.node_step] in Hs. destruct (todo n) as [|a rest] eqn:Ht; [done|]. rewrite work_step_act in Hs.
    injection Hs as _ <-. destruct (act a (manager n)) as [next m'] eqn:Ha. eapply planned_action; [done..|]. by destruct a.
Qed.

(** C3: The address plan of the running node.  From a node whose plan is in order
    ([planned]), over any interleaving of all tasks in which frames name each pod
    once, under its workload, no pod has the id another's gateway is recorded
    under ([ids_ok]), and every eviction that was begun completes, whichever
    boots fail: two pods never have the same
    address, and every recorded address belongs to a pod of the node, lies
    strictly inside the node's block, is leased to this pod, so that the pool
    cannot give it out again, and resolves to an identity in the kernel. *)
Theorem node_addresses_disjoint n es outs n' :
  planned n.(todo) n.(manager) → Forall frame_ok (schedule_frames es) → evictions_complete n es →
  node_run n es = Some (outs, n') →
  let m := n'.(manager) in
  (∀ id id' ip, m.(pod_source_ips) !! id = Some ip → m.(pod_source_ips) !! id' = Some ip → id = id') ∧
  ∀ id ip, m.(pod_source_ips) !! id = Some ip →
    is_Some (n_pods n' !! id) ∧
    m.(ip_allocator).(base) < ip < m.(ip_allocator).(base) + m.(ip_allocator).(host_count) - 1 ∧
    leases m !! (ip - m.(ip_allocator).(base)) = Some id ∧ is_Some (source_identity m ip).
Proof.
  intros Hpl Hframes Hdone Hrun m. pose proof (planned_run _ _ _ _ Hpl Hframes Hdone Hrun) as Hpl'. fold m in Hpl'.
  pose proof (pl_addressed _ _ Hpl') as Had. split; [intros id id' ip; by apply (addressed_inj ids m)|].
  intros id ip Hip. pose proof (ad_recorded _ _ Had _ _ Hip) as [_ Hl].
  split; [by apply (pl_recorded _ _ Hpl' id ip)|]. split; [|split; [done|by eapply (ad_resolved _ _ Had)]].
  destruct (wf_allocated _ (ad_wf _ _ Had) (ip - base (ip_allocator m))) as [? _]; [by eexists|]. lia.
Qed.
End addresses.

(** ** Witness: "web" is booted, evicted between two policy frames, and booted
    again *)

Import Workloads.Sample.
#[local] Existing Instance Policy.sample_compiler.
#[local] Notation on_running_node op := (op node_vmm (λ _, Ok []) (λ (_ : gmap string bytes) p, Ok (as_bytes p)) (λ b, b)
  granted_wire grant_key (λ (_ : list PodEvent), λ n : nat, (Ok tt, Datatypes.S n)) node_cfg ProbeLoopConfig_default "a") (only parsing).

Definition web_again : list node_event :=
  web_booted ++ [ScheduleFrame (mkSchedule 2 []); ScheduleStep; ScheduleStep; SagFrame Policy.sag2; ScheduleStep; ScheduleStep;
                 ScheduleFrame (web_frame 3); ScheduleStep; RouteFrame update2; ScheduleStep; ScheduleStep].

Lemma fresh_planned : planned {["web"]} id fresh_node.(todo) fresh_node.(manager).
Proof.
  pose proof (new_wf node_block block0 block0_new) as (Hwf & _).
  exact (no_pods_planned {["web"]} id live_manager Hwf eq_refl eq_refl).
Qed.
Lemma web_ids_ok : ids_ok {["web"]}.
Proof. by intros p q ->%elem_of_singleton ->%elem_of_singleton. Qed.
Lemma web_frames_ok : Forall (frame_ok {["web"]} id) (schedule_frames web_again).
Proof.
  assert (∀ u, omap spec_pod_id (schedule_specs u.(assignments)) = [] ∨
    (∃ spec, schedule_specs u.(assignments) = [spec] ∧ spec_pod_id spec = Some "web" ∧ spec.(spec_workload_id) = "web") →
    frame_ok {["web"]} id u) as Hok.
  { intros u [Hno|(spec & Hspecs & Hid & Hw)]; unfold frame_ok; cbn zeta.
    - rewrite Hno. split; [constructor|]. intros spec pod Hin Hp.
      destruct (not_elem_of_nil (A := string) pod). rewrite <-Hno. apply list_elem_of_omap. by exists spec.
    - rewrite Hspecs. cbn. rewrite Hid. split; [apply NoDup_singleton|].
      intros spec' pod ->%list_elem_of_singleton. rewrite Hid. intros [= <-]. split; [set_solver|done]. }
  change (schedule_frames web_again) with [web_frame 1; mkSchedule 2 []; web_frame 3].
  rewrite !Forall_cons, Forall_nil. split_and!; [apply Hok..|done]; [right|by left|right]; eexists; (split; [reflexivity|done]).
Qed.

Definition web_end := node_from fresh_node web_again.
Lemma node_addresses_disjoint_witness :
  ∃ ip, web_end.(manager).(pod_source_ips) !! "web" = Some ip ∧ is_Some (n_pods web_end !! "web") ∧
    leases web_end.(manager) !! (ip - web_end.(manager).(ip_allocator).(base)) = Some "web".
Proof.
  assert (is_some (web_end.(manager).(pod_source_ips) !! "web") = true) as Hsome by by vm_compute.
  destruct (web_end.(manager).(pod_source_ips) !! "web") as [ip|] eqn:Hip; [|discriminate Hsome].
  destruct (on_running_node node_addresses_disjoint {["web"]} web_ids_ok id fresh_node web_again
    (outs_from fresh_node web_again) web_end fresh_planned web_frames_ok) as [_ Hrec].
  - vm_compute. repeat (split; [exact I || reflexivity|]). exact I.
  - exact (run_from_some fresh_node web_again ltac:(vm_compute; reflexivity)).
  - destruct (Hrec "web" ip Hip) as (Hpod & _ & Hl & _). exists ip. exact (conj eq_refl (conj Hpod Hl)).
Defined.
