(* ===== verification/NodeAttest.v ===== *)
(** Attestation on the running node (Node.v): what the attestation server holds
    for the MicroVMs the schedule task boots and evicts, and what the guests are
    told by handshakes (VsockServer.v) that interleave with it. *)
From S2P Require Import Prelude Simulation Errors Core Routes IpAllocator Degraded Counters Pods.
From S2P Require Import Probes Volumes Netns Containerd MicroVm Attest PodEvents Workloads Wiring WatchLoops.
From S2P Require Import Tasks VsockServer Node NodeInvariants.
From S2P Require AgentTasks Policy.

Section attest.
Context `{FleetCore} {OS : HashOrder string} {OZ : HashOrder Z} {OB : HashOrder bytes} {OI : HashOrder SpiffeId}.
Context {D F W V G R A T S Ev C : Type}.
Context `{ContainerdServices D} `{FileSystem F} `{Directories F} `{Shell W} `{NetGuard G}
  `{SrcIdentityRegistry R} `{AttestationRegistrar A} `{!KernelMap T Z (list PodNetCounters)} `{Clock C}.
Context {RD RL PT : Type} `{!KernelMap RD Z bytes} `{!KernelMap RL bytes Z} `{!KernelMap PT bytes bytes}.
Context `{Policy.PolicyCompiler}.
Context (vmm : string → VmmClient V).
Context (to_vec : Json → result string bytes).
Context (file_read : F → string → result string bytes) (blake3 : bytes → bytes).
Context (wire_from_bytes : bytes → result string DelegatedSigningKey)
        (request_delegated_key : DelegatedKeyRequest → M AgentError S DelegatedKeyResponse).
Context (report_pod_events : list PodEvent → M string Ev unit).
Context (cfg : ManagerConfig) (loop_cfg : ProbeLoopConfig).
Context (node_name : string).
#[local] Abbreviation Manager := (WorkloadManager (D := D) (F := F) (W := W) (V := V) (G := G) (R := R) (A := A) (T := T)
  (S := S) (Ev := Ev) (C := C)).
#[local] Abbreviation State := (NodeState (D := D) (F := F) (W := W) (V := V) (G := G) (R := R) (A := A) (T := T)
  (S := S) (Ev := Ev) (C := C) (RD := RD) (RL := RL) (PT := PT)).
#[local] Abbreviation node_step := (node_step vmm to_vec file_read blake3 wire_from_bytes request_delegated_key
  report_pod_events cfg loop_cfg node_name).
#[local] Abbreviation node_run := (node_run vmm to_vec file_read blake3 wire_from_bytes request_delegated_key
  report_pod_events cfg loop_cfg node_name).
#[local] Abbreviation do_action := (do_action vmm to_vec file_read blake3 wire_from_bytes request_delegated_key
  report_pod_events cfg).
#[local] Abbreviation act := (act vmm to_vec file_read blake3 wire_from_bytes request_delegated_key report_pod_events cfg).
#[local] Abbreviation boot_microvm := (boot_microvm vmm file_read blake3 cfg).
#[local] Abbreviation boot_runtime := (boot_runtime vmm to_vec file_read blake3 cfg).
#[local] Abbreviation start_pod := (start_pod vmm to_vec file_read blake3 wire_from_bytes request_delegated_key cfg).
Implicit Types (n : State) (m : Manager) (a : A).

(** ** What a boot does to the registrar *)

(** The parts of the manager that a CID touches. *)
Definition vm_tables m : Z * option A * gmap Z string := (m.(cid_allocator), m.(attestation), m.(microvms)).

Definition register_vm (cid : Z) (meas : BootMeasurement) (ctx : WorkloadContext) (a : A) : A :=
  register_workload_context cid ctx (register_boot_measurement cid meas a).
Definition unregister_vm (cid : Z) (a : A) : A :=
  unregister_workload_context cid (unregister_boot_measurement cid a).

(** The measurement of the files the VM boots from. *)
Definition measured_image (spec : WorkloadSpec PodSpec) (meas : BootMeasurement) : Prop :=
  ∃ (files : F) rootfs, oci_to_erofs spec.(spec_image) cfg.(image_cache_path) = Ok rootfs ∧
    compute_boot_measurement (file_read files) blake3 cfg.(mc_kernel_path) rootfs cfg.(guest_init_path) = Ok meas.

(** The ways a boot can go, with the CID of the VM that runs at the end. *)
Inductive vm_start (spec : WorkloadSpec PodSpec) (ctx : WorkloadContext) (c : Z) (a : A) (vs : gmap Z string) :
    option Z → Z * option A * gmap Z string → Prop :=
| NoCid : vm_start spec ctx c a vs None (c, Some a, vs)
| Unguarded : vm_start spec ctx c a vs None (u32_add c 1, Some a, vs)
| Unmeasured : vm_start spec ctx c a vs None (u32_add c 1, Some (unregister_vm c a), vs)
| Unbooted meas : measured_image spec meas →
    vm_start spec ctx c a vs None (u32_add c 1, Some (unregister_vm c (register_vm c meas ctx a)), vs)
| Booted meas : measured_image spec meas →
    vm_start spec ctx c a vs (Some c) (u32_add c 1, Some (register_vm c meas ctx a), <[c := api_socket c]> vs).

Lemma unregister_tables cid m a : m.(attestation) = Some a →
  ∃ m', unregister_attestation cid m = (Ok tt, m') ∧
    vm_tables m' = (m.(cid_allocator), Some (unregister_vm cid a), m.(microvms)).
Proof. intros Ha. unfold unregister_attestation, zoom_opt. rewrite Ha. cbn [modify]. by eexists. Qed.

Lemma boot_inner_start spec mounts c iface gip gw m r m' a next :
  boot_microvm_inner vmm file_read blake3 cfg spec mounts c iface gip gw m = (r, m') →
  vm_tables m = (next, Some a, m.(microvms)) →
  match r with
  | Ok h => h = c ∧ ∃ meas, measured_image spec meas ∧
      vm_tables m' = (next, Some (register_vm c meas (context_for spec.(spec_pod_spec) gip gw) a), <[c := api_socket c]> m.(microvms))
  | Err _ => vm_tables m' = vm_tables m ∨ ∃ meas, measured_image spec meas ∧
      vm_tables m' = (next, Some (register_vm c meas (context_for spec.(spec_pod_spec) gip gw) a), m.(microvms))
  end.
Proof.
  intros Hrun [= Hc Ha]. revert Hrun. unfold boot_microvm_inner.
  unfold mbind at 1, M_bind at 1, lift at 1. destruct (oci_to_erofs _ _) as [rootfs|] eqn:Hroot; [|intros [= <- <-]; by left].
  unfold mbind at 1, M_bind at 1, get. unfold mbind at 1, M_bind at 1, lift at 1.
  destruct (compute_boot_measurement _ _ _ _ _) as [meas|] eqn:Hmeas; [|intros [= <- <-]; by left].
  assert (measured_image spec meas) as Him by by eexists _, rootfs.
  unfold mbind at 1, M_bind at 1. unfold zoom_opt at 1. rewrite Ha. cbn [modify]. unfold mbind at 1, M_bind at 1, zoom at 1.
  destruct (vm_boot _ _ _ _ _ _ _) as [[h|e] v] eqn:Hv.
  - intros [= <- <-]. split.
    + revert Hv. unfold vm_boot. intros (? & ? & _ & (? & ? & _ & (? & ? & _ & (? & ? & _ & [= <- _])%M_bind_ok)%M_bind_ok)%M_bind_ok)%M_bind_ok.
      done.
    + exists meas. by rewrite <-Hc.
  - intros [= <- <-]. right. exists meas. by rewrite <-Hc.
Qed.

Lemma boot_microvm_start spec mounts gip gw m r m' a :
  boot_microvm spec mounts gip gw m = (r, m') → m.(attestation) = Some a →
  ∃ h, vm_start spec (context_for spec.(spec_pod_spec) gip gw) m.(cid_allocator) a m.(microvms) h (vm_tables m') ∧
    match r with Ok x => h = Some x | Err _ => h = None end.
Proof.
  intros Hrun Ha. revert Hrun. assert (vm_tables m = (m.(cid_allocator), Some a, m.(microvms))) as Hm by (by rewrite <-Ha).
  unfold Workloads.boot_microvm. unfold mbind at 1, M_bind at 1, lift.
  destruct (validate_microvm_mounts mounts) as [u|e]; [|intros [= <- <-]; exists None; rewrite Hm; by split; [constructor|]].
  unfold mbind at 1, M_bind at 1, zoom at 1. cbn [cid_allocate].
  set (c := cid_allocator m). set (m1 := set_cid_allocator (u32_add c 1) m).
  assert (vm_tables m1 = (u32_add c 1, Some a, m.(microvms))) as Hm1 by (by rewrite <-Ha).
  unfold mbind at 1, M_bind at 1, get. destruct (net_guard m1) as [g|] eqn:Hg.
  2:{ intros [= <- <-]. exists None. rewrite Hm1. by split; [constructor|]. }
  unfold mbind at 1, M_bind at 1. destruct (zoom_opt net_guard _ _ m1) as [ra m2] eqn:Harm.
  apply (keeps_run vm_tables) in Harm; [|keeps]. rewrite Hm1 in Harm.
  destruct ra as [[]|e]; [|intros [= <- <-]; exists None; rewrite Harm; by split; [constructor|]].
  assert (m2.(microvms) = m.(microvms)) as Hv2 by (by injection Harm).
  destruct r as [h|e].
  - intros Hin%on_error_ok. eapply boot_inner_start in Hin as (-> & meas & Him & ->); [|by rewrite Hv2].
    exists (Some c). rewrite Hv2. split; [by constructor|done].
  - intros (m3 & Hin & ->)%on_error_err. exists None. split; [|done].
    assert (∀ m4 x, vm_tables m4 = (u32_add c 1, Some x, m.(microvms)) →
      vm_tables ((unregister_attestation c ≫= λ _, ignore (zoom_opt net_guard set_net_guard (guard_disarm (interface_name c)))) m4).2 =
        (u32_add c 1, Some (unregister_vm c x), m.(microvms))) as Hun.
    { intros m4 x [= Hc4 Hx Hv4]. destruct (unregister_tables c m4 x Hx) as (m5 & E5 & Hu). unfold mbind, M_bind. rewrite E5.
      rewrite (keeps_run vm_tables (ignore (zoom_opt net_guard set_net_guard (guard_disarm (interface_name c)))) m5 _ _ ltac:(keeps) (surjective_pairing _)).
      by rewrite Hu, Hc4, Hv4. }
    eapply boot_inner_start in Hin as [Hin|(meas & Him & Hin)]; [| |by rewrite Hv2].
    + rewrite (Hun _ a); [constructor|]. by rewrite Hin, Harm.
    + erewrite Hun by (by rewrite Hin, Hv2). by constructor.
Qed.
(** The same of [boot_pod] up to the running workload, for the address the pod
    gets; a container takes no CID. *)
Definition pod_start spec m a (r : Result started_pod) m' : Prop :=
  ∃ gip gw h, vm_start spec (context_for spec.(spec_pod_spec) gip gw) m.(cid_allocator) a m.(microvms) h (vm_tables m') ∧
    match r with
    | Ok p => spec.(spec_pod_spec) = Some p.(st_pod_spec) ∧
        h = match spec.(spec_runtime) with CloudHypervisor => Some p.(st_handle) | Pods.Containerd => None end ∧
        (is_some m.(src_identity) = true → p.(st_registered_ip) = Some gip)
    | Err _ => h = None
    end.

Lemma pod_start_failed spec m a e m' :
  m.(attestation) = Some a → vm_tables m' = vm_tables m → pod_start spec m a (Err e) m'.
Proof.
  intros Ha Hm. exists 0, 0, None. split; [|done]. rewrite Hm. unfold vm_tables. rewrite Ha. constructor.
Qed.
Lemma boot_runtime_start spec mounts gip gw m r m' a :
  boot_runtime spec mounts gip gw m = (r, m') → m.(attestation) = Some a →
  ∃ h, vm_start spec (context_for spec.(spec_pod_spec) gip gw) m.(cid_allocator) a m.(microvms) h (vm_tables m') ∧
    match r with
    | Ok x => h = match spec.(spec_runtime) with CloudHypervisor => Some x | Pods.Containerd => None end
    | Err _ => h = None
    end.
Proof.
  unfold Workloads.boot_runtime. destruct (spec_runtime spec).
  - intros Hrun Ha. apply (keeps_run vm_tables) in Hrun; [|unfold boot_containerd; keeps]. exists None. rewrite Hrun.
    unfold vm_tables. rewrite Ha. split; [constructor|by destruct r].
  - intros Hrun Ha. destruct (boot_microvm_start _ _ _ _ _ _ _ _ Hrun Ha) as (h & Hst & Hr). exists h. by split; [|destruct r].
Qed.

Lemma start_pod_start spec m r m' a :
  start_pod spec m = (r, m') → m.(attestation) = Some a → pod_start spec m a r m'.
Proof.
  intros Hrun Ha. set (f := λ m, (vm_tables m, m.(src_identity))).
  assert (∀ m0 m1, f m1 = f m0 → vm_tables m1 = vm_tables m0) as Hf1 by (intros m0 m1; apply (f_equal fst)).
  assert (∀ e m0, vm_tables m0 = vm_tables m → pod_start spec m a (Err e) m0) as Hno by (intros; by apply pod_start_failed).
  revert Hrun. rewrite start_pod_flat.
  intros [(e & _ & -> & ?)|(ps & m1 & [Hps%ok_or_ok ->]%lift_ok & _ & Hrun)]%(bind_keeps f); [by auto| |keeps].
  apply (bind_keeps f) in Hrun as [(e & _ & -> & ?)|(mounts & m2 & _ & E2 & Hrun)]; [by auto| |unfold on_mfiles; keeps].
  apply (bind_keeps f) in Hrun as [(e & _ & -> & ?)|(fp & m3 & _ & E3 & Hrun)]; [apply Hno, Hf1; congruence| |keeps].
  apply (bind_keeps f) in Hrun as [(e & _ & -> & ?)|(u & m4 & _ & E4 & Hrun)];
    [apply Hno, Hf1; congruence| |unfold request_workload_key; keeps].
  apply (bind_keeps f) in Hrun as [(e & _ & -> & ?)|([gw gip] & m5 & _ & E5 & Hrun)]; [apply Hno, Hf1; congruence| |keeps].
  assert (vm_tables m5 = vm_tables m) as Ht5 by (apply Hf1; congruence).
  assert (m5.(src_identity) = m.(src_identity)) as Hs5 by (apply (f_equal snd (x := f m5) (y := f m)); congruence).
  apply (bind_keeps vm_tables) in Hrun as [(e & _ & -> & ?)|(reg & m6 & Hreg & E6 & Hrun)];
    [apply Hno; congruence| |unfold register_source; keeps].
  apply (bind_keeps vm_tables) in Hrun as [(e & _ & -> & ?)|(u7 & m7 & _ & E7 & Hrun)]; [apply Hno; congruence| |keeps].
  assert (vm_tables m7 = vm_tables m) as [= Hc7 Ha7 Hv7] by congruence.
  assert (is_some m.(src_identity) = true → reg = Some gip) as Hsrc.
  { intros Hsome. apply register_source_ok in Hreg as [_ Hreg]. rewrite Hs5 in Hreg.
    destruct (src_identity m); [by destruct Hreg|done]. }
  unfold mbind, M_bind, on_error in Hrun. cbn [fst snd] in Hrun.
  destruct (boot_runtime spec mounts gip gw m7) as [rb m8] eqn:Hb.
  apply (boot_runtime_start _ _ _ _ _ _ _ a) in Hb as (h & Hst & Hh); [|congruence]. rewrite Hc7, Hv7 in Hst.
  exists gip, gw, h. destruct rb as [x|e]; injection Hrun as <- <-; [by split|]. split; [|done].
  match goal with |- vm_start _ _ _ _ _ _ (vm_tables ?x) => assert (vm_tables x = vm_tables m8) as -> end; [|done].
  assert (keeps vm_tables (unregister_source reg)) as Hus by (unfold unregister_source; keeps). exact (Hus m8).
Qed.
(** ** What an eviction does to it *)

(** The VM's adapter goes; the material too, unless the VM could not be stopped. *)
Definition vm_stopped (h c : Z) (a : A) (vs : gmap Z string) (t : Z * option A * gmap Z string) : Prop :=
  ∃ a', (a' = a ∨ a' = unregister_vm h a) ∧ t = (c, Some a', delete h vs).

Lemma stop_vm_stopped id h m r m' a :
  stop_pod vmm id CloudHypervisor h m = (r, m') → m.(attestation) = Some a →
  vm_stopped h m.(cid_allocator) a m.(microvms) (vm_tables m').
Proof.
  unfold stop_pod. unfold mbind at 1, M_bind at 1, get. intros Hrun Ha.
  unfold mbind at 1, M_bind at 1 in Hrun.
  match type of Hrun with (match ?x with _ => _ end) = _ => destruct x as [r1 m1] eqn:E1 end.
  assert (vm_tables m1 = (m.(cid_allocator), Some a, delete h m.(microvms))) as Hm1.
  { destruct (microvms m !! h) as [adapter|] eqn:Hv.
    - unfold mbind at 1, M_bind at 1, zoom at 1, modify in E1. apply (keeps_run vm_tables) in E1; [|keeps].
      rewrite E1, <-Ha. done.
    - injection E1 as _ <-. by rewrite delete_id, <-Ha. }
  destruct r1 as [u|e].
  - injection Hm1 as Hc1 Ha1 Hv1. destruct (unregister_tables h m1 a Ha1) as (m2 & E2 & Hm2).
    rewrite E2 in Hrun. injection Hrun as _ <-. exists (unregister_vm h a). split; [by right|]. by rewrite Hm2, Hc1, Hv1.
  - injection Hrun as _ <-. exists a. split; [by left|done].
Qed.

Lemma evict_stop_run id rt h m r m' a :
  do_action (EvictStop id rt h) m = (r, m') → m.(attestation) = Some a →
  (vm_tables m' = vm_tables m ∨ rt = CloudHypervisor ∧ vm_stopped h m.(cid_allocator) a m.(microvms) (vm_tables m')) ∧
  (∀ k, k ≠ id → m'.(pod_source_ips) !! k = m.(pod_source_ips) !! k) ∧
  is_some m'.(src_identity) = is_some m.(src_identity).
Proof.
  intros Hrun Ha. set (g := λ m, (m.(pod_source_ips), m.(src_identity))).
  set (f := λ m, (vm_tables m, g m)). cbn [Node.do_action] in Hrun.
  assert (∀ m0 m1, f m1 = f m0 → vm_tables m1 = vm_tables m0 ∧ m1.(pod_source_ips) = m0.(pod_source_ips) ∧
    m1.(src_identity) = m0.(src_identity)) as Hf1.
  { intros m0 m1 Hf. split; [exact (f_equal fst Hf)|]. by apply (f_equal snd) in Hf as [= -> ->]. }
  apply (bind_keeps f) in Hrun as [(e & _ & _ & (-> & -> & ->)%Hf1)|(t & m1 & _ & E1 & Hrun)]; [by split; [left|]| |unfold now; keeps].
  apply (bind_keeps f) in Hrun as [(e & _ & _ & Hf)|(u & m2 & _ & E2 & Hrun)]; [|rewrite E1 in E2|keeps].
  { rewrite E1 in Hf. apply Hf1 in Hf as (-> & -> & ->). by split; [left|]. }
  apply Hf1 in E2 as (Ht2 & Hi2 & Hs2). assert (m2.(attestation) = Some a) as Ha2 by (rewrite <-Ha; by injection Ht2).
  assert (∀ r3 m3, stop_pod vmm id rt h m2 = (r3, m3) →
    (vm_tables m3 = vm_tables m ∨ rt = CloudHypervisor ∧ vm_stopped h m.(cid_allocator) a m.(microvms) (vm_tables m3)) ∧
    m3.(pod_source_ips) = m.(pod_source_ips) ∧ m3.(src_identity) = m.(src_identity)) as Hstop.
  { intros r3 m3 E3. split.
    - destruct rt; [left|right; split; [done|]].
      + apply (keeps_run vm_tables) in E3; [congruence|unfold stop_pod; keeps].
      + apply (stop_vm_stopped _ _ _ _ _ a) in E3; [|done]. by injection Ht2 as <- _ <-.
    - apply (keeps_run g) in E3; [injection E3; split; congruence|unfold stop_pod, unregister_attestation; keeps]. }
  unfold mbind at 1, M_bind at 1 in Hrun. destruct (stop_pod vmm id rt h m2) as [[[]|e] m3].
  2:{ injection Hrun as _ <-. destruct (Hstop _ _ eq_refl) as (? & -> & ->). by split. }
  destruct (Hstop _ _ eq_refl) as (Ht3 & Hi3 & Hs3). unfold mbind at 1, M_bind at 1 in Hrun.
  assert (keeps vm_tables (release_network id rt)) as Hrel by (unfold release_network; keeps). specialize (Hrel m3).
  destruct (release_network_run id rt m3) as (m4 & E4 & _ & _ & _ & _ & Hi4 & _ & Hs4). rewrite E4 in Hrun, Hrel. cbn [snd] in Hrel.
  apply (keeps_run f) in Hrun; [|unfold on_mfiles; keeps]. apply Hf1 in Hrun as (-> & -> & ->).
  rewrite Hrel, Hi4, Hs4, Hi3, Hs3. split; [done|]. split; [intros k Hk; by rewrite lookup_delete_ne|].
  destruct (pod_source_ips m !! id); [|done]. by destruct (src_identity m).
Qed.
(** ** The material of the pods that run *)

Context `{!AttestationRegistrarLaws A}.

(** Everything filed under a CID. *)
Definition vm_at m (cid : Z) : option BootMeasurement * option WorkloadContext * option string :=
  (measured_at m cid, context_at m cid, m.(microvms) !! cid).

Lemma vm_at_stopped h cid m m' a :
  m.(attestation) = Some a → vm_stopped h m.(cid_allocator) a m.(microvms) (vm_tables m') → cid ≠ h → vm_at m' cid = vm_at m cid.
Proof.
  intros Ha (a' & Ha' & [= _ Hat Hv]) Hne. unfold vm_at, measured_at, context_at. rewrite Ha, Hat, Hv. cbn.
  rewrite lookup_delete_ne by done. destruct Ha' as [->| ->]; [done|]. unfold unregister_vm.
  rewrite measured_uncontext, measured_unregister, context_unregister, context_unmeasure. by rewrite !decide_False by done.
Qed.

Lemma vm_at_start spec ctx h m m' a :
  m.(attestation) = Some a → vm_start spec ctx m.(cid_allocator) a m.(microvms) h (vm_tables m') →
  is_Some m'.(attestation) ∧
  (m'.(cid_allocator) = m.(cid_allocator) ∨ m'.(cid_allocator) = u32_add m.(cid_allocator) 1) ∧
  (∀ cid, cid ≠ m.(cid_allocator) → vm_at m' cid = vm_at m cid) ∧
  ∀ cid, h = Some cid → cid = m.(cid_allocator) ∧ m'.(cid_allocator) = u32_add cid 1 ∧
    ∃ meas, measured_image spec meas ∧ vm_at m' cid = (Some meas, Some ctx, Some (api_socket cid)).
Proof.
  intros Ha Hst. set (c := m.(cid_allocator)) in *.
  remember (vm_tables m') as t eqn:Ht.
  assert (∀ h c' a' vs, t = (c', Some a', vs) → c' = c ∨ c' = u32_add c 1 →
    (∀ cid, cid ≠ c → measured a' cid = measured a cid ∧ context_of a' cid = context_of a cid ∧ vs !! cid = m.(microvms) !! cid) →
    (∀ cid, h = Some cid → cid = c ∧ c' = u32_add cid 1 ∧ ∃ meas, measured_image spec meas ∧
       (measured a' cid, context_of a' cid, vs !! cid) = (Some meas, Some ctx, Some (api_socket cid))) →
    is_Some m'.(attestation) ∧ (m'.(cid_allocator) = c ∨ m'.(cid_allocator) = u32_add c 1) ∧
    (∀ cid, cid ≠ c → vm_at m' cid = vm_at m cid) ∧
    ∀ cid, h = Some cid → cid = c ∧ m'.(cid_allocator) = u32_add cid 1 ∧
      ∃ meas, measured_image spec meas ∧ vm_at m' cid = (Some meas, Some ctx, Some (api_socket cid))) as Hgo.
  { intros h0 c' a' vs Heq Hc Hsame Hnew. rewrite Ht in Heq. injection Heq as Hc' Hat Hv.
    unfold vm_at, measured_at, context_at. rewrite Ha, Hat, Hv, Hc'. cbn.
    split; [done|]. split; [done|]. split; [|done]. intros cid Hne. by destruct (Hsame cid Hne) as (-> & -> & ->). }
  destruct Hst as [| | |meas Him|meas Him]; (eapply Hgo; [reflexivity|auto| |try done]); unfold register_vm, unregister_vm; intros cid.
  1-2: done.
  1-3: intros Hne; rewrite ?measured_uncontext, ?measured_unregister, ?context_unregister, ?context_unmeasure,
      ?measured_context, ?measured_register, ?context_register, ?context_measure; rewrite !decide_False by done;
      by rewrite ?lookup_insert_ne by done.
  intros [= <-]. split; [done|]. split; [done|]. exists meas. split; [done|].
  rewrite measured_context, measured_register, context_register, !decide_True by done. by rewrite lookup_insert_eq.
Qed.
(** A MicroVM pod whose CID has its measurement, its context and its adapter. *)
Definition pod_vm m (id : string) (p : Pod) : Prop :=
  ∃ cid spec ps meas ip gw, p.(pid) = Some cid ∧
    spec.(spec_pod_spec) = Some ps ∧ pod_id_of spec ps = id ∧ spec.(spec_workload_id) = p.(workload_id) ∧
    ps.(ps_tenant_id) = p.(Pods.tenant_id) ∧ measured_image spec meas ∧ m.(pod_source_ips) !! id = Some ip ∧
    vm_at m cid = (Some meas, Some (context_for (Some ps) ip gw), Some (api_socket cid)).

(** The pods keep their CIDs apart, and what the schedule task is in the middle
    of: an eviction of a pod that is not active any more, or a boot whose VM
    runs under a CID no pod has yet. *)
Definition has_cid m (cid : Z) (id : string) : Prop :=
  ∃ p, m.(pod_manager) !! id = Some p ∧ p.(runtime) = CloudHypervisor ∧ p.(pid) = Some cid.
Definition head_ok m (b : action) : Prop :=
  match b with
  | EvictUnprobe id rt h | EvictStop id rt h =>
      ∃ p, m.(pod_manager) !! id = Some p ∧ ¬ active p ∧ p.(runtime) = rt ∧ default 0 p.(pid) = h
  | BootAdd spec p => spec.(spec_pod_spec) = Some p.(st_pod_spec) ∧
      (spec.(spec_runtime) = CloudHypervisor →
        3 ≤ p.(st_handle) < m.(cid_allocator) ∧ (∀ id, ¬ has_cid m p.(st_handle) id) ∧
        ∃ meas ip gw, measured_image spec meas ∧ p.(st_registered_ip) = Some ip ∧
          vm_at m p.(st_handle) =
            (Some meas, Some (context_for (Some p.(st_pod_spec)) ip gw), Some (api_socket p.(st_handle))))
  | _ => True
  end.
Record attested (work : list action) m : Prop := mkAttested {
  at_next : 3 ≤ m.(cid_allocator);
  at_server : is_Some m.(attestation);
  at_registry : is_some m.(src_identity) = true;
  at_cid : ∀ id p, m.(pod_manager) !! id = Some p → p.(runtime) = CloudHypervisor →
    ∃ cid, p.(pid) = Some cid ∧ 3 ≤ cid < m.(cid_allocator);
  at_inj : ∀ cid id id', has_cid m cid id → has_cid m cid id' → id = id';
  at_active : ∀ id p, m.(pod_manager) !! id = Some p → p.(runtime) = CloudHypervisor → active p → pod_vm m id p;
  at_head : ∀ b rest, work = b :: rest → head_ok m b ∧ Forall is_start rest;
}.

Lemma no_pods_attested m :
  3 ≤ m.(cid_allocator) → is_Some m.(attestation) → is_some m.(src_identity) = true → m.(pod_manager) = ∅ → attested [] m.
Proof.
  intros Hn Ha Hr Hp. split; try done; rewrite ?Hp.
  - intros id p Hid. by rewrite lookup_empty in Hid.
  - intros cid id id' (p & Hid & _). rewrite Hp in Hid. by rewrite lookup_empty in Hid.
  - intros id p Hid. by rewrite lookup_empty in Hid.
Qed.

(** What other steps leave of a pod, as far as its VM goes. *)
Definition same_vm (p p' : Pod) : Prop :=
  p'.(runtime) = p.(runtime) ∧ p'.(pid) = p.(pid) ∧ p'.(workload_id) = p.(workload_id) ∧
  p'.(Pods.tenant_id) = p.(Pods.tenant_id) ∧ (active p' → active p).
Definition fewer_vms m m' : Prop := ∀ id p', m'.(pod_manager) !! id = Some p' →
  ∃ p, m.(pod_manager) !! id = Some p ∧ same_vm p p'.

Lemma has_cid_fewer m m' cid id : fewer_vms m m' → has_cid m' cid id → has_cid m cid id.
Proof.
  intros Hf (p' & Hp' & Hrt & Hpid). destruct (Hf _ _ Hp') as (p & Hp & Hrt' & Hpid' & _).
  exists p. split_and!; congruence.
Qed.

(** A step that takes no VM up and leaves those of the active pods alone. *)
Lemma attested_fewer work work' m m' :
  attested work m → fewer_vms m m' → m.(cid_allocator) ≤ m'.(cid_allocator) → is_Some m'.(attestation) →
  is_some m'.(src_identity) = true →
  (∀ id p' cid, m'.(pod_manager) !! id = Some p' → p'.(runtime) = CloudHypervisor → active p' → p'.(pid) = Some cid →
     vm_at m' cid = vm_at m cid ∧ m'.(pod_source_ips) !! id = m.(pod_source_ips) !! id) →
  (∀ b rest, work' = b :: rest → head_ok m' b ∧ Forall is_start rest) →
  attested work' m'.
Proof.
  intros [Hn Ha Hr Hcid Hinj Hact Hhead] Hf Hle Ha' Hr' Hkept Hhead'. split; try done; [lia|..].
  - intros id p' Hp' Hrt. destruct (Hf _ _ Hp') as (p & Hp & Hrt' & Hpid & _). rewrite Hpid.
    destruct (Hcid id p Hp) as (cid & ? & ?); [congruence|]. exists cid. split; [done|lia].
  - intros cid id id' Hc1 Hc2. eapply Hinj; by eapply has_cid_fewer.
  - intros id p' Hp' Hrt Hap. destruct (Hf _ _ Hp') as (p & Hp & Hrt' & Hpid & Hw & Hte & Hac).
    destruct (Hact id p Hp) as (cid & spec & ps & meas & ip & gw & Hc & Hps & Hid & Hsw & Hst & Him & Hip & Hat); [congruence|by apply Hac|].
    destruct (Hkept id p' cid Hp' Hrt Hap) as [Hv Hi]; [congruence|].
    exists cid, spec, ps, meas, ip, gw. rewrite Hpid, Hw, Hte, Hv, Hi. by split_and!.
Qed.

Lemma same_pods_fewer m m' : same_pods m.(pod_manager) m'.(pod_manager) → fewer_vms m m'.
Proof.
  intros Hs id p' Hp'. destruct (same_pods_inv _ _ _ _ Hs Hp') as (p & Hp & [Hid [Hw Ht] (Hrt & Hpid & _) Hact]).
  exists p. split; [done|]. split_and!; try done. apply Hact.
Qed.
Lemma act_run b m next m' : act b m = (next, m') →
  ∃ r, do_action b m = (r, m') ∧ ((∃ e, r = Err e ∧ next = []) ∨ r = Ok next).
Proof. unfold Node.act. destruct (do_action b m) as [[nx|e] m1]; intros [= <- <-]; eauto 10. Qed.

(** What the actions that start or stop no runtime leave alone. *)
Definition vm_side m := (vm_tables m, m.(src_identity)).
Lemma quiet_action b m next m' :
  act b m = (next, m') → (∀ id rt h, b ≠ EvictStop id rt h) → (∀ spec, b ≠ BootStart spec) →
  vm_side m' = vm_side m ∧ ((∀ spec p, b ≠ BootAdd spec p) → m'.(pod_source_ips) = m.(pod_source_ips)).
Proof.
  intros (r & Hrun & _)%act_run Hstop Hstart. split.
  - eapply (keeps_run vm_side); [|exact Hrun]. destruct b; cbn [Node.do_action]; try unfold now; try keeps; naive_solver.
  - intros Hadd. eapply (keeps_run pod_source_ips); [|exact Hrun]. destruct b; cbn [Node.do_action]; try unfold now; try keeps; naive_solver.
Qed.

Lemma vm_at_side m m' cid : vm_side m' = vm_side m → vm_at m' cid = vm_at m cid.
Proof. intros [= _ Ha Hv _]. unfold vm_at, measured_at, context_at. by rewrite Ha, Hv. Qed.

Lemma attested_stop id rt h rest m next m' :
  attested (EvictStop id rt h :: rest) m → act (EvictStop id rt h) m = (next, m') → attested (next ++ rest) m'.
Proof.
  intros Hat Hact. pose proof Hact as (Hpods & _ & Hnext)%act_effect. cbn [pods_after next_of] in Hpods, Hnext.
  apply act_run in Hact as (r & Hrun & _). pose proof (at_server _ _ Hat) as [a Ha].
  destruct (at_head _ _ Hat _ _ eq_refl) as [(p & Hp & Hina & Hrt & Hpid) Hstarts].
  eapply evict_stop_run in Hrun as (Ht & Hips & Hreg); [|exact Ha].
  assert (m'.(cid_allocator) = m.(cid_allocator) ∧ is_Some m'.(attestation)) as [Hc Ha'].
  { destruct Ht as [[= -> -> _]|(_ & a' & _ & [= -> -> _])]; [|done]. split; [done|by rewrite Ha]. }
  assert (∀ k q, m'.(pod_manager) !! k = Some q → active q → k ≠ id) as Hother.
  { intros k q Hq Haq ->. rewrite Hpods, Hp in Hq. by injection Hq as <-. }
  eapply attested_fewer; [exact Hat|by apply same_pods_fewer; rewrite Hpods; apply same_pods_refl|by rewrite Hc|done| | |].
  - rewrite Hreg. by apply (at_registry _ _ Hat).
  - intros k q cid Hq Hqrt Hqa Hqpid. assert (k ≠ id) as Hk by by eapply Hother. split; [|by apply Hips].
    destruct Ht as [Ht|(-> & Ht)].
    + unfold vm_at, measured_at, context_at. by injection Ht as _ -> ->.
    + eapply vm_at_stopped; [done..|]. intros ->. apply Hk. rewrite Hpods in Hq. apply (at_inj _ _ Hat h).
      * by exists q.
      * destruct (at_cid _ _ Hat id p Hp Hrt) as (cid & Hcid & _). exists p. rewrite Hcid in Hpid |- *. by rewrite <-Hpid.
  - intros b rest' Hb. destruct Hnext as [->| ->]; cbn in Hb.
    + subst rest. apply Forall_cons in Hstarts as [Hb Hrest]. by destruct b.
    + by injection Hb as <- <-.
Qed.
(** Whether there is a registry for source identities does not change. *)
Definition registered m : bool := is_some m.(src_identity).
Lemma start_pod_registered spec : keeps registered (start_pod spec).
Proof.
  assert (∀ c, keeps registered (zoom_opt (E := AgentError) src_identity set_src_identity c)) as Hc.
  { intros c m. unfold registered, zoom_opt. destruct (src_identity m) as [r|] eqn:Hr; [by destruct (c r)|]. by cbn [snd]; rewrite ?Hr. }
  assert (∀ mounts wl gw, keeps registered (boot_runtime spec mounts wl gw)) as Hb by (intros; by apply boot_runtime_keeps).
  unfold Workloads.start_pod, prepare_pod, start_runtime, register_source, unregister_source, request_workload_key, on_mfiles. keeps.
Qed.

Lemma attested_start spec rest m next m' :
  attested (BootStart spec :: rest) m → m.(cid_allocator) + 1 < 2 ^ 32 →
  act (BootStart spec) m = (next, m') → attested (next ++ rest) m' ∧ m'.(cid_allocator) ≤ m.(cid_allocator) + 1.
Proof.
  intros Hat Hbound Hact. pose proof Hact as (Hpods & _ & _)%act_effect. cbn [pods_after] in Hpods.
  apply act_run in Hact as (r & Hrun & Hr). pose proof (at_server _ _ Hat) as [a Ha].
  pose proof (at_next _ _ Hat) as Hn. destruct (at_head _ _ Hat _ _ eq_refl) as [_ Hstarts].
  assert (u32_add m.(cid_allocator) 1 = m.(cid_allocator) + 1) as Hadd by (apply u32_add_small; unfold is_u32; lia).
  assert (∃ rs, start_pod spec m = (rs, m') ∧ match rs with Ok p => r = Ok [BootAdd spec p] | Err e => r = Err e end)
    as (rs & Hs & Hrs).
  { cbn [Node.do_action] in Hrun. unfold mbind, M_bind in Hrun. destruct (start_pod spec m) as [[p|e] m1];
      injection Hrun as <- <-; eexists; (split; [reflexivity|done]). }
  destruct (start_pod_start _ _ _ _ _ Hs Ha) as (gip & gw & h & Hst & Hh).
  destruct (vm_at_start _ _ _ _ _ _ Ha Hst) as (Ha' & Hc & Hold & Hnew). rewrite Hadd in Hc. split; [|lia].
  assert (m'.(pod_source_ips) = m.(pod_source_ips) ∧ is_some m'.(src_identity) = is_some m.(src_identity)) as [Hi Hreg].
  { split; [|by apply (keeps_run registered) in Hs; [|apply start_pod_registered]].
    apply (keeps_run pod_source_ips) in Hs; [done|]. by apply start_pod_keeps. }
  assert (∀ id cid, has_cid m' cid id → cid < m.(cid_allocator)) as Hbelow.
  { intros id cid (q & Hq & Hqrt & Hqpid). rewrite Hpods in Hq. destruct (at_cid _ _ Hat id q Hq Hqrt) as (? & ? & ?). 
    replace cid with x by congruence. lia. }
  eapply attested_fewer; [exact Hat|by apply same_pods_fewer; rewrite Hpods; apply same_pods_refl|lia|done| | |].
  - rewrite Hreg. by apply (at_registry _ _ Hat).
  - intros id q cid Hq Hqrt Hqa Hqpid. split; [|by rewrite Hi]. apply Hold.
    assert (cid < m.(cid_allocator)); [|lia]. apply (Hbelow id). by exists q.
  - intros b rest' Hb. destruct rs as [p|e]; [|destruct Hr as [(? & _ & ->)|Hr]; [|congruence]].
    2:{ cbn in Hb. subst rest. apply Forall_cons in Hstarts as [Hb Hrest]. by destruct b. }
    destruct Hr as [(? & Hr & _)|Hr]; [congruence|]. rewrite Hrs in Hr. injection Hr as <-. cbn in Hb. injection Hb as <- <-.
    split; [|done]. destruct Hh as (Hps & Hh & Hip). split; [done|]. intros Hrt. rewrite Hrt in Hh.
    destruct (Hnew _ Hh) as (Hcid & Hc' & meas & Him & Hv). rewrite <-Hcid in Hadd. rewrite Hadd in Hc'.
    split; [lia|]. split; [intros id Hid%Hbelow; lia|].
    exists meas, gip, gw. rewrite <-Hps. split_and!; [done|apply Hip, (at_registry _ _ Hat)|done].
Qed.
(** A pod and its VM seen from a manager whose tables are the same. *)
Lemma attested_quiet work work' m m' :
  attested work m → vm_side m' = vm_side m → m'.(pod_source_ips) = m.(pod_source_ips) → fewer_vms m m' →
  (∀ b rest, work' = b :: rest → head_ok m' b ∧ Forall is_start rest) → attested work' m'.
Proof.
  intros Hat Hside Hi Hf Hhead. pose proof Hside as [= Hc Ha Hv Hs]. eapply attested_fewer; [exact Hat|done|by rewrite Hc| | |..|done].
  - rewrite Ha. by apply (at_server _ _ Hat).
  - rewrite Hs. by apply (at_registry _ _ Hat).
  - intros id p cid _ _ _ _. split; [by apply vm_at_side|by rewrite Hi].
Qed.

Lemma start_head m b rest : Forall is_start (b :: rest) → head_ok m b ∧ Forall is_start rest.
Proof. intros [Hb Hrest]%Forall_cons. split; [by destruct b|done]. Qed.

Lemma attested_add spec p rest m next m' :
  attested (BootAdd spec p :: rest) m → act (BootAdd spec p) m = (next, m') → attested (next ++ rest) m'.
Proof.
  intros Hat Hact. pose proof Hact as ((t & Hpods) & _ & (probe_set & now_ms & ->))%act_effect. cbn zeta in Hpods.
  destruct (at_head _ _ Hat _ _ eq_refl) as [(Hps & Hvm) Hstarts].
  destruct (quiet_action _ _ _ _ Hact) as [Hside _]; [done..|].
  assert (∀ cid, vm_at m' cid = vm_at m cid) as Hv by (intros; by apply vm_at_side).
  set (id := pod_id_of spec p.(st_pod_spec)) in *. pose proof Hside as [= Hc Ha _ Hs].
  assert (∀ k, (∀ ip, k = id → p.(st_registered_ip) = Some ip → m'.(pod_source_ips) !! k = Some ip) ∧
    (k ≠ id → m'.(pod_source_ips) !! k = m.(pod_source_ips) !! k)) as Hips.
  { apply act_run in Hact as (r & Hrun & _). cbn [Node.do_action] in Hrun. unfold now, mbind, M_bind, zoom in Hrun.
    destruct (read_clock (clock m)) as [t0 cl].
    destruct (st_registered_ip p) as [ip0|]; cbn in Hrun; injection Hrun as _ <-; cbn; intros k; (split; [|try done]).
    - intros ip -> [= <-]. apply lookup_insert_eq.
    - intros Hk. by rewrite lookup_insert_ne.
    - done. }
  assert (∀ k q, k ≠ id → m'.(pod_manager) !! k = Some q → m.(pod_manager) !! k = Some q) as Hold.
  { intros k q Hk. by rewrite Hpods, lookup_insert_ne. }
  split.
  - rewrite Hc. apply (at_next _ _ Hat).
  - rewrite Ha. apply (at_server _ _ Hat).
  - rewrite Hs. apply (at_registry _ _ Hat).
  - intros k q Hq Hrt. rewrite Hc. destruct (decide (k = id)) as [->|Hk]; [|by apply (at_cid _ _ Hat k q (Hold _ _ Hk Hq))].
    rewrite Hpods, lookup_insert_eq in Hq. injection Hq as <-. destruct (Hvm Hrt) as (Hb & _). by exists p.(st_handle).
  - assert (∀ cid k, has_cid m' cid k → k = id ∧ spec.(spec_runtime) = CloudHypervisor ∧ cid = p.(st_handle) ∨ k ≠ id ∧ has_cid m cid k) as Hhas.
    { intros cid k (q & Hq & Hrt & Hpid). destruct (decide (k = id)) as [->|Hk]; [left|right].
      - rewrite Hpods, lookup_insert_eq in Hq. injection Hq as <-. by injection Hpid as <-.
      - split; [done|]. exists q. by split; [apply Hold|]. }
    intros cid k k' [(-> & Hrt & ->)|[Hk Hin]]%Hhas [(-> & Hrt' & Hc')|[Hk' Hin']]%Hhas; [done| | |by eapply (at_inj _ _ Hat)].
    + destruct (Hvm Hrt) as (_ & Hno & _). by apply Hno in Hin'.
    + subst cid. destruct (Hvm Hrt') as (_ & Hno & _). by apply Hno in Hin.
  - intros k q Hq Hrt Hact'. destruct (decide (k = id)) as [->|Hk].
    + rewrite Hpods, lookup_insert_eq in Hq. injection Hq as <-. destruct (Hvm Hrt) as (_ & _ & meas & ip & gw & Him & Hip & Hvat).
      exists p.(st_handle), spec, p.(st_pod_spec), meas, ip, gw. rewrite Hv. split_and!; try done. by apply Hips.
    + destruct (at_active _ _ Hat k q (Hold _ _ Hk Hq) Hrt Hact') as (cid & sp & ps & meas & ip & gw & Hfacts).
      exists cid, sp, ps, meas, ip, gw. rewrite Hv. destruct (Hips k) as [_ ->]; done.
  - intros b rest' [= <- <-]. by split.
Qed.

Lemma evicting_fewer id m m' : m'.(pod_manager) = alter begin_eviction id m.(pod_manager) → fewer_vms m m'.
Proof.
  intros Hpods k q Hq. rewrite Hpods in Hq. destruct (decide (k = id)) as [->|Hk].
  - rewrite lookup_alter_eq in Hq. apply fmap_Some in Hq as (p & Hp & ->). exists p. split; [done|].
    unfold same_vm, begin_eviction, active. by destruct (state p) eqn:Hst; cbn; rewrite ?Hst.
  - rewrite lookup_alter_ne in Hq by done. exists q. split; [done|]. by split_and!.
Qed.
Lemma removed_fewer id m m' : m'.(pod_manager) = delete id m.(pod_manager) → fewer_vms m m'.
Proof.
  intros Hpods k q Hq. rewrite Hpods in Hq. apply lookup_delete_Some in Hq as [_ Hq]. exists q. split; [done|]. by split_and!.
Qed.

Lemma attested_begin id rest m next m' :
  attested (EvictBegin id :: rest) m → act (EvictBegin id) m = (next, m') → attested (next ++ rest) m'.
Proof.
  intros Hat Hact. pose proof Hact as (Hpods & _ & _)%act_effect. cbn [pods_after] in Hpods.
  destruct (quiet_action _ _ _ _ Hact) as [Hside Hi]; [done..|]. destruct (at_head _ _ Hat _ _ eq_refl) as [_ Hstarts].
  eapply attested_quiet; [exact Hat|done|by apply Hi|by eapply evicting_fewer|].
  apply act_run in Hact as (r & Hrun & Hr). intros b rest' Hb. destruct Hr as [(e & _ & ->)| ->].
  - cbn in Hb. subst rest. by apply start_head.
  - apply do_action_next in Hrun as (p & Hp & ->). cbn in Hb. injection Hb as <- <-. split; [|done].
    exists (begin_eviction p). rewrite Hpods, lookup_alter_eq, Hp. split; [done|].
    unfold begin_eviction, active. destruct (state p) eqn:Hst; cbn; rewrite ?Hst; naive_solver.
Qed.

(** One action of the schedule task; a boot takes at most one CID. *)
Lemma attested_action b rest m next m' :
  attested (b :: rest) m → m.(cid_allocator) + 1 < 2 ^ 32 → act b m = (next, m') →
  attested (next ++ rest) m' ∧ m'.(cid_allocator) ≤ m.(cid_allocator) + 1.
Proof.
  intros Hat Hbound Hact. destruct (at_head _ _ Hat _ _ eq_refl) as [Hhead Hstarts].
  assert ((∀ spec, b ≠ BootStart spec) → m'.(cid_allocator) ≤ m.(cid_allocator) + 1) as Hle.
  { intros Hb. assert (m'.(cid_allocator) = m.(cid_allocator)) as ->; [|lia]. destruct (act_run _ _ _ _ Hact) as (r & Hrun & _).
    destruct b; try by apply (keeps_run cid_allocator) in Hrun; [|cbn [Node.do_action]; try unfold now; keeps].
    - pose proof (at_server _ _ Hat) as [a Ha].
      destruct (evict_stop_run _ _ _ _ _ _ _ Hrun Ha) as ([[= -> _ _]|(_ & a' & _ & [= -> _ _])] & _); done.
    - by destruct (Hb spec). }
  pose proof Hact as (Hpods & _ & Hnext)%act_effect.
  destruct b as [id|id rt h|id rt h|id|spec|spec p|id probe_set now_ms]; cbn [pods_after next_of head_ok] in *;
    [split; [by eapply attested_begin|by apply Hle]| |split; [by eapply attested_stop|by apply Hle]| |by eapply attested_start
    |split; [by eapply attested_add|by apply Hle]|]; (split; [|by apply Hle]);
    destruct (quiet_action _ _ _ _ Hact) as [Hside Hi]; try done; (eapply attested_quiet; [exact Hat|done|by apply Hi| |]).
  - apply same_pods_fewer. rewrite Hpods. apply same_pods_refl.
  - rewrite Hnext. intros b rest' [= <- <-]. split; [|done]. cbn. by rewrite Hpods.
  - by eapply removed_fewer.
  - subst next. cbn. intros b rest' ->. by apply start_head.
  - apply same_pods_fewer. rewrite Hpods. apply same_pods_refl.
  - subst next. cbn. intros b rest' ->. by apply start_head.
Qed.
(** The other tasks touch neither the tables of the VMs nor the addresses. *)
Lemma other_vms n e out n' :
  node_step n e = Some (out, n') → other_event e →
  vm_side n'.(manager) = vm_side n.(manager) ∧ n'.(manager).(pod_source_ips) = n.(manager).(pod_source_ips).
Proof.
  intros Hs He. pose proof Hs as Hd%delegation_quiet.
  destruct e as [u| |run_probe now_ms|now_unix|u|u|now_unix| |]; try done; cbn [Node.node_step] in Hs.
  - destruct (probing n); [|done]. destruct (manager n).(probes) as [rs|]; [|done].
    destruct (tick _ _ rs) as [results rs']. by injection Hs as _ <-.
  - destruct (probing n) as [|t results]; [done|]. destruct (process_probe_result _ _ _) as [evs pods']. by injection Hs as _ <-.
  - destruct (on_route_update _ _ _ _) as [o v]. by injection Hs as _ <-.
  - destruct (on_sag_update _ _ _) as [r [st pods']]. by injection Hs as _ <-.
  - by destruct Hd as (d & ks & _ & ->).
  - by destruct Hd as (d & ks & _ & ->).
  - by injection Hs as _ <-.
Qed.

Lemma head_same m m' b :
  vm_side m' = vm_side m → same_pods m.(pod_manager) m'.(pod_manager) → head_ok m b → head_ok m' b.
Proof.
  intros Hside Hs. assert (∀ id rt h,
    (∃ p, m.(pod_manager) !! id = Some p ∧ ¬ active p ∧ p.(runtime) = rt ∧ default 0 p.(pid) = h) →
    ∃ p, m'.(pod_manager) !! id = Some p ∧ ¬ active p ∧ p.(runtime) = rt ∧ default 0 p.(pid) = h) as Hev.
  { intros id rt h (p & Hp & Hina & Hrt & Hh). destruct (same_pods_fwd _ _ _ _ Hs Hp) as (q & Hq & [_ _ (Hrt' & Hpid & _) Hact]).
    exists q. rewrite Hact, Hrt', Hpid. by split_and!. }
  destruct b as [id|id rt h|id rt h|id|spec|spec p|id probe_set now_ms]; cbn [head_ok]; try done; try apply Hev.
  intros [Hps Hvm]. split; [done|]. intros Hrt. destruct (Hvm Hrt) as (Hb & Hno & meas & ip & gw & Him & Hip & Hat).
  pose proof Hside as [= Hc _ _ _]. split; [by rewrite Hc|]. split.
  - intros id Hid. apply (Hno id). eapply has_cid_fewer; [by apply same_pods_fewer|done].
  - exists meas, ip, gw. by rewrite (vm_at_side _ _ _ Hside).
Qed.

Lemma attested_run n es outs n' :
  attested n.(todo) n.(manager) → n.(manager).(cid_allocator) + Z.of_nat (length es) < 2 ^ 32 →
  node_run n es = Some (outs, n') → attested n'.(todo) n'.(manager).
Proof.
  revert n outs. induction es as [|e es IH]; intros n outs Hat Hb; [by intros [= _ <-]|].
  intros (out & outs' & n1 & Hs & Hrun & ->)%node_run_cons. cbn [length] in Hb.
  assert (attested n1.(todo) n1.(manager) ∧ n1.(manager).(cid_allocator) ≤ n.(manager).(cid_allocator) + 1) as [Hat1 Hle];
    [|eapply IH; [exact Hat1|lia|exact Hrun]].
  assert (other_event e → attested n1.(todo) n1.(manager) ∧ n1.(manager).(cid_allocator) ≤ n.(manager).(cid_allocator) + 1) as Hother.
  { intros Ho. destruct (other_step _ _ _ _ _ _ _ _ _ _ _ _ _ _ Hs Ho) as (-> & Hsame & _).
    destruct (other_vms _ _ _ _ Hs Ho) as [Hside Hi]. pose proof Hside as [= Hc _ _ _]. split; [|lia].
    eapply attested_quiet; [exact Hat|done|done|by apply same_pods_fewer|].
    intros b rest Hw. destruct (at_head _ _ Hat _ _ Hw) as [Hh Hst]. split; [by eapply head_same|done]. }
  destruct e as [u| |?|?|?|?|?| |]; try by apply Hother.
  - cbn [Node.node_step] in Hs. destruct (todo n) eqn:Ht; [|done]. injection Hs as _ <-. cbn. split; [|lia].
    eapply attested_quiet; [exact Hat|done|done|apply same_pods_fewer, same_pods_refl|].
    intros b rest Hw. apply start_head. rewrite <-Hw. apply Forall_app.
    split; apply Forall_forall; by intros ? (? & -> & _)%list_elem_of_fmap.
  - cbn [Node.node_step] in Hs. destruct (todo n) as [|b rest] eqn:Ht; [done|]. rewrite work_step_act in Hs.
    injection Hs as _ <-. destruct (act b (manager n)) as [next m'] eqn:Ha. eapply attested_action; [done| |done]. lia.
Qed.

(** C5: What the attestation server holds on the running node.  Over any
    interleaving of all tasks, whichever boots, evictions and VM stops fail, as
    long as the 32-bit CIDs last: every MicroVM pod that is pending, booting or
    running has a CID of its own, no other pod's and none of the reserved ones,
    under which the server holds the measurement of the image its workload was
    booted from and the context built from its own specification with the
    address recorded for this pod, and the manager its adapter. *)
Theorem vm_attested n es outs n' id p :
  attested n.(todo) n.(manager) → n.(manager).(cid_allocator) + Z.of_nat (length es) < 2 ^ 32 →
  node_run n es = Some (outs, n') →
  n_pods n' !! id = Some p → p.(runtime) = CloudHypervisor → active p →
  let m := n'.(manager) in
  ∃ cid spec ps meas ip gw,
    p.(pid) = Some cid ∧ 3 ≤ cid < m.(cid_allocator) ∧
    (∀ id' p', n_pods n' !! id' = Some p' → p'.(runtime) = CloudHypervisor → p'.(pid) = Some cid → id' = id) ∧
    spec.(spec_pod_spec) = Some ps ∧ pod_id_of spec ps = id ∧ spec.(spec_workload_id) = p.(workload_id) ∧
    ps.(ps_tenant_id) = p.(Pods.tenant_id) ∧
    measured_image spec meas ∧ measured_at m cid = Some meas ∧
    m.(pod_source_ips) !! id = Some ip ∧ context_at m cid = Some (context_for (Some ps) ip gw) ∧
    m.(microvms) !! cid = Some (api_socket cid).
Proof.
  intros Hn Hb Hrun Hp Hrt Ha m. pose proof (attested_run _ _ _ _ Hn Hb Hrun) as Hat. fold m in Hat.
  destruct (at_active _ _ Hat id p Hp Hrt Ha) as (cid & spec & ps & meas & ip & gw & Hc & Hps & Hid & Hw & Ht & Him & Hip & [= Hm Hx Hv]).
  destruct (at_cid _ _ Hat id p Hp Hrt) as (cid' & Hc' & Hbnd). assert (cid' = cid) as -> by congruence.
  exists cid, spec, ps, meas, ip, gw. split_and!; try done; [lia|lia|].
  intros id' p' Hp' Hrt' Hpid'. apply (at_inj _ _ Hat cid); [by exists p'|by exists p].
Qed.
End attest.

(** ** Witness: a node that boots the MicroVM "db" beside the container "web" and
    takes a frame that drops "web" *)

Import Workloads.Sample.
#[local] Existing Instance Policy.sample_compiler.
#[local] Notation on_running_node op := (op node_vmm (λ _, Ok []) (λ (_ : gmap string bytes) p, Ok (as_bytes p)) (λ b, b)
  granted_wire grant_key (λ (_ : list PodEvent), λ n : nat, (Ok tt, Datatypes.S n)) node_cfg ProbeLoopConfig_default "a") (only parsing).

Definition vm_assignment : WorkloadAssignment PodSpec := mkAssignment "db" "cloud-hypervisor" "img" "primary" (Some big_pod) "db".
Definition vm_frame (v : Z) : ScheduleUpdate PodSpec := mkSchedule v [vm_assignment].
Definition vm_booted : list node_event :=
  web_booted ++ [ScheduleFrame (mkSchedule 2 ((web_frame 1).(assignments) ++ [vm_assignment])); ScheduleStep; FlushTick; ScheduleStep; ScheduleStep;
                 ScheduleFrame (vm_frame 3); ScheduleStep; ScheduleStep; ScheduleStep; ScheduleStep].
Definition vm_end := node_from fresh_node vm_booted.

Lemma fresh_attested : attested (λ (_ : gmap string bytes) p, Ok (as_bytes p)) (λ b, b) node_cfg fresh_node.(todo) fresh_node.(manager).
Proof. apply no_pods_attested; [discriminate|by eexists|done|done]. Qed.
Lemma vm_attested_witness :
  ∃ p ps ip gw, n_pods vm_end !! "db" = Some p ∧ p.(pid) = Some 3 ∧ is_Some (measured_at vm_end.(manager) 3) ∧
    vm_end.(manager).(pod_source_ips) !! "db" = Some ip ∧
    context_at vm_end.(manager) 3 = Some (context_for (Some ps) ip gw).
Proof.
  assert ((λ p, (p.(runtime), p.(state), p.(pid))) <$> n_pods vm_end !! "db" = Some (CloudHypervisor, Booting, Some 3)) as Hvm
    by (vm_compute; reflexivity).
  apply fmap_Some in Hvm as (p & Hp & [= Hrt Hst Hpid]).
  destruct (on_running_node vm_attested fresh_node vm_booted (outs_from fresh_node vm_booted) vm_end "db" p
    fresh_attested ltac:(vm_compute; reflexivity) (run_from_some fresh_node vm_booted ltac:(vm_compute; reflexivity))
    Hp (eq_sym Hrt)) as (cid & spec & ps & meas & ip & gw & Hc & _ & _ & Hps & Hid & _ & _ & _ & Hm & Hip & Hctx & _).
  - unfold active. rewrite <-Hst. split; discriminate.
  - exists p, ps, ip, gw. rewrite Hc in Hpid. injection Hpid as <-.
    exact (conj Hp (conj Hc (conj (ex_intro _ meas Hm) (conj Hip Hctx)))).
Defined.
