(* ===== verification/NodeGuests.v ===== *)
(** The guests of the running node: the registrations of the schedule task
    (Node.v, NodeAttest.v) are those the handshakes of VsockServer.v interleave
    with.  What [guest_isolation] assumes of the launcher follows here from the
    node. *)
From S2P Require Import Prelude Simulation Errors Core Routes IpAllocator Degraded Counters Pods.
From S2P Require Import Probes Volumes Netns Containerd MicroVm Attest PodEvents Workloads Wiring WatchLoops.
From S2P Require Import Tasks VsockServer Node NodeInvariants NodeAttest.
From S2P Require AgentTasks Policy.

(** ** The server with the log of its registrations *)

Section log.
Context `{FleetCore} {OS : HashOrder SpiffeId}.

Definition Logged : Type := VsockAttestServer * list server_op.
Definition logged (f : VsockAttestServer → VsockAttestServer) (o : server_op) (a : Logged) : Logged := (f a.1, a.2 ++ [o]).
#[export] Instance logged_registrar : AttestationRegistrar Logged := {
  register_boot_measurement cid m := logged (register_boot_measurement cid m) (RegisterMeasurement cid m);
  unregister_boot_measurement cid := logged (unregister_boot_measurement cid) (UnregisterMeasurement cid);
  register_workload_context cid ctx := logged (register_workload_context cid ctx) (RegisterContext cid ctx);
  unregister_workload_context cid := logged (unregister_workload_context cid) (UnregisterContext cid);
}.

(** What is registered under which CID, in order. *)
Definition measurements (log : list server_op) : list (Z * BootMeasurement) :=
  omap (λ o, match o with RegisterMeasurement cid m => Some (cid, m) | _ => None end) log.
Definition contexts (log : list server_op) : list (Z * WorkloadContext) :=
  omap (λ o, match o with RegisterContext cid ctx => Some (cid, ctx) | _ => None end) log.

(** The server a log leads to. *)
Definition replay (s : VsockAttestServer) (o : server_op) : VsockAttestServer :=
  match o with
  | RegisterMeasurement cid m => register_boot_measurement cid m s
  | UnregisterMeasurement cid => unregister_boot_measurement cid s
  | RegisterContext cid ctx => register_workload_context cid ctx s
  | UnregisterContext cid => unregister_workload_context cid s
  | SetBuilder _ | Progress _ _ _ => s
  end.

(** The registrations among what a server wakes up to. *)
Definition registration (o : server_op) : option server_op :=
  match o with SetBuilder _ | Progress _ _ _ => None | _ => Some o end.
Definition registrations {I} (ws : list (wake I server_op)) : list server_op :=
  omap (λ w, match w with Meanwhile o => registration o | _ => None end) ws.
End log.

(** ** The registrations of the node *)

Section guests.
Context `{FleetCore} {OS : HashOrder string} {OZ : HashOrder Z} {OB : HashOrder bytes} {OI : HashOrder SpiffeId}.
Context {D F W V G R T S Ev C : Type}.
Context `{ContainerdServices D} `{FileSystem F} `{Directories F} `{Shell W} `{NetGuard G}
  `{SrcIdentityRegistry R} `{!KernelMap T Z (list PodNetCounters)} `{Clock C}.
Context {RD RL PT : Type} `{!KernelMap RD Z bytes} `{!KernelMap RL bytes Z} `{!KernelMap PT bytes bytes}.
Context `{Policy.PolicyCompiler}.
Context (vmm : string → VmmClient V).
Context (to_vec : Json → result string bytes).
Context (file_read : F → string → result string bytes) (blake3 : bytes → bytes).
Context (wire_from_bytes : bytes → result string DelegatedSigningKey)
        (request_delegated_key : DelegatedKeyRequest → M AgentError S DelegatedKeyResponse).
Context (report_pod_events : list PodEvent → M string Ev unit).
Context (cfg : ManagerConfig) (loop_cfg : ProbeLoopConfig).
Context (node_name : string).
#[local] Abbreviation Manager := (WorkloadManager (D := D) (F := F) (W := W) (V := V) (G := G) (R := R) (A := Logged) (T := T)
  (S := S) (Ev := Ev) (C := C)).
#[local] Abbreviation State := (NodeState (D := D) (F := F) (W := W) (V := V) (G := G) (R := R) (A := Logged) (T := T)
  (S := S) (Ev := Ev) (C := C) (RD := RD) (RL := RL) (PT := PT)).
#[local] Abbreviation node_step := (node_step vmm to_vec file_read blake3 wire_from_bytes request_delegated_key
  report_pod_events cfg loop_cfg node_name).
#[local] Abbreviation node_run := (node_run vmm to_vec file_read blake3 wire_from_bytes request_delegated_key
  report_pod_events cfg loop_cfg node_name).
#[local] Abbreviation act := (act vmm to_vec file_read blake3 wire_from_bytes request_delegated_key report_pod_events cfg).
#[local] Abbreviation measured_image := (measured_image file_read blake3 cfg).
#[local] Abbreviation vm_start := (vm_start (A := Logged) file_read blake3 cfg).
Implicit Types (n : State) (m : Manager) (a : Logged).

(** A MicroVM the node booted or tried to boot. *)
Record vm_boot := mkBoot {
  vb_cid : Z;
  vb_spec : WorkloadSpec PodSpec;
  vb_measurement : BootMeasurement;
  vb_guest_ip : Z;
  vb_gateway : Z;
}.
Definition vb_context (b : vm_boot) : WorkloadContext :=
  context_for b.(vb_spec).(spec_pod_spec) b.(vb_guest_ip) b.(vb_gateway).

(** Each CID is registered for one boot of an assigned workload. *)
Record boots_ok (assigned : list (WorkloadSpec PodSpec)) (next : Z) (boots : list vm_boot) : Prop := mkBootsOk {
  bo_once : NoDup (vb_cid <$> boots);
  bo_cid : Forall (λ b, 3 ≤ b.(vb_cid) < next) boots;
  bo_image : Forall (λ b, b.(vb_spec) ∈ assigned ∧ measured_image b.(vb_spec) b.(vb_measurement)) boots;
}.
Record log_ok (assigned : list (WorkloadSpec PodSpec)) (next : Z) a (boots : list vm_boot) : Prop := mkLogOk {
  lo_boots : boots_ok assigned next boots;
  lo_measurements : measurements a.2 = (λ b, (b.(vb_cid), b.(vb_measurement))) <$> boots;
  lo_contexts : contexts a.2 = (λ b, (b.(vb_cid), vb_context b)) <$> boots;
  lo_replay : a.1 = foldl replay VsockAttestServer_new a.2;
}.

Lemma log_unregister assigned next a boots cid :
  log_ok assigned next a boots → log_ok assigned next (unregister_vm cid a) boots.
Proof.
  intros [Hb Hm Hc Hr]. split; [done|..]; unfold unregister_vm; cbn; unfold measurements, contexts in *; rewrite ?omap_app; cbn.
  - by rewrite !app_nil_r.
  - by rewrite !app_nil_r.
  - rewrite !foldl_app. cbn. by rewrite <-Hr.
Qed.
Lemma log_register assigned next a boots b :
  log_ok assigned next a boots → 3 ≤ next → b.(vb_cid) = next → b.(vb_spec) ∈ assigned →
  measured_image b.(vb_spec) b.(vb_measurement) →
  log_ok assigned (next + 1) (register_vm b.(vb_cid) b.(vb_measurement) (vb_context b) a) (boots ++ [b]).
Proof.
  intros [[Hnd Hcid Him] Hm Hc Hr] Hn Hb Hs Hi. split.
  - split.
    + rewrite fmap_app. apply NoDup_app. split; [done|]. split; [|apply NoDup_singleton].
      intros cid (b' & -> & Hb')%list_elem_of_fmap ?%list_elem_of_singleton. rewrite Forall_forall in Hcid. apply Hcid in Hb'. lia.
    + apply Forall_app. split; [|rewrite Forall_singleton; lia]. eapply Forall_impl; [exact Hcid|]. cbn. intros; lia.
    + apply Forall_app. by rewrite Forall_singleton.
  - unfold register_vm. cbn. unfold measurements in *. rewrite !omap_app, fmap_app, Hm. cbn. by rewrite app_nil_r.
  - unfold register_vm. cbn. unfold contexts in *. rewrite !omap_app, fmap_app, Hc. cbn. by rewrite app_nil_r.
  - unfold register_vm. cbn. rewrite !foldl_app. cbn. by rewrite <-Hr.
Qed.
Lemma log_later assigned next next' a boots : log_ok assigned next a boots → next ≤ next' → log_ok assigned next' a boots.
Proof.
  intros [[Hnd Hcid Him] Hm Hc Hr] Hle. split; [split|..]; try done.
  eapply Forall_impl; [exact Hcid|]. cbn. intros; lia.
Qed.

Lemma log_start assigned spec gip gw c a vs h t boots :
  vm_start spec (context_for spec.(spec_pod_spec) gip gw) c a vs h t →
  log_ok assigned c a boots → spec ∈ assigned → 3 ≤ c → c + 1 < 2 ^ 32 →
  ∃ c' a' vs' boots', t = (c', Some a', vs') ∧ c ≤ c' ≤ c + 1 ∧ log_ok assigned c' a' boots'.
Proof.
  intros Hst Ha Hs Hc Hb. assert (u32_add c 1 = c + 1) as Hadd by (apply u32_add_small; unfold is_u32; lia).
  pose proof (log_later _ _ (c + 1) _ _ Ha ltac:(lia)) as Hlater.
  destruct Hst as [| | |meas Him|meas Him]; rewrite ?Hadd.
  - exists c, a, vs, boots. split; [done|]. split; [lia|done].
  - exists (c + 1), a, vs, boots. split; [done|]. split; [lia|done].
  - eexists (c + 1), _, vs, boots. split; [done|]. split; [lia|]. by apply log_unregister.
  - eexists (c + 1), _, vs, (boots ++ [mkBoot c spec meas gip gw]). split; [done|]. split; [lia|]. apply log_unregister.
    by apply (log_register _ _ _ _ (mkBoot c spec meas gip gw)).
  - eexists (c + 1), _, _, (boots ++ [mkBoot c spec meas gip gw]). split; [done|]. split; [lia|].
    by apply (log_register _ _ _ _ (mkBoot c spec meas gip gw)).
Qed.

(** The node and its log: only assigned workloads are still to be booted. *)
Definition to_boot_in (assigned : list (WorkloadSpec PodSpec)) (b : action) : Prop :=
  match b with BootStart spec => spec ∈ assigned | _ => True end.
Record logs (assigned : list (WorkloadSpec PodSpec)) (work : list action) m : Prop := mkLogs {
  ls_next : 3 ≤ m.(cid_allocator);
  ls_log : ∃ a boots, m.(attestation) = Some a ∧ log_ok assigned m.(cid_allocator) a boots;
  ls_work : Forall (to_boot_in assigned) work;
}.

Lemma logs_side assigned work work' m m' :
  logs assigned work m → vm_side m' = vm_side m → Forall (to_boot_in assigned) work' →
  logs assigned work' m' ∧ m'.(cid_allocator) ≤ m.(cid_allocator) + 1.
Proof. intros [Hn Hl _] [= Hc Ha _ _] Hw. split; [|lia]. split; [by rewrite Hc|by rewrite Hc, Ha|done]. Qed.

Lemma logs_action assigned b rest m next m' :
  logs assigned (b :: rest) m → m.(cid_allocator) + 1 < 2 ^ 32 → act b m = (next, m') →
  logs assigned (next ++ rest) m' ∧ m'.(cid_allocator) ≤ m.(cid_allocator) + 1.
Proof.
  intros Hl Hbound Hact. destruct (ls_log _ _ _ Hl) as (a & boots & Ha & Hlog). pose proof (ls_next _ _ _ Hl) as Hn.
  pose proof (ls_work _ _ _ Hl) as [Hb Hrest]%Forall_cons.
  assert (Forall (to_boot_in assigned) (next ++ rest)) as Hwork.
  { apply Forall_app. split; [|done]. pose proof Hact as (_ & _ & Hnext)%act_effect.
    destruct b; cbn [next_of] in Hnext; naive_solver (by constructor). }
  assert ((∀ id rt h, b ≠ EvictStop id rt h) → (∀ spec, b ≠ BootStart spec) →
    logs assigned (next ++ rest) m' ∧ m'.(cid_allocator) ≤ m.(cid_allocator) + 1) as Hquiet.
  { intros Hb1 Hb2. apply quiet_action in Hact as [Hside _]; [|done..]. by eapply logs_side. }
  apply act_run in Hact as (r & Hrun & _).
  destruct b as [id|id rt h|id rt h|id|spec|spec p|id probe_set now_ms]; try by apply Hquiet.
  - eapply evict_stop_run in Hrun as ([Ht|(_ & a' & Ha' & [= Hc Hat _])] & _ & _); [| |exact Ha].
    + injection Ht as Hc Hat _. split; [|lia]. split; [by rewrite Hc|by rewrite Hc, Hat; eauto|done].
    + split; [|lia]. split; [by rewrite Hc|rewrite Hc, Hat|done]. exists a', boots. split; [done|].
      destruct Ha' as [->| ->]; [done|by apply log_unregister].
  - assert (∃ rs, start_pod vmm to_vec file_read blake3 wire_from_bytes request_delegated_key cfg spec m = (rs, m')) as (rs & Hs).
    { cbn [do_action] in Hrun. unfold mbind, M_bind in Hrun. destruct (start_pod _ _ _ _ _ _ _ spec m) as [[p|e] m1];
        injection Hrun as _ <-; by eexists. }
    eapply start_pod_start in Hs as (gip & gw & h & Hst & _); [|exact Ha].
    eapply log_start in Hst as (c' & a' & vs' & boots' & [= Hc' Hat _] & Hle & Hlog'); [|done..].
    split; [|lia]. split; [lia|rewrite Hc', Hat; eauto|done].
Qed.

Lemma logs_run assigned n es outs n' :
  logs assigned n.(todo) n.(manager) → n.(manager).(cid_allocator) + Z.of_nat (length es) < 2 ^ 32 →
  (∀ u spec, u ∈ schedule_frames es → spec ∈ schedule_specs u.(assignments) → spec ∈ assigned) →
  node_run n es = Some (outs, n') → logs assigned n'.(todo) n'.(manager).
Proof.
  revert n outs. induction es as [|e es IH]; intros n outs Hl Hb Hin; [by intros [= _ <-]|].
  intros (out & outs' & n1 & Hs & Hrun & ->)%node_run_cons. cbn [length] in Hb.
  assert (logs assigned n1.(todo) n1.(manager) ∧ n1.(manager).(cid_allocator) ≤ n.(manager).(cid_allocator) + 1) as [Hl1 Hle].
  2:{ eapply IH; [exact Hl1|lia| |exact Hrun]. intros u spec Hu. apply Hin. unfold schedule_frames in *.
      destruct e; cbn; [by right|done..]. }
  clear IH Hrun. assert (other_event e → logs assigned n1.(todo) n1.(manager) ∧
    n1.(manager).(cid_allocator) ≤ n.(manager).(cid_allocator) + 1) as Hother.
  { intros Ho. destruct (other_step _ _ _ _ _ _ _ _ _ _ _ _ _ _ Hs Ho) as (-> & _ & _).
    apply other_vms in Hs as [Hside _]; [|done]. eapply logs_side; [done..|apply Hl]. }
  destruct e as [u| |?|?|?|?|?| |]; try by apply Hother.
  - cbn [Node.node_step] in Hs. destruct (todo n) eqn:Ht; [|done]. injection Hs as _ <-. cbn.
    eapply logs_side; [done..|]. apply Forall_app. split; apply Forall_forall.
    + by intros ? (? & -> & _)%list_elem_of_fmap.
    + intros ? (spec & -> & Hspec)%list_elem_of_fmap. apply (Hin u); [by left|].
      by apply list_elem_of_filter in Hspec as [_ ?].
  - cbn [Node.node_step] in Hs. destruct (todo n) as [|b rest] eqn:Ht; [done|]. rewrite work_step_act in Hs.
    injection Hs as _ <-. destruct (act b (manager n)) as [next m'] eqn:Ha. eapply logs_action; [done| |done]. lia.
Qed.

(** ** The handshakes beside it *)

Context {Y K : Type} `{ByteStream Y} `{!KeyGen K}.
Context `{!VsockMsg VsockAttestationChallenge} `{!VsockMsg VsockAttestationProof}
        `{!VsockMsg AgentAttestResult} `{!VsockMsg WorkloadConfig}.
Context (sign_svid_delegated : DelegatedSigningKey → bytes → Z → Z → result string bytes).
Context (PROTOCOL_VERSION MAX_MESSAGE_BYTES : Z) (production : bool).
#[local] Abbreviation Conn := (Y * list bytes)%type.
#[local] Abbreviation accept_loop := (accept_loop (X := Conn) (W := K) sign_svid_delegated PROTOCOL_VERSION MAX_MESSAGE_BYTES production).
#[local] Abbreviation run_op := (run_server_op (X := Conn) (W := K) sign_svid_delegated PROTOCOL_VERSION MAX_MESSAGE_BYTES production).

(** The configuration builder reads the keys and the routes of the node: each
    builder the server sees is that of a state the node goes through. *)
Context (svid_ttl : Z).
Definition builder_at n (b : WorkloadConfigBuilder) : Prop :=
  ∃ client keys, n.(manager).(delegation) = Some (client, keys) ∧
    b = mkBuilder cfg.(mc_trust_domain) n.(handed_routes) keys svid_ttl.
Definition builder_during n (es : list node_event) (b : WorkloadConfigBuilder) : Prop :=
  ∃ es1 outs1 n1, es1 `prefix_of` es ∧ node_run n es1 = Some (outs1, n1) ∧ builder_at n1 b.

(** What the server wakes up to beside the node: nothing was written to a
    connection before it is accepted. *)
Definition beside n es (w : wake (Result (Conn * Z)) server_op) : Prop :=
  match w with
  | Ticked (Ok (x, _)) => x.2 = []
  | Meanwhile (SetBuilder b) => builder_during n es b
  | _ => True
  end.

(** A configuration with a certificate has it from a key granted for the workload. *)
Definition config_granted (ctx : WorkloadContext) (config : WorkloadConfig) : Prop :=
  (config.(svid_cert_chain_der) = [] ∧ config.(svid_private_key_der) = []) ∨
  ∃ e csr cert now, granted wire_from_bytes request_delegated_key e ∧
    e.(key).(target_svid_id) =
      spiffe_new cfg.(mc_trust_domain) ctx.(pod_spec).(ps_tenant_id) kind_sa ctx.(pod_spec).(ps_workload_id) ∧
    now < e.(key).(expires_at_unix) ∧
    sign_svid_delegated e.(key) csr svid_ttl now = Ok cert ∧ config.(svid_cert_chain_der) = [cert].

Lemma config_during n es context_of_cid cid config :
  keys_granted wire_from_bytes request_delegated_key n.(manager).(delegation) →
  config_of_cid (W := K) sign_svid_delegated context_of_cid (builder_during n es) cid config →
  config_granted (context_of_cid cid) config.
Proof.
  intros Hn (b & now & w & (es1 & outs1 & n1 & _ & Hrun & client & keys & Hd & ->) & Hconfig).
  assert (keys_granted wire_from_bytes request_delegated_key n1.(manager).(delegation)) as Hg.
  { eapply node_run_invariant in Hrun; [|intros ????; apply node_step_granted|exact Hn]. exact Hrun. }
  rewrite Hd in Hg. destruct (Hg _ _ eq_refl) as [Hkey Hgr]. unfold config_granted. destruct Hconfig as [Hb|Hb].
  - destruct (build _ _ _ now w) as [r w'] eqn:Hrun'. cbn in Hb. subst r.
    apply svid_fail_closed in Hrun' as [(-> & -> & _)|(e & kp & csr & cert & He & Hexp & _ & _ & Hsig & -> & _)]; [by left|right].
    exists e, csr, cert, now. split_and!; try done; [by eapply Hgr|]. by apply (Hkey _ _ He).
  - injection Hb as <-. by left.
Qed.

Lemma accept_registries st t ws :
  (foldl (task_step accept_tick id run_op) (st, t) ws).2.(registries) = foldl replay t.(registries) (registrations ws).
Proof.
  revert st t. induction ws as [|w ws IH]; intros st t; [done|]. cbn [foldl].
  destruct w as [[]|[[x cid]|e]|o]; try by (destruct st; cbn [task_step accept_tick]; rewrite IH).
  cbn [task_step]. rewrite IH. unfold registrations. cbn. destruct o as [| | | | |i nonce now]; try done.
  cbn. destruct (t.(handshakes) !! i); [|done]. by destruct (hs_step _ _ _ _ _ _ _ _ _ _).
Qed.

Lemma node_admissible assigned next a boots measurement_of context_of_cid n es ws :
  log_ok assigned next a boots →
  (∀ b, b ∈ boots → measurement_of b.(vb_cid) = b.(vb_measurement) ∧ context_of_cid b.(vb_cid) = vb_context b) →
  Forall (beside n es) ws → registrations ws `prefix_of` a.2 →
  Forall (admissible measurement_of context_of_cid (builder_during n es)) ws.
Proof.
  intros [_ Hm Hc _] Hboots Hfresh [rest Hlog]. apply Forall_forall. intros w Hw.
  assert (∀ o, w = Meanwhile o → registration o = Some o → o ∈ a.2) as Hin.
  { intros o -> Ho. rewrite Hlog. apply elem_of_app. left. apply list_elem_of_omap. eauto. }
  rewrite Forall_forall in Hfresh. specialize (Hfresh w Hw). destruct w as [v|[[x cid]|e]|[cid meas|cid|cid ctx|cid|b|i nonce now]]; try done; cbn.
  - assert ((cid, meas) ∈ measurements a.2) as Hx by (apply list_elem_of_omap; eexists; split; [by apply Hin|done]).
    rewrite Hm in Hx. apply list_elem_of_fmap in Hx as (b & [= -> ->] & Hb). by destruct (Hboots b Hb) as [-> _].
  - assert ((cid, ctx) ∈ contexts a.2) as Hx by (apply list_elem_of_omap; eexists; split; [by apply Hin|done]).
    rewrite Hc in Hx. apply list_elem_of_fmap in Hx as (b & [= -> ->] & Hb). by destruct (Hboots b Hb) as [_ ->].
Qed.

(** C4: Guests of the running node.  Over any interleaving of all tasks of a node
    that starts without work, as long as the 32-bit CIDs last, every CID the
    attestation server has ever had registered stands for a single boot: of a
    workload the control plane assigned, with the measurement of its image and
    the context of its own specification.  So over any interleaving of the
    node's registrations with connections, key rotations and handshakes, at any
    point of them: the server holds what the node registered and nothing else,
    every connection accepted before the shutdown signal is handshaken once,
    under its peer's CID, and a configuration is only pushed after an acceptance
    against this boot's measurement and is that of this boot's workload, or the
    empty fallback once the VM is torn down; never another workload's, through
    failed boots, evictions and later boots alike.  A certificate in it was signed
    by an unexpired key that the control plane granted for exactly this workload. *)
Theorem node_guests_isolated n es outs n' s log :
  n.(todo) = [] → n.(manager).(attestation) = Some (VsockAttestServer_new, []) →
  keys_granted wire_from_bytes request_delegated_key n.(manager).(delegation) →
  3 ≤ n.(manager).(cid_allocator) → n.(manager).(cid_allocator) + Z.of_nat (length es) < 2 ^ 32 →
  node_run n es = Some (outs, n') → n'.(manager).(attestation) = Some (s, log) →
  ∃ boots, boots_ok (schedule_frames es ≫= λ u, schedule_specs u.(assignments)) n'.(manager).(cid_allocator) boots ∧
    ∀ builder gen ws, builder_during n es builder → Forall (beside n es) ws → registrations ws `prefix_of` log →
      let t := (accept_loop (mkServerTask VsockAttestServer_new builder gen []) ws).2 in
      (registrations ws = log → t.(registries) = s) ∧
      hs_cid <$> t.(handshakes) = accepted_cids ws ∧
      ∀ measurement_of context_of_cid,
        (∀ b, b ∈ boots → measurement_of b.(vb_cid) = b.(vb_measurement) ∧ context_of_cid b.(vb_cid) = vb_context b) →
        Forall (hs_wrote sign_svid_delegated PROTOCOL_VERSION production measurement_of context_of_cid
                  (builder_during n es)) t.(handshakes) ∧
        ∀ cid config, config_of_cid (W := K) sign_svid_delegated context_of_cid (builder_during n es) cid config →
          config_granted (context_of_cid cid) config.
Proof.
  intros Hidle Hfresh Hkeys Hc Hb Hrun Hlog. set (assigned := schedule_frames es ≫= _).
  apply (logs_run assigned) in Hrun as [_ (a & boots & Ha & Hok) _]; [|split; [done| |by rewrite Hidle]|done|].
  2:{ exists (VsockAttestServer_new, []), []. split; [done|]. by split; [split; constructor|..]. }
  2:{ intros u spec Hu Hspec. apply list_elem_of_bind. by exists u. }
  rewrite Hlog in Ha. injection Ha as <-. exists boots. split; [apply Hok|]. intros b k ws Hbuild Hws Hpre. cbn zeta. split_and!.
  - intros Hall. unfold VsockServer.accept_loop, run_task. rewrite accept_registries, Hall. symmetry. apply (lo_replay _ _ _ _ Hok).
  - exact (accept_cids_from sign_svid_delegated PROTOCOL_VERSION MAX_MESSAGE_BYTES production Running
      (mkServerTask VsockAttestServer_new b k []) ws).
  - intros mo co Hagree. split; [|intros cid config; by apply config_during].
    apply (guest_isolation sign_svid_delegated PROTOCOL_VERSION MAX_MESSAGE_BYTES production mo co (builder_during n es)); [|done|].
    + split; intros cid x Hx; cbn in Hx; by rewrite lookup_empty in Hx.
    + by eapply node_admissible.
Qed.
End guests.

(** ** Witness: "db" is booted, evicted between the verdict and the configuration
    of its guest, and booted again under the next CID *)

Import Workloads.Sample.
#[local] Existing Instance Policy.sample_compiler.
Definition stopping_vmm (socket : string) : VmmClient (list VmConfig) := {|
  create_vm cfg v := (Ok tt, v ++ [cfg]);
  boot_vm v := (Ok tt, v);
  shutdown_vm v := (Ok tt, v);
  delete_vm v := (Ok tt, v);
  vm_resize_put _ _ v := (Ok tt, v);
  vm_sleep _ v := v;
|}.
#[local] Notation on_running_node op := (op stopping_vmm (λ _, Ok []) (λ (_ : gmap string bytes) p, Ok (as_bytes p))
  (λ _, replicate 32 Byte.x09) granted_wire grant_key (λ (_ : list PodEvent), λ n : nat, (Ok tt, Datatypes.S n)) node_cfg
  ProbeLoopConfig_default "a") (only parsing).
Definition logged_manager : WorkloadManager (H := sample_core) (D := gset string) (F := gmap string bytes) (W := unit)
    (V := list VmConfig) (G := nat) (R := capmap Z bytes) (A := Logged (H := sample_core)) (T := capmap Z (list PodNetCounters))
    (S := Z) (Ev := nat) (C := Z) :=
  mkManager (H := sample_core) (new_lazy "" ∅ ∅) tt [] ∅ (VsockCidAllocator_new 3) (Some O) ∅ (Some identities0) block0 ∅
    (Some (0, ∅)) None (Some ∅) (Some (VsockAttestServer_new, [])) None 0.
Definition logged_node := mkNode logged_manager [] [] []
  (RouteSyncState_new, (mkCapmap 4 ∅ : routes_map, mkCapmap 4 ∅ : locals_map))
  (Policy.PolicySyncState_new, (mkCapmap 4 ∅ : capmap bytes bytes, mkCapmap 4 ∅ : capmap bytes bytes)) [] (PodEventReporter_new "a" O 100).
Definition vm_again : list node_event :=
  [ScheduleFrame (vm_frame 1); ScheduleStep; ScheduleStep; ScheduleStep; RouteFrame update1;
   ScheduleFrame (mkSchedule 2 []); ScheduleStep; ScheduleStep; ScheduleStep; ScheduleStep;
   ScheduleFrame (vm_frame 3); ScheduleStep; ScheduleStep; ScheduleStep].
Definition vm_again_run := on_running_node node_run logged_node vm_again.
Definition vm_again_end : NodeState := default logged_node (snd <$> vm_again_run).
Definition vm_again_log : list server_op := default [] (snd <$> vm_again_end.(manager).(attestation)).
(** The guest of CID 3 is handshaken while the schedule task goes on. *)
Definition guest_stream : bytes * list bytes := (le_bytes 4 64 ++ sample_proof.(raw_quote), []).
Definition first_builder : WorkloadConfigBuilder (H := sample_core) := mkBuilder (H := sample_core) "td" [] ∅ 86400.
Definition later_builder : WorkloadConfigBuilder (H := sample_core) :=
  mkBuilder (H := sample_core) "td" vm_again_end.(handed_routes) (default ∅ (snd <$> vm_again_end.(manager).(delegation))) 86400.
Definition wakes_of (b : WorkloadConfigBuilder) (log : list (server_op (H0 := sample_core))) :
    list (wake (Result ((bytes * list bytes) * Z)) (server_op (H0 := sample_core))) :=
  (Meanwhile <$> take 2 log) ++
  [Ticked (Ok (guest_stream, 3)); Ticked (Err (Internal "accept() failed: EINTR"));
   Meanwhile (Progress 0 sample_nonce 0); Meanwhile (Progress 0 [] 0)] ++
  (Meanwhile <$> take 3 (drop 2 log)) ++
  [Ticked (Ok (guest_stream, 4)); Meanwhile (Progress 0 [] 0); Meanwhile (Progress 1 sample_nonce 0);
   Meanwhile (SetBuilder b); Meanwhile (Progress 1 [] 0)] ++
  (Meanwhile <$> drop (2 + 3) log) ++ [Meanwhile (Progress 1 [] 0); Changed true].
Definition vm_again_served : ServerTask (H0 := sample_core) (X := bytes * list bytes) (W := nat) :=
  (accept_loop (H0 := sample_core) (X := bytes * list bytes) sample_sign 1 4096 true
    (mkServerTask VsockAttestServer_new first_builder O []) (wakes_of later_builder vm_again_log)).2.

Lemma registrations_app {I} (ws1 ws2 : list (wake I (server_op (H0 := sample_core)))) :
  registrations (ws1 ++ ws2) = registrations ws1 ++ registrations ws2.
Proof. apply omap_app. Qed.
Lemma meanwhile_registrations {I} (l : list (server_op (H0 := sample_core))) :
  Forall (λ o, registration o = Some o) l → registrations (I := I) (Meanwhile <$> l) = l.
Proof. induction 1 as [|o l Ho Hl IH]; [done|]. unfold registrations in *. cbn. by rewrite Ho, IH. Qed.
Lemma log_parts log : forallb (λ o, is_some (registration o)) log = true →
  let P := Forall (λ o : server_op (H0 := sample_core), registration o = Some o) in
  P (take 2 log) ∧ P (take 3 (drop 2 log)) ∧ P (drop (2 + 3) log).
Proof.
  intros Hlog P. assert (P log) as Hall.
  { apply Forall_forall. intros o Ho%list_elem_of_In. eapply forallb_forall in Hlog; [|exact Ho]. by destruct o. }
  unfold P in *. rewrite <-(take_drop 2 log), Forall_app in Hall. destruct Hall as [H2 Hall].
  rewrite <-(take_drop 3 (drop 2 log)), Forall_app, drop_drop in Hall. by destruct Hall.
Qed.
Lemma wakes_of_registrations b log :
  forallb (λ o, is_some (registration o)) log = true → registrations (wakes_of b log) = log.
Proof.
  intros (H2 & H3 & H5)%log_parts. unfold wakes_of. rewrite !registrations_app, !meanwhile_registrations by done.
  change (take 2 log ++ [] ++ take 3 (drop 2 log) ++ [] ++ drop (2 + 3) log ++ [] = log).
  by rewrite app_nil_r, !app_nil_l, <-drop_drop, !take_drop.
Qed.
Lemma wakes_of_beside b log :
  on_running_node builder_during 86400 logged_node vm_again b → forallb (λ o, is_some (registration o)) log = true →
  Forall (on_running_node beside (Y := bytes) 86400 logged_node vm_again) (wakes_of b log).
Proof.
  intros Hb (H2 & H3 & H5)%log_parts. assert (∀ l, Forall (λ o : server_op, registration o = Some o) l →
    Forall (on_running_node beside (Y := bytes) 86400 logged_node vm_again) (Meanwhile <$> l)) as Hmean.
  { induction 1 as [|o l Ho Hl IH]; constructor; [|exact IH]. by destruct o. }
  unfold wakes_of. rewrite !Forall_app. split_and!; try (by apply Hmean);
    repeat (apply List.Forall_cons; [first [exact I|reflexivity|exact Hb]|]); apply List.Forall_nil.
Qed.

Lemma logged_keys_granted : keys_granted granted_wire grant_key logged_node.(manager).(delegation).
Proof.
  intros c keys [= <- <-]. split; [intros t e He|intros t e He]; by rewrite lookup_empty in He.
Qed.

Lemma node_guests_isolated_witness :
  (λ h, (h.(hs_cid), length h.(hs_stream).2)) <$> vm_again_served.(handshakes) = [(3, 3%nat); (4, 3%nat)] ∧
  ∃ boots, NoDup (vb_cid <$> boots) ∧
    ∀ measurement_of context_of_cid,
      (∀ b, b ∈ boots → measurement_of b.(vb_cid) = b.(vb_measurement) ∧ context_of_cid b.(vb_cid) = vb_context b) →
      Forall (hs_wrote sample_sign 1 true measurement_of context_of_cid
        (on_running_node builder_during 86400 logged_node vm_again)) vm_again_served.(handshakes).
Proof.
  split; [vm_compute; reflexivity|].
  assert (∃ outs, vm_again_run = Some (outs, vm_again_end)) as [outs Hrun].
  { assert (is_some vm_again_run = true) as Hsome by (vm_compute; reflexivity). unfold vm_again_end.
    destruct vm_again_run as [[outs n']|]; [by exists outs|discriminate Hsome]. }
  assert (∃ s, vm_again_end.(manager).(attestation) = Some (s, vm_again_log)) as [s Hlog].
  { assert (is_some vm_again_end.(manager).(attestation) = true) as Hsome by (vm_compute; reflexivity). unfold vm_again_log.
    destruct (vm_again_end.(manager).(attestation)) as [[s log]|]; [by exists s|discriminate Hsome]. }
  assert (on_running_node builder_during 86400 logged_node vm_again first_builder) as Hfirst.
  { exists [], [], logged_node. split; [apply prefix_nil|]. split; [reflexivity|].
    exact (ex_intro _ 0 (ex_intro _ ∅ (conj eq_refl eq_refl))). }
  assert (on_running_node builder_during 86400 logged_node vm_again later_builder) as Hlater.
  { exists vm_again, outs, vm_again_end. split; [exists []; by rewrite app_nil_r|]. split; [exact Hrun|].
    assert (is_some vm_again_end.(manager).(delegation) = true) as Hsome by (vm_compute; reflexivity). unfold builder_at, later_builder.
    destruct (vm_again_end.(manager).(delegation)) as [[c keys]|]; [|discriminate Hsome].
    exact (ex_intro _ c (ex_intro _ keys (conj eq_refl eq_refl))). }
  assert (forallb (λ o, is_some (registration o)) vm_again_log = true) as Hregs by (vm_compute; reflexivity).
  destruct (on_running_node node_guests_isolated sample_sign 1 4096 true 86400 logged_node vm_again outs vm_again_end s vm_again_log
    eq_refl eq_refl logged_keys_granted ltac:(discriminate) ltac:(vm_compute; reflexivity) Hrun Hlog) as (boots & [Honce _ _] & Hserved).
  exists boots. split; [exact Honce|]. intros mo co Hagree.
  destruct (Hserved first_builder O (wakes_of later_builder vm_again_log) Hfirst (wakes_of_beside _ _ Hlater Hregs)) as (_ & _ & Hwrote).
  - exists []. rewrite app_nil_r. symmetry. exact (wakes_of_registrations _ _ Hregs).
  - exact (proj1 (Hwrote mo co Hagree)).
Defined.
