(* ===== verification/Join.v ===== *)
(** The join flows (src/join): attestation to the control plane, the node SVID
    and its installation.  The three loops of a join follow redirects without a
    bound on retries, so they take fuel; running out of it is an outcome of its
    own ([OutOfFuel]).  The TPM session, the key generator and the join RPCs
    are outside the repository and enter as classes. *)
From S2P Require Import Prelude Errors Store Core Config Svid Keystore Retry Client Attest.

(** A run ends with a value, with the error the code returns, or not within the
    fuel. *)
Inductive stop := Failed (e : AgentError) | OutOfFuel.

(** [fleetos_core::proto::identity] *)
Record AttestationQuote := mkQuote {
  join_quote_type : Z;
  raw_quote : bytes;
  raw_signature : bytes;
  join_token : string;
  quote_x25519_pubkey : bytes;
}.
Record ActivationRequest := mkActivation { req_ak_pub : bytes; req_ek_cert_der : bytes; req_ek_pub : bytes }.
Record ActivationChallenge := mkActivationChallenge {
  credential_blob : bytes;
  challenge_secret : bytes;
  server_nonce : bytes;
}.
Record ActivationProof := mkProof {
  hmac : bytes;
  proof_quote : bytes;
  quote_signature : bytes;
  pcr_selection : bytes;
  proof_csr_der : bytes;
  proof_x25519_pubkey : bytes;
}.
Record SvidResponse := mkSvidResponse { resp_cert_der : bytes; resp_svid_version : Z }.

Class JoinServices (N : Type) `{Tonic N} := {
  (** [QuoteType::Tpm2 as i32] *)
  quote_type_tpm2 : Z;
  request_nonce : Conn → string → M Status N bytes;
  submit_quote : Conn → AttestationQuote → M Status N unit;
  request_activation : Conn → ActivationRequest → M Status N ActivationChallenge;
  submit_activation_proof : Conn → ActivationProof → M Status N SvidResponse;
  ca_submit_csr : Conn → bytes → M Status N SvidResponse;
  ca_get_trust_bundle : Conn → M Status N unit;
  (** [Display] of [tonic::Status], [tokio::time::sleep] *)
  status_display : Status → string;
  sleep : Z → N → N;
}.

(** [TpmContextManager]: the manager and its session are handles, the TPM is
    part of the world [W]. *)
Class TpmManager (W : Type) `{Sealing W} := {
  Manager : Type;
  Session : Type;
  Quoted : Type;
  manager_new : TpmEndpoint (W := W) → M string W Manager;
  begin_attestation : Manager → M string W Session;
  ak_pub : Session → bytes;
  ek_pub : Session → bytes;
  read_ek_cert : Manager → M string W (option bytes);
  activate : Manager → Session → bytes → bytes → M string W bytes;
  tpm_quote : Manager → Session → bytes → list Z → M string W Quoted;
  quoted_bytes : Quoted → bytes;
  quoted_signature : Quoted → bytes;
  (** [postcard::to_allocvec] of the PCR values *)
  quoted_pcrs : Quoted → result string bytes;
  finish_attestation : Manager → Session → M string W unit;
}.

Section join.
Context {K W N : Type} `{Keyspace K} `{Sealing W} `{!TpmManager W} `{Tonic N} `{!JoinServices N}.
Context `{FleetCore} `{!KeyGen W} `{ChainCodec}.
(** [compute_activation_proof], reading a file, and the endpoint as
    fleetos-core's type *)
Context (activation_proof : bytes → bytes → bytes).
Context (read_to_string : string → result string string).
Context (endpoint_of : Config.TpmEndpoint → TpmEndpoint (W := W)).

(** The store, the world on the node, and the network. *)
Definition JM (A : Type) : Type := M stop (Storage K * W * N) A.

Definition failing {A} (r : Result A) : result stop A := map_err Failed r.
Definition on_node {A} (c : KM (K := K) (W := W) A) : JM A :=
  λ '(s, n), let '(r, s') := c s in (failing r, (s', n)).
Definition on_net {A} (c : M AgentError N A) : JM A :=
  λ '(s, n), let '(r, n') := c n in (failing r, (s, n')).
(** An RPC, its status kept as a value. *)
Definition ask {A} (c : M Status N A) : JM (result Status A) :=
  λ '(s, n), let '(r, n') := c n in (Ok r, (s, n')).
Definition pause (ms : Z) : JM unit := λ '(s, n), (Ok tt, (s, sleep ms n)).

Definition server_channel (address pem : string) : JM Conn := on_net (build_server_trust_channel address pem).

(** One request with redirect-and-retry.  [redirect_hops] is shared by the
    loops of a join, and so is the channel. *)
Fixpoint redirect_loop {A} (fuel : nat) (rpc : string) (call : Conn → M Status N A) (pem : string)
    (channel : Conn) (redirect_hops : nat) : JM (A * (Conn * nat)) :=
  match fuel with
  | O => fail OutOfFuel
  | S fuel =>
      answer ← ask (call channel);
      match answer with
      | Ok resp => mret (resp, (channel, redirect_hops))
      | Err status =>
          match classify_error status redirect_hops with
          | RedirectAndRetry new_target delay =>
              _ ← pause delay;
              channel ← server_channel new_target pem;
              redirect_loop fuel rpc call pem channel (S redirect_hops)
          | RetrySameTarget delay =>
              _ ← pause delay;
              redirect_loop fuel rpc call pem channel redirect_hops
          | GiveUp reason => fail (Failed (JoinFailed (rpc +:+ " failed: " +:+ reason)))
          end
      end
  end.

Definition read_trust_bundle (config : AgentConfig) : JM string :=
  let path := default config.(control).(Config.trust_bundle_path) config.(join).(join_trust_bundle_path) in
  lift (failing (map_err (λ e, Errors.Config ("failed to read trust bundle: " +:+ e)) (read_to_string path))).

Definition node_spiffe_id (config : AgentConfig) : SpiffeId :=
  spiffe_new config.(node).(Config.trust_domain) "system" kind_node config.(node).(Config.name).

(** The node's key pair, its private key under seal, and the request. *)
Definition generate_csr (endpoint : option (TpmEndpoint (W := W))) (id : SpiffeId) : JM bytes :=
  svid_keypair ← on_node (world (λ e, Attestation ("rcgen keygen failed: " +:+ e)) keypair_generate);
  _ ← on_node (store_sealed endpoint KEY_SVID_PRIVATE_KEY (serialize_der svid_keypair));
  lift (failing (map_err (λ e, Attestation ("build_csr failed: " +:+ e)) (build_csr id svid_keypair))).

Definition fetch_trust_bundle (channel : Conn) : JM unit :=
  bundle ← ask (ca_get_trust_bundle channel);
  lift (failing (map_err (λ status, JoinFailed ("GetTrustBundle failed: " +:+ status_display status)) bundle)).

Definition install_response (resp : SvidResponse) : JM SvidState :=
  on_node (on_fst (install [resp.(resp_cert_der)] resp.(resp_svid_version))).

(** Both flows up to the signed SVID, with the channel it came over. *)
Definition insecure_attest (fuel : nat) (config : AgentConfig) : JM (SvidResponse * Conn) :=
  sealing_pubkey ← on_node (generate_and_store_sealing_key None);
  let id := node_spiffe_id config in
  pem ← read_trust_bundle config;
  channel ← server_channel config.(control).(address) pem;
  '(nonce, (channel, hops)) ← redirect_loop fuel "RequestNonce"
     (λ c, request_nonce c (spiffe_to_string id)) pem channel 0;
  let quote := mkQuote quote_type_tpm2 nonce [] config.(join).(token) sealing_pubkey in
  '(_, (channel, hops)) ← redirect_loop fuel "SubmitQuote" (λ c, submit_quote c quote) pem channel hops;
  csr ← generate_csr None id;
  '(svid_resp, (channel, _)) ← redirect_loop fuel "SubmitCsr" (λ c, ca_submit_csr c csr) pem channel hops;
  mret (svid_resp, channel).

Definition insecure_join (fuel : nat) (config : AgentConfig) : JM unit :=
  '(svid_resp, channel) ← insecure_attest fuel config;
  _ ← install_response svid_resp;
  fetch_trust_bundle channel.

(** The activation proof: the challenge's secret recovered through the TPM, and
    a quote of the server's nonce. *)
Definition prove_activation (config : AgentConfig) (mgr : Manager) (session : Session)
    (challenge : ActivationChallenge) : JM (bytes * Quoted) :=
  secret_bytes ← on_node (world (λ e, Attestation ("activate failed: " +:+ e))
    (activate mgr session challenge.(credential_blob) challenge.(challenge_secret)));
  if decide (length secret_bytes ≠ 32)%nat then fail (Failed (Attestation "secret is not 32 bytes")) else
  quoted ← on_node (world (λ e, Attestation ("quote failed: " +:+ e))
    (tpm_quote mgr session challenge.(server_nonce) config.(join).(pcr_indices)));
  mret (activation_proof secret_bytes challenge.(server_nonce), quoted).

Definition secure_attest (fuel : nat) (config : AgentConfig) : JM (SvidResponse * Conn * (Manager * Session)) :=
  let endpoint := endpoint_of (tpm_endpoint config) in
  sealing_pubkey ← on_node (generate_and_store_sealing_key (Some endpoint));
  mgr ← on_node (world (λ e, Attestation ("TPM context manager init failed: " +:+ e)) (manager_new endpoint));
  session ← on_node (world (λ e, Attestation ("TPM attestation session failed: " +:+ e)) (begin_attestation mgr));
  ek_cert ← on_node (world (λ e, Attestation ("read EK cert failed: " +:+ e)) (read_ek_cert mgr));
  let id := node_spiffe_id config in
  pem ← read_trust_bundle config;
  channel ← server_channel config.(control).(address) pem;
  let req := mkActivation (ak_pub session) (default [] ek_cert) (ek_pub session) in
  '(challenge, (channel, hops)) ← redirect_loop fuel "RequestActivation" (λ c, request_activation c req)
     pem channel 0;
  '(proof_hmac, quoted) ← prove_activation config mgr session challenge;
  csr ← generate_csr (Some endpoint) id;
  pcrs ← lift (failing (map_err Serialization (quoted_pcrs quoted)));
  let proof := mkProof proof_hmac (quoted_bytes quoted) (quoted_signature quoted) pcrs csr sealing_pubkey in
  '(svid_resp, (channel, _)) ← redirect_loop fuel "SubmitActivationProof"
     (λ c, submit_activation_proof c proof) pem channel hops;
  mret (svid_resp, channel, (mgr, session)).

Definition secure_join (fuel : nat) (config : AgentConfig) : JM unit :=
  '(svid_resp, channel, (mgr, session)) ← secure_attest fuel config;
  _ ← install_response svid_resp;
  _ ← fetch_trust_bundle channel;
  on_node (world (λ e, Attestation ("finish attestation failed: " +:+ e)) (finish_attestation mgr session)).

(** [production] is the build's feature. *)
Definition perform_insecure_join (production : bool) (fuel : nat) (config : AgentConfig) : JM unit :=
  if production
  then fail (Failed (JoinFailed "insecure join mode is compiled out of production builds"))
  else insecure_join fuel config.

Definition perform_join (production : bool) (fuel : nat) (config : AgentConfig) : JM unit :=
  match config.(join).(mode) with
  | Secure => secure_join fuel config
  | Insecure => perform_insecure_join production fuel config
  end.
End join.

(** Attesting reads the TPM, and making a key draws from it: neither extends a
    PCR. *)
Class AttestationLaws (W : Type) `{SealingLaws W} `{!TpmManager W} `{FleetCore} `{!KeyGen W} : Prop := {
  manager_new_pcr ep w : pcr (manager_new ep w).2 = pcr w;
  begin_attestation_pcr m w : pcr (begin_attestation m w).2 = pcr w;
  read_ek_cert_pcr m w : pcr (read_ek_cert m w).2 = pcr w;
  activate_pcr m s b c w : pcr (activate m s b c w).2 = pcr w;
  tpm_quote_pcr m s n pcrs w : pcr (tpm_quote m s n pcrs w).2 = pcr w;
  finish_attestation_pcr m s w : pcr (finish_attestation m s w).2 = pcr w;
  keypair_generate_pcr w : pcr (keypair_generate w).2 = pcr w;
}.

Section facts.
Context {K W N : Type} `{KeyspaceLaws K} `{SealingLaws W} `{!TpmManager W} `{Tonic N} `{!JoinServices N}.
Context `{FleetCore} `{!KeyGen W} `{ChainCodec} `{!AttestationLaws W}.
Context (activation_proof : bytes → bytes → bytes).
Context (read_to_string : string → result string string).
Context (endpoint_of : Config.TpmEndpoint → TpmEndpoint (W := W)).
Implicit Types (s : Storage K * W) (st : Storage K) (w : W) (n : N) (config : AgentConfig).

Lemma on_node_ok {A} (c : KM A) s n a s' n' :
  on_node c (s, n) = (Ok a, (s', n')) ↔ c s = (Ok a, s') ∧ n' = n.
Proof. unfold on_node. destruct (c s) as [[]?]; simpl; naive_solver. Qed.
Lemma on_net_ok {A} (c : M AgentError N A) s n a s' n' :
  on_net c (s, n) = (Ok a, (s', n')) ↔ c n = (Ok a, n') ∧ s' = s.
Proof. unfold on_net. destruct (c n) as [[]?]; simpl; naive_solver. Qed.
Lemma failing_ok {A} (r : Result A) a : failing r = Ok a ↔ r = Ok a.
Proof. apply map_err_ok. Qed.

(** Split one step of a run over the node and the network. *)
Lemma jm_bind_ok {A B} (m : JM A) (f : A → JM B) s n b s' n' :
  (m ≫= f) (s, n) = (Ok b, (s', n')) →
  ∃ a s1 n1, m (s, n) = (Ok a, (s1, n1)) ∧ f a (s1, n1) = (Ok b, (s', n')).
Proof. intros (a & [s1 n1] & ? & ?)%M_bind_ok. eauto. Qed.

(** *** What only talks to the network *)

Lemma keeps_node_loop {A} fuel rpc (call : Conn → M Status N A) pem c h :
  keeps (fst (A := Storage K * W) (B := N)) (redirect_loop fuel rpc call pem c h).
Proof.
  revert c h. induction fuel as [|fuel IH]; intros c h; [done|]. cbn [redirect_loop].
  apply keeps_bind; [intros [? ?]; unfold ask; by destruct (call _ _)|]. intros [a|status]; [done|].
  destruct (classify_error status h); [| |done].
  - apply keeps_bind; [by intros [??]|done].
  - apply keeps_bind; [by intros [??]|]. intros _. apply keeps_bind; [|done].
    intros [??]. unfold server_channel, on_net. by destruct (build_server_trust_channel _ _ _).
Qed.

Lemma redirect_loop_ok {A} fuel rpc (call : Conn → M Status N A) pem c h s n a c' h' s' n' :
  redirect_loop (K := K) (W := W) fuel rpc call pem c h (s, n) = (Ok (a, (c', h')), (s', n')) →
  s' = s ∧ ∃ n0, call c' n0 = (Ok a, n').
Proof.
  intros Hrun. split.
  { pose proof (keeps_node_loop fuel rpc call pem c h (s, n)) as Hk. by rewrite Hrun in Hk. }
  revert c h s n Hrun. induction fuel as [|fuel IH]; intros c h s n Hrun; [done|]. cbn [redirect_loop] in Hrun.
  apply jm_bind_ok in Hrun as (answer & s1 & n1 & Hask & Hrun).
  unfold ask in Hask. destruct (call c n) as [r n2] eqn:Hc. injection Hask as <- <- <-.
  destruct r as [resp|status]; [injection Hrun as <- <- <- <- <-; eauto|].
  destruct (classify_error status h); [| |done].
  - apply jm_bind_ok in Hrun as (u & s3 & n3 & _ & Hrun). by eapply IH.
  - apply jm_bind_ok in Hrun as (u & s3 & n3 & _ & Hrun).
    apply jm_bind_ok in Hrun as (c2 & s4 & n4 & _ & Hrun). by eapply IH.
Qed.

(** *** The SVID on record is untouched until the installation *)

Definition svid_on_record (x : Storage K * W * N) : K := svid_part x.1.

Lemma keeps_svid_node {A} (c : KM (K := K) (W := W) A) :
  keeps svid_part c → keeps svid_on_record (on_node (N := N) c).
Proof.
  intros Hc [s n]. unfold on_node, svid_on_record. specialize (Hc s). by destruct (c s).
Qed.
Lemma keeps_svid_net {A} (c : M AgentError N A) : keeps svid_on_record (on_net (K := K) (W := W) c).
Proof. intros [s n]. unfold on_net. by destruct (c n). Qed.
Lemma keeps_svid_loop {A} fuel rpc (call : Conn → M Status N A) pem c h :
  keeps svid_on_record (redirect_loop (K := K) (W := W) fuel rpc call pem c h).
Proof. intros x. unfold svid_on_record. by rewrite keeps_node_loop. Qed.

Lemma keeps_svid_csr endpoint id : keeps svid_on_record (generate_csr (N := N) endpoint id).
Proof.
  unfold generate_csr. keeps; apply keeps_svid_node; [apply keeps_svid_world|apply keeps_svid_store].
Qed.
Lemma keeps_svid_bundle config : keeps svid_on_record (read_trust_bundle (K := K) (W := W) (N := N) read_to_string config).
Proof. unfold read_trust_bundle. keeps. Qed.
#[local] Hint Resolve keeps_svid_node keeps_svid_net keeps_svid_loop keeps_svid_csr keeps_svid_bundle
  keeps_svid_world keeps_svid_sealing_key : core.

Lemma keeps_svid_insecure fuel config : keeps svid_on_record (insecure_attest read_to_string fuel config).
Proof. unfold insecure_attest, server_channel. keeps. Qed.
Lemma keeps_svid_secure fuel config :
  keeps svid_on_record (secure_attest activation_proof read_to_string endpoint_of fuel config).
Proof. unfold secure_attest, prove_activation, server_channel. keeps. Qed.

(** *** No join extends a PCR *)

Definition node_pcrs (x : Storage K * W * N) : Z → bytes := pcrs_of x.1.

Lemma keeps_pcr_node {A} (c : KM (K := K) (W := W) A) :
  keeps pcrs_of c → keeps node_pcrs (on_node (N := N) c).
Proof. intros Hc [s n]. unfold on_node, node_pcrs. specialize (Hc s). by destruct (c s). Qed.
Lemma keeps_pcr_node_world {A} f (c : M string W A) :
  (∀ w, pcr (c w).2 = pcr w) → keeps node_pcrs (on_node (N := N) (world f c)).
Proof. intros Hc. by apply keeps_pcr_node, keeps_pcr_world. Qed.
Lemma keeps_pcr_net {A} (c : M AgentError N A) : keeps node_pcrs (on_net (K := K) (W := W) c).
Proof. intros [s n]. unfold on_net. by destruct (c n). Qed.
Lemma keeps_pcr_loop {A} fuel rpc (call : Conn → M Status N A) pem c h :
  keeps node_pcrs (redirect_loop (K := K) (W := W) fuel rpc call pem c h).
Proof. intros x. unfold node_pcrs. by rewrite keeps_node_loop. Qed.
#[local] Hint Resolve keeps_pcr_node keeps_pcr_node_world keeps_pcr_net keeps_pcr_loop keeps_pcr_world keeps_pcr_store keeps_pcr_sealing_key
  keeps_pcr_fst : core.
#[local] Hint Extern 1 (pcr _ = pcr _) =>
  first [apply manager_new_pcr | apply begin_attestation_pcr | apply read_ek_cert_pcr | apply activate_pcr
        | apply tpm_quote_pcr | apply finish_attestation_pcr | apply keypair_generate_pcr] : core.
Lemma keeps_pcr_bundle c : keeps node_pcrs (fetch_trust_bundle c).
Proof.
  unfold fetch_trust_bundle. apply keeps_bind; [|intros; keeps].
  intros [s n]. unfold ask. by destruct (ca_get_trust_bundle c n).
Qed.
Lemma keeps_pcr_csr endpoint id : keeps node_pcrs (generate_csr (N := N) endpoint id).
Proof. unfold generate_csr. keeps. Qed.
Lemma keeps_pcr_install resp : keeps node_pcrs (install_response (W := W) (N := N) resp).
Proof. unfold install_response. auto. Qed.
#[local] Hint Resolve keeps_pcr_bundle keeps_pcr_csr keeps_pcr_install : core.
Lemma keeps_pcr_insecure fuel config : keeps node_pcrs (insecure_attest read_to_string fuel config).
Proof. unfold insecure_attest, server_channel, read_trust_bundle. keeps. Qed.
Lemma keeps_pcr_secure fuel config :
  keeps node_pcrs (secure_attest activation_proof read_to_string endpoint_of fuel config).
Proof. unfold secure_attest, prove_activation, server_channel, read_trust_bundle. keeps. Qed.
#[local] Hint Resolve keeps_pcr_insecure keeps_pcr_secure : core.
Lemma keeps_pcr_join production fuel config :
  keeps node_pcrs (perform_join activation_proof read_to_string endpoint_of production fuel config).
Proof.
  unfold perform_join, perform_insecure_join, secure_join, insecure_join. destruct (mode _); [|destruct production]; keeps.
Qed.
Lemma pcr_kept {A} (c : JM (K := K) (W := W) (N := N) A) st w n r st' w' n' :
  keeps node_pcrs c → c ((st, w), n) = (r, ((st', w'), n')) → pcr w' = pcr w.
Proof. intros Hc Hrun. pose proof (Hc (st, w, n)) as Hk. by rewrite Hrun in Hk. Qed.

(** *** A join that succeeds *)

(** The control plane's answer to the request [csr], sent with the public key
    [pk]. *)
Definition answered config (csr pk : bytes) (resp : SvidResponse) : Prop :=
  match config.(join).(mode) with
  | Insecure =>
      (∃ c q n n', q.(quote_x25519_pubkey) = pk ∧ q.(join_token) = config.(join).(token) ∧
         submit_quote c q n = (Ok tt, n')) ∧
      ∃ c n n', ca_submit_csr c csr n = (Ok resp, n')
  | Secure =>
      ∃ c p n n', p.(proof_csr_der) = csr ∧ p.(proof_x25519_pubkey) = pk ∧
        submit_activation_proof c p n = (Ok resp, n')
  end.

(** What an attestation leaves: two keys, sealed while the registers were as in
    [w], and the answer for them. *)
Definition attested (endpoint : option TpmEndpoint) config st w st' resp : Prop :=
  ∃ sk pk kp csr w0 st1 w1 w2 w3,
    pcr w0 = pcr w ∧ pcr w2 = pcr w ∧ keypair sk pk ∧ build_csr (node_spiffe_id config) kp = Ok csr ∧ answered config csr pk resp ∧
    store_sealed endpoint KEY_SEALING_KEY_BLOB sk (st, w0) = (Ok tt, (st1, w1)) ∧
    store_sealed endpoint KEY_SVID_PRIVATE_KEY (serialize_der kp) (st1, w2) = (Ok tt, (st', w3)).

Lemma sealing_key_ok endpoint st w pk st' w' :
  generate_and_store_sealing_key endpoint (st, w) = (Ok pk, (st', w')) →
  ∃ sk w0, pcr w0 = pcr w ∧ keypair sk pk ∧ store_sealed endpoint KEY_SEALING_KEY_BLOB sk (st, w0) = (Ok tt, (st', w')).
Proof.
  unfold generate_and_store_sealing_key. intros Hrun.
  apply km_bind_ok in Hrun as ([sk pk'] & st1 & w1 & [Hgen ->]%draw_ok & Hrun).
  apply km_bind_ok in Hrun as ([] & st2 & w2 & Hst & [= <- <- <-]).
  pose proof (keypair_pcr w) as Hp. rewrite Hgen in Hp.
  apply generate_keypair in Hgen as (_ & _ & Hkp). eauto.
Qed.

Lemma generate_csr_ok endpoint id st w n csr s' n' :
  generate_csr endpoint id ((st, w), n) = (Ok csr, (s', n')) →
  ∃ kp w0, pcr w0 = pcr w ∧ build_csr id kp = Ok csr ∧
    store_sealed endpoint KEY_SVID_PRIVATE_KEY (serialize_der kp) (st, w0) = (Ok tt, s').
Proof.
  unfold generate_csr. intros Hrun.
  apply jm_bind_ok in Hrun as (kp & [st1 w1] & n1 & [[Hgen ->]%world_ok ->]%on_node_ok & Hrun).
  pose proof (keypair_generate_pcr w) as Hp. rewrite Hgen in Hp. simpl in Hp.
  apply jm_bind_ok in Hrun as ([] & [st2 w2] & n2 & [Hst ->]%on_node_ok & Hrun).
  apply lift_ok in Hrun as [Hcsr%failing_ok%map_err_ok [= -> ->]]. eauto.
Qed.

Lemma read_trust_bundle_ok config s n pem s' n' :
  read_trust_bundle read_to_string config (s, n) = (Ok pem, (s', n')) → s' = s ∧ n' = n.
Proof. unfold read_trust_bundle. by intros [_ [= -> ->]]%lift_ok. Qed.

Lemma insecure_attest_ok fuel config st w n resp c st' w' n' :
  config.(join).(mode) = Insecure →
  insecure_attest read_to_string fuel config ((st, w), n) = (Ok (resp, c), ((st', w'), n')) →
  attested None config st w st' resp.
Proof.
  intros Hmode Hrun. unfold insecure_attest in Hrun.
  apply jm_bind_ok in Hrun as (pk & [st1 w1] & n1 & [Hkey ->]%on_node_ok & Hrun).
  pose proof (keeps_run pcrs_of _ _ _ _ (keeps_pcr_sealing_key None) Hkey) as Hp1. unfold pcrs_of in Hp1. simpl in Hp1.
  apply jm_bind_ok in Hrun as (pem & s2 & n2 & [-> ->]%read_trust_bundle_ok & Hrun).
  apply jm_bind_ok in Hrun as (c1 & s3 & n3 & [_ ->]%on_net_ok & Hrun).
  apply jm_bind_ok in Hrun as ((nonce & c2 & h2) & s4 & n4 & [-> _]%redirect_loop_ok & Hrun).
  apply jm_bind_ok in Hrun as (([] & c3 & h3) & s5 & n5 & [-> [n6 Hquote]]%redirect_loop_ok & Hrun).
  apply jm_bind_ok in Hrun as (csr & [st6 w6] & n7 & (kp & w5 & Hp5 & Hcsr & Hst)%generate_csr_ok & Hrun).
  apply jm_bind_ok in Hrun as ((resp' & c4 & h4) & s7 & n8 & [-> [n9 Hans]]%redirect_loop_ok & Hrun).
  injection Hrun as -> -> -> -> ->.
  apply sealing_key_ok in Hkey as (sk & w0 & Hp0 & Hkp & Hsk).
  exists sk, pk, kp, csr, w0, st1, w1, w5, w'. split; [done|]. split; [congruence|]. do 2 (split; [done|]). split; [|done].
  unfold answered. rewrite Hmode. split; [|eauto]. eexists _, _, _, _. by split_and!; [..|exact Hquote].
Qed.

Lemma secure_attest_ok fuel config st w n resp c ms st' w' n' :
  config.(join).(mode) = Secure →
  secure_attest activation_proof read_to_string endpoint_of fuel config ((st, w), n)
    = (Ok (resp, c, ms), ((st', w'), n')) →
  attested (Some (endpoint_of (tpm_endpoint config))) config st w st' resp.
Proof.
  intros Hmode Hrun. unfold secure_attest in Hrun.
  apply jm_bind_ok in Hrun as (pk & [st1 w1] & n1 & [Hkey ->]%on_node_ok & Hrun).
  pose proof (keeps_run pcrs_of _ _ _ _ (keeps_pcr_sealing_key _) Hkey) as Hp1. unfold pcrs_of in Hp1. simpl in Hp1.
  apply jm_bind_ok in Hrun as (mgr & [st2 w2] & n2 & [[Hm ->]%world_ok ->]%on_node_ok & Hrun).
  apply (f_equal snd), (f_equal pcr) in Hm. simpl in Hm. rewrite manager_new_pcr in Hm.
  apply jm_bind_ok in Hrun as (session & [st3 w3] & n3 & [[Hs ->]%world_ok ->]%on_node_ok & Hrun).
  apply (f_equal snd), (f_equal pcr) in Hs. simpl in Hs. rewrite begin_attestation_pcr in Hs.
  apply jm_bind_ok in Hrun as (ek & [st4 w4] & n4 & [[He ->]%world_ok ->]%on_node_ok & Hrun).
  apply (f_equal snd), (f_equal pcr) in He. simpl in He. rewrite read_ek_cert_pcr in He.
  apply jm_bind_ok in Hrun as (pem & s5 & n5 & [-> ->]%read_trust_bundle_ok & Hrun).
  apply jm_bind_ok in Hrun as (c1 & s6 & n6 & [_ ->]%on_net_ok & Hrun).
  apply jm_bind_ok in Hrun as ((challenge & c2 & h2) & s7 & n7 & [-> _]%redirect_loop_ok & Hrun).
  apply jm_bind_ok in Hrun as ([hm quoted] & [st8 w8] & n8 & Hprove & Hrun).
  assert (pcr w8 = pcr w4) as Hp8.
  { eapply pcr_kept; [|exact Hprove]. unfold prove_activation. keeps. }
  assert (st8 = st1) as ->.
  { unfold prove_activation in Hprove.
    apply jm_bind_ok in Hprove as (secret & [st9 w9] & n9 & [[_ ->]%world_ok ->]%on_node_ok & Hprove).
    destruct (decide _); [done|].
    by apply jm_bind_ok in Hprove as (q & [st10 w10] & n10 & [[_ ->]%world_ok ->]%on_node_ok & [= _ _ -> _ _]). }
  apply jm_bind_ok in Hrun as (csr & [st9 w9] & n9 & (kp & w10 & Hp10 & Hcsr & Hst)%generate_csr_ok & Hrun).
  apply jm_bind_ok in Hrun as (pcrs & s10 & n10 & [_ [= -> ->]]%lift_ok & Hrun).
  apply jm_bind_ok in Hrun as ((resp' & c4 & h4) & s11 & n11 & [-> [n12 Hans]]%redirect_loop_ok & Hrun).
  injection Hrun as -> -> _ -> -> ->.
  apply sealing_key_ok in Hkey as (sk & w0 & Hp0 & Hkp & Hsk).
  exists sk, pk, kp, csr, w0, st1, w1, w10, w'. split; [done|]. split; [congruence|]. do 2 (split; [done|]). split; [|done].
  unfold answered. rewrite Hmode. eexists _, _, _, _. by split_and!; [..|exact Hans].
Qed.

(** What the rest of a join does to the store. *)
Lemma install_response_ok resp st w n x s' n' :
  is_u64 resp.(resp_svid_version) →
  install_response resp ((st, w), n) = (Ok x, (s', n')) →
  ∃ st' g, s' = (st', w) ∧ n' = n ∧ st'.(delegation) = st.(delegation) ∧
    load st' = (Ok (mkSvidState [resp.(resp_cert_der)] resp.(resp_svid_version) g), st').
Proof.
  intros Hv Hrun. unfold install_response in Hrun. destruct s' as [st' w'].
  apply on_node_ok in Hrun as [[Hins ->]%on_fst_ok ->].
  pose proof (keeps_delegation_install [resp_cert_der resp] (resp_svid_version resp) st) as Hd.
  rewrite Hins in Hd. apply install_ok in Hins as (s0 & _ & -> & Hload); [|done]. eauto 10.
Qed.
Lemma fetch_trust_bundle_ok c s n u s' n' : fetch_trust_bundle c (s, n) = (Ok u, (s', n')) → s' = s.
Proof.
  unfold fetch_trust_bundle. intros Hrun. apply jm_bind_ok in Hrun as (b & s1 & n1 & Hask & Hrun).
  unfold ask in Hask. destruct (ca_get_trust_bundle c n). injection Hask as _ <- _.
  by apply lift_ok in Hrun as [_ [= -> _]].
Qed.

Lemma delegation_retains label st st' : st'.(delegation) = st.(delegation) → retains label st st'.
Proof. intros Heq. unfold retains, master_record. by rewrite Heq. Qed.

Lemma perform_join_ok production fuel config st w n u st' w' n' :
  (∀ csr pk resp, answered config csr pk resp → is_u64 resp.(resp_svid_version)) →
  perform_join activation_proof read_to_string endpoint_of production fuel config ((st, w), n)
    = (Ok u, ((st', w'), n')) →
  (production = true → config.(join).(mode) = Secure) ∧
  ∃ st1 resp g, attested (endpoint_of <$> sealing_endpoint config) config st w st1 resp ∧
    st'.(delegation) = st1.(delegation) ∧
    load st' = (Ok (mkSvidState [resp.(resp_cert_der)] resp.(resp_svid_version) g), st').
Proof.
  intros Hu64 Hrun. unfold perform_join in Hrun. unfold sealing_endpoint.
  destruct (mode (join config)) eqn:Hmode; [split; [done|]|].
  - unfold secure_join in Hrun.
    apply jm_bind_ok in Hrun as ([[resp c] [mgr session]] & [st1 w1] & n1 & Hatt & Hrun).
    apply secure_attest_ok in Hatt; [|done].
    apply jm_bind_ok in Hrun as (x & s2 & n2 & Hins & Hrun).
    apply install_response_ok in Hins as (st2 & g & -> & -> & Hd & Hload);
      [|by destruct Hatt as (? & ? & ? & ? & ? & ? & ? & ? & ? & _ & _ & _ & _ & Ha & _); eapply Hu64].
    apply jm_bind_ok in Hrun as (x2 & s3 & n3 & ->%fetch_trust_bundle_ok & Hrun).
    apply on_node_ok in Hrun as [[_ ->]%world_ok _]. by exists st1, resp, g.
  - destruct production; [done|]. split; [done|]. unfold perform_insecure_join, insecure_join in Hrun.
    apply jm_bind_ok in Hrun as ([resp c] & [st1 w1] & n1 & Hatt & Hrun).
    apply insecure_attest_ok in Hatt; [|done].
    apply jm_bind_ok in Hrun as (x & s2 & n2 & Hins & Hrun).
    apply install_response_ok in Hins as (st2 & g & -> & -> & Hd & Hload);
      [|by destruct Hatt as (? & ? & ? & ? & ? & ? & ? & ? & ? & _ & _ & _ & _ & Ha & _); eapply Hu64].
    apply fetch_trust_bundle_ok in Hrun as [= <- _]. by exists st1, resp, g.
Qed.

(** The two keys an attestation sealed load back as long as their records
    stay and the registers are as they were. *)
Lemma attested_keys endpoint config st w st1 resp st' :
  attested endpoint config st w st1 resp → st'.(delegation) = st1.(delegation) →
  ∃ sk pk kp csr,
    keypair sk pk ∧ build_csr (node_spiffe_id config) kp = Ok csr ∧ answered config csr pk resp ∧
    (master_ok st →
     (∀ w2, ∃ w3, loaded endpoint (serialize_der kp) w w2 (load_svid_private_key endpoint (st', w2)) (st', w3)) ∧
     (∀ w2, ∃ w3, loaded endpoint sk w w2 (load_sealing_secret endpoint (st', w2)) (st', w3))).
Proof.
  intros (sk & pk & kp & csr & w0 & st0 & w1 & w2 & w3 & Hp0 & Hp2 & Hkp & Hcsr & Hans & Hsk & Hkey) Hd.
  exists sk, pk, kp, csr. do 3 (split; [done|]). intros Hm.
  apply store_loads in Hsk as [Hm0 Hload_sk]; [|done..].
  pose proof Hkey as [_ Hload_key]%store_loads; [|done..].
  split; intros v.
  - destruct (Hload_key st' v) as [w4 Hl]; [by apply delegation_retains|]. exists w4. by eapply loaded_eq; [|exact Hl].
  - destruct (Hload_sk st' v) as [w4 Hl]; [|exists w4; by eapply loaded_eq; [|exact Hl]].
    eapply retains_trans; [|by apply delegation_retains]. by eapply store_retains; [..|exact Hkey].
Qed.

(** C22: A join that succeeds leaves a node that can restart.  The store loads an
    SVID whose certificate the control plane issued for a request of this node
    identity; the private key of that very request, and the sealing key whose
    public half the control plane was given, load back through the endpoint the
    agent uses at startup, in every world whose PCRs are those of the join
    ([loaded]: in others too, or with an error).  A production build gets there in
    secure mode only. *)
Theorem join_installs production fuel config st w n u st' w' n' :
  master_ok st →
  (∀ csr pk resp, answered config csr pk resp → is_u64 resp.(resp_svid_version)) →
  perform_join activation_proof read_to_string endpoint_of production fuel config ((st, w), n)
    = (Ok u, ((st', w'), n')) →
  let endpoint := endpoint_of <$> sealing_endpoint config in
  (production = true → config.(join).(mode) = Secure) ∧
  ∃ sk pk kp csr resp g,
    keypair sk pk ∧ build_csr (node_spiffe_id config) kp = Ok csr ∧ answered config csr pk resp ∧
    load st' = (Ok (mkSvidState [resp.(resp_cert_der)] resp.(resp_svid_version) g), st') ∧
    (∀ w2, ∃ w3, loaded endpoint (serialize_der kp) w' w2 (load_svid_private_key endpoint (st', w2)) (st', w3)) ∧
    (∀ w2, ∃ w3, loaded endpoint sk w' w2 (load_sealing_secret endpoint (st', w2)) (st', w3)).
Proof.
  intros Hm Hu64 Hrun endpoint.
  pose proof (pcr_kept _ _ _ _ _ _ _ _ (keeps_pcr_join _ _ _) Hrun) as Hp. apply perform_join_ok in Hrun as [Hprod Hrun]; [|done]. split; [done|].
  destruct Hrun as (st1 & resp & g & Hatt & Hd & Hload).
  destruct (attested_keys _ _ _ _ _ _ _ Hatt Hd) as (sk & pk & kp & csr & Hkp & Hcsr & Hans & [Hkey Hsk]%(λ f, f Hm)).
  exists sk, pk, kp, csr, resp, g. do 4 (split; [done|]).
  split; intros w2; [destruct (Hkey w2) as [w3 Hl]|destruct (Hsk w2) as [w3 Hl]]; exists w3; by eapply loaded_eq; [|exact Hl].
Qed.

(** *** A join that fails *)

Lemma svid_kept {A} (c : JM (K := K) (W := W) (N := N) A) st w n r st' w' n' :
  keeps svid_on_record c → c ((st, w), n) = (r, ((st', w'), n')) → st'.(Store.svid) = st.(Store.svid).
Proof. intros Hc Hrun. pose proof (Hc (st, w, n)) as Hk. by rewrite Hrun in Hk. Qed.

(** From the signed SVID on: [rest] does not touch the store. *)
Lemma install_response_rest {A} resp (rest : JM A) st w n e st' w' n' :
  is_u64 resp.(resp_svid_version) → keeps (λ x : Storage K * W * N, x.1.1) rest →
  (_ ← install_response resp; rest) ((st, w), n) = (Err e, ((st', w'), n')) →
  st'.(Store.svid) = st.(Store.svid) ∨
  (∃ g, load st' = (Ok (mkSvidState [resp.(resp_cert_der)] resp.(resp_svid_version) g), st') ∧
     st'.(delegation) = st.(delegation)) ∨
  ∃ msg, e = Failed (Errors.Storage msg).
Proof.
  intros Hv Hrest Hrun. apply M_bind_err in Hrun as [Hrun|(x & [[st1 w1] n1] & Hins & Hrun)].
  - unfold install_response, on_node, on_fst in Hrun.
    destruct (install _ _ st) as [[x|e1] st1] eqn:Hi; [done|]. injection Hrun as <- <- _ _.
    apply install_err in Hi as [->|[msg ->]]; eauto.
  - apply install_response_ok in Hins as (st2 & g & [= -> ->] & -> & Hd & Hload); [|done].
    pose proof (Hrest (st2, w, n)) as Hk. rewrite Hrun in Hk. simpl in Hk. subst st'. right; left. eauto.
Qed.

Lemma keeps_store_bundle c : keeps (λ x : Storage K * W * N, x.1.1) (fetch_trust_bundle c).
Proof.
  unfold fetch_trust_bundle. apply keeps_bind; [|intros; keeps].
  intros [s n]. unfold ask. by destruct (ca_get_trust_bundle c n).
Qed.

(** The whole identity of a join: the SVID on record is what the control plane
    answered to the request [csr] of this node, and, if the master key was sound
    before, the private key of this request and the sealing key load back. *)
Definition identity_installed config st st' w' : Prop :=
  let endpoint := endpoint_of <$> sealing_endpoint config in
  ∃ sk pk kp csr resp g,
    keypair sk pk ∧ build_csr (node_spiffe_id config) kp = Ok csr ∧ answered config csr pk resp ∧
    load st' = (Ok (mkSvidState [resp.(resp_cert_der)] resp.(resp_svid_version) g), st') ∧
    (master_ok st →
     (∀ w2, ∃ w3, loaded endpoint (serialize_der kp) w' w2 (load_svid_private_key endpoint (st', w2)) (st', w3)) ∧
     (∀ w2, ∃ w3, loaded endpoint sk w' w2 (load_sealing_secret endpoint (st', w2)) (st', w3))).

Lemma installed_identity config st w w' st1 resp g st' :
  attested (endpoint_of <$> sealing_endpoint config) config st w st1 resp → st'.(delegation) = st1.(delegation) →
  load st' = (Ok (mkSvidState [resp.(resp_cert_der)] resp.(resp_svid_version) g), st') → pcr w' = pcr w →
  identity_installed config st st' w'.
Proof.
  intros Hatt Hd Hload Hp. destruct (attested_keys _ _ _ _ _ _ _ Hatt Hd) as (sk & pk & kp & csr & Hkp & Hcsr & Hans & Hkeys).
  exists sk, pk, kp, csr, resp, g. do 4 (split; [done|]). intros [Hkey Hsk]%Hkeys.
  split; intros w2; [destruct (Hkey w2) as [w3 Hl]|destruct (Hsk w2) as [w3 Hl]]; exists w3; by eapply loaded_eq; [|exact Hl].
Qed.

(** C23: A failed join does not leave half an identity, short of a failing disk:
    the SVID records are as before; or the SVID that the control plane answered
    to this join's own request is completely installed (only the trust-bundle
    fetch or the TPM cleanup after it failed), its certificate and version with
    the two private keys ([identity_installed]); or the error is that of a store
    write. *)
Theorem join_failure production fuel config st w n e st' w' n' :
  (∀ csr pk resp, answered config csr pk resp → is_u64 resp.(resp_svid_version)) →
  perform_join activation_proof read_to_string endpoint_of production fuel config ((st, w), n)
    = (Err e, ((st', w'), n')) →
  st'.(Store.svid) = st.(Store.svid) ∨ identity_installed config st st' w' ∨
  ∃ msg, e = Failed (Errors.Storage msg).
Proof.
  intros Hu64 Hrun. pose proof (pcr_kept _ _ _ _ _ _ _ _ (keeps_pcr_join _ _ _) Hrun) as Hp.
  assert (∀ st1 resp, attested (endpoint_of <$> sealing_endpoint config) config st w st1 resp →
    (is_u64 resp.(resp_svid_version) → st'.(Store.svid) = st1.(Store.svid) ∨
      (∃ g, load st' = (Ok (mkSvidState [resp.(resp_cert_der)] resp.(resp_svid_version) g), st') ∧
         st'.(delegation) = st1.(delegation)) ∨
      ∃ msg, e = Failed (Errors.Storage msg)) → st1.(Store.svid) = st.(Store.svid) →
    st'.(Store.svid) = st.(Store.svid) ∨ identity_installed config st st' w' ∨ ∃ msg, e = Failed (Errors.Storage msg)) as Hgo.
  { intros st1 resp Hatt Hend <-. destruct Hend as [?|[(g & Hload & Hd)|?]]; [|by left| |by right; right].
    - destruct Hatt as (? & ? & ? & ? & ? & ? & ? & ? & ? & _ & _ & _ & _ & Ha & _). by eapply Hu64.
    - right; left. by eapply installed_identity. }
  unfold perform_join in Hrun. unfold sealing_endpoint in Hgo. destruct (mode (join config)) eqn:Hmode.
  - apply M_bind_err in Hrun as [Hrun|([[resp c] [mgr session]] & [[st1 w1] n1] & Hatt & Hrun)].
    { left. by eapply svid_kept; [apply keeps_svid_secure|]. }
    pose proof Hatt as Hsvid%svid_kept; [|apply keeps_svid_secure].
    apply secure_attest_ok in Hatt; [|done]. apply (Hgo st1 resp Hatt); [|done]. intros Hv.
    eapply install_response_rest; [exact Hv| |exact Hrun].
    apply keeps_bind; [apply keeps_store_bundle|]. intros _ [[s2 w2] n2]. unfold on_node, world.
    by destruct (finish_attestation mgr session w2).
  - destruct production; [injection Hrun as _ -> _ _; by left|].
    apply M_bind_err in Hrun as [Hrun|([resp c] & [[st1 w1] n1] & Hatt & Hrun)].
    { left. by eapply svid_kept; [apply keeps_svid_insecure|]. }
    pose proof Hatt as Hsvid%svid_kept; [|apply keeps_svid_insecure].
    apply insecure_attest_ok in Hatt; [|done]. apply (Hgo st1 resp Hatt); [|done]. intros Hv.
    eapply install_response_rest; [exact Hv|apply keeps_store_bundle|exact Hrun].
Qed.
End facts.

(** ** The loops end when the control plane's patience is finite *)

Section termination.
Context {K W N : Type} `{Keyspace K} `{Sealing W} `{!TpmManager W} `{Tonic N} `{!JoinServices N}.
Context `{FleetCore} `{!KeyGen W} `{ChainCodec}.
Context (activation_proof : bytes → bytes → bytes).
Context (read_to_string : string → result string string).
Context (endpoint_of : Config.TpmEndpoint → TpmEndpoint (W := W)).
(** How many more times the network can answer "try again here". *)
Context (patience : N → nat).

Definition patient {A} (c : M Status N A) : Prop :=
  ∀ n r n', c n = (r, n') →
    (patience n' ≤ patience n)%nat ∧
    ∀ status, r = Err status → status.(code) = Unavailable → leader_of status = None →
      (patience n' < patience n)%nat.

Record patient_network : Prop := {
  patient_nonce c id : patient (request_nonce c id);
  patient_quote c q : patient (submit_quote c q);
  patient_activation c r : patient (request_activation c r);
  patient_proof c p : patient (submit_activation_proof c p);
  patient_csr c csr : patient (ca_submit_csr c csr);
  patient_bundle c : patient (ca_get_trust_bundle c);
  patient_connect a pem i n r n' : connect a pem i n = (r, n') → (patience n' ≤ patience n)%nat;
  patient_sleep ms n : (patience (sleep ms n) ≤ patience n)%nat;
}.

(** With patience at most [b], [c] ends within its fuel, with a value in [Q]. *)
Definition ends {A} (b : nat) (c : JM (K := K) (W := W) (N := N) A) (Q : A → Prop) : Prop :=
  ∀ s n r s' n', (patience n ≤ b)%nat → c (s, n) = (r, (s', n')) →
    r ≠ Err OutOfFuel ∧ (patience n' ≤ b)%nat ∧ ∀ a, r = Ok a → Q a.

Lemma ends_bind {A B} b (c : JM A) (f : A → JM B) Q R :
  ends b c Q → (∀ a, Q a → ends b (f a) R) → ends b (c ≫= f) R.
Proof.
  intros Hc Hf s n r s' n' Hn Hrun. unfold mbind, M_bind in Hrun.
  destruct (c (s, n)) as [[a|e] [s1 n1]] eqn:Hs; apply Hc in Hs as (He & Hn1 & Ha); try done.
  - by eapply Hf; [apply Ha| |exact Hrun].
  - injection Hrun as <- <- <-. split; [|done]. congruence.
Qed.
Lemma ends_weaken {A} b (c : JM A) (Q R : A → Prop) : ends b c Q → (∀ a, Q a → R a) → ends b c R.
Proof. intros Hc HQR s n r s' n' Hn Hrun. apply Hc in Hrun as (? & ? & ?); eauto. Qed.
Lemma ends_ret {A} b (a : A) (Q : A → Prop) : Q a → ends b (mret a) Q.
Proof. intros HQ s n r s' n' Hn [= <- <- <-]. naive_solver. Qed.
Lemma ends_node {A} b (c : KM A) : ends b (on_node c) (λ _, True).
Proof.
  intros s n r s' n' Hn. unfold on_node. destruct (c s) as [[a|e] s1]; intros [= <- <- <-]; simpl; naive_solver.
Qed.
Lemma ends_lift {A} b (r : Result A) : ends b (lift (failing r)) (λ _, True).
Proof. intros s n r' s' n' Hn [= <- <- <-]. destruct r; simpl; naive_solver. Qed.
Lemma ends_fail {A} b e (Q : A → Prop) : ends b (fail (Failed e)) Q.
Proof. intros s n r' s' n' Hn [= <- <- <-]. naive_solver. Qed.
Lemma ends_ask {A} b (c : M Status N A) : patient c → ends b (ask c) (λ _, True).
Proof.
  intros Hc s n r s' n' Hn. unfold ask. destruct (c n) as [x n1] eqn:Hx. apply Hc in Hx as [Hle _].
  intros [= <- <- <-]. split_and!; try done. lia.
Qed.
Lemma ends_channel b addr pem : patient_network → ends b (server_channel addr pem) (λ _, True).
Proof.
  intros Hp s n r s' n' Hn. unfold server_channel, on_net, build_server_trust_channel.
  destruct (connect _ _ _ n) as [x n1] eqn:Hx. apply (patient_connect Hp) in Hx.
  intros [= <- <- <-]. split; [by destruct x|]. split; [lia|done].
Qed.

(** At most six redirects over a whole join, and one retry per unit of
    patience. *)
Lemma ends_loop {A} b fuel rpc (call : Conn → M Status N A) pem c h :
  patient_network → (∀ c, patient (call c)) → (h ≤ 6)%nat → (b + (6 - h) < fuel)%nat →
  ends b (redirect_loop fuel rpc call pem c h) (λ x, (h ≤ x.2.2 ≤ 6)%nat).
Proof.
  intros Hp Hcall. revert b c h. induction fuel as [|fuel IH]; intros b c h Hh Hfuel; [lia|]. cbn [redirect_loop].
  intros s n r s' n' Hn Hrun. unfold mbind at 1, M_bind at 1, ask in Hrun.
  destruct (call c n) as [[a|status] n1] eqn:Hc; apply Hcall in Hc as [Hle Hlt].
  { injection Hrun as <- <- <-. split; [done|]. split; [lia|]. intros ? [= <-]. simpl. lia. }
  specialize (Hlt _ eq_refl). destruct (classify_error status h) as [d|addr d|reason] eqn:Ha.
  - assert (patience n1 < patience n)%nat as Hlt'.
    { unfold classify_error in Ha. destruct (decide _); [done|]. destruct (decide _); [|done].
      destruct (leader_of status); [done|]. by apply Hlt. }
    unfold mbind, M_bind, pause in Hrun. pose proof (patient_sleep Hp d n1).
    apply (IH (pred b)) in Hrun as (? & ? & ?); [|lia..]. split; [done|]. split; [lia|done].
  - apply classify_redirect in Ha as (Hmax & _ & _). unfold MAX_REDIRECT_HOPS in Hmax.
    assert (ends b (_ ← pause d; channel ← server_channel addr pem;
                    redirect_loop fuel rpc call pem channel (S h)) (λ x, (S h ≤ x.2.2 ≤ 6)%nat)) as Hrest.
    { apply (ends_bind _ _ _ (λ _, True)).
      { intros s1 n2 r1 s2 n3 Hn2 [= <- <- <-]. pose proof (patient_sleep Hp d n2). split_and!; try done. lia. }
      intros _ _. eapply ends_bind; [by apply ends_channel|]. intros c' _. apply IH; lia. }
    apply Hrest in Hrun as (? & ? & Hq); [|lia]. split; [done|]. split; [done|].
    intros a Hok. specialize (Hq a Hok). lia.
  - injection Hrun as <- <- <-. split; [done|]. split; [lia|done].
Qed.

Lemma ends_csr b endpoint id : ends b (generate_csr endpoint id) (λ _, True).
Proof.
  unfold generate_csr. do 2 (eapply ends_bind; [apply ends_node|]; intros ? _). apply ends_lift.
Qed.
Lemma ends_bundle b c : patient_network → ends b (fetch_trust_bundle c) (λ _, True).
Proof.
  intros Hp. eapply ends_bind; [apply ends_ask, patient_bundle, Hp|]. intros ? _. apply ends_lift.
Qed.

Lemma ends_insecure b fuel config :
  patient_network → (b + 6 < fuel)%nat → ends b (insecure_join read_to_string fuel config) (λ _, True).
Proof.
  intros Hp Hfuel. unfold insecure_join. eapply (ends_bind _ _ _ (λ _, True)).
  { unfold insecure_attest. eapply ends_bind; [apply ends_node|]. intros pk _.
    eapply ends_bind; [apply ends_lift|]. intros pem _.
    eapply ends_bind; [by apply ends_channel|]. intros c _.
    eapply ends_bind; [apply (ends_loop b); [done|intros; by apply patient_nonce|lia..]|].
    intros (nonce & c1 & h1) Hh1. simpl in Hh1.
    eapply ends_bind; [apply (ends_loop b); [done|intros; by apply patient_quote|lia..]|].
    intros (u & c2 & h2) Hh2. simpl in Hh2.
    eapply ends_bind; [apply ends_csr|]. intros csr _.
    eapply ends_bind; [apply (ends_loop b); [done|intros; by apply patient_csr|lia..]|].
    intros (resp & c3 & h3) _. by apply ends_ret. }
  intros [resp c] _. eapply ends_bind; [apply ends_node|]. intros ? _. by apply ends_bundle.
Qed.

Lemma ends_secure b fuel config :
  patient_network → (b + 6 < fuel)%nat →
  ends b (secure_join activation_proof read_to_string endpoint_of fuel config) (λ _, True).
Proof.
  intros Hp Hfuel. unfold secure_join. eapply (ends_bind _ _ _ (λ _, True)).
  { unfold secure_attest. do 4 (eapply ends_bind; [apply ends_node|]; intros ? _).
    eapply ends_bind; [apply ends_lift|]. intros pem _.
    eapply ends_bind; [by apply ends_channel|]. intros c _.
    eapply ends_bind; [apply (ends_loop b); [done|intros; by apply patient_activation|lia..]|].
    intros (challenge & c1 & h1) Hh1. simpl in Hh1.
    eapply (ends_bind _ _ _ (λ _, True)).
    { unfold prove_activation. eapply ends_bind; [apply ends_node|]. intros secret _.
      destruct (decide _); [apply ends_fail|]. eapply ends_bind; [apply ends_node|]. intros ? _. by apply ends_ret. }
    intros [hm quoted] _. eapply ends_bind; [apply ends_csr|]. intros csr _.
    eapply ends_bind; [apply ends_lift|]. intros pcrs _.
    eapply ends_bind; [apply (ends_loop b); [done|intros; by apply patient_proof|lia..]|].
    intros (resp & c3 & h3) _. by apply ends_ret. }
  intros [[resp c] [mgr session]] _. eapply ends_bind; [apply ends_node|]. intros ? _.
  eapply ends_bind; [by apply ends_bundle|]. intros ? _. apply ends_node.
Qed.

(** C24: A join returns as soon as the control plane answers "unavailable,
    no leader" only finitely often: [patience] such answers, six redirects over
    all three requests of the join together, and nothing else, is what its loops
    can spend.  The fuel that covers them never runs out. *)
Theorem join_terminates production fuel config s n :
  patient_network → (patience n + 6 < fuel)%nat →
  (perform_join activation_proof read_to_string endpoint_of production fuel config (s, n)).1 ≠ Err OutOfFuel.
Proof.
  intros Hp Hfuel.
  assert (ends (patience n) (perform_join activation_proof read_to_string endpoint_of production fuel config)
    (λ _, True)) as Hends.
  { unfold perform_join. destruct (mode _); [by apply ends_secure|].
    unfold perform_insecure_join. destruct production; [apply ends_fail|by apply ends_insecure]. }
  destruct (perform_join _ _ _ _ _ _ _) as [r [s' n']] eqn:Hrun. by apply Hends in Hrun as (? & _).
Qed.
End termination.

(** A control plane that stays unavailable holds the join forever: there is no
    bound on retries of the same target, unlike in the RPC wrappers. *)
Theorem join_never_gives_up {K W N A : Type} `{Tonic N} `{!JoinServices N}
    fuel rpc (call : Conn → M Status N A) pem c h (x : Storage K * W * N) status :
  (h ≤ 5)%nat → status.(code) = Unavailable → leader_of status = None →
  (∀ n, ∃ n', call c n = (Err status, n')) →
  (redirect_loop fuel rpc call pem c h x).1 = Err OutOfFuel.
Proof.
  intros Hh Hcode Hlead Hcall. revert x. induction fuel as [|fuel IH]; intros [s n]; [done|]. cbn [redirect_loop].
  unfold mbind at 1, M_bind at 1, ask. destruct (Hcall n) as [n' ->]. unfold classify_error.
  rewrite decide_False by (unfold MAX_REDIRECT_HOPS; lia). rewrite decide_True by done. rewrite Hlead.
  unfold mbind, M_bind, pause. apply IH.
Qed.

(** ** Witnesses: a control plane that redirects once and is unavailable once *)

(** The network is a clock that every connection and call advances. *)
Definition reply {A} (a : A) : M Status Z A := λ n,
  if decide (n = 1) then (Err (mkStatus Unavailable (Some (Some "dc2:9443")) "not leader"), n + 1)
  else if decide (n = 3) then (Err (mkStatus Unavailable None "starting"), n + 1)
  else (Ok a, n + 1).
#[export] Instance sample_services : JoinServices Z := {
  quote_type_tpm2 := 1;
  request_nonce _ _ := reply [Byte.x07];
  submit_quote _ _ := reply tt;
  request_activation _ _ := reply (mkActivationChallenge [] [] [Byte.x07]);
  submit_activation_proof _ p := reply (mkSvidResponse (Byte.x30 :: p.(proof_csr_der)) 1);
  ca_submit_csr _ csr := reply (mkSvidResponse (Byte.x30 :: csr) 1);
  ca_get_trust_bundle _ := reply tt;
  status_display := message;
  sleep _ n := n;
}.
#[export] Instance sample_tpm : TpmManager nat := {
  Manager := unit;
  Session := unit;
  Quoted := bytes;
  manager_new _ w := (Ok tt, w);
  begin_attestation _ w := (Ok tt, w);
  ak_pub _ := [Byte.x01];
  ek_pub _ := [Byte.x02];
  read_ek_cert _ w := (Ok None, w);
  activate _ _ _ _ w := (Ok (replicate 32 Byte.x05), w);
  tpm_quote _ _ nonce _ w := (Ok nonce, w);
  quoted_bytes q := q;
  quoted_signature _ := [];
  quoted_pcrs _ := Ok [];
  finish_attestation _ _ w := (Ok tt, w);
}.
#[export] Instance sample_attestation_laws : AttestationLaws nat.
Proof. by split. Qed.
Definition with_mode (m : JoinMode) : AgentConfig :=
  mkConfig (mkNode "n1" "td") (mkControl "c:9443" "/ca.pem") (mkJoin m "token" None None [])
    TpmConfig_default "/db" EbpfConfig_default SvidConfig_default VsockAttestConfig_default
    ImagesConfig_default NetworkingConfig_default ObservabilityConfig_default.
Definition sample_join (m : JoinMode) : result stop unit * (Storage (gmap bytes bytes) * nat * Z) :=
  perform_join (λ s n, s ++ n) (λ _, Ok "PEM") (λ _, tpm_up) false 11 (with_mode m) ((empty_store, 0%nat), 0).

Lemma reply_patient {A} (a : A) : patient (λ n, Z.to_nat (4 - n)) (reply a).
Proof.
  intros n r n'. unfold reply. destruct (decide (n = 1)) as [->|]; [|destruct (decide (n = 3)) as [->|]];
    intros [= <- <-]; (split; [lia|]); intros status [= <-]; try done. simpl. lia.
Qed.

Lemma sample_answers m csr pk resp : answered (with_mode m) csr pk resp → is_u64 resp.(resp_svid_version).
Proof.
  assert (∀ n a n', reply a n = (Ok resp, n') → is_u64 a.(resp_svid_version) → is_u64 resp.(resp_svid_version)) as Hr.
  { intros n a n'. unfold reply. do 2 (destruct (decide _); [done|]). by intros [= <- _]. }
  destruct m; unfold answered; simpl.
  - intros (_ & p & n & n' & _ & _ & Hp). eapply Hr; [exact Hp|]. done.
  - intros [_ (_ & n & n' & Hp)]. eapply Hr; [exact Hp|]. done.
Qed.

Lemma sample_join_ok m : sample_join m = (Ok tt, ((sample_join m).2.1.1, (sample_join m).2.1.2, (sample_join m).2.2)).
Proof.
  assert ((sample_join m).1 = Ok tt) as Hok by (destruct m; by vm_compute).
  destruct (sample_join m) as [r [[st w] n]]. simpl in *. by subst r.
Qed.

Lemma join_installs_witness :
  (∃ x st, load (sample_join Secure).2.1.1 = (Ok x, st) ∧ x.(svid_version) = 1) ∧
  ∃ x st, load (sample_join Insecure).2.1.1 = (Ok x, st) ∧ x.(svid_version) = 1.
Proof.
  split.
  - destruct (join_installs (λ s n, s ++ n) (λ _, Ok "PEM") (λ _, tpm_up) false 11 (with_mode Secure) empty_store 0%nat 0 tt
      _ _ _ empty_master_ok (sample_answers Secure) (sample_join_ok Secure))
      as (_ & sk & pk & kp & csr & resp & g & _ & _ & Ha & Hl & _).
    eexists _, _. split; [exact Hl|]. destruct Ha as (c & p & n & n' & _ & _ & Hr).
    cbn in Hr. unfold reply in Hr. do 2 (destruct (decide _); [done|]). by injection Hr as <- _.
  - destruct (join_installs (λ s n, s ++ n) (λ _, Ok "PEM") (λ _, tpm_up) false 11 (with_mode Insecure) empty_store 0%nat 0 tt
      _ _ _ empty_master_ok (sample_answers Insecure) (sample_join_ok Insecure))
      as (_ & sk & pk & kp & csr & resp & g & _ & _ & Ha & Hl & _).
    eexists _, _. split; [exact Hl|]. destruct Ha as [_ (c & n & n' & Hr)].
    cbn in Hr. unfold reply in Hr. do 2 (destruct (decide _); [done|]). by injection Hr as <- _.
Defined.

(** A production build asked for the insecure mode. *)
Lemma join_failure_witness :
  ∃ e s, perform_join (K := gmap bytes bytes) (λ s n, s ++ n) (λ _, Ok "PEM") (λ _, tpm_up) true 11 (with_mode Insecure)
           ((empty_store, 0%nat), 0) = (Err e, s) ∧ s.1.1.(Store.svid) = empty_store.(Store.svid).
Proof.
  set (run := perform_join _ _ _ _ _ _ _).
  assert (∃ e, run = (Err e, ((empty_store, 0%nat), 0))) as [e Hrun] by (by eexists).
  exists e, ((empty_store, 0%nat), 0). split; [exact Hrun|].
  destruct (join_failure (λ s n, s ++ n) (λ _, Ok "PEM") (λ _, tpm_up) true 11 (with_mode Insecure) empty_store 0%nat 0 e
    empty_store 0%nat 0 (sample_answers Insecure) Hrun) as [Hs|[_|_]]; [exact Hs|reflexivity..].
Defined.

Lemma join_terminates_witness : (sample_join Secure).1 ≠ Err OutOfFuel.
Proof.
  apply (join_terminates (λ s n, s ++ n) (λ _, Ok "PEM") (λ _, tpm_up) (λ n, Z.to_nat (4 - n)) false 11 (with_mode Secure)
    (empty_store, 0%nat) 0); [|simpl; lia].
  split; intros; try apply reply_patient.
  - cbn in *. simplify_eq. lia.
  - simpl. lia.
Defined.

Definition unavailable : Status := mkStatus Unavailable None "starting".
Definition no_conn : Conn (N := Z) := ("", "").
Definition refuse (_ : Conn (N := Z)) (n : Z) : result Status bytes * Z := (Err unavailable, n + 1).
Lemma join_never_gives_up_witness :
  (redirect_loop (K := gmap bytes bytes) (W := nat) 1000 "RequestNonce" refuse "PEM" no_conn 0
    ((empty_store, 0%nat), 0)).1 = Err OutOfFuel.
Proof.
  apply (join_never_gives_up 1000 "RequestNonce" refuse "PEM" no_conn 0 _ unavailable); [lia|done|done|].
  intros n. by eexists.
Defined.
