(* ===== verification/Startup.v ===== *)
(** The start of the agent (src/main.rs, phases 1 to 5): the SVID on record or a
    join, the client, and the first mTLS channel; and what a restart does. *)
From S2P Require Import Prelude Errors Store Core Config Svid Keystore Retry Client Attest Join.

Section startup.
Context {K W N : Type} `{Keyspace K} `{Sealing W} `{!TpmManager W} `{Tonic N} `{!JoinServices N}.
Context `{FleetCore} `{!KeyGen W} `{ChainCodec}.
Context (activation_proof : bytes → bytes → bytes).
Context (read_to_string : string → result string string).
Context (endpoint_of : Config.TpmEndpoint → TpmEndpoint (W := W)).

Definition startup_endpoint (config : AgentConfig) : option (TpmEndpoint (W := W)) :=
  endpoint_of <$> sealing_endpoint config.

(** Phase 4: the SVID on record, else a join. *)
Definition load_or_join (production : bool) (fuel : nat) (config : AgentConfig) : JM (K := K) (N := N) SvidState :=
  svid_state ← on_node (on_fst load);
  if is_none svid_state then
    _ ← on_node (generate_and_store_sealing_key (startup_endpoint config));
    _ ← perform_join activation_proof read_to_string endpoint_of production fuel config;
    on_node (on_fst load)
  else mret svid_state.

Definition read_client_bundle (config : AgentConfig) : JM (K := K) (W := W) (N := N) string :=
  lift (failing (map_err (λ e, Errors.Config ("failed to read trust bundle: " +:+ e))
    (read_to_string config.(control).(Config.trust_bundle_path)))).

(** [ControlPlaneClient::new], over the node's storage and world. *)
Definition ControlPlaneClient_new (target : string) (endpoint : option (TpmEndpoint (W := W))) (pem : string)
    (svid : SvidState) (st : Storage K) (w : W) (n : N) : ControlPlaneClient :=
  mkClient target None 0 st w endpoint pem svid n.

(** Phase 5: the client, and the channel that verifies it. *)
Definition connect_client (config : AgentConfig) (svid : SvidState) (pem : string) :
    JM (ControlPlaneClient (K := K) (W := W) (N := N) * Conn) := λ '((st, w), n),
  let c := ControlPlaneClient_new config.(control).(address) (startup_endpoint config) pem svid st w n in
  let '(r, c') := client_get_channel c in
  ((λ ch, (c', ch)) <$> failing r, ((c'.(client_storage), c'.(keystore_world)), c'.(net))).

(** [main] from the configuration to the verified channel. *)
Definition start (production : bool) (fuel : nat) (config : AgentConfig) :
    JM (ControlPlaneClient (K := K) (W := W) (N := N) * Conn) :=
  svid_state ← load_or_join production fuel config;
  pem ← read_client_bundle config;
  connect_client config svid_state pem.
End startup.

Section facts.
Context {K W N : Type} `{KeyspaceLaws K} `{SealingLaws W} `{!TpmManager W} `{Tonic N} `{!JoinServices N}.
Context `{FleetCore} `{!KeyGen W} `{ChainCodec} `{!AttestationLaws W}.
Context (activation_proof : bytes → bytes → bytes).
Context (read_to_string : string → result string string).
Context (endpoint_of : Config.TpmEndpoint → TpmEndpoint (W := W)).
Implicit Types (st : Storage K) (w : W) (n : N) (config : AgentConfig).
Abbreviation start := (start activation_proof read_to_string endpoint_of).

(** With a key that loads, the client's first channel is exactly one mTLS
    connection with the SVID's chain and that key. *)
Lemma connect_client_run config svid pem st w n key w' :
  load_svid_private_key (startup_endpoint endpoint_of config) (st, w) = (Ok (Some key), (st, w')) →
  let built := build_mtls_channel config.(control).(address) pem svid.(cert_chain_der) key n in
  (snd <$> (connect_client endpoint_of config svid pem ((st, w), n)).1) = failing built.1 ∧
  (connect_client endpoint_of config svid pem ((st, w), n)).2 = ((st, w'), built.2).
Proof.
  intros Hkey built. unfold connect_client, ControlPlaneClient_new, client_get_channel. cbn [last_svid_generation svid_state].
  set (c := if decide _ then _ else _).
  assert (∃ g, c = mkClient config.(control).(address) None g st w (startup_endpoint endpoint_of config) pem svid n)
    as [g ->] by (unfold c; case_decide; eexists; reflexivity).
  cbn [channel]. unfold mbind, M_bind, client_load_key, lift, client_connect, cache_channel. simpl. rewrite Hkey. simpl.
  subst built. by destruct (build_mtls_channel _ _ _ _ _) as [[ch|e] n1].
Qed.

(** With a key that does not, nothing is sent. *)
Lemma connect_client_no_key config svid pem st w n e w' :
  load_svid_private_key (startup_endpoint endpoint_of config) (st, w) = (Err e, (st, w')) →
  connect_client endpoint_of config svid pem ((st, w), n) = (Err (Failed e), ((st, w'), n)).
Proof.
  intros Hkey. unfold connect_client, ControlPlaneClient_new, client_get_channel. cbn [last_svid_generation svid_state].
  set (c := if decide _ then _ else _).
  assert (∃ g, c = mkClient config.(control).(address) None g st w (startup_endpoint endpoint_of config) pem svid n)
    as [g ->] by (unfold c; case_decide; eexists; reflexivity).
  cbn [channel]. unfold mbind, M_bind, client_load_key, lift. simpl. by rewrite Hkey.
Qed.

(** From a store with an SVID the agent starts without a join: all it does is
    connect.  The fuel of a join is not needed. *)
Lemma start_loaded production fuel config st w n svid pem :
  load st = (Ok svid, st) → is_none svid = false →
  read_to_string config.(control).(Config.trust_bundle_path) = Ok pem →
  start production fuel config ((st, w), n) = connect_client endpoint_of config svid pem ((st, w), n).
Proof.
  intros Hload Hsome Hpem. unfold Startup.start, load_or_join, read_client_bundle.
  unfold mbind, M_bind, on_node, on_fst, lift. rewrite Hload. simpl. rewrite Hsome. simpl. by rewrite Hpem.
Qed.

(** A first boot that succeeded joined, and its store has what a later start
    needs. *)
Lemma first_boot_ok production fuel config st w n none c ch st' w' n' :
  master_ok st → load st = (Ok none, st) → is_none none = true →
  (∀ csr pk resp, answered config csr pk resp → is_u64 resp.(resp_svid_version)) →
  start production fuel config ((st, w), n) = (Ok (c, ch), ((st', w'), n')) →
  ∃ pem svid key n1,
    read_to_string config.(control).(Config.trust_bundle_path) = Ok pem ∧
    load st' = (Ok svid, st') ∧ is_none svid = false ∧
    (∀ w2, ∃ w3, loaded (startup_endpoint endpoint_of config) key w' w2
       (load_svid_private_key (startup_endpoint endpoint_of config) (st', w2)) (st', w3)) ∧
    build_mtls_channel config.(control).(address) pem svid.(cert_chain_der) key n1 = (Ok ch, n').
Proof.
  intros Hm Hnone Hisnone Hu64 Hrun. unfold Startup.start in Hrun.
  apply jm_bind_ok in Hrun as (svid & [st1 w1] & n1 & Hloaded & Hrun).
  apply jm_bind_ok in Hrun as (pem & s2 & n2 & [Hpem%failing_ok%map_err_ok [= -> ->]]%lift_ok & Hrun).
  unfold load_or_join in Hloaded.
  apply jm_bind_ok in Hloaded as (svid0 & s3 & n3 & [Hl ->]%on_node_ok & Hloaded).
  destruct s3 as [st3 w3]. apply on_fst_ok in Hl as [Hl ->]. rewrite Hnone in Hl. injection Hl as <- <-.
  rewrite Hisnone in Hloaded.
  apply jm_bind_ok in Hloaded as (pk & [st4 w4] & n4 & [Hgen ->]%on_node_ok & Hloaded).
  apply jm_bind_ok in Hloaded as ([] & [st5 w5] & n5 & Hjoin & Hloaded).
  apply on_node_ok in Hloaded as [[Hl5 ->]%on_fst_ok ->].
  apply sealing_key_ok in Hgen as (sk0 & w0 & _ & _ & [Hm4 _]%store_loads); [|done..].
  pose proof (pcr_kept _ _ _ _ _ _ _ _ (keeps_pcr_join _ _ _ _ _ _) Hjoin) as Hp5.
  apply perform_join_ok in Hjoin as (_ & st6 & resp & g & Hatt & Hd & Hload); [|done].
  rewrite Hload in Hl5. injection Hl5 as <- <-.
  destruct (attested_keys _ _ _ _ _ _ _ Hatt Hd) as (sk & pk' & kp & csr & _ & _ & _ & [Hkey _]%(λ f, f Hm4)).
  destruct (Hkey w5) as [w6 Hkey5].
  apply loaded_opens in Hkey5; [|by apply opens_refl].
  assert (pcr w6 = pcr w4) as Hp6.
  { pose proof (keeps_pcr_load (startup_endpoint endpoint_of config) KEY_SVID_PRIVATE_KEY (st5, w5)) as Hk.
    unfold load_svid_private_key, startup_endpoint in *. rewrite Hkey5 in Hk. unfold pcrs_of in Hk. simpl in Hk. congruence. }
  destruct (connect_client_run config (mkSvidState [resp.(resp_cert_der)] resp.(resp_svid_version) g) pem
    st5 w5 n5 _ _ Hkey5) as [Hch Hst].
  rewrite Hrun in Hch, Hst. injection Hst as -> -> ->.
  exists pem, (mkSvidState [resp.(resp_cert_der)] resp.(resp_svid_version) g), (serialize_der kp), n5.
  do 3 (split; [done|]). split.
  { intros w2. destruct (Hkey w2) as [w3 Hl]. exists w3. by eapply loaded_eq; [|exact Hl]. }
  cbn [cert_chain_der].
  destruct (build_mtls_channel _ _ _ _ n5) as [[ch'|] n'']; simpl in Hch; [by injection Hch as ->|done].
Qed.

(** C25: A node joins once.  After a first start that succeeded, every later
    start, whatever the TPM and the network have become and with no fuel for a
    join at all, runs without one and leaves the store as it is.  It connects
    once, with the certificate and private key of that first join, and succeeds
    exactly when this one connection does; only where the key is sealed to the
    TPM and PCR 0, 7 or 9 changed since, it may instead fail before it connects,
    the network untouched. *)
Theorem restart_reconnects production fuel config st w n none c ch st' w' n' :
  master_ok st → load st = (Ok none, st) → is_none none = true →
  (∀ csr pk resp, answered config csr pk resp → is_u64 resp.(resp_svid_version)) →
  start production fuel config ((st, w), n) = (Ok (c, ch), ((st', w'), n')) →
  ∃ pem svid key, load st' = (Ok svid, st') ∧ is_none svid = false ∧
    let connect_again := build_mtls_channel config.(control).(address) pem svid.(cert_chain_der) key in
    (∃ n1, connect_again n1 = (Ok ch, n')) ∧
    ∀ production2 fuel2 w2 n2, ∃ w3,
      let again := start production2 fuel2 config ((st', w2), n2) in
      (snd <$> again.1 = failing (connect_again n2).1 ∧ again.2 = ((st', w3), (connect_again n2).2)) ∨
      (¬ opens (startup_endpoint endpoint_of config) w' w2 ∧
       ∃ e, again = (Err (Failed e), ((st', w3), n2))).
Proof.
  intros Hm Hnone Hisnone Hu64 Hrun.
  destruct (first_boot_ok _ _ _ _ _ _ _ _ _ _ _ _ Hm Hnone Hisnone Hu64 Hrun)
    as (pem & svid & key & n1 & Hpem & Hload & Hsome & Hkey & Hbuilt).
  exists pem, svid, key. do 2 (split; [done|]). split; [by exists n1|].
  intros production2 fuel2 w2 n2. destruct (Hkey w2) as [w3 Hkey2]. exists w3. cbv zeta.
  rewrite (start_loaded _ _ _ _ _ _ _ _ Hload Hsome Hpem).
  destruct Hkey2 as [Hkey2|[Hno [e Hkey2]]]; [left; by apply connect_client_run|].
  right. split; [done|]. exists e. by apply connect_client_no_key.
Qed.
End facts.

(** ** Witness: a node that joins through a redirect, then restarts *)

Definition sample_start (m : JoinMode) (fuel : nat) (s : Storage (gmap bytes bytes) * nat * Z) :=
  start (λ s n, s ++ n) (λ _, Ok "PEM") (λ _, tpm_up) false fuel (with_mode m) s.
Definition first_start := sample_start Secure 11 ((empty_store, 0%nat), 0).

Lemma first_start_ok : ∃ c ch, first_start = (Ok (c, ch), ((first_start.2.1.1, first_start.2.1.2), first_start.2.2)).
Proof.
  destruct first_start as [[[c ch]|e] [[st w] n]] eqn:Hrun.
  - by exists c, ch.
  - assert (is_ok first_start.1 = true) as Hok by by vm_compute. by rewrite Hrun in Hok.
Qed.

(** No fuel, a later TPM and a later network, the registers as they were: the
    store stays, and the start is the connection. *)
Lemma restart_reconnects_witness :
  let again := sample_start Secure 0 ((first_start.2.1.1, 40%nat), 100) in
  again.2.1.1 = first_start.2.1.1 ∧ is_ok again.1 = true.
Proof.
  destruct first_start_ok as (c & ch & Hrun).
  destruct (restart_reconnects (λ s n, s ++ n) (λ _, Ok "PEM") (λ _, tpm_up) false 11 (with_mode Secure)
    empty_store 0%nat 0 SvidState_default c ch _ _ _ empty_master_ok eq_refl eq_refl (sample_answers Secure) Hrun)
    as (pem & svid & key & _ & _ & _ & Hagain).
  assert (opens (startup_endpoint (W := nat) (λ _, tpm_up) (with_mode Secure)) first_start.2.1.2 40%nat) as Hopens
    by (apply (bool_decide_unpack _); by vm_compute).
  destruct (Hagain false 0%nat 40%nat 100) as (w3 & [[Hch Hst]|[Hno _]]); [|by destruct Hno].
  split; [exact (f_equal (λ x, x.1.1) Hst)|]. by vm_compute.
Defined.
