(* ===== verification/Loader.v ===== *)
(** Loading the eBPF object (src/ebpf/loader.rs), taking its maps
    (src/ebpf/maps.rs, src/ebpf/mod.rs, src/ebpf/events.rs) and attaching the
    node-wide programs (src/ebpf/programs.rs), as src/main.rs runs them at
    startup.  aya and std::fs are outside the repository: their operations are
    the classes [Directory] and [BpfObject]. *)
From S2P Require Import Prelude Errors Core Config NetGuard.

(** [Path::exists], [read_dir] with one result per entry, [Path::is_file],
    [remove_file], [create_dir_all], [fs::read], [File::open]. *)
Class Directory (F : Type) := {
  path_exists : F → string → bool;
  read_dir : string → M string F (list (result string string));
  is_file : F → string → bool;
  remove_file : string → M string F unit;
  create_dir_all : string → M string F unit;
  read_bytes : string → M string F bytes;
  open_file : string → M string F unit;
}.

(** What a map is opened as, with the sizes of its key and value. *)
Inductive map_type :=
| HashMap (key value : nat)
| PerCpuHashMap (key value : nat)
| Array (value : nat)
| RingBuf.
#[export] Instance map_type_eq_dec : EqDecision map_type.
Proof. solve_decision. Defined.

(** [Ebpf::load], [Ebpf::map], [Ebpf::take_map], and the conversion of what was
    taken to a typed map. *)
Class BpfObject (F E : Type) := {
  MapData : Type;
  object_load : bytes → M string F E;
  has_map : E → string → bool;
  take_map : string → E → option MapData * E;
  map_try_from : map_type → MapData → result string unit;
}.

Section loader.
Context {F E G : Type} `{Directory F} `{BpfObject F E} `{Aya E G}.

Definition io {A} (c : M string F A) : M AgentError F A :=
  λ f, let '(r, f') := c f in (map_err Io r, f').

(** ** src/ebpf/loader.rs *)

Fixpoint remove_pins (entries : list (result string string)) : M AgentError F unit :=
  match entries with
  | [] => mret tt
  | entry :: entries =>
      path ← lift (map_err Io entry);
      f ← get;
      _ ← (if is_file f path then io (remove_file path) else mret tt);
      remove_pins entries
  end.

Definition cleanup_stale_pins (pin_path : string) : M AgentError F unit :=
  f ← get;
  if negb (path_exists f pin_path) then mret tt else
  entries ← io (read_dir pin_path);
  remove_pins entries.

(** The headroom is not looked at. *)
Definition check_map_capacity (ebpf : E) (headroom_percent : Z) : Result unit :=
  if has_map ebpf "POLICY_STATS" then Ok tt
  else Err (Ebpf "POLICY_STATS map missing from eBPF object").

Definition load_object (config : EbpfConfig) : M AgentError F E :=
  f ← get;
  if negb (path_exists f config.(object_path)) then
    fail (Ebpf ("eBPF object not found at " +:+ config.(object_path) +:+
      ". Build it from the fleetos-ebpf workspace: " +:+
      "cargo +nightly build --release --target bpfel-unknown-none -p fleetos-ebpf -Z build-std=core"))
  else
    _ ← cleanup_stale_pins config.(pin_path);
    _ ← io (create_dir_all config.(pin_path));
    bytes ← ebpf_err ("failed to read eBPF object at " +:+ config.(object_path)) (read_bytes config.(object_path));
    ebpf ← ebpf_err "failed to load eBPF object" (object_load bytes);
    _ ← lift (check_map_capacity ebpf config.(map_headroom_percent));
    mret ebpf.

(** ** Typed maps *)

Record TypedMap := mkTyped { typed_as : map_type; data : MapData }.

Definition open_map (missing name : string) (t : map_type) : M AgentError E TypedMap := λ e,
  let '(map, e') := take_map name e in
  (map ← ok_or (Ebpf missing) map;
   _ ← map_err (λ msg, Ebpf (name +:+ ": " +:+ msg)) (map_try_from t map);
   mret (mkTyped t map), e').

Definition dummy_ip_route_map := open_map "DUMMY_IP_ROUTE_MAP missing" "DUMMY_IP_ROUTE_MAP" (HashMap 4 40).
Definition src_identity_map := open_map "SRC_IDENTITY_MAP missing" "SRC_IDENTITY_MAP" (HashMap 4 16).
Definition policy_exact_map := open_map "POLICY_EXACT missing" "POLICY_EXACT" (HashMap 40 16).
Definition policy_wildcard_map := open_map "POLICY_WILDCARD missing" "POLICY_WILDCARD" (HashMap 32 16).
Definition local_workloads_map := open_map "LOCAL_WORKLOADS missing" "LOCAL_WORKLOADS" (HashMap 16 1).
Definition boot_gate_map := open_map "BOOT_GATE missing" "BOOT_GATE" (Array 4).
Definition pod_net_counters_map := open_map "POD_NET_COUNTERS missing" "POD_NET_COUNTERS" (PerCpuHashMap 4 32).
Definition policy_stats_map := open_map "POLICY_STATS missing" "POLICY_STATS" (Array 8).
Definition take_flow_events_ringbuf := open_map "FLOW_EVENTS missing" "FLOW_EVENTS" RingBuf.

(** ** src/ebpf/mod.rs *)

Record EbpfManager := mkManager {
  manager_ebpf : E;
  manager_config : EbpfConfig;
  local_workloads_mirror : gmap bytes Z;
  policy_exact : TypedMap;
  policy_wildcard : TypedMap;
  dummy_ip_route : TypedMap;
  local_workloads : TypedMap;
  src_identity : TypedMap;
  pod_net_counters : TypedMap;
}.

(** The maps [load] takes, in its order. *)
Definition take_maps (config : EbpfConfig) : M AgentError E EbpfManager :=
  exact ← policy_exact_map;
  wildcard ← policy_wildcard_map;
  route ← dummy_ip_route_map;
  locals ← local_workloads_map;
  src ← src_identity_map;
  counters ← pod_net_counters_map;
  ebpf ← get;
  mret (mkManager ebpf config ∅ exact wildcard route locals src counters).

Definition EbpfManager_load (config : EbpfConfig) : M AgentError F EbpfManager :=
  ebpf ← load_object config;
  lift (take_maps config ebpf).1.

(** ** Node-wide programs *)

Inductive AttachedLink := CgroupSockAddrLink (id : LinkId) | SockOpsLink (id : LinkId).

Definition attach_cgroup_programs (cgroup_path : string) : M AgentError (F * E) (list AttachedLink) :=
  _ ← on_fst (io (open_file cgroup_path));
  _ ← on_snd (load_program CgroupSockAddr "fleetos_connect4");
  connect4 ← on_snd (ebpf_err "fleetos_connect4 attach" (program_attach "fleetos_connect4" (Cgroup cgroup_path)));
  _ ← on_snd (load_program SockOps "fleetos_sockops");
  sockops ← on_snd (ebpf_err "fleetos_sockops attach" (program_attach "fleetos_sockops" (Cgroup cgroup_path)));
  mret [CgroupSockAddrLink connect4; SockOpsLink sockops].

(** [VmNetGuardAdapter::new] takes the gate. *)
Definition VmNetGuardAdapter_new : M AgentError E TypedMap := open_map "BOOT_GATE map missing" "BOOT_GATE" (Array 4).

(** The eBPF phases of [main]: the manager, its object with the programs
    attached, the ring buffer and the gate. *)
Definition ebpf_startup (config : EbpfConfig) :
    M AgentError F (EbpfManager * E * list AttachedLink * TypedMap * TypedMap) := λ f,
  match EbpfManager_load config f with
  | (Err err, f1) => (Err err, f1)
  | (Ok mgr, f1) =>
      match attach_cgroup_programs config.(cgroup_path) (f1, mgr.(manager_ebpf)) with
      | (Err err, (f2, _)) => (Err err, f2)
      | (Ok links, (f2, e2)) =>
          let '(ring, e3) := take_flow_events_ringbuf e2 in
          match ring with
          | Err err => (Err err, f2)
          | Ok ring =>
              let '(gate, e4) := VmNetGuardAdapter_new e3 in
              (gate ← gate; mret (mgr, e4, links, ring, gate), f2)
          end
      end
  end.
End loader.

(** ** Documented behaviour *)

Class DirectoryLaws (F : Type) `{Directory F} := {
  (** [in_dir p q]: [q] is the path of an entry of [p] *)
  in_dir : string → string → Prop;
  read_dir_lists p f es f' : read_dir p f = (Ok es, f') →
    f' = f ∧ (∀ q, Ok q ∈ es → in_dir p q) ∧ ∀ q, in_dir p q → is_file f q = true → Ok q ∈ es;
  remove_file_ok p f f' : remove_file p f = (Ok tt, f') →
    ∀ q, is_file f' q = is_file f q && bool_decide (q ≠ p);
  create_dir_keeps p f r f' : create_dir_all p f = (r, f') → ∀ q, is_file f' q = is_file f q;
  read_reads p f r f' : read_bytes p f = (r, f') → f' = f;
  read_needs_file p f b f' : read_bytes p f = (Ok b, f') → is_file f p = true;
  absent_is_empty p f : path_exists f p = false → ∀ q, in_dir p q → is_file f q = false;
}.

Class BpfObjectLaws (F E G : Type) `{BpfObject F E, AyaLaws E G} : Prop := {
  take_ok n e d e' : take_map n e = (Some d, e') →
    has_map e n = true ∧ ∀ k, has_map e' k = has_map e k && bool_decide (k ≠ n);
  take_none n e e' : take_map n e = (None, e') → has_map e n = false;
  take_loaded n e d e' p : take_map n e = (d, e') → is_loaded e p → is_loaded e' p;
  load_keeps_maps p e r e' : program_load p e = (r, e') → ∀ k, has_map e' k = has_map e k;
  attach_keeps_maps p i e r e' : program_attach p i e = (r, e') → ∀ k, has_map e' k = has_map e k;
}.

Section facts.
Context {F E G : Type} `{DirectoryLaws F} `{BpfObjectLaws F E G}.
Implicit Types (f : F) (e : E) (config : EbpfConfig).

Lemma io_done {A} (c : M string F A) f a f' : io c f = (Ok a, f') ↔ c f = (Ok a, f').
Proof. unfold io. destruct (c f) as [[]?]; simpl; naive_solver. Qed.

(** ** Stale pins *)

Lemma remove_pins_ok entries f f' :
  remove_pins entries f = (Ok tt, f') →
  ∀ q, is_file f' q = is_file f q && bool_decide (Ok q ∉ entries).
Proof.
  revert f. induction entries as [|entry entries IH]; intros f Hrun q.
  { injection Hrun as <-. rewrite bool_decide_eq_true_2 by apply not_elem_of_nil. by rewrite andb_true_r. }
  cbn [remove_pins] in Hrun.
  apply M_bind_ok in Hrun as (path & f1 & [Hentry%map_err_ok ->]%lift_ok & Hrun). subst entry.
  apply M_bind_ok in Hrun as (f2 & f3 & [= <- <-] & Hrun).
  apply M_bind_ok in Hrun as ([] & f4 & Hrm & Hrun). rewrite (IH _ Hrun q).
  assert (bool_decide (Ok q ∉ Ok path :: entries) = bool_decide (q ≠ path) && bool_decide (Ok q ∉ entries)) as ->.
  { rewrite <-bool_decide_and. apply bool_decide_ext. rewrite not_elem_of_cons. naive_solver. }
  rewrite andb_assoc. f_equal. destruct (is_file f path) eqn:Hfile.
  - apply io_done in Hrm. by apply remove_file_ok.
  - injection Hrm as <-. destruct (decide (q = path)) as [->|Hne]; [by rewrite Hfile|].
    rewrite bool_decide_eq_true_2 by done. by rewrite andb_true_r.
Qed.

Lemma cleanup_ok pin f f' :
  cleanup_stale_pins pin f = (Ok tt, f') →
  (∀ q, in_dir pin q → is_file f' q = false) ∧ (∀ q, ¬ in_dir pin q → is_file f' q = is_file f q).
Proof.
  unfold cleanup_stale_pins. intros (f0 & f1 & [= <- <-] & Hrun)%M_bind_ok.
  destruct (path_exists f pin) eqn:Hex; simpl in Hrun.
  2: { injection Hrun as <-. split; [by apply absent_is_empty|done]. }
  apply M_bind_ok in Hrun as (es & f2 & Hread%io_done & Hrun).
  apply read_dir_lists in Hread as (-> & Hin & Hall). split; intros q Hq; rewrite (remove_pins_ok _ _ _ Hrun q).
  - destruct (is_file f q) eqn:Hfile; [|done]. simpl. apply bool_decide_eq_false. specialize (Hall q Hq Hfile). tauto.
  - rewrite bool_decide_eq_true_2, andb_true_r; [done|]. by intros Hes%Hin.
Qed.

(** The object is loaded over a clean pin directory.  When [Ebpf::load]
    runs, no file is left directly in the pin path, every other file is as it
    was, and the bytes are those of the configured object; what is returned has
    POLICY_STATS. *)
Theorem load_object_clean config f ebpf f' :
  load_object config f = (Ok ebpf, f') →
  ∃ f1 bytes,
    (∀ q, in_dir config.(pin_path) q → is_file f1 q = false) ∧
    (∀ q, ¬ in_dir config.(pin_path) q → is_file f1 q = is_file f q) ∧
    read_bytes config.(object_path) f1 = (Ok bytes, f1) ∧
    object_load bytes f1 = (Ok ebpf, f') ∧ has_map ebpf "POLICY_STATS" = true.
Proof.
  unfold load_object. intros (f0 & f1 & [= <- <-] & Hrun)%M_bind_ok.
  destruct (path_exists f _); simpl in Hrun; [|done].
  apply M_bind_ok in Hrun as ([] & f1 & [Hclean Hother]%cleanup_ok & Hrun).
  apply M_bind_ok in Hrun as ([] & f2 & Hmk%io_done & Hrun).
  apply M_bind_ok in Hrun as (bytes & f3 & Hread%ebpf_err_ok & Hrun).
  apply M_bind_ok in Hrun as (e & f4 & Hload%ebpf_err_ok & Hrun).
  apply M_bind_ok in Hrun as ([] & f5 & [Hcap ->]%lift_ok & [= -> ->]).
  pose proof (read_reads _ _ _ _ Hread) as ->. unfold check_map_capacity in Hcap.
  exists f2, bytes. split; [|split; [|split; [done|split; [done|by destruct (has_map ebpf _)]]]];
    intros q Hq; rewrite (create_dir_keeps _ _ _ _ Hmk); auto.
Qed.

(** An object kept in the pin directory is removed as a stale pin before it is
    read. *)
Theorem object_among_pins config f ebpf f' :
  in_dir config.(pin_path) config.(object_path) → load_object config f ≠ (Ok ebpf, f').
Proof.
  intros Hin Hrun. unfold load_object in Hrun.
  apply M_bind_ok in Hrun as (f0 & f1 & [= <- <-] & Hrun). destruct (path_exists f _); simpl in Hrun; [|done].
  apply M_bind_ok in Hrun as ([] & f1 & [Hclean _]%cleanup_ok & Hrun).
  apply M_bind_ok in Hrun as ([] & f2 & Hmk%io_done & Hrun).
  apply M_bind_ok in Hrun as (bytes & f3 & Hread%ebpf_err_ok & _).
  apply read_needs_file in Hread. rewrite (create_dir_keeps _ _ _ _ Hmk), Hclean in Hread; done.
Qed.

(** ** Every map has one owner *)

(** From [e] to [e'] exactly the maps [ns] were taken. *)
Definition taken (ns : list string) (e e' : E) : Prop :=
  Forall (λ n, has_map e n = true) ns ∧ ∀ k, has_map e' k = has_map e k && bool_decide (k ∉ ns).

Lemma taken_none e e' : (∀ k, has_map e' k = has_map e k) → taken [] e e'.
Proof.
  intros Hk. split; [constructor|]. intros k. rewrite Hk, bool_decide_eq_true_2 by apply not_elem_of_nil.
  by rewrite andb_true_r.
Qed.
Lemma taken_app ns ms e e1 e2 : taken ns e e1 → taken ms e1 e2 → taken (ns ++ ms) e e2.
Proof.
  intros [Hns Hk1] [Hms Hk2]. split.
  - apply Forall_app. split; [done|]. eapply Forall_impl; [exact Hms|]. intros n Hn. simpl in Hn. rewrite Hk1 in Hn.
    by apply andb_prop in Hn as [? _].
  - intros k. rewrite Hk2, Hk1, <-andb_assoc, <-bool_decide_and. f_equal. apply bool_decide_ext.
    rewrite elem_of_app. tauto.
Qed.

Lemma open_map_ok missing n t e m e' :
  open_map missing n t e = (Ok m, e') → taken [n] e e' ∧ m.(typed_as) = t.
Proof.
  unfold open_map. destruct (take_map n e) as [d e1] eqn:Ht. intros [= Hm ->].
  apply result_bind_ok in Hm as (d' & Hd%ok_or_ok & Hm). subst d.
  apply result_bind_ok in Hm as (u & _ & [= <-]). apply take_ok in Ht as [Hn Hk].
  split; [|done]. split; [by constructor|]. intros k. rewrite Hk. f_equal. apply bool_decide_ext.
  by rewrite list_elem_of_singleton.
Qed.
Lemma open_map_gone missing n t e : has_map e n = false → ∃ e', open_map missing n t e = (Err (Ebpf missing), e').
Proof.
  intros Hn. unfold open_map. destruct (take_map n e) as [[d|] e1] eqn:Ht; [|by eexists].
  apply take_ok in Ht as [Hyes _]. congruence.
Qed.
Lemma open_map_loaded missing n t e r e' p : open_map missing n t e = (r, e') → is_loaded e p → is_loaded e' p.
Proof. unfold open_map. destruct (take_map n e) as [d e1] eqn:Ht. intros [= _ <-]. by eapply take_loaded. Qed.

(** The maps of a manager. *)
Definition manager_maps : list string :=
  ["POLICY_EXACT"; "POLICY_WILDCARD"; "DUMMY_IP_ROUTE_MAP"; "LOCAL_WORKLOADS"; "SRC_IDENTITY_MAP"; "POD_NET_COUNTERS"].

Lemma take_maps_ok config e mgr e' :
  take_maps config e = (Ok mgr, e') →
  taken manager_maps e mgr.(manager_ebpf) ∧
  typed_as <$> [mgr.(policy_exact); mgr.(policy_wildcard); mgr.(dummy_ip_route); mgr.(local_workloads);
    mgr.(src_identity); mgr.(pod_net_counters)] =
    [HashMap 40 16; HashMap 32 16; HashMap 4 40; HashMap 16 1; HashMap 4 16; PerCpuHashMap 4 32].
Proof.
  unfold take_maps.
  intros (m1 & e1 & [T1 <-]%open_map_ok & (m2 & e2 & [T2 <-]%open_map_ok & (m3 & e3 & [T3 <-]%open_map_ok &
    (m4 & e4 & [T4 <-]%open_map_ok & (m5 & e5 & [T5 <-]%open_map_ok & (m6 & e6 & [T6 <-]%open_map_ok &
    (e7 & e8 & [= <- <-] & [= <- <-])%M_bind_ok)%M_bind_ok)%M_bind_ok)%M_bind_ok)%M_bind_ok)%M_bind_ok)%M_bind_ok.
  split; [|done]. simpl. do 5 (eapply (taken_app [_]); [eassumption|]). done.
Qed.

Lemma load_program_keeps_maps kind p e r e' : load_program kind p e = (r, e') → ∀ k, has_map e' k = has_map e k.
Proof.
  unfold load_program, mbind, M_bind, get, lift, ebpf_err.
  destruct (has_program e p); [|by intros [= _ <-]]. destruct (program_cast e kind p); simpl; [|by intros [= _ <-]].
  destruct (program_load p e) as [r1 e1] eqn:Hl. intros [= _ <-]. by eapply load_keeps_maps.
Qed.

Lemma attach_cgroup_ok path f e links f' e' :
  attach_cgroup_programs path (f, e) = (Ok links, (f', e')) →
  taken [] e e' ∧ is_loaded e' "fleetos_connect4" ∧ is_loaded e' "fleetos_sockops" ∧ length links = 2%nat.
Proof.
  unfold attach_cgroup_programs. intros ([] & [f1 e1] & [_ ->]%on_fst_ok & Hrun)%M_bind_ok.
  apply M_bind_ok in Hrun as ([] & [f2 e2] & [Hl1 ->]%on_snd_ok & Hrun).
  apply M_bind_ok in Hrun as (a1 & [f3 e3] & [Ha1%ebpf_err_ok ->]%on_snd_ok & Hrun).
  apply M_bind_ok in Hrun as ([] & [f4 e4] & [Hl2 ->]%on_snd_ok & Hrun).
  apply M_bind_ok in Hrun as (a2 & [f5 e5] & [Ha2%ebpf_err_ok ->]%on_snd_ok & [= <- <- <-]).
  split; [|split; [|split; [|done]]].
  - apply taken_none. intros k.
    by rewrite (attach_keeps_maps _ _ _ _ _ Ha2), (load_program_keeps_maps _ _ _ _ _ Hl2),
      (attach_keeps_maps _ _ _ _ _ Ha1), (load_program_keeps_maps _ _ _ _ _ Hl1).
  - eapply attach_stays; [|exact Ha2]. eapply load_program_stays; [|exact Hl2].
    eapply attach_stays; [|exact Ha1]. by apply load_program_ok in Hl1.
  - eapply attach_stays; [|exact Ha2]. by apply load_program_ok in Hl2.
Qed.

(** The maps the agent takes at startup. *)
Definition startup_maps : list string := manager_maps ++ ["FLOW_EVENTS"; "BOOT_GATE"].

(** Every kernel map has one owner.  A startup that succeeds loaded an
    object with all eight maps the agent uses, took each at its key and value
    sizes, attached both node-wide programs, and leaves the other maps in the
    object; from then on every further attempt to open one of the eight fails
    as missing, so no second writer can appear. *)
Theorem startup_owns_maps config f mgr e links ring gate f' :
  ebpf_startup config f = (Ok (mgr, e, links, ring, gate), f') →
  (∃ f1 ebpf, load_object config f = (Ok ebpf, f1) ∧ taken startup_maps ebpf e) ∧
  typed_as <$> [mgr.(policy_exact); mgr.(policy_wildcard); mgr.(dummy_ip_route); mgr.(local_workloads);
    mgr.(src_identity); mgr.(pod_net_counters); ring; gate] =
    [HashMap 40 16; HashMap 32 16; HashMap 4 40; HashMap 16 1; HashMap 4 16; PerCpuHashMap 4 32; RingBuf; Array 4] ∧
  is_loaded e "fleetos_connect4" ∧ is_loaded e "fleetos_sockops" ∧ length links = 2%nat ∧
  ∀ missing n t, n ∈ startup_maps → ∃ e', open_map missing n t e = (Err (Ebpf missing), e').
Proof.
  unfold ebpf_startup, EbpfManager_load. intros Hrun.
  destruct ((ebpf ← load_object config; _) f) as [[mgr0|] f1] eqn:Hmgr; [|done].
  apply M_bind_ok in Hmgr as (ebpf & f0 & Hobj & [Hmaps ->]%lift_ok).
  destruct (take_maps config ebpf) as [rm em] eqn:Htake. simpl in Hmaps. subst rm.
  apply take_maps_ok in Htake as [T1 Htypes].
  destruct (attach_cgroup_programs _ _) as [[links0|] [f2 e2]] eqn:Hatt; [|done].
  apply attach_cgroup_ok in Hatt as (T2 & Hc & Hs & Hlen).
  destruct (take_flow_events_ringbuf e2) as [[ring0|] e3] eqn:Hring; [|done].
  pose proof (open_map_loaded _ _ _ _ _ _ _ Hring Hc) as Hc3. pose proof (open_map_loaded _ _ _ _ _ _ _ Hring Hs) as Hs3.
  apply open_map_ok in Hring as [T3 Hrt].
  destruct (VmNetGuardAdapter_new e3) as [[gate0|] e4] eqn:Hgate; simpl in Hrun; [|done].
  pose proof (open_map_loaded _ _ _ _ _ _ _ Hgate Hc3) as Hc4. pose proof (open_map_loaded _ _ _ _ _ _ _ Hgate Hs3) as Hs4.
  apply open_map_ok in Hgate as [T4 Hgt].
  injection Hrun as <- <- <- <- <- <-.
  assert (taken startup_maps ebpf e4) as Hall.
  { unfold startup_maps. eapply taken_app; [exact T1|]. apply (taken_app [] _ _ _ _ T2).
    by apply (taken_app ["FLOW_EVENTS"] _ _ _ _ T3). }
  split; [by exists f0, ebpf|]. split; [by rewrite !fmap_cons, Hrt, Hgt in *; simpl in Htypes |- *; simplify_eq; congruence|].
  repeat (split; [done|]). intros missing n t Hn. apply open_map_gone.
  destruct Hall as [_ ->]. rewrite bool_decide_eq_false_2 by tauto. by rewrite andb_false_r.
Qed.
End facts.

(** ** Witnesses *)

(** Files as a set of paths; an object as the maps it has left and the programs
    loaded. *)
#[local] Instance sample_dir : Directory (gset string) := {
  path_exists f p := bool_decide (p ∈ f) || bool_decide (filter (λ q, String.prefix (p +:+ "/") q = true) (elements f) ≠ []);
  read_dir p f := (Ok (Ok <$> filter (λ q, String.prefix (p +:+ "/") q = true) (elements f)), f);
  is_file f p := bool_decide (p ∈ f);
  remove_file p f := (Ok tt, f ∖ {[p]});
  create_dir_all _ f := (Ok tt, f);
  read_bytes p f := if decide (p ∈ f) then (Ok [], f) else (Err "ENOENT", f);
  open_file _ f := (Ok tt, f);
}.
#[local] Instance sample_bpf_aya : Aya (gset string * gset string) Z := {
  LinkId := string * attach_point;
  has_program _ _ := true;
  program_cast _ _ _ := Ok tt;
  program_load p e := if decide (p ∈ e.2) then (Err "AlreadyLoaded", e) else (Ok tt, (e.1, {[p]} ∪ e.2));
  program_attach p i e := (Ok (p, i), e);
  gate_set _ v _ := (Ok tt, v);
  gate_get g _ := Some g;
}.
#[local] Program Instance sample_bpf_aya_laws : AyaLaws (gset string * gset string) Z :=
  { is_loaded e p := p ∈ e.2; attached _ l p i := l = (p, i) }.
Next Obligation. simpl. intros p e e' Hl. case_decide; simplify_eq/=. set_solver. Qed.
Next Obligation. simpl. intros p q e r e' Hp Hl. case_decide; simplify_eq/=; set_solver. Qed.
Next Obligation. simpl. intros p q i e r e' Hp Hl. by simplify_eq. Qed.
Next Obligation. simpl. intros p i e l e' Hl. by simplify_eq. Qed.
Next Obligation. done. Qed.
Next Obligation. done. Qed.
Next Obligation. simpl. intros p e Hp. rewrite decide_True by done. eauto. Qed.
Next Obligation. simpl. intros i v g g' Hs. by simplify_eq. Qed.
Next Obligation. simpl. intros i v g g' msg Hs. done. Qed.
#[local] Instance sample_object : BpfObject (gset string) (gset string * gset string) := {
  MapData := string;
  object_load _ f := (Ok (list_to_set ("POLICY_STATS" :: startup_maps), ∅), f);
  has_map e n := bool_decide (n ∈ e.1);
  take_map n e := if decide (n ∈ e.1) then (Some n, (e.1 ∖ {[n]}, e.2)) else (None, e);
  map_try_from _ _ := Ok tt;
}.
#[local] Program Instance sample_dir_laws : DirectoryLaws (gset string) :=
  { in_dir p q := String.prefix (p +:+ "/") q = true }.
Next Obligation.
  simpl. intros p f es f' [= <- <-]. split; [done|]. split; intros q.
  - by intros (q' & [= ->] & [Hq _]%list_elem_of_filter)%list_elem_of_fmap.
  - intros Hq Hf%bool_decide_eq_true. apply list_elem_of_fmap. exists q. split; [done|].
    apply list_elem_of_filter. by rewrite elem_of_elements.
Qed.
Next Obligation.
  simpl. intros p f f' [= <-] q. rewrite <-bool_decide_and. apply bool_decide_ext. set_solver.
Qed.
Next Obligation. simpl. intros p f r f' [= _ <-]. done. Qed.
Next Obligation. simpl. intros p f r f' Hr. case_decide; by simplify_eq. Qed.
Next Obligation. simpl. intros p f b f' Hr. case_decide; simplify_eq. by apply bool_decide_eq_true. Qed.
Next Obligation.
  simpl. intros p f Hex q Hq. apply orb_false_elim in Hex as [_ Hex%bool_decide_eq_false].
  apply bool_decide_eq_false. intros Hf. apply Hex. intros Hnil.
  apply (not_elem_of_nil (A := string) q). rewrite <-Hnil. apply list_elem_of_filter. by rewrite elem_of_elements.
Qed.
#[local] Instance sample_object_laws : BpfObjectLaws (gset string) (gset string * gset string) Z.
Proof.
  split; simpl.
  - intros n e d e' Ht. case_decide; simplify_eq/=. split; [by apply bool_decide_eq_true|].
    intros k. rewrite <-bool_decide_and. apply bool_decide_ext. set_solver.
  - intros n e e' Ht. case_decide; simplify_eq. by apply bool_decide_eq_false.
  - intros n e d e' p Ht. case_decide; by simplify_eq/=.
  - intros p e r e' Hl k. case_decide; by simplify_eq/=.
  - intros p i e r e' Ha k. by simplify_eq.
Qed.

(** A node whose previous agent left two pins. *)
Definition stale_node : gset string :=
  {["/usr/lib/fleetos/fleetos-ebpf"; "/sys/fs/bpf/fleetos/POLICY_EXACT"; "/sys/fs/bpf/fleetos/BOOT_GATE"]}.
Definition loaded : result AgentError (gset string * gset string) * gset string :=
  load_object EbpfConfig_default stale_node.
Lemma load_object_clean_witness :
  ∃ f1, is_file f1 "/sys/fs/bpf/fleetos/BOOT_GATE" = false ∧ is_file f1 "/usr/lib/fleetos/fleetos-ebpf" = true.
Proof.
  destruct (load_object_clean EbpfConfig_default stale_node (from_ok (∅, ∅) loaded.1) loaded.2)
    as (f1 & b & Hclean & Hother & _); [apply run_ok; by vm_compute|].
  exists f1. split; [apply Hclean; by vm_compute|]. rewrite Hother; [by vm_compute|by vm_compute].
Defined.

Lemma object_among_pins_witness :
  load_object (F := gset string) (mkEbpf "/sys/fs/bpf/fleetos/BOOT_GATE" "/sys/fs/cgroup" "/sys/fs/bpf/fleetos" 20 []) stale_node
    ≠ (Ok (∅, ∅), ∅).
Proof. apply object_among_pins. by vm_compute. Defined.

Definition started := ebpf_startup (G := Z) EbpfConfig_default stale_node.
Lemma started_ok : ∃ mgr e links ring gate f', started = (Ok (mgr, e, links, ring, gate), f').
Proof.
  destruct started as [[[[[[mgr e] links] ring] gate]|err] f'] eqn:Hrun; [by repeat eexists|].
  assert (is_ok started.1 = true) as Hok by by vm_compute. by rewrite Hrun in Hok.
Qed.
Lemma startup_owns_maps_witness :
  ∃ e e' : gset string * gset string, open_map "POLICY_EXACT missing" "POLICY_EXACT" (HashMap 40 16) e =
    (Err (Ebpf "POLICY_EXACT missing"), e').
Proof.
  destruct started_ok as (mgr & e & links & ring & gate & f' & Hrun).
  destruct (startup_owns_maps EbpfConfig_default stale_node mgr e links ring gate f' Hrun)
    as (_ & _ & _ & _ & _ & Hgone).
  destruct (Hgone "POLICY_EXACT missing" "POLICY_EXACT" (HashMap 40 16)) as [e' He]; [by repeat constructor|].
  exists e, e'. exact He.
Defined.
