(* ===== verification/Shutdown.v ===== *)
(** The end of [main] (src/main.rs, phases 13 and 14): the tasks it spawned as
    jobs, the shutdown signal, the join, and what comes after it. *)
From S2P Require Import Prelude Errors Core Store Retry Watch Tasks.
From S2P Require AgentTasks FlowEvents Attest VsockServer Wiring WatchLoops Routes Policy Pods Probes PodEvents Counters.
From S2P Require Degraded Secrets Keystore Volumes Workloads.

(** ** Jobs: the two shapes of a spawned task *)

(** A select loop over its timer and the shutdown signal, and the consumer of a
    watch stream, which does not look at the signal. *)
Inductive job :=
| SelectLoop {St I O E : Type} (tick : I → M E St unit) (at_shutdown : St → St) (other : O → St → St) (t : task_state E * St)
| WatchLoop {U St : Type} (step : watch_state → answer U → option (watch_state * list (output U)))
    (handle : U → St → St) (w : watch_state) (s : St).

(** The next state of a job: the loop wakes up, to the signal only once it was
    sent; the stream gets an answer. *)
Definition job_next (signalled : bool) (j : job) : job → Prop :=
  match j with
  | @SelectLoop St Inp Op Er tick at_shutdown other t => λ j', ∃ w : wake Inp Op,
      (∀ b, w = Changed b → b = true ∧ signalled = true) ∧
      j' = SelectLoop tick at_shutdown other (task_step tick at_shutdown other t w)
  | @WatchLoop U St step handle w s => λ j', ∃ a w' out,
      step w a = Some (w', out) ∧ j' = WatchLoop step handle w' (foldl (λ s u, handle u s) s (items out))
  end.

(** Its handle is ready: the loop returned, or the stream has nothing more to
    give whatever the control plane answers. *)
Definition job_finished (j : job) : Prop :=
  match j with
  | @SelectLoop St Inp Op Er _ _ _ t => t.1 ≠ Running
  | @WatchLoop U St step _ w _ => ∀ a, step w a = None
  end.

(** A watch whose generator can always go on. *)
Definition endless (j : job) : Prop :=
  match j with
  | @SelectLoop _ _ _ _ _ _ _ _ => False
  | @WatchLoop U St step _ _ _ => ∀ w, ∃ a w' out, step w a = Some (w', out)
  end.
Definition is_loop (j : job) : bool := match j with SelectLoop _ _ _ _ => true | WatchLoop _ _ _ _ => false end.

Lemma endless_not_finished j : endless j → ¬ job_finished j.
Proof. destruct j as [|U St step h w s]; [done|]. intros He Hf. destruct (He w) as (a & w' & out & Ha). by rewrite Hf in Ha. Qed.
Lemma endless_next b j j' : job_next b j j' → endless j → endless j'.
Proof. destruct j as [|U St step h w s]; [done|]. by intros (a & w' & out & _ & ->). Qed.
Lemma loop_next b j j' : job_next b j j' → is_loop j' = is_loop j.
Proof. destruct j as [St Inp Op Er tick sd o t|U St step h w s]; [by intros (w & _ & ->)|by intros (a & w' & out & _ & ->)]. Qed.
(** A loop that gets the signal has returned. *)
Lemma loop_stops j : is_loop j = true → ∃ j', job_next true j j' ∧ is_loop j' = true ∧ job_finished j'.
Proof.
  destruct j as [St Inp Op Er tick sd o t|]; [|done]. intros _.
  exists (SelectLoop tick sd o (task_step tick sd o t (Changed true))). split; [|split; [done|]].
  - exists (Changed true). split; [|done]. by intros b [= <-].
  - by destruct t as [[] s].
Qed.
Lemma finished_next b j j' : job_next b j j' → is_loop j = true → job_finished j → job_finished j'.
Proof. destruct j as [St Inp Op Er tick sd o [st s]|]; [|done]. intros (w & _ & ->) _ Hf. by destruct w, st. Qed.

(** ** [main] from the signal on *)

(** The tasks [main] spawns, in its order. *)
Inductive task := TVsock | TProbe | TPodEvents | TStatus | TFlow | TDelegation | TCounters | TSag | TSchedule | TEvents | TRoutes.
#[export] Instance task_eq_dec : EqDecision task.
Proof. solve_decision. Defined.
Definition all_tasks : list task :=
  [TVsock; TProbe; TPodEvents; TStatus; TFlow; TDelegation; TCounters; TSag; TSchedule; TEvents; TRoutes].
Definition is_watch (t : task) : bool :=
  match t with TSag | TSchedule | TEvents | TRoutes => true | _ => false end.

(** [tokio::join!]: the handles of all tasks but the key refresh, which main
    does not keep. *)
Definition joined_handles : list task :=
  [TVsock; TStatus; TFlow; TPodEvents; TCounters; TSag; TSchedule; TEvents; TRoutes; TProbe].

Inductive main_at :=
| Waiting                                 (** at [ctrl_c().await] *)
| Joining
| Detaching
| Flushing
| Returned (r : result string unit).      (** the boxed error is its text *)

(** [shutdown_tx.send(true)] is the first thing after the signal. *)
Definition signalled (at_ : main_at) : bool := match at_ with Waiting => false | _ => true end.

Section main.
Context {B K : Type} `{Fjall B K} {Eb : Type}.
Context (storage : Storage K).

(** [EbpfManager::shutdown] only logs. *)
Definition EbpfManager_shutdown (e : Eb) : Eb := e.

(** The disk under the store, and the eBPF object. *)
Record agent := mkAgent { at_ : main_at; jobs : task → job; disk : B; ebpf : Eb }.
Definition set_job (t : task) (j : job) (f : task → job) : task → job := λ t', if decide (t' = t) then j else f t'.

(** While main waits, the tasks run; once it returned the runtime drops them. *)
Inductive main_step (handles : list task) : agent → agent → Prop :=
| main_job a t j :
    (∀ r, a.(at_) ≠ Returned r) →
    job_next (signalled a.(at_)) (a.(jobs) t) j →
    main_step handles a (mkAgent a.(at_) (set_job t j a.(jobs)) a.(disk) a.(ebpf))
| main_signal js d e : main_step handles (mkAgent Waiting js d e) (mkAgent Joining js d e)
| main_no_signal js d e msg : main_step handles (mkAgent Waiting js d e) (mkAgent (Returned (Err msg)) js d e)
| main_joined js d e :
    (∀ t, t ∈ handles → job_finished (js t)) →
    main_step handles (mkAgent Joining js d e) (mkAgent Detaching js d e)
| main_detach js d e :
    main_step handles (mkAgent Detaching js d e) (mkAgent Flushing js d (EbpfManager_shutdown e))
| main_flush js d e r d' :
    Storage_flush storage d = (r, d') →
    main_step handles (mkAgent Flushing js d e) (mkAgent (Returned (map_err error_to_string r)) js d' e).

(** ** Where it gets *)

(** [main] has not come past the join: nothing is detached or flushed. *)
Definition before_detach (a0 a : agent) : Prop :=
  match a.(at_) with
  | Waiting | Joining => True
  | Returned (Err _) => True
  | _ => False
  end ∧ a.(disk) = a0.(disk) ∧ a.(ebpf) = a0.(ebpf).

Lemma set_job_at t j f : set_job t j f t = j.
Proof. unfold set_job. by rewrite decide_True. Qed.
Lemma set_job_ne t t' j f : t' ≠ t → set_job t j f t' = f t'.
Proof. intros. unfold set_job. by rewrite decide_False. Qed.


(** One endless job among the joined ones keeps [main] in the join for good. *)
Lemma endless_blocks handles t a0 a :
  t ∈ handles → endless (a0.(jobs) t) → a0.(at_) = Waiting ∨ a0.(at_) = Joining →
  rtc (main_step handles) a0 a → before_detach a0 a ∧ endless (a.(jobs) t).
Proof.
  intros Hin Hend Hat. revert a. apply (rtc_ind_r (λ a, before_detach a0 a ∧ endless (a.(jobs) t))).
  { split; [|done]. unfold before_detach. by destruct Hat as [-> | ->]. }
  intros a1 a _ Hstep [(Hb & Hd & He) Hend1].
  destruct Hstep as [a1 t' j Hrun Hnext|js d e|js d e msg|js d e Hf|js d e|js d e r d' Hf]; cbn in *; try done.
  - split; [done|]. cbn. destruct (decide (t' = t)) as [->|Hne]; [|by rewrite set_job_ne].
    rewrite set_job_at. by eapply endless_next.
  - by apply endless_not_finished in Hend1; destruct Hend1; apply Hf.
Qed.

(** A joined loop that has not returned yet can: it sees the signal. *)
Lemma stop_loops handles js d e (ts : list task) :
  (∀ t, t ∈ ts → is_loop (js t) = true) →
  ∃ js', rtc (main_step handles) (mkAgent Joining js d e) (mkAgent Joining js' d e) ∧
    (∀ t, is_loop (js' t) = is_loop (js t)) ∧ (∀ t, t ∈ ts → job_finished (js' t)).
Proof.
  induction ts as [|t ts IH]; intros Hloops.
  { exists js. split; [apply rtc_refl|]. split; [done|]. by intros t ?%not_elem_of_nil. }
  destruct IH as (js1 & Hrun & Hsame & Hfin); [intros t' Ht; apply Hloops; by right|].
  assert (is_loop (js1 t) = true) as Hl by (rewrite Hsame; apply Hloops; by left).
  destruct (loop_stops _ Hl) as (j & Hnext & Hj & Hf).
  exists (set_job t j js1). split; [|split].
  - eapply rtc_r; [exact Hrun|]. by apply (main_job handles (mkAgent Joining js1 d e)).
  - intros t'. destruct (decide (t' = t)) as [->|Hne]; [by rewrite set_job_at, <-Hsame, Hl|by rewrite set_job_ne].
  - intros t' [->|Ht]%elem_of_cons; [by rewrite set_job_at|].
    destruct (decide (t' = t)) as [->|Hne]; [by rewrite set_job_at|]. rewrite set_job_ne by done. by apply Hfin.
Qed.

(** Joining only select loops, [main] gets through: it detaches, flushes and
    returns what the flush gave. *)
Lemma loops_complete handles js d e :
  (∀ t, t ∈ handles → is_loop (js t) = true) →
  ∃ js', rtc (main_step handles) (mkAgent Joining js d e)
    (mkAgent (Returned (map_err error_to_string (Storage_flush storage d).1)) js' (Storage_flush storage d).2 e).
Proof.
  intros Hl. destruct (stop_loops handles js d e handles Hl) as (js' & Hrun & _ & Hf). exists js'.
  etrans; [exact Hrun|]. eapply rtc_l; [by apply main_joined|]. eapply rtc_l; [apply main_detach|].
  apply rtc_once, main_flush. by destruct (Storage_flush storage d).
Qed.
End main.
Arguments agent : clear implicits.

(** ** The agent's tasks *)

Section agent.
Context {B K : Type} `{Fjall B K} {Eb : Type} (storage : Storage K).
Context `{FleetCore} {OS : HashOrder string} {OZ : HashOrder Z} {OI : HashOrder SpiffeId} {OB : HashOrder bytes}.
(** the attestation server *)
Context {X : Type} `{Attest.ByteStream X} {Y : Type} `{VsockServer.Sockets Y} {W : Type} `{!Attest.KeyGen W}.
Context `{!Attest.VsockMsg Attest.VsockAttestationChallenge} `{!Attest.VsockMsg Attest.VsockAttestationProof}
        `{!Attest.VsockMsg Attest.AgentAttestResult} `{!Attest.VsockMsg Attest.WorkloadConfig}.
Context (sign_svid_delegated : Degraded.DelegatedSigningKey → bytes → Z → Z → result string bytes).
Context (PROTOCOL_VERSION MAX_MESSAGE_BYTES : Z) (production : bool).
(** the probe loop, the reporters and the drain loop *)
Context (run_probe : Probes.ProbeKind → Z → Z → bool) (loop_cfg : Probes.ProbeLoopConfig).
Context {Ev C C2 : Type} (report_pod_events : list PodEvents.PodEvent → M string Ev unit).
Context (report_workload_status : Pods.WorkloadStatusReport → M string C unit).
Context (report_pod_metrics : Counters.PodMetrics → M string C2 unit) (interval_secs : Z).
Context {N : Type} `{FlowEvents.OtlpProvider N} (event_size : nat) (from_bytes : bytes → FlowEvents.FlowEvent).
(** the key refresh *)
Context (wire_from_bytes : bytes → result string Degraded.DelegatedSigningKey) {S : Type}.
Context (request_delegated_key : Degraded.DelegatedKeyRequest → M AgentError S Degraded.DelegatedKeyResponse).
Context (node_svid_id : SpiffeId) (ttl_secs : Z).
(** the watch tasks *)
Context `{Policy.PolicyCompiler} {T : Type} `{!KernelMap T bytes bytes} (trust_domain node_name : string).
Context {Ms PodSpec : Type} `{!Pods.FrameReconciler Ms PodSpec}.
Context {D L : Type} `{!KernelMap D Z bytes} `{!KernelMap L bytes Z}.
Context {Ws Cl F : Type} `{Keystore.Sealing Ws} `{ControlClient Cl} `{FileSystem F} `{Keyspace K}.
Context (rpc : Channel → string → Z → M Status Cl Secrets.ProtoSealedSecret)
        (endpoint : option (Keystore.TpmEndpoint (W := Ws))).

(** What each task owns or shares when it is spawned. *)
Record spawned := mkSpawned {
  sp_sockets : Y;
  sp_server : VsockServer.ServerTask (X := X) (W := W);
  sp_probes : AgentTasks.ProbeLoop Ev;
  sp_events : PodEvents.reporters Ev;
  sp_status : C;
  sp_flow : FlowEvents.FlowEventsDrainLoop N;
  sp_keys : S * gmap SpiffeId Degraded.DelegatedKeyEntry;
  sp_counters : C2 * Counters.CountersReporter;
  sp_sag : (Policy.PolicySyncState * (T * T)) * gmap string Pods.Pod;
  sp_manager : Ms;
  sp_secrets : Secrets.SecretsHandler (K := K) (W := Ws) (S := Cl) (F := F);
  sp_routes : Wiring.RoutesWatch (D := D) (L := L);
}.

(** The accept loop ends at once without a listening socket. *)
Definition vsock_start (y : Y) : task_state AgentError :=
  match (VsockServer.vsock_listen y).1 with Ok _ => Running | Err e => Ended e end.

Definition agent_jobs (sp : spawned) (t : task) : job :=
  match t with
  | TVsock => SelectLoop VsockServer.accept_tick id
      (VsockServer.run_server_op sign_svid_delegated PROTOCOL_VERSION MAX_MESSAGE_BYTES production)
      (vsock_start sp.(sp_sockets), sp.(sp_server))
  | TProbe => SelectLoop (AgentTasks.probe_loop_tick run_probe loop_cfg report_pod_events) id
      (λ f : AgentTasks.ProbeLoop Ev → AgentTasks.ProbeLoop Ev, f) (Running, sp.(sp_probes))
  | TPodEvents => SelectLoop (AgentTasks.flush_tick report_pod_events) (AgentTasks.loop_flush report_pod_events)
      (AgentTasks.record_meanwhile report_pod_events) (Running, sp.(sp_events))
  | TStatus => SelectLoop (O := unit) (AgentTasks.status_tick report_workload_status) id (λ _, id) (Running, sp.(sp_status))
  | TFlow => SelectLoop (FlowEvents.drain_tick event_size from_bytes) id FlowEvents.push_item (Running, sp.(sp_flow))
  | TDelegation => SelectLoop (AgentTasks.delegation_tick wire_from_bytes request_delegated_key node_svid_id ttl_secs) id
      (λ '(k, i) '(c, m), (c, Degraded.install_key k i m)) (Running, sp.(sp_keys))
  | TCounters => SelectLoop (O := unit) (AgentTasks.counters_tick report_pod_metrics interval_secs) id (λ _, id)
      (Running, sp.(sp_counters))
  | TSag => WatchLoop WatchLoops.watch_sag (λ u s, (Wiring.on_sag_update trust_domain u s).2) watch_init sp.(sp_sag)
  | TSchedule => WatchLoop WatchLoops.watch_schedule WatchLoops.on_schedule_update watch_init sp.(sp_manager)
  | TEvents => WatchLoop watch_events (Secrets.on_event rpc endpoint) watch_init sp.(sp_secrets)
  | TRoutes => WatchLoop WatchLoops.watch_routes (λ u s, (Wiring.on_route_update trust_domain node_name u s).2)
      watch_init sp.(sp_routes)
  end.

(** *** What the shutdown waits for *)

(** A watch stream always has a next step: a channel that fails, or a close. *)
Lemma watch_endless {U St} (requested : watch_state → Z) (on_message : Z → U → Z * bool) (handle : U → St → St) w s :
  endless (WatchLoop (watch_loop_step requested on_message) handle w s).
Proof.
  intros w'. unfold watch_loop_step. destruct (at_phase w').
  - by exists (ChannelFailed NoSvid); eexists _, _.
  - by exists Closed; eexists _, _.
Qed.
Lemma agent_watch sp t : is_watch t = true → endless (agent_jobs sp t).
Proof. destruct t; try done; intros _; apply watch_endless. Qed.
Lemma agent_loop sp t : is_loop (agent_jobs sp t) = negb (is_watch t).
Proof. by destruct t. Qed.

Abbreviation step := (main_step (Eb := Eb) storage).

(** What a job is does not change. *)
Lemma jobs_stay handles a0 a t :
  rtc (step handles) a0 a →
  is_loop (a.(jobs) t) = is_loop (a0.(jobs) t) ∧ (endless (a0.(jobs) t) → endless (a.(jobs) t)).
Proof.
  intros Hrun. revert a Hrun. apply rtc_ind_r; [done|]. intros a1 a _ Hstep [Hl He].
  destruct Hstep as [a1 t' j Hr Hn| | | | |]; try done. cbn [jobs].
  destruct (decide (t = t')) as [<-|Hne]; [|by rewrite set_job_ne]. rewrite set_job_at. split.
  - rewrite <-Hl. by eapply loop_next.
  - intros Hend0. eapply endless_next; [exact Hn|]. by apply He.
Qed.

(** Once the signal came, [main] can return exactly when it waits for none of
    the watch tasks. *)
Theorem join_completes handles sp d e :
  (∃ a r, rtc (step handles) (mkAgent Joining (agent_jobs sp) d e) a ∧ a.(at_) = Returned r) ↔
  ∀ t, t ∈ handles → is_watch t = false.
Proof.
  split.
  - intros (a & r & Hrun & Hat) t Ht. destruct (is_watch t) eqn:Hw; [|done]. exfalso.
    revert r Hat. enough (∀ r, a.(at_) ≠ Returned r) as Hne by (intros r Hr; by apply (Hne r)).
    assert (a.(at_) = Joining) as ->; [|done].
    assert (endless (agent_jobs sp t)) as Hend by by apply agent_watch.
    enough (a.(at_) = Joining ∧ endless (a.(jobs) t)) by tauto.
    revert a Hrun. apply (rtc_ind_r (λ a, a.(at_) = Joining ∧ endless (a.(jobs) t))); [done|].
    intros a1 a _ Hstep [Hat1 Hend1].
    destruct Hstep as [a1 t' j Hr Hn|js d1 e1|js d1 e1 msg|js d1 e1 Hf|js d1 e1|js d1 e1 r d' Hf]; cbn in *; try done.
    + split; [done|]. destruct (decide (t = t')) as [<-|Hne]; [|by rewrite set_job_ne]. rewrite set_job_at.
      by eapply endless_next.
    + by apply endless_not_finished in Hend1; destruct Hend1; apply Hf.
  - intros Hno. destruct (loops_complete (Eb := Eb) storage handles (agent_jobs sp) d e) as (js & Hrun).
    { intros t Ht. by rewrite agent_loop, Hno. }
    by eexists _, _.
Qed.

(** C27: An agent never shuts down.  After Ctrl-C all its select loops
    return, yet [main] waits in the join for the four watch tasks, whose streams
    never end and which do not look at the signal: the eBPF programs are never
    detached, the store is never flushed, and [main] never returns [Ok]. *)
Theorem shutdown_never_completes sp d e a :
  let a0 := mkAgent Waiting (agent_jobs sp) d e in
  rtc (step joined_handles) a0 a →
  before_detach a0 a ∧
  (a.(at_) = Joining → ∃ js, rtc (step joined_handles) a (mkAgent Joining js d e) ∧
     ∀ t, if is_watch t then ¬ job_finished (js t) else job_finished (js t)).
Proof.
  intros a0 Hrun. assert (endless (a0.(jobs) TSag)) as Hend by by apply agent_watch.
  destruct (endless_blocks storage joined_handles TSag a0 a) as [Hb _]; [by apply (bool_decide_unpack _); vm_compute|done|by left|done|].
  split; [done|]. intros Hat. destruct a as [at' js d' e'], Hb as (_ & Hd & He). cbn in Hat, Hd, He. subst at' d' e'.
  destruct (stop_loops storage joined_handles js d e (filter (λ t, is_watch t = false) all_tasks)) as (js' & Hstop & Hsame & Hfin).
  { intros t [Ht _]%list_elem_of_filter. destruct (jobs_stay _ _ _ t Hrun) as [Hl _]. cbn in Hl.
    by rewrite Hl, agent_loop, Ht. }
  exists js'. split; [done|]. intros t. destruct (is_watch t) eqn:Hw.
  - apply endless_not_finished. assert (rtc (step joined_handles) a0 (mkAgent Joining js' d e)) as Hall by (by etrans).
    destruct (jobs_stay _ _ _ t Hall) as [_ He]. by apply He, agent_watch.
  - apply Hfin, list_elem_of_filter. split; [done|]. by destruct t; apply (bool_decide_unpack _); vm_compute.
Qed.
End agent.

(** ** Witness: an agent on a host whose vsock port is taken *)

#[local] Existing Instance Policy.sample_compiler.
#[local] Existing Instances sample_core VsockServer.table_sockets Keystore.toy_sealing.
#[local] Instance no_collector : FlowEvents.OtlpProvider unit := {
  FlowEvents.hex_encode _ := "";
  FlowEvents.emit _ n := n;
  FlowEvents.force_flush := fail "unavailable";
}.
Import Volumes Attest Workloads Workloads.Sample.
#[local] Instance sample_manager : Pods.FrameReconciler Node PodSpec := WatchLoops.node_manager.

Definition sample_spawned : spawned (K := gmap bytes bytes) (Ws := nat) (Cl := Z) (X := bytes) (W := nat) (S := unit)
    (C := unit) (C2 := unit) (Ev := unit) :=
  mkSpawned ({[3]} : gset Z) (VsockServer.mkServerTask Attest.VsockAttestServer_new Attest.node_builder O [])
    (AgentTasks.mkLoop ∅ ∅ None) (PodEvents.reporters_new "n" tt 10) tt (FlowEvents.mkDrain [] (Some tt))
    (tt, ∅) (tt, Counters.mkReporter ∅ ∅) ((Policy.PolicySyncState_new, Policy.pmaps0), ∅)
    (Workloads.Sample.node0 None) Secrets.handler0 WatchLoops.routes0.
Definition sample_jobs : task → job :=
  agent_jobs Degraded.sample_sign 1 4096 true (λ _ _ _, true) Probes.ProbeLoopConfig_default (λ _, mret tt) (λ _, mret tt)
    (λ _, mret tt) 30 2 FlowEvents.sample_cast (λ _, Err "none") (λ _, fail NoSvid) (spiffe_new "td" "system" kind_node "n")
    3600 "td" "n" (Secrets.serve Secrets.secret5) None sample_spawned.

Lemma shutdown_never_completes_witness :
  ∃ js, rtc (main_step (Eb := unit) Secrets.handler0.(Secrets.storage) joined_handles)
      (mkAgent Joining sample_jobs (∅ : gmap string (gmap bytes bytes)) tt) (mkAgent Joining js ∅ tt) ∧
    job_finished (js TVsock) ∧ ¬ job_finished (js TSchedule).
Proof.
  set (a1 := mkAgent Joining sample_jobs (∅ : gmap string (gmap bytes bytes)) tt).
  assert (rtc (main_step Secrets.handler0.(Secrets.storage) joined_handles) (mkAgent Waiting sample_jobs ∅ tt) a1) as Hsig
    by apply rtc_once, main_signal.
  destruct (shutdown_never_completes _ _ _ _ _ _ _ _ _ _ _ _ _ _ _ _ _ _ _ _ _ sample_spawned ∅ tt a1 Hsig) as [_ Hjoin].
  destruct (Hjoin eq_refl) as (js & Hrun & Hjs). exists js. split; [exact Hrun|].
  split; [exact (Hjs TVsock)|exact (Hjs TSchedule)].
Defined.
