(* ===== verification/Main.v ===== *)
(** [main] (src/main.rs) up to the signal: its phases composed in their order,
    from the configuration to the eleven tasks with what each is given.
    [Shutdown] takes it from there. *)
From S2P Require Import Prelude Errors Store Core Config Svid Keystore Retry Client Attest Join Startup NetGuard Loader.
From S2P Require Import Counters Pods Probes Containerd Volumes Netns IpAllocator MicroVm Workloads Assembly Shutdown.
From S2P Require Node NodeInvariants NodeAttest.
From S2P Require AgentTasks FlowEvents VsockServer Wiring WatchLoops Routes Policy PodEvents Degraded Secrets.

Section main.
(** the database; the node's world and the network; the eBPF loader *)
Context {B K : Type} `{Fjall B K} `{Keyspace K}.
Context {Nd N : Type} `{Sealing Nd} `{!TpmManager Nd} `{Tonic N} `{!JoinServices N}.
Context `{FleetCore} `{!KeyGen Nd} `{ChainCodec} {OS : HashOrder string} {OZ : HashOrder Z}.
Context {Fd E Lg : Type} `{Directory Fd} `{BpfObject Fd E} `{Aya E Lg}.
(** what the workload manager drives *)
Context {D F W V C : Type} `{ContainerdServices D} `{FileSystem F} `{Directories F} `{Shell W} `{Clock C}.
(** the kernel maps behind the typed handles *)
Context {R T PT RD RL : Type} `{!KernelMap R Z bytes} `{!KernelMap T Z (list PodNetCounters)} `{Policy.PolicyCompiler}.
Context (identity_map : TypedMap → R) (counters_map : TypedMap → T) (policy_map : TypedMap → PT)
        (route_map : TypedMap → RD) (locals_map : TypedMap → RL) (gate_map : TypedMap → Lg).
(** the arguments of [AgentConfig::load] and of the join *)
Context (show_f64 : f64 → string) (toml_parse : string → result string AgentConfig)
        (read_to_string : string → result string string).
Context (activation_proof : bytes → bytes → bytes) (endpoint_of : Config.TpmEndpoint → TpmEndpoint (W := Nd)).
(** the OTLP exporter *)
Context {X : Type} `{FlowEvents.OtlpProvider X} (build_exporter : string → result string X).
(** the vsock connections *)
Context {Y V1 : Type}.

#[local] Abbreviation Client := (ControlPlaneClient (K := K) (W := Nd) (N := N)).
#[local] Abbreviation Manager := (WorkloadManager (D := D) (F := F) (W := W) (V := V)
  (G := VmNetGuardAdapter (E := E) (G := Lg)) (R := R) (A := VsockAttestServer) (T := T) (S := Client) (Ev := Conn) (C := C)).

(** ** Spawning *)

(** The getters of generated clients: a client is its channel. *)
Definition workload_status_client : M AgentError Client Conn := client_get_channel.
Definition pod_event_client : M AgentError Client Conn := client_get_channel.

(** The client main has, and the tasks it spawned so far. *)
Definition spawn (t : task) : M AgentError (Client * list task) unit := modify (λ '(c, ts), (c, ts ++ [t])).

(** Without an endpoint, or when the exporter cannot be built, flows are dropped. *)
Definition flow_exporter (config : AgentConfig) : option X :=
  let endpoint := config.(observability).(otlp_endpoint) in
  if decide (endpoint = "") then None else result_ok (FlowEvents.FlowOtlpExporter_new build_exporter endpoint).

(** From the first spawn to the last: the channels of the pod event, status and
    counters reporters. *)
Definition spawn_tasks : M AgentError (Client * list task) (Conn * Conn * Conn) :=
  _ ← spawn TVsock;
  pod_events ← on_fst pod_event_client;
  _ ← spawn TProbe;
  _ ← spawn TPodEvents;
  status ← on_fst workload_status_client;
  _ ← spawn TStatus;
  _ ← spawn TFlow;
  _ ← spawn TDelegation;
  counters ← on_fst workload_status_client;
  _ ← spawn TCounters;
  _ ← spawn TSag;
  _ ← spawn TSchedule;
  _ ← spawn TEvents;
  _ ← spawn TRoutes;
  mret (pod_events, status, counters).

(** ** The phases *)

(** What the phases change: the disk, the node, the network, the directories of
    the loader; and the keyspaces once they are open. *)
Record world := mkWorld { w_disk : B; w_node : Nd; w_net : N; w_dirs : Fd; w_store : option (Storage K) }.
#[local] Abbreviation MM := (M Join.stop world).

Definition open_store (config : AgentConfig) : MM (Storage K) := λ w,
  let '(r, b) := Storage_open config.(fjall_path) w.(w_disk) in
  (failing r, mkWorld b w.(w_node) w.(w_net) w.(w_dirs) (result_ok r)).

(** Phases 4 and 5. *)
Definition identify (production : bool) (fuel : nat) (config : AgentConfig) (st : Storage K) : MM (Client * Conn) := λ w,
  let '(r, ((st', nd), n)) :=
    start activation_proof read_to_string endpoint_of production fuel config ((st, w.(w_node)), w.(w_net)) in
  (r, mkWorld w.(w_disk) nd n w.(w_dirs) (Some st')).

(** Phase 6, and the gate of the guard. *)
Definition load_ebpf (config : AgentConfig) : MM (EbpfManager * E * list AttachedLink * TypedMap * TypedMap) := λ w,
  let '(r, d) := ebpf_startup config.(Config.ebpf) w.(w_dirs) in
  (failing r, mkWorld w.(w_disk) w.(w_node) w.(w_net) d w.(w_store)).

(** The client works on the store, the node and the network. *)
Definition with_client (c : Client) : MM (Client * list task * (Conn * Conn * Conn)) := λ w,
  let '(r, (c, ts)) := spawn_tasks (c, []) in
  ((λ chs, (c, ts, chs)) <$> failing r, mkWorld w.(w_disk) c.(keystore_world) c.(net) w.(w_dirs) (Some c.(client_storage))).

(** What the agent runs with: the settled configuration of the workload manager,
    the tasks in the order they were spawned, and the state handed to each. *)
Record Running := mkRunning {
  settled : ManagerConfig;
  links : list AttachedLink;
  tasks : list task;
  handed : spawned (K := K) (X := V1) (Y := Y) (W := Nd) (Ev := Conn) (C := Conn) (C2 := Conn) (N := X) (S := Client) (T := PT)
    (Ms := Manager) (D := RD) (L := RL) (Ws := Nd) (Cl := Client) (F := F);
}.

(** The processes and devices main talks to from here on, and the CPUs. *)
Context (daemon : D) (node_files : F) (node_shell : W) (node_vms : V) (node_clock : C) (cpus : nat) (sockets : Y).
(** the node id before [with_delegation] sets it, which nothing reads *)
Context (unset : SpiffeId).

Definition agent_parts (config : AgentConfig) (mgr : EbpfManager) (e : E) (gate : TypedMap) (c : Client) : Result (ManagerConfig * Manager) :=
  agent_manager config unset daemon node_files node_shell node_vms (mkAdapter e (Some (gate_map gate)) ∅)
    (identity_map mgr.(Loader.src_identity)) VsockAttestServer_new (counters_map mgr.(Loader.pod_net_counters)) c node_clock cpus.

Definition main (production : bool) (fuel : nat) (path : string) : MM Running :=
  config ← lift (failing (Config.load show_f64 toml_parse read_to_string path));
  st ← open_store config;
  '(c, _) ← identify production fuel config st;
  '(mgr, e, links, _, gate) ← load_ebpf config;
  '(cfg, m) ← lift (failing (agent_parts config mgr e gate c));
  '(c, ts, (pod_events, status, counters)) ← with_client c;
  let reporter := PodEvents.PodEventReporter_new config.(Config.node).(Config.name) pod_events 100 in
  mret (mkRunning cfg links ts (mkSpawned
    sockets
    (VsockServer.mkServerTask VsockAttestServer_new
       (mkBuilder config.(Config.node).(Config.trust_domain) [] ∅ config.(Config.svid).(workload_ttl_secs)) c.(keystore_world) [])
    (AgentTasks.mkLoop ∅ ∅ (Some reporter))
    (PodEvents.mkReporters reporter ∅ [])
    status
    (FlowEvents.mkDrain [] (flow_exporter config))
    (c, ∅)
    (counters, Counters.mkReporter ∅ ∅)
    ((Policy.PolicySyncState_new, (policy_map mgr.(Loader.policy_exact), policy_map mgr.(Loader.policy_wildcard))), ∅)
    m
    (Secrets.mkHandler c.(client_storage) c.(keystore_world) c node_files c.(svid_state) ∅)
    (Wiring.mkRoutesWatch "" [] Routes.RouteSyncState_new (route_map mgr.(Loader.dummy_ip_route), locals_map mgr.(Loader.local_workloads)) ∅))).

(** The shared state of these tasks as the running node of Node.v. *)
Definition started_node (r : Running) :=
  Node.mkNode r.(handed).(sp_manager) [] [] []
    (r.(handed).(sp_routes).(Wiring.route_state), r.(handed).(sp_routes).(Wiring.route_maps))
    r.(handed).(sp_sag).1 r.(handed).(sp_routes).(Wiring.builder_routes) r.(handed).(sp_events).(PodEvents.shared).

(** ** What a start leads to *)

Implicit Types (c : Client) (w : world).

Lemma get_channel_svid c : (client_get_channel c).2.(svid_state) = c.(svid_state).
Proof.
  unfold client_get_channel. set (c1 := if decide _ then _ else c).
  assert (c1.(svid_state) = c.(svid_state)) as <- by (subst c1; by case_decide).
  destruct (Client.channel c1); [done|]. unfold mbind, M_bind, client_load_key, lift, client_connect, cache_channel. simpl.
  destruct (load_svid_private_key _ _) as [[[key|]|] [st nd]]; simpl; [|done..].
  by destruct (build_mtls_channel _ _ _ _ _) as [[ch|] n].
Qed.

(** The channel of the start is cached: asking for it again changes nothing. *)
Lemma start_caches production fuel config s c ch s' :
  start activation_proof read_to_string endpoint_of production fuel config s = (Ok (c, ch), s') →
  client_get_channel c = (Ok ch, c) ∧ s' = ((c.(client_storage), c.(keystore_world)), c.(net)).
Proof.
  unfold start. intros (svid & s1 & _ & (pem & s2 & _ & Hrun)%M_bind_ok)%M_bind_ok.
  destruct s2 as [[st nd] n]. unfold connect_client in Hrun.
  set (c0 := ControlPlaneClient_new _ _ _ _ _ _ _) in Hrun. pose proof (get_channel_svid c0) as Hsvid.
  destruct (client_get_channel c0) as [[ch0|e] c1] eqn:Hget; [|done]. simpl in Hrun. injection Hrun as <- <- <-.
  split; [|done]. cbn in Hsvid. apply get_channel_built in Hget as (Hch & _ & Hlast & _); [|by intros [_ []]].
  apply get_channel_cached; [|done]. rewrite Hlast, Hsvid. apply Z.le_max_r.
Qed.

Lemma spawn_tasks_cached c ch :
  client_get_channel c = (Ok ch, c) → spawn_tasks (c, []) = (Ok (ch, ch, ch), (c, all_tasks)).
Proof.
  intros Hch. unfold spawn_tasks, spawn, workload_status_client, pod_event_client, on_fst, mbind, M_bind, modify.
  simpl. by rewrite !Hch.
Qed.

(** C26: What a start that succeeds leads to.  All eleven tasks are spawned;
    the three reporters hold the very channel that the start verified, no other
    connection having been made; the sync states are older than any frame; and the
    node the tasks share is one that the theorems on Node.v start from: its work
    done, no pod, nothing probed, no delegated key, the whole address pool free, and
    an attestation server that knows no VM yet. *)
Theorem agent_started production fuel path w r w' :
  main production fuel path w = (Ok r, w') →
  r.(tasks) = all_tasks ∧
  (∃ config st b ch st',
     Config.load show_f64 toml_parse read_to_string path = Ok config ∧
     Storage_open config.(fjall_path) w.(w_disk) = (Ok st, b) ∧
     start activation_proof read_to_string endpoint_of production fuel config ((st, w.(w_node)), w.(w_net)) =
       (Ok (r.(handed).(sp_secrets).(Secrets.control_client), ch), ((st', w'.(w_node)), w'.(w_net))) ∧
     w'.(w_store) = Some st' ∧
     r.(handed).(sp_events).(PodEvents.shared).(PodEvents.client) = ch ∧ r.(handed).(sp_status) = ch ∧ r.(handed).(sp_counters).1 = ch) ∧
  Policy.current_version r.(handed).(sp_sag).1.1 = 0 ∧
  Routes.current_version r.(handed).(sp_routes).(Wiring.route_state) = 0 ∧
  let n := started_node r in
  NodeInvariants.node_wf n ∧ n.(Node.todo) = [] ∧ Node.n_pods n = ∅ ∧
  (wf n.(Node.manager).(Workloads.ip_allocator) ∧ leases n.(Node.manager) = ∅ ∧ n.(Node.manager).(pod_source_ips) = ∅) ∧
  (∀ s keys, n.(Node.manager).(delegation) = Some (s, keys) → keys = ∅) ∧
  n.(Node.manager).(attestation) = Some VsockAttestServer_new ∧
  ∀ (file_read : F → string → result string bytes) blake3,
    NodeAttest.attested file_read blake3 r.(settled) n.(Node.todo) n.(Node.manager).
Proof.
  unfold main. intros (config & w0 & [Hconfig%failing_ok ->]%lift_ok & Hrun)%M_bind_ok.
  apply M_bind_ok in Hrun as (st & w1 & Hst & Hrun). unfold open_store in Hst.
  destruct (Storage_open _ _) as [r0 b] eqn:Hopen. injection Hst as ->%failing_ok <-.
  apply M_bind_ok in Hrun as ([c ch] & w2 & Hid & Hrun). unfold identify in Hid. cbn [w_node w_net w_disk w_dirs] in Hid.
  destruct (start _ _ _ _ _ _ _) as [r1 [[st' nd] n]] eqn:Hstart. injection Hid as -> <-.
  apply M_bind_ok in Hrun as ([[[[mgr e] links] ring] gate] & w3 & Hebpf & Hrun). unfold load_ebpf in Hebpf.
  cbn [w_node w_net w_disk w_dirs w_store] in Hebpf. destruct (ebpf_startup _ _) as [r2 d]. injection Hebpf as _ <-.
  apply M_bind_ok in Hrun as ([cfg m] & w4 & [Hm%failing_ok ->]%lift_ok & Hrun).
  apply M_bind_ok in Hrun as ([[c2 ts] [[pe sta] cnt]] & w5 & Hspawn & [= <- <-]). unfold with_client in Hspawn.
  destruct (start_caches _ _ _ _ _ _ _ Hstart) as [Hch Hs]. rewrite (spawn_tasks_cached c ch Hch) in Hspawn.
  injection Hs as -> -> ->. injection Hspawn as <- <- <- <- <- <-. cbn. split; [done|].
  apply agent_assembled in Hm as ((Hpods & Hips & _ & Hprobes & Hdel) & (Hwf & Hno) & (_ & Hreg & Hat & _) & _ & _ & Hcid & _).
  split; [by exists config, st, b, ch, c.(client_storage)|]. do 2 (split; [done|]).
  split; [by apply NodeInvariants.no_pods_wf|]. do 3 (split; [done|]).
  split; [intros s keys; rewrite Hdel; by intros [= _ <-]|]. split; [done|]. intros file_read blake3.
  apply NodeAttest.no_pods_attested; [by rewrite Hcid|by rewrite Hat|by rewrite Hreg|done].
Qed.

(** The order of the phases, on every path of [main]: without a valid
    configuration nothing is touched; the node, the TPM and the network are
    untouched until the store is open; and no pin is removed and no eBPF program
    loaded before the node has an identity and a channel to the control plane. *)
Theorem startup_order production fuel path w res w' :
  main production fuel path w = (res, w') →
  (w' ≠ w → ∃ config, Config.load show_f64 toml_parse read_to_string path = Ok config) ∧
  ((w'.(w_node), w'.(w_net)) ≠ (w.(w_node), w.(w_net)) → ∃ config st b, Storage_open config.(fjall_path) w.(w_disk) = (Ok st, b)) ∧
  (w'.(w_dirs) ≠ w.(w_dirs) → ∃ config st c ch s',
     start activation_proof read_to_string endpoint_of production fuel config ((st, w.(w_node)), w.(w_net)) = (Ok (c, ch), s')).
Proof.
  unfold main. unfold mbind at 1, M_bind at 1, lift at 1.
  destruct (Config.load _ _ _ path) as [config|err] eqn:Hconfig; cbn; [|by intros [= _ <-]].
  unfold mbind at 1, M_bind at 1, open_store.
  destruct (Storage_open _ _) as [[st|err] b] eqn:Hopen; cbn.
  2:{ intros [= _ <-]. cbn. split; [by exists config|done]. }
  unfold mbind at 1, M_bind at 1, identify. cbn [w_node w_net w_disk w_dirs].
  destruct (start _ _ _ _ _ _ _) as [[[c ch]|err] [[st' nd] n]] eqn:Hstart; cbn.
  - intros _. split; [by exists config|]. split; [by exists config, st, b|].
    by exists config, st, c, ch, ((st', nd), n).
  - intros [= _ <-]. cbn. split; [by exists config|]. split; [by exists config, st, b|done].
Qed.
End main.

(** ** Witness: a first boot that joins *)

Import Workloads.Sample.
#[local] Existing Instances sample_core Policy.sample_compiler Loader.sample_dir Loader.sample_object Loader.sample_bpf_aya.
#[local] Instance silent_provider : FlowEvents.OtlpProvider unit := {
  FlowEvents.hex_encode _ := "";
  FlowEvents.emit _ n := n;
  FlowEvents.force_flush := mret tt;
}.

Definition sample_world : world (B := gmap string (gmap bytes bytes)) (K := gmap bytes bytes) (Nd := nat) (N := Z) (Fd := gset string) :=
  mkWorld ∅ O 0 stale_node None.
Definition main_run_with (read_to_string : string → result string string) :=
  main (D := gset string) (F := gmap string bytes) (W := unit) (V := list VmConfig) (C := Z) (V1 := bytes) (Lg := Z)
    (λ _, mkCapmap 4 ∅ : capmap Z bytes) (λ _, mkCapmap 4 ∅ : capmap Z (list PodNetCounters)) (λ _, Policy.pmaps0.1)
    (λ _, mkCapmap 4 ∅ : Routes.routes_map) (λ _, mkCapmap 4 ∅ : Routes.locals_map) (λ _, 0)
    (λ _, "0.75") (λ _, Ok (with_mode Secure)) read_to_string (λ s n, s ++ n) (λ _, tpm_up)
    (λ _ : string, Err "no collector" : result string unit) ∅ ∅ tt [] 0 2 ({[3]} : gset Z) (spiffe_new "" "" kind_node "")
    false 11 "agent.toml" sample_world.
Definition main_run := main_run_with (λ _, Ok "PEM").

Lemma main_run_ok : ∃ r, main_run = (Ok r, main_run.2).
Proof.
  assert (is_ok main_run.1 = true) as Hok by by vm_compute.
  destruct main_run as [[r|err] w']; [by exists r|done].
Qed.

Lemma agent_started_witness :
  ∃ r ch, main_run.1 = Ok r ∧ r.(tasks) = all_tasks ∧ r.(handed).(sp_status) = ch ∧ r.(handed).(sp_counters).1 = ch ∧
    Routes.current_version r.(handed).(sp_routes).(Wiring.route_state) = 0.
Proof.
  destruct main_run_ok as [r Hrun].
  destruct (agent_started _ _ _ _ _ _ _ _ _ _ _ _ _ _ _ _ _ _ _ _ _ _ _ _ _ _ Hrun)
    as (Ht & (config & st & b & ch & st' & _ & _ & _ & _ & _ & Hs & Hc) & _ & Hr & _).
  exists r, ch. split; [by rewrite Hrun|]. exact (conj Ht (conj Hs (conj Hc Hr))).
Defined.

(** The loader's directories changed, so the node had a channel. *)
Lemma startup_order_witness :
  main_run.2.(w_dirs) ≠ stale_node ∧ ∃ config st c ch s',
    start (λ s n, s ++ n) (λ _, Ok "PEM") (λ _, tpm_up) false 11 config ((st, O), 0) = (Ok (c, ch), s').
Proof.
  assert (main_run.2.(w_dirs) ≠ stale_node) as Hd.
  { apply (bool_decide_eq_false_1 (main_run.2.(w_dirs) = stale_node)). vm_compute. reflexivity. }
  split; [exact Hd|].
  destruct main_run_ok as [r Hrun].
  destruct (startup_order _ _ _ _ _ _ _ _ _ _ _ _ _ _ _ _ _ _ _ _ _ _ _ _ _ _ Hrun) as (_ & _ & Hstart).
  exact (Hstart Hd).
Defined.
